(** * finance-dashboard: the CSV bank-statement importer and the budget
    aggregation engine, embedded in Rocq.

    The TypeScript sources are embedded shallowly:
    - [src/utils/pkoImport.ts]  (the CSV importer)       -> [Module PkoImport]
    - [src/pages/BankImport.tsx] (the manual re-mapping)  -> [Module BankImport]
    - [src/utils/currency.ts]   (currency conversion)     -> [Module Currency]
    - [src/utils/advisor.ts]    (aggregation and advice)  -> [Module Advisor]
    - [src/storage/index.ts]    (export / import)         -> [Module Storage]
    - [src/storage/index.ts]    (loading and editing)     -> [Module StorageOps]
    - [src/utils/advisor.ts], [src/pages/Dashboard.tsx]
                                (chart data)              -> [Module Charts]
    - the handlers of the pages that build what is stored -> [Module Pages]

    The JavaScript host is modelled in [Module JS]: a string is its sequence
    of UTF-16 code units, a [number] is an IEEE 754 binary64 value (Rocq's
    primitive [float]), and the built-ins the sources call ([trim], [split],
    [includes], [parseFloat], ...) are written out as functions. *)

From Stdlib Require Import ZArith NArith List Bool String Ascii Lia.
From Stdlib Require Import Floats QArith Qcanon Permutation.
From Stdlib Require DecimalFacts DecimalPos DecimalN.
Import ListNotations.

Set Warnings "-inexact-float,-register-all".
#[local] Open Scope Z_scope.

(* ================================================================== *)
(** * The JavaScript host *)
(* ================================================================== *)

Module JS.

(** ** Strings: sequences of UTF-16 code units *)

Definition jsstring := list N.

Definition ch (a : ascii) : N := N_of_ascii a.
Arguments ch a%_char.

(** The code unit of the double-quote character. *)
Definition QUOTE : N := 34%N.

(** [js] reads a literal of this file (UTF-8 bytes) as the UTF-16 code
    units of the same text, so that the tables below read as in the
    source. *)
Fixpoint utf16_of_utf8 (bs : list N) : jsstring :=
  match bs with
  | [] => []
  | b0 :: r0 =>
    if (b0 <? 128)%N then b0 :: utf16_of_utf8 r0
    else match r0 with
    | [] => [b0]
    | b1 :: r1 =>
      if (b0 <? 224)%N then
        ((b0 mod 32) * 64 + b1 mod 64)%N :: utf16_of_utf8 r1
      else match r1 with
      | [] => [b0; b1]
      | b2 :: r2 =>
        if (b0 <? 240)%N then
          ((b0 mod 16) * 4096 + (b1 mod 64) * 64 + b2 mod 64)%N
            :: utf16_of_utf8 r2
        else match r2 with
        | [] => [b0; b1; b2]
        | b3 :: r3 =>
          let cp := ((b0 mod 8) * 262144 + (b1 mod 64) * 4096
                     + (b2 mod 64) * 64 + b3 mod 64 - 65536)%N in
          (55296 + cp / 1024)%N :: (56320 + cp mod 1024)%N
            :: utf16_of_utf8 r3
        end
      end
    end
  end.

Definition js (s : string) : jsstring :=
  utf16_of_utf8 (map N_of_ascii (list_ascii_of_string s)).

(** A literal in which the apostrophe stands for the double quote. *)
Definition jsq (s : string) : jsstring :=
  map (fun c => if (c =? ch "'")%N then QUOTE else c) (js s).

Definition eqb (a b : jsstring) : bool :=
  if list_eq_dec N.eq_dec a b then true else false.

(** A string is truthy unless it is empty. *)
Definition truthy (s : jsstring) : bool :=
  match s with [] => false | _ => true end.

(** [a || b] on strings, where [a] may be [undefined] ([None]). *)
Definition orElse (a : option jsstring) (b : jsstring) : jsstring :=
  match a with
  | Some s => if truthy s then s else b
  | None => b
  end.

(** [a ?? b] on strings, where [a] may be [undefined] ([None]). *)
Definition nullish (a : option jsstring) (b : jsstring) : jsstring :=
  match a with Some s => s | None => b end.

(** [arr[i]] for a number [i] that holds an integer: [undefined] out of
    range. *)
Definition index {A} (arr : list A) (i : Z) : option A :=
  if i <? 0 then None else nth_error arr (Z.to_nat i).

(** WhiteSpace and LineTerminator code units: what [trim] strips, what
    the regular expression class [\s] matches, and what [parseFloat]
    skips. *)
Definition isWhiteSpace (c : N) : bool :=
  ((9 <=? c) && (c <=? 13) || (c =? 32) || (c =? 160) || (c =? 5760)
   || (8192 <=? c) && (c <=? 8202) || (c =? 8232) || (c =? 8233)
   || (c =? 8239) || (c =? 8287) || (c =? 12288) || (c =? 65279))%N.

(** The regular expression class [\d]. *)
Definition isDigit (c : N) : bool := ((48 <=? c) && (c <=? 57))%N.

Fixpoint dropWhile {A} (p : A -> bool) (l : list A) : list A :=
  match l with
  | [] => []
  | x :: r => if p x then dropWhile p r else l
  end.

Fixpoint takeWhile {A} (p : A -> bool) (l : list A) : list A :=
  match l with
  | [] => []
  | x :: r => if p x then x :: takeWhile p r else []
  end.

Definition trimStart (s : jsstring) : jsstring := dropWhile isWhiteSpace s.
Definition trimEnd (s : jsstring) : jsstring :=
  rev (dropWhile isWhiteSpace (rev s)).
Definition trim (s : jsstring) : jsstring := trimEnd (trimStart s).

Fixpoint startsWith (s prefix : jsstring) {struct prefix} : bool :=
  match prefix with
  | [] => true
  | p :: ps =>
    match s with
    | [] => false
    | c :: cs => (p =? c)%N && startsWith cs ps
    end
  end.

Fixpoint includes (s needle : jsstring) : bool :=
  startsWith s needle
  || match s with
     | [] => false
     | _ :: r => includes r needle
     end.

(** [s.includes(c)] for a one-unit needle. *)
Definition includesChar (s : jsstring) (c : N) : bool :=
  existsb (N.eqb c) s.

(** [s.replace(/c/g, '')]: every occurrence removed. *)
Definition removeAll (p : N -> bool) (s : jsstring) : jsstring :=
  filter (fun c => negb (p c)) s.

(** [s.replace(c, d)] with string arguments: the first occurrence only. *)
Fixpoint replaceFirst (c d : N) (s : jsstring) : jsstring :=
  match s with
  | [] => []
  | x :: r => if (x =? c)%N then d :: r else x :: replaceFirst c d r
  end.

(** [s.split(d)] for a one-unit separator [d]: never empty. *)
Fixpoint split (d : N) (s : jsstring) : list jsstring :=
  match s with
  | [] => [[]]
  | c :: r =>
    if (c =? d)%N then [] :: split d r
    else match split d r with
         | [] => [[c]]
         | f :: fs => (c :: f) :: fs
         end
  end.

(** [s.split(/\r?\n/)]. *)
Fixpoint splitLines (s : jsstring) : list jsstring :=
  match s with
  | [] => [[]]
  | c :: r =>
    let cons_first c l :=
      match l with [] => [[c]] | f :: fs => (c :: f) :: fs end in
    if (c =? 10)%N then [] :: splitLines r
    else if (c =? 13)%N then
      match r with
      | c' :: r' =>
        if (c' =? 10)%N then [] :: splitLines r'
        else cons_first c (splitLines r)
      | [] => cons_first c (splitLines r)
      end
    else cons_first c (splitLines r)
  end.

(** [s.slice(0, n)]. *)
Definition slice0 (n : nat) (s : jsstring) : jsstring := firstn n s.

(** [arr.indexOf(x)] on an array of strings, [-1] when absent. *)
Fixpoint indexOf (arr : list jsstring) (x : jsstring) : Z :=
  match arr with
  | [] => -1
  | y :: r =>
    if eqb y x then 0
    else let i := indexOf r x in if i <? 0 then -1 else i + 1
  end.

(** [toLowerCase] and [toUpperCase] follow the Unicode case tables of the
    host; the importer is stated over any such pair. *)
Class StringCase := {
  toLowerCase : jsstring -> jsstring;
  toUpperCase : jsstring -> jsstring
}.

(** The host's case conversion on Basic Latin; used to run the importer
    on ASCII inputs. *)
Definition asciiLower (c : N) : N :=
  if ((65 <=? c) && (c <=? 90))%N then (c + 32)%N else c.
Definition asciiUpper (c : N) : N :=
  if ((97 <=? c) && (c <=? 122))%N then (c - 32)%N else c.
Definition asciiCase : StringCase :=
  {| toLowerCase := map asciiLower; toUpperCase := map asciiUpper |}.

(** ** Numbers: IEEE 754 binary64 *)

Definition number := float.

Definition isNaN (x : number) : bool := PrimFloat.is_nan x.

(** The double nearest to [m * 10^e10] (ties to even), for [m >= 0]. *)
Definition roundDecimal (m e10 : Z) : number :=
  if e10 <? 0 then
    let d := 10 ^ (- e10) in
    let s := Z.max 0 (64 + Z.log2 d - Z.log2 m) in
    let q := Z.shiftl m s / d in
    let r := Z.shiftl m s mod d in
    SF2Prim (binary_normalize prec emax
               (2 * q + (if r =? 0 then 0 else 1)) (- (s + 1)) false)
  else
    SF2Prim (binary_normalize prec emax (m * 10 ^ e10) 0 false).

Definition digitValue (c : N) : Z := Z.of_N c - 48.

(** The integer a run of decimal digits denotes. *)
Definition digitsValue (ds : jsstring) : Z :=
  fold_left (fun acc c => 10 * acc + digitValue c) ds 0.

(** The mathematical value of a decimal literal: sign, mantissa digits
    and power of ten. *)
Definition decimalNumber (neg : bool) (digits : jsstring) (e10 : Z)
  : number :=
  let x := roundDecimal (digitsValue digits) e10 in
  if neg then PrimFloat.opp x else x.

(** The exponent part of a literal: [e] or [E], an optional sign, and at
    least one digit. Without a digit the literal ends before the [e]. *)
Definition scanExponent (s : jsstring) : Z :=
  match s with
  | c :: r =>
    if ((c =? ch "e") || (c =? ch "E"))%N then
      let '(eneg, r') :=
        match r with
        | c' :: r'' =>
          if (c' =? ch "-")%N then (true, r'')
          else if (c' =? ch "+")%N then (false, r'')
          else (false, r)
        | [] => (false, r)
        end in
      let ds := takeWhile isDigit r' in
      match ds with
      | [] => 0
      | _ => if eneg then - digitsValue ds else digitsValue ds
      end
    else 0
  | [] => 0
  end.

(** The optional sign of a decimal literal, and what follows it. *)
Definition splitSign (t : jsstring) : bool * jsstring :=
  match t with
  | c :: r =>
    if (c =? ch "-")%N then (true, r)
    else if (c =? ch "+")%N then (false, r)
    else (false, t)
  | [] => (false, t)
  end.

(** The value of the longest prefix of [u] that is an unsigned decimal
    literal ([Infinity], digits with an optional fraction, or a fraction
    alone, each with an optional exponent); [NaN] when there is none. *)
Definition readDecimal (neg : bool) (u : jsstring) : number :=
  if startsWith u (js "Infinity") then
    (if neg then PrimFloat.neg_infinity else PrimFloat.infinity)
  else
    let ip := takeWhile isDigit u in
    let r1 := dropWhile isDigit u in
    match r1 with
    | c :: r2 =>
      if (c =? ch ".")%N then
        let fp := takeWhile isDigit r2 in
        let r3 := dropWhile isDigit r2 in
        match ip, fp with
        | [], [] => PrimFloat.nan
        | _, _ =>
          decimalNumber neg (ip ++ fp)
            (scanExponent r3 - Z.of_nat (List.length fp))
        end
      else
        match ip with
        | [] => PrimFloat.nan
        | _ => decimalNumber neg ip (scanExponent r1)
        end
    | [] =>
      match ip with
      | [] => PrimFloat.nan
      | _ => decimalNumber neg ip 0
      end
    end.

(** [parseFloat]: leading white space is skipped and the longest prefix
    that is a decimal literal is read; [NaN] when there is none. *)
Definition parseFloat (s : jsstring) : number :=
  let '(neg, u) := splitSign (trimStart s) in
  readDecimal neg u.

End JS.

Import JS.

(* ================================================================== *)
(** * src/types/index.ts *)
(* ================================================================== *)

Module Types.

Inductive Currency := USD | PLN.

Inductive TransactionType := income | expense.

(** [IncomeCategory | ExpenseCategory]. *)
Inductive Category :=
  | Salary | Freelance | Investment | Rental | Gift | OtherIncome
  | Housing | Transportation | Food | Utilities | Healthcare | Insurance
  | Entertainment | Shopping | Education | Personal | Subscriptions
  | DebtPayment | Other.

Definition Currency_eqb (a b : Currency) : bool :=
  match a, b with USD, USD | PLN, PLN => true | _, _ => false end.

Definition Category_eq_dec (a b : Category) : {a = b} + {a <> b}.
Proof. decide equality. Defined.

Definition Category_eqb (a b : Category) : bool :=
  if Category_eq_dec a b then true else false.

(** The string a category is at run time. *)
Definition Category_name (c : Category) : jsstring :=
  match c with
  | Salary => js "Salary" | Freelance => js "Freelance"
  | Investment => js "Investment" | Rental => js "Rental"
  | Gift => js "Gift" | OtherIncome => js "Other Income"
  | Housing => js "Housing" | Transportation => js "Transportation"
  | Food => js "Food" | Utilities => js "Utilities"
  | Healthcare => js "Healthcare" | Insurance => js "Insurance"
  | Entertainment => js "Entertainment" | Shopping => js "Shopping"
  | Education => js "Education" | Personal => js "Personal"
  | Subscriptions => js "Subscriptions"
  | DebtPayment => js "Debt Payment" | Other => js "Other"
  end.

End Types.

Import Types.

(** The interfaces of [src/types/index.ts].  [num] is the type of
    numbers; optional properties are [option]s. *)
Module Data.

Inductive RecurringInterval := weekly | monthly | yearly.

Record Transaction (num : Type) := {
  id : jsstring;
  type : TransactionType;
  amount : num;
  currency : Currency;
  category : Category;
  description : jsstring;
  date : jsstring;
  exchangeRateAtTime : option num;
  recurring : option bool;
  recurringInterval : option RecurringInterval
}.
Arguments id {num}. Arguments type {num}. Arguments amount {num}.
Arguments currency {num}. Arguments category {num}.
Arguments description {num}. Arguments date {num}.
Arguments exchangeRateAtTime {num}. Arguments recurring {num}.
Arguments recurringInterval {num}.

Record Debt := {
  debt_id : jsstring;
  debt_name : jsstring;
  totalAmount : number;
  paidAmount : number;
  debt_currency : Currency;
  interestRate : option number;
  dueDate : option jsstring;
  minimumPayment : option number
}.

Record SavingsGoal := {
  goal_id : jsstring;
  goal_name : jsstring;
  targetAmount : number;
  currentAmount : number;
  goal_currency : Currency;
  deadline : option jsstring
}.

Record UserSettings := {
  primaryCurrency : Currency;
  exchangeRate : number;
  autoExchangeRate : bool;
  monthlyBudget : option number
}.

Record AppData := {
  transactions : list (Transaction number);
  debts : list Debt;
  savingsGoals : list SavingsGoal;
  settings : UserSettings
}.

End Data.

(* ================================================================== *)
(** * src/utils/pkoImport.ts: the CSV importer *)
(* ================================================================== *)

Module PkoImport.

(** Known PKO BP CSV column headers (Polish). *)
Module PKO_COLUMNS.
Definition date : list jsstring :=
  [js "data operacji"; js "data transakcji"; js "data księgowania"].
Definition amount : list jsstring := [js "kwota"; js "kwota transakcji"].
Definition currency : list jsstring := [js "waluta"].
Definition description : list jsstring :=
  [js "opis transakcji"; js "tytuł"; js "tytul"; js "tytuł transakcji"].
Definition counterparty : list jsstring :=
  [js "nadawca / odbiorca"; js "nadawca/odbiorca"; js "nazwa kontrahenta";
   js "kontrahent"].
End PKO_COLUMNS.

(** Auto-categorization keywords, in the order of the object literal
    (the order [Object.entries] enumerates them in). *)
Definition CATEGORY_KEYWORDS : list (jsstring * Category) :=
  [ (js "czynsz", Housing); (js "wynajem", Housing);
    (js "mieszkanie", Housing); (js "rent", Housing);
    (js "mortgage", Housing); (js "hipoteka", Housing);
    (js "biedronka", Food); (js "lidl", Food); (js "żabka", Food);
    (js "zabka", Food); (js "auchan", Food); (js "carrefour", Food);
    (js "kaufland", Food); (js "stokrotka", Food); (js "netto", Food);
    (js "restaurant", Food); (js "restauracja", Food);
    (js "mcdonalds", Food); (js "kfc", Food); (js "uber eats", Food);
    (js "glovo", Food); (js "bolt food", Food); (js "pyszne", Food);
    (js "uber", Transportation); (js "bolt", Transportation);
    (js "orlen", Transportation); (js "bp", Transportation);
    (js "shell", Transportation); (js "paliwo", Transportation);
    (js "mpk", Transportation); (js "ztm", Transportation);
    (js "koleje", Transportation); (js "pkp", Transportation);
    (js "flixbus", Transportation); (js "parking", Transportation);
    (js "pge", Utilities); (js "tauron", Utilities);
    (js "enea", Utilities); (js "energa", Utilities);
    (js "wodociągi", Utilities); (js "wodociagi", Utilities);
    (js "internet", Utilities); (js "orange", Utilities);
    (js "play", Utilities); (js "t-mobile", Utilities);
    (js "plus", Utilities);
    (js "netflix", Entertainment); (js "spotify", Entertainment);
    (js "hbo", Entertainment); (js "disney", Entertainment);
    (js "cinema", Entertainment); (js "kino", Entertainment);
    (js "multikino", Entertainment); (js "helios", Entertainment);
    (js "allegro", Shopping); (js "amazon", Shopping);
    (js "zalando", Shopping); (js "mediamarkt", Shopping);
    (js "media markt", Shopping); (js "rtv euro", Shopping);
    (js "ikea", Shopping); (js "decathlon", Shopping);
    (js "rossmann", Shopping); (js "hebe", Shopping);
    (js "apteka", Healthcare); (js "pharmacy", Healthcare);
    (js "lekarz", Healthcare); (js "doctor", Healthcare);
    (js "medicover", Healthcare); (js "luxmed", Healthcare);
    (js "enel-med", Healthcare);
    (js "ubezpieczenie", Insurance); (js "pzu", Insurance);
    (js "warta", Insurance); (js "ergo hestia", Insurance);
    (js "uczelnia", Education); (js "szkoła", Education);
    (js "kurs", Education); (js "udemy", Education);
    (js "coursera", Education);
    (js "subskrypcja", Subscriptions); (js "subscription", Subscriptions);
    (js "apple", Subscriptions); (js "google storage", Subscriptions);
    (js "youtube premium", Subscriptions);
    (js "wynagrodzenie", Salary);
    (js "przelew z tytulu wynagrodzenia", Salary);
    (js "salary", Salary); (js "pensja", Salary) ].

Record ColumnMapping := {
  date : Z;
  amount : Z;
  description : Z;
  currency : Z;
  counterparty : Z
}.

Record ParsedBankTransaction := {
  tx_date : jsstring;
  tx_amount : number;
  tx_description : jsstring;
  tx_currency : Currency;
  tx_counterparty : jsstring;
  suggestedCategory : Category;
  suggestedType : TransactionType;
  raw : list jsstring
}.

Record ParseResult := {
  headers : list jsstring;
  transactions : list ParsedBankTransaction;
  autoMapped : bool;
  mapping : ColumnMapping
}.

Definition parsePKOAmount (raw : jsstring) : number :=
  let cleaned := removeAll isWhiteSpace (trim raw) in
  let cleaned :=
    if includesChar cleaned (ch ",") && includesChar cleaned (ch ".") then
      replaceFirst (ch ",") (ch ".")
        (removeAll (N.eqb (ch ".")) cleaned)
    else if includesChar cleaned (ch ",") then
      replaceFirst (ch ",") (ch ".") cleaned
    else cleaned in
  parseFloat cleaned.

(** The separator class of the date patterns. *)
Definition isDateSep (c : N) : bool :=
  ((c =? ch ".") || (c =? ch "-") || (c =? ch "/"))%N.

(** [/^\d{4}-\d{2}-\d{2}$/.test(s)]. *)
Definition testCanonical (s : jsstring) : bool :=
  match s with
  | [y1; y2; y3; y4; s1; m1; m2; s2; d1; d2] =>
    forallb isDigit [y1; y2; y3; y4; m1; m2; d1; d2]
    && (s1 =? ch "-")%N && (s2 =? ch "-")%N
  | _ => false
  end.

(** [s.match(/^(\d{2})[.\-/](\d{2})[.\-/](\d{4})$/)]: the three groups. *)
Definition matchDayFirst (s : jsstring)
  : option (jsstring * jsstring * jsstring) :=
  match s with
  | [d1; d2; s1; m1; m2; s2; y1; y2; y3; y4] =>
    if forallb isDigit [d1; d2; m1; m2; y1; y2; y3; y4]
       && isDateSep s1 && isDateSep s2
    then Some ([d1; d2], [m1; m2], [y1; y2; y3; y4])
    else None
  | _ => None
  end.

(** [s.match(/^(\d{4})[.\-/](\d{2})[.\-/](\d{2})$/)]: the three groups. *)
Definition matchYearFirst (s : jsstring)
  : option (jsstring * jsstring * jsstring) :=
  match s with
  | [y1; y2; y3; y4; s1; m1; m2; s2; d1; d2] =>
    if forallb isDigit [y1; y2; y3; y4; m1; m2; d1; d2]
       && isDateSep s1 && isDateSep s2
    then Some ([y1; y2; y3; y4], [m1; m2], [d1; d2])
    else None
  | _ => None
  end.

Definition parseDate (raw : jsstring) : jsstring :=
  let trimmed := trim raw in
  if testCanonical trimmed then trimmed
  else match matchDayFirst trimmed with
  | Some (m1, m2, m3) => m3 ++ js "-" ++ m2 ++ js "-" ++ m1
  | None =>
    match matchYearFirst trimmed with
    | Some (m1, m2, m3) => m1 ++ js "-" ++ m2 ++ js "-" ++ m3
    | None => trimmed
    end
  end.

(** The body of the loop of [detectDelimiter]. *)
Definition detectDelimiter_step (firstLine : jsstring)
  (st : N * nat) (d : N) : N * nat :=
  let '(best, bestCount) := st in
  let count := List.length (split d firstLine) in
  if (bestCount <? count)%nat then (d, count) else (best, bestCount).

Definition delimiters : list N := [ch ","; ch ";"; 9%N; ch "|"].

Definition detectDelimiter (firstLine : jsstring) : N :=
  fst (fold_left (detectDelimiter_step firstLine) delimiters (ch ",", 0%nat)).

(** The loop of [parseCSVLine], over the rest of the line. *)
Fixpoint parseCSVLine_loop (delimiter : N) (line : jsstring)
  (current : jsstring) (inQuotes : bool) (result : list jsstring)
  : list jsstring :=
  match line with
  | [] => result ++ [trim current]
  | char :: rest =>
    if (char =? QUOTE)%N then
      match inQuotes, rest with
      | true, next :: rest' =>
        if (next =? QUOTE)%N then
          parseCSVLine_loop delimiter rest' (current ++ [QUOTE]) inQuotes
            result
        else
          parseCSVLine_loop delimiter rest current (negb inQuotes) result
      | _, _ =>
        parseCSVLine_loop delimiter rest current (negb inQuotes) result
      end
    else if (char =? delimiter)%N && negb inQuotes then
      parseCSVLine_loop delimiter rest [] inQuotes (result ++ [trim current])
    else
      parseCSVLine_loop delimiter rest (current ++ [char]) inQuotes result
  end.

Definition parseCSVLine (line : jsstring) (delimiter : N) : list jsstring :=
  parseCSVLine_loop delimiter line [] false [].

Section WithCase.
Context {SC : StringCase}.

Fixpoint detectCategory_loop (lower : jsstring)
  (entries : list (jsstring * Category)) : Category :=
  match entries with
  | [] => Other
  | (keyword, category) :: r =>
    if includes lower keyword then category
    else detectCategory_loop lower r
  end.

Definition detectCategory (description : jsstring) : Category :=
  detectCategory_loop (toLowerCase description) CATEGORY_KEYWORDS.

Fixpoint findColumnIndex_loop (normalizedHeaders candidates : list jsstring)
  : Z :=
  match candidates with
  | [] => -1
  | candidate :: r =>
    let idx := indexOf normalizedHeaders candidate in
    if negb (idx =? -1) then idx
    else findColumnIndex_loop normalizedHeaders r
  end.

Definition findColumnIndex (headers candidates : list jsstring) : Z :=
  findColumnIndex_loop (map (fun h => trim (toLowerCase h)) headers)
    candidates.

(** The body of the row loop of [parseCSV]: [None] where the source
    [continue]s, the pushed transaction otherwise. *)
Definition parseCSV_row (mapping : ColumnMapping) (fields : list jsstring)
  : option ParsedBankTransaction :=
  if (List.length fields <? 2)%nat then None
  else
    let rawAmount := orElse (index fields (amount mapping)) (js "0") in
    let amount := parsePKOAmount rawAmount in
    if isNaN amount || PrimFloat.eqb amount 0 then None
    else
      let description :=
        orElse (index fields (description mapping)) [] in
      let counterparty :=
        if 0 <=? counterparty mapping
        then orElse (index fields (counterparty mapping)) []
        else [] in
      let fullDesc :=
        if truthy counterparty
        then counterparty ++ js " - " ++ description
        else description in
      let rawCurrency :=
        if 0 <=? currency mapping
        then toUpperCase (trim (orElse (index fields (currency mapping)) []))
        else [] in
      let currency :=
        if eqb rawCurrency (js "PLN") then PLN
        else if eqb rawCurrency (js "USD") then USD else PLN in
      let isIncome := PrimFloat.ltb 0 amount in
      let category := detectCategory fullDesc in
      Some {|
        tx_date := parseDate (orElse (index fields (date mapping)) []);
        tx_amount := PrimFloat.abs amount;
        tx_description := slice0 200 fullDesc;
        tx_currency := currency;
        tx_counterparty := counterparty;
        suggestedCategory :=
          if isIncome && Category_eqb category Other
          then OtherIncome else category;
        suggestedType := if isIncome then income else expense;
        raw := fields |}.

(** [arr.map(f).filter(x => x !== null)], and the shape of a loop that
    pushes what [f] returns and [continue]s on [None]. *)
Fixpoint filterMap {A B} (f : A -> option B) (l : list A) : list B :=
  match l with
  | [] => []
  | x :: r =>
    match f x with
    | Some y => y :: filterMap f r
    | None => filterMap f r
    end
  end.

Definition parseCSV (csvText : jsstring) : ParseResult :=
  let lines :=
    filter (fun l => (0 <? List.length (trim l))%nat) (splitLines csvText) in
  match lines with
  | line0 :: ((_ :: _) as rows) =>
    let delimiter := detectDelimiter line0 in
    let headers := parseCSVLine line0 delimiter in
    let dateIdx := findColumnIndex headers PKO_COLUMNS.date in
    let amountIdx := findColumnIndex headers PKO_COLUMNS.amount in
    let descIdx := findColumnIndex headers PKO_COLUMNS.description in
    let currencyIdx := findColumnIndex headers PKO_COLUMNS.currency in
    let counterpartyIdx :=
      findColumnIndex headers PKO_COLUMNS.counterparty in
    let autoMapped :=
      negb (dateIdx =? -1) && negb (amountIdx =? -1)
      && negb (descIdx =? -1) in
    let mapping := {|
      date := if negb (dateIdx =? -1) then dateIdx else 0;
      amount := if negb (amountIdx =? -1) then amountIdx else 1;
      description := if negb (descIdx =? -1) then descIdx else 2;
      currency := currencyIdx;
      counterparty := counterpartyIdx |} in
    {| headers := headers;
       transactions :=
         filterMap (fun line => parseCSV_row mapping
                                  (parseCSVLine line delimiter)) rows;
       autoMapped := autoMapped;
       mapping := mapping |}
  | _ =>
    {| headers := []; transactions := []; autoMapped := false;
       mapping := {| date := 0; amount := 1; description := 2;
                     currency := -1; counterparty := -1 |} |}
  end.

End WithCase.

End PkoImport.

(* ================================================================== *)
(** * src/pages/BankImport.tsx: re-mapping the parsed rows *)
(* ================================================================== *)

Module BankImport.
Import PkoImport.

Section WithCase.
Context {SC : StringCase}.

Definition detectCategoryFallback (description : jsstring) : Category :=
  let lower := toLowerCase description in
  if includes lower (js "wynagrodzenie") || includes lower (js "salary")
     || includes lower (js "pensja")
  then Salary
  else if includes lower (js "biedronka") || includes lower (js "lidl")
     || includes lower (js "Å¼abka") || includes lower (js "restaurant")
     || includes lower (js "mcdonalds") || includes lower (js "kfc")
  then Food
  else if includes lower (js "czynsz") || includes lower (js "wynajem")
     || includes lower (js "rent") || includes lower (js "hipoteka")
  then Housing
  else if includes lower (js "uber") || includes lower (js "bolt")
     || includes lower (js "orlen") || includes lower (js "paliwo")
     || includes lower (js "pkp")
  then Transportation
  else if includes lower (js "pge") || includes lower (js "tauron")
     || includes lower (js "internet") || includes lower (js "orange")
  then Utilities
  else if includes lower (js "netflix") || includes lower (js "spotify")
     || includes lower (js "kino")
  then Entertainment
  else if includes lower (js "allegro") || includes lower (js "amazon")
     || includes lower (js "zalando")
  then Shopping
  else if includes lower (js "apteka") || includes lower (js "medicover")
     || includes lower (js "luxmed")
  then Healthcare
  else Other.

Definition parseDateFallback (raw : jsstring) : jsstring :=
  let trimmed := trim raw in
  if testCanonical trimmed then trimmed
  else match matchDayFirst trimmed with
  | Some (m1, m2, m3) => m3 ++ js "-" ++ m2 ++ js "-" ++ m1
  | None =>
    match matchYearFirst trimmed with
    | Some (m1, m2, m3) => m1 ++ js "-" ++ m2 ++ js "-" ++ m3
    | None => trimmed
    end
  end.

(** The callback [remapTransactions] maps over the parsed transactions:
    [None] where it returns [null]. *)
Definition remapTransactions_row (mapping : ColumnMapping)
  (tx : ParsedBankTransaction) : option ParsedBankTransaction :=
  let raw := raw tx in
  let rawAmount := nullish (index raw (amount mapping)) (js "0") in
  let cleaned := removeAll isWhiteSpace (trim rawAmount) in
  let cleaned :=
    if includesChar cleaned (ch ",") && includesChar cleaned (ch ".") then
      replaceFirst (ch ",") (ch ".")
        (removeAll (N.eqb (ch ".")) cleaned)
    else if includesChar cleaned (ch ",") then
      replaceFirst (ch ",") (ch ".") cleaned
    else cleaned in
  let amount := parseFloat cleaned in
  if isNaN amount || PrimFloat.eqb amount 0 then None
  else
    let description := nullish (index raw (description mapping)) [] in
    let counterparty :=
      if 0 <=? counterparty mapping
      then nullish (index raw (counterparty mapping)) []
      else [] in
    let fullDesc :=
      if truthy counterparty
      then counterparty ++ js " - " ++ description
      else description in
    let rawCurrency :=
      if 0 <=? currency mapping
      then toUpperCase (trim (nullish (index raw (currency mapping)) []))
      else [] in
    let currency :=
      if eqb rawCurrency (js "PLN") then PLN
      else if eqb rawCurrency (js "USD") then USD else PLN in
    let isIncome := PrimFloat.ltb 0 amount in
    let suggestedCategory := detectCategoryFallback fullDesc in
    let rawDate := nullish (index raw (date mapping)) [] in
    let date := parseDateFallback rawDate in
    Some {|
      tx_date := date;
      tx_amount := PrimFloat.abs amount;
      tx_description := slice0 200 fullDesc;
      tx_currency := currency;
      tx_counterparty := counterparty;
      suggestedCategory :=
        if isIncome && Category_eqb suggestedCategory Other
        then OtherIncome else suggestedCategory;
      suggestedType := if isIncome then income else expense;
      raw := raw |}.

Definition remapTransactions (result : ParseResult)
  (mapping : ColumnMapping) : list ParsedBankTransaction :=
  filterMap (remapTransactions_row mapping) (transactions result).

End WithCase.

End BankImport.

(* ================================================================== *)
(** * src/utils/currency.ts *)
(* ================================================================== *)

(** The arithmetic the aggregator performs on [number]s.  [ieee] is the
    host's; the aggregator is written over any [Arith] so that its sums
    can also be read in exact arithmetic ([exact]). *)
Record Arith (num : Type) := {
  zero : num;
  add : num -> num -> num;
  sub : num -> num -> num;
  mul : num -> num -> num;
  div : num -> num -> num
}.
Arguments zero {num}. Arguments add {num}. Arguments sub {num}.
Arguments mul {num}. Arguments div {num}.

Definition ieee : Arith number :=
  {| zero := 0%float; add := PrimFloat.add; sub := PrimFloat.sub;
     mul := PrimFloat.mul; div := PrimFloat.div |}.

Definition exact : Arith Qc :=
  {| zero := 0%Qc; add := Qcplus; sub := Qcminus; mul := Qcmult;
     div := Qcdiv |}.

Module Currency.

Section WithArith.
Context {num : Type} (A : Arith num).

Definition convertCurrency (amount : num) (from to : Types.Currency)
  (exchangeRate : num) : num :=
  if Currency_eqb from to then amount
  else match from, to with
  | USD, PLN => mul A amount exchangeRate
  | PLN, USD => div A amount exchangeRate
  | _, _ => amount
  end.

End WithArith.

End Currency.

(* ================================================================== *)
(** * src/utils/advisor.ts: aggregation and advice *)
(* ================================================================== *)

Module Advisor.
Import Currency Data.

Record BudgetBreakdown (num : Type) := {
  totalIncome : num;
  totalExpenses : num;
  needs : num;
  wants : num;
  savings : num;
  debtPayments : num;
  netBalance : num
}.
Arguments totalIncome {num}. Arguments totalExpenses {num}.
Arguments needs {num}. Arguments wants {num}. Arguments savings {num}.
Arguments debtPayments {num}. Arguments netBalance {num}.

Inductive Status := excellent | good | fair | needs_attention.

Record SavingsAdvice := {
  optimalSavingsRate : number;
  optimalSavingsAmount : number;
  currentSavingsRate : number;
  needsPercent : number;
  wantsPercent : number;
  savingsPercent : number;
  status : Status;
  tips : list jsstring
}.

Definition NEEDS : list Category :=
  [Housing; Transportation; Food; Utilities; Healthcare; Insurance].

Definition WANTS : list Category :=
  [Entertainment; Shopping; Education; Personal; Subscriptions].

(** [set.has(c)]. *)
Definition has (set : list Category) (c : Category) : bool :=
  existsb (Category_eqb c) set.

(** The calendar fields the host reads off [new Date(s)]:
    [(getMonth(), getFullYear())] in its time zone, [None] for an Invalid
    Date (whose fields are [NaN] and equal no month or year). *)
Definition DateFields := jsstring -> option (Z * Z).

(** The host whose time zone is UTC, on [YYYY-MM-DD] dates every host
    reads alike (days 01 to 28). *)
Definition utcDateFields : DateFields := fun s =>
  match PkoImport.matchYearFirst s with
  | Some (y, m, d) =>
    if PkoImport.testCanonical s
       && (1 <=? digitsValue m) && (digitsValue m <=? 12)
       && (1 <=? digitsValue d) && (digitsValue d <=? 28)
    then Some (digitsValue m - 1, digitsValue y)
    else None
  | None => None
  end.

Section Aggregator.
Context {num : Type} (A : Arith num) (dateFields : DateFields).

(** The running totals of the loop of [getMonthlyBreakdown]. *)
Record Totals := {
  acc_totalIncome : num;
  acc_totalExpenses : num;
  acc_needs : num;
  acc_wants : num;
  acc_debtPayments : num
}.

Definition inMonth (month year : Z) (t : Transaction num) : bool :=
  match dateFields (date t) with
  | Some (m, y) => (m =? month) && (y =? year)
  | None => false
  end.

(** [t.exchangeRateAtTime ?? exchangeRate]. *)
Definition rateOf (t : Transaction num) (exchangeRate : num) : num :=
  match exchangeRateAtTime t with
  | Some r => r
  | None => exchangeRate
  end.

(** The body of the loop of [getMonthlyBreakdown]. *)
Definition getMonthlyBreakdown_step (primaryCurrency : Types.Currency)
  (exchangeRate : num) (st : Totals) (t : Transaction num) : Totals :=
  let rate := rateOf t exchangeRate in
  let amount := convertCurrency A (amount t) (currency t) primaryCurrency
                  rate in
  match type t with
  | income =>
    {| acc_totalIncome := add A (acc_totalIncome st) amount;
       acc_totalExpenses := acc_totalExpenses st;
       acc_needs := acc_needs st;
       acc_wants := acc_wants st;
       acc_debtPayments := acc_debtPayments st |}
  | expense =>
    let totalExpenses := add A (acc_totalExpenses st) amount in
    if Category_eqb (category t) DebtPayment then
      {| acc_totalIncome := acc_totalIncome st;
         acc_totalExpenses := totalExpenses;
         acc_needs := acc_needs st;
         acc_wants := acc_wants st;
         acc_debtPayments := add A (acc_debtPayments st) amount |}
    else if has NEEDS (category t) then
      {| acc_totalIncome := acc_totalIncome st;
         acc_totalExpenses := totalExpenses;
         acc_needs := add A (acc_needs st) amount;
         acc_wants := acc_wants st;
         acc_debtPayments := acc_debtPayments st |}
    else if has WANTS (category t) then
      {| acc_totalIncome := acc_totalIncome st;
         acc_totalExpenses := totalExpenses;
         acc_needs := acc_needs st;
         acc_wants := add A (acc_wants st) amount;
         acc_debtPayments := acc_debtPayments st |}
    else
      {| acc_totalIncome := acc_totalIncome st;
         acc_totalExpenses := totalExpenses;
         acc_needs := acc_needs st;
         acc_wants := add A (acc_wants st) amount;
         acc_debtPayments := acc_debtPayments st |}
  end.

Definition getMonthlyBreakdown (transactions : list (Transaction num))
  (month year : Z) (primaryCurrency : Types.Currency) (exchangeRate : num)
  : BudgetBreakdown num :=
  let monthTransactions := filter (inMonth month year) transactions in
  let st :=
    fold_left (getMonthlyBreakdown_step primaryCurrency exchangeRate)
      monthTransactions
      {| acc_totalIncome := zero A; acc_totalExpenses := zero A;
         acc_needs := zero A; acc_wants := zero A;
         acc_debtPayments := zero A |} in
  {| totalIncome := acc_totalIncome st;
     totalExpenses := acc_totalExpenses st;
     needs := acc_needs st;
     wants := acc_wants st;
     savings := sub A (acc_totalIncome st) (acc_totalExpenses st);
     debtPayments := acc_debtPayments st;
     netBalance := sub A (acc_totalIncome st) (acc_totalExpenses st) |}.

End Aggregator.

(** [Math.max(a, b)]. *)
Definition Math_max (a b : number) : number :=
  if isNaN a || isNaN b then PrimFloat.nan
  else if PrimFloat.ltb a b then b
  else if PrimFloat.ltb b a then a
  else if PrimFloat.get_sign a then b else a.

Section Advice.
#[local] Open Scope float_scope.
(** [x.toFixed(digits)], the host's decimal rendering of a number. *)
Variable toFixed : number -> nat -> jsstring.

Definition getSavingsAdvice (breakdown : BudgetBreakdown number)
  : SavingsAdvice :=
  let totalIncome := totalIncome breakdown in
  let needs := needs breakdown in
  let wants := wants breakdown in
  let savings := savings breakdown in
  if PrimFloat.eqb totalIncome 0 then
    {| optimalSavingsRate := 20%float;
       optimalSavingsAmount := 0%float;
       currentSavingsRate := 0%float;
       needsPercent := 0%float;
       wantsPercent := 0%float;
       savingsPercent := 0%float;
       status := needs_attention;
       tips :=
         [js "Start by tracking your income to get personalized advice."] |}
  else
    let needsPercent := (needs / totalIncome * 100)%float in
    let wantsPercent := (wants / totalIncome * 100)%float in
    let savingsPercent := (savings / totalIncome * 100)%float in
    let currentSavingsRate := savingsPercent in
    let optimalRate :=
      if PrimFloat.ltb 0 (debtPayments breakdown) then
        Math_max 10 (20 - debtPayments breakdown / totalIncome * 100)%float
      else 20%float in
    let '(status, tips) :=
      if PrimFloat.leb 20 savingsPercent then
        (excellent,
         [js "You're saving 20%+ of your income. Keep it up!"]
         ++ (if PrimFloat.ltb 50 needsPercent then
               [js "Your needs spending is above 50%. See if you can reduce housing or transportation costs."]
             else []))
      else if PrimFloat.leb 10 savingsPercent then
        (good,
         [js "You're saving " ++ toFixed savingsPercent 1%nat
          ++ js "%. Try to reach 20% for optimal financial health."]
         ++ (if PrimFloat.ltb 30 wantsPercent then
               [js "Consider cutting back on wants - entertainment, shopping, or subscriptions."]
             else []))
      else if PrimFloat.leb 0 savingsPercent then
        (fair,
         [js "You're breaking even or barely saving. Look for areas to cut expenses."]
         ++ (if PrimFloat.ltb 60 needsPercent then
               [js "Your essential expenses are high. Consider cheaper alternatives for housing or transport."]
             else [])
         ++ (if PrimFloat.ltb 30 wantsPercent then
               [js "Reduce discretionary spending to boost your savings rate."]
             else []))
      else
        (needs_attention,
         [js "You're spending more than you earn. This needs immediate attention.";
          js "Prioritize cutting non-essential expenses first."]
         ++ (if PrimFloat.ltb 20 wantsPercent then
               [js "Cut wants spending by "
                ++ toFixed ((wantsPercent - 20) * totalIncome / 100)%float 0%nat
                ++ js " to start saving."]
             else [])) in
    {| optimalSavingsRate := optimalRate;
       optimalSavingsAmount := (totalIncome * optimalRate / 100)%float;
       currentSavingsRate := currentSavingsRate;
       needsPercent := needsPercent;
       wantsPercent := wantsPercent;
       savingsPercent := savingsPercent;
       status := status;
       tips := tips |}.

End Advice.

End Advisor.

(* ================================================================== *)
(** * The host's JSON object *)
(* ================================================================== *)

Module JSON.

(** The values [JSON.stringify] walks and [JSON.parse] builds.  The
    properties of an object are listed in the order the host enumerates
    them. *)
Inductive value :=
  | VUndefined
  | VNull
  | VBool (b : bool)
  | VNumber (x : number)
  | VString (s : jsstring)
  | VArray (items : list value)
  | VObject (props : list (jsstring * value)).

(** ** [Number::toString] *)

Fixpoint uint_units (d : Decimal.uint) : jsstring :=
  match d with
  | Decimal.Nil => []
  | Decimal.D0 r => 48%N :: uint_units r
  | Decimal.D1 r => 49%N :: uint_units r
  | Decimal.D2 r => 50%N :: uint_units r
  | Decimal.D3 r => 51%N :: uint_units r
  | Decimal.D4 r => 52%N :: uint_units r
  | Decimal.D5 r => 53%N :: uint_units r
  | Decimal.D6 r => 54%N :: uint_units r
  | Decimal.D7 r => 55%N :: uint_units r
  | Decimal.D8 r => 56%N :: uint_units r
  | Decimal.D9 r => 57%N :: uint_units r
  end.

(** The decimal digits of a non-negative integer. *)
Definition decimalDigits (z : Z) : jsstring :=
  uint_units (N.to_uint (Z.to_N z)).

(** The exact value of a finite number, sign apart, as a fraction. *)
Definition fraction (x : number) : Z * Z :=
  match Prim2SF x with
  | S754_finite _ m e =>
    if 0 <=? e then (Zpos m * 2 ^ e, 1) else (Zpos m, 2 ^ (- e))
  | _ => (0, 1)
  end.

Fixpoint decimalExponent_below (fuel : nat) (scaled den n : Z) : Z :=
  match fuel with
  | O => n
  | S fuel' =>
    if den <=? scaled * 10 then n
    else decimalExponent_below fuel' (scaled * 10) den (n - 1)
  end.

(** The [n] with [10^(n-1) <= num/den < 10^n]. *)
Definition decimalExponent (num den : Z) : Z :=
  if den <=? num then Z.of_nat (List.length (decimalDigits (num / den)))
  else decimalExponent_below 400 num den 0.

(** The [k]-digit integers [s] next to [x / 10^(n-k)] for which
    [s * 10^(n-k)] is read back as [x]: the nearest one, the even one on
    a tie; with the decimal exponent it goes with. *)
Definition digitsCandidate (x : number) (num den n k : Z)
  : option (Z * Z) :=
  let p := k - n in
  let '(tn, td) :=
    if 0 <=? p then (num * 10 ^ p, den) else (num, den * 10 ^ (- p)) in
  let lo := tn / td in
  let hi := lo + 1 in
  let ok c :=
    (10 ^ (k - 1) <=? c) && (c <=? 10 ^ k)
    && PrimFloat.eqb (roundDecimal c (n - k)) x in
  let pick c := if c =? 10 ^ k then (10 ^ (k - 1), n + 1) else (c, n) in
  match ok lo, ok hi with
  | true, true =>
    let dlo := tn - lo * td in
    let dhi := hi * td - tn in
    if dlo <? dhi then Some (pick lo)
    else if dhi <? dlo then Some (pick hi)
    else if Z.even lo then Some (pick lo) else Some (pick hi)
  | true, false => Some (pick lo)
  | false, true => Some (pick hi)
  | false, false => None
  end.

Fixpoint shortestDigits_from (fuel : nat) (x : number) (num den n k : Z)
  : Z * Z :=
  match fuel with
  | O => (num * 10 ^ (k - n) / den, n)
  | S fuel' =>
    match digitsCandidate x num den n k with
    | Some r => r
    | None => shortestDigits_from fuel' x num den n (k + 1)
    end
  end.

(** The defining condition of the digits [ds] and the exponent [n] of
    [x]: the digits start with no zero and, [k] being their number,
    [ds * 10^(n-k)] is read as [x]. *)
Definition denotes (x : number) (ds : jsstring) (n : Z) : bool :=
  match ds with
  | d :: _ => negb (d =? ch "0")%N
  | [] => false
  end
  && forallb isDigit ds
  && PrimFloat.eqb
       (roundDecimal (digitsValue ds) (n - Z.of_nat (List.length ds))) x.

(** The exact decimal expansion of a finite [x > 0], [m * 2^e]: the
    digits of the integer [m * 2^e], or those of [m * 5^(-e)] with
    [-e] of them after the point. *)
Definition exactDigits (x : number) : jsstring * Z :=
  match Prim2SF x with
  | S754_finite _ m e =>
    let s := if 0 <=? e then Zpos m * 2 ^ e else Zpos m * 5 ^ (- e) in
    let ds := decimalDigits s in
    (ds, Z.of_nat (List.length ds) + Z.min e 0)
  | _ => ([], 0)
  end.

(** For a finite [x > 0]: the digits [s] and the exponent [n] with
    [s * 10^(n-k)] read back as [x] and [k], the number of digits of
    [s], as small as possible.  The search runs over the 17 digits that
    always suffice for a double; what it returns is checked against the
    defining condition, and the exact expansion, which meets the
    condition too, stands in should the check fail. *)
Definition shortestDigits (x : number) : jsstring * Z :=
  let '(num, den) := fraction x in
  let n := decimalExponent num den in
  let '(s, n') := shortestDigits_from 17 x num den n 1 in
  let ds := decimalDigits s in
  if denotes x ds n' then (ds, n') else exactDigits x.

Definition zeros (n : Z) : jsstring := repeat 48%N (Z.to_nat n).

Definition Number_toString_positive (x : number) : jsstring :=
  let '(ds, n) := shortestDigits x in
  let k := Z.of_nat (List.length ds) in
  if (k <=? n) && (n <=? 21) then ds ++ zeros (n - k)
  else if (0 <? n) && (n <=? 21) then
    firstn (Z.to_nat n) ds ++ js "." ++ skipn (Z.to_nat n) ds
  else if (-6 <? n) && (n <=? 0) then js "0." ++ zeros (- n) ++ ds
  else
    let e := n - 1 in
    let exponent :=
      js "e" ++ (if e <? 0 then js "-" else js "+")
      ++ decimalDigits (Z.abs e) in
    match ds with
    | [d] => [d] ++ exponent
    | d :: r => [d] ++ js "." ++ r ++ exponent
    | [] => exponent
    end.

Definition Number_toString (x : number) : jsstring :=
  if isNaN x then js "NaN"
  else if PrimFloat.eqb x 0 then js "0"
  else if PrimFloat.ltb x 0 then
    if PrimFloat.is_infinity x then js "-Infinity"
    else js "-" ++ Number_toString_positive (PrimFloat.opp x)
  else if PrimFloat.is_infinity x then js "Infinity"
  else Number_toString_positive x.

(** ** [JSON.stringify(value, null, 2)] *)

Definition hexDigit (n : N) : N :=
  if (n <? 10)%N then (48 + n)%N else (87 + n)%N.

(** The escape [\uXXXX] of a code unit, in lower-case hexadecimal. *)
Definition unicodeEscape (c : N) : jsstring :=
  js "\u" ++ [hexDigit (c / 4096); hexDigit ((c / 256) mod 16);
              hexDigit ((c / 16) mod 16); hexDigit (c mod 16)].

Definition isHighSurrogate (c : N) : bool := ((55296 <=? c) && (c <=? 56319))%N.
Definition isLowSurrogate (c : N) : bool := ((56320 <=? c) && (c <=? 57343))%N.

(** How a code unit that is not part of a surrogate pair is written
    inside a JSON string. *)
Definition quoteUnit (c : N) : jsstring :=
  if (c =? 8)%N then js "\b"
  else if (c =? 9)%N then js "\t"
  else if (c =? 10)%N then js "\n"
  else if (c =? 12)%N then js "\f"
  else if (c =? 13)%N then js "\r"
  else if (c =? QUOTE)%N then [ch "\"; QUOTE]
  else if (c =? ch "\")%N then js "\\"
  else if (c <? 32)%N || isHighSurrogate c || isLowSurrogate c
  then unicodeEscape c
  else [c].

Fixpoint quoteUnits (s : jsstring) : jsstring :=
  match s with
  | [] => []
  | c :: r =>
    if isHighSurrogate c then
      match r with
      | c' :: r' =>
        if isLowSurrogate c' then c :: c' :: quoteUnits r'
        else quoteUnit c ++ quoteUnits r
      | [] => quoteUnit c
      end
    else quoteUnit c ++ quoteUnits r
  end.

(** [QuoteJSONString]. *)
Definition quote (s : jsstring) : jsstring :=
  [QUOTE] ++ quoteUnits s ++ [QUOTE].

(** [parts.join(sep)]. *)
Fixpoint join (sep : jsstring) (parts : list jsstring) : jsstring :=
  match parts with
  | [] => []
  | [p] => p
  | p :: r => p ++ sep ++ join sep r
  end.

(** The line feed. *)
Definition LF : N := 10%N.

(** The text of an object or an array from the texts of its members,
    [open] and [close] being its brackets and [gap] the indentation
    unit. *)
Definition wrap (gap : jsstring) (open close : N) (stepback : jsstring)
  (partial : list jsstring) : jsstring :=
  match partial with
  | [] => [open; close]
  | _ =>
    if truthy gap then
      let indent := stepback ++ gap in
      [open] ++ [LF] ++ indent ++ join ([ch ","; LF] ++ indent) partial
      ++ [LF] ++ stepback ++ [close]
    else [open] ++ join [ch ","] partial ++ [close]
  end.

(** [SerializeJSONProperty]: [None] is the [undefined] a property of
    that value is skipped for, and an element of that value is written
    [null] for. *)
Fixpoint serialize (gap indent : jsstring) (v : value) : option jsstring :=
  match v with
  | VUndefined => None
  | VNull => Some (js "null")
  | VBool true => Some (js "true")
  | VBool false => Some (js "false")
  | VNumber x =>
    Some (if PrimFloat.is_finite x then Number_toString x else js "null")
  | VString s => Some (quote s)
  | VArray items =>
    let element v :=
      match serialize gap (indent ++ gap) v with
      | Some str => str
      | None => js "null"
      end in
    Some (wrap gap (ch "[") (ch "]") indent (map element items))
  | VObject props =>
    let member p :=
      match serialize gap (indent ++ gap) (snd p) with
      | Some str =>
        [quote (fst p) ++ (if truthy gap then js ": " else js ":") ++ str]
      | None => []
      end in
    Some (wrap gap (ch "{") (ch "}") indent (flat_map member props))
  end.

(** [JSON.stringify(value, null, gap)] for a gap of spaces: [None] is
    [undefined]. *)
Definition stringify (gap : jsstring) (v : value) : option jsstring :=
  serialize gap [] v.

(** ** [JSON.parse] *)

Definition isJSONSpace (c : N) : bool :=
  ((c =? 32) || (c =? 9) || (c =? 10) || (c =? 13))%N.

Definition skipSpace (s : jsstring) : jsstring := dropWhile isJSONSpace s.

Definition hexValue (c : N) : option N :=
  if isDigit c then Some (c - 48)%N
  else if ((97 <=? c) && (c <=? 102))%N then Some (c - 87)%N
  else if ((65 <=? c) && (c <=? 70))%N then Some (c - 55)%N
  else None.

(** The rest of a string literal after its opening quote: the string,
    and what follows the closing quote. *)
Fixpoint parseString (s : jsstring) : option (jsstring * jsstring) :=
  match s with
  | [] => None
  | c :: r =>
    if (c =? QUOTE)%N then Some ([], r)
    else if (c =? ch "\")%N then
      match r with
      | [] => None
      | e :: r1 =>
        let simple (u : N) :=
          match parseString r1 with
          | Some (str, rest) => Some (u :: str, rest)
          | None => None
          end in
        if (e =? QUOTE)%N then simple QUOTE
        else if (e =? ch "\")%N then simple (ch "\")
        else if (e =? ch "/")%N then simple (ch "/")
        else if (e =? ch "b")%N then simple 8%N
        else if (e =? ch "f")%N then simple 12%N
        else if (e =? ch "n")%N then simple 10%N
        else if (e =? ch "r")%N then simple 13%N
        else if (e =? ch "t")%N then simple 9%N
        else if (e =? ch "u")%N then
          match r1 with
          | h1 :: h2 :: h3 :: h4 :: r2 =>
            match hexValue h1, hexValue h2, hexValue h3, hexValue h4 with
            | Some a, Some b, Some c', Some d =>
              match parseString r2 with
              | Some (str, rest) =>
                Some ((a * 4096 + b * 256 + c' * 16 + d)%N :: str, rest)
              | None => None
              end
            | _, _, _, _ => None
            end
          | _ => None
          end
        else None
      end
    else if (c <? 32)%N then None
    else
      match parseString r with
      | Some (str, rest) => Some (c :: str, rest)
      | None => None
      end
  end.

(** The units a JSON number is written with. *)
Definition isNumberUnit (c : N) : bool :=
  (isDigit c || (c =? ch "-") || (c =? ch "+") || (c =? ch ".")
   || (c =? ch "e") || (c =? ch "E"))%N.

(** The exponent part of a JSON number, which must be all of [s]. *)
Definition readExponent (s : jsstring) : option Z :=
  match s with
  | [] => Some 0
  | c :: r =>
    if ((c =? ch "e") || (c =? ch "E"))%N then
      let '(eneg, ds) :=
        match r with
        | c' :: r' =>
          if (c' =? ch "-")%N then (true, r')
          else if (c' =? ch "+")%N then (false, r')
          else (false, r)
        | [] => (false, r)
        end in
      match ds with
      | [] => None
      | _ =>
        if forallb isDigit ds
        then Some (if eneg then - digitsValue ds else digitsValue ds)
        else None
      end
    else None
  end.

(** The number a token denotes when it is a JSON number: an optional
    minus sign; a zero, or digits that do not start with a zero; an
    optional fraction of a dot and digits; an optional exponent. *)
Definition readNumber (tok : jsstring) : option number :=
  let '(neg, u) :=
    match tok with
    | c :: r => if (c =? ch "-")%N then (true, r) else (false, tok)
    | [] => (false, tok)
    end in
  let ip := takeWhile isDigit u in
  let r1 := dropWhile isDigit u in
  match ip with
  | [] => None
  | d :: ip' =>
    if (d =? ch "0")%N && negb (match ip' with [] => true | _ => false end)
    then None
    else
      match r1 with
      | c :: r2 =>
        if (c =? ch ".")%N then
          let fp := takeWhile isDigit r2 in
          let r3 := dropWhile isDigit r2 in
          match fp with
          | [] => None
          | _ =>
            match readExponent r3 with
            | Some e =>
              Some (decimalNumber neg (ip ++ fp)
                      (e - Z.of_nat (List.length fp)))
            | None => None
            end
          end
        else
          match readExponent r1 with
          | Some e => Some (decimalNumber neg ip e)
          | None => None
          end
      | [] => Some (decimalNumber neg ip 0)
      end
  end.

(** An array index: the canonical numeral of an integer below
    [2^32 - 1].  Such keys are enumerated first, in ascending order. *)
Definition arrayIndex (k : jsstring) : option Z :=
  match k with
  | [] => None
  | d :: r =>
    if forallb isDigit k
       && ((negb (d =? ch "0")%N) || match r with [] => true | _ => false end)
       && (digitsValue k <? 4294967295)
    then Some (digitsValue k)
    else None
  end.

(** [CreateDataProperty]: an existing property keeps its place and takes
    the new value; a new array index goes in ascending order among the
    indices at the front; any other new key goes last. *)
Fixpoint defineProperty (k : jsstring) (v : value)
  (props : list (jsstring * value)) : list (jsstring * value) :=
  match props with
  | [] => [(k, v)]
  | (k', v') :: r =>
    if eqb k' k then (k, v) :: r
    else
      match arrayIndex k, arrayIndex k' with
      | Some i, Some i' =>
        if i <? i' then
          if existsb (fun p => eqb (fst p) k) r
          then (k', v') :: defineProperty k v r
          else (k, v) :: props
        else (k', v') :: defineProperty k v r
      | Some _, None =>
        if existsb (fun p => eqb (fst p) k) r
        then (k', v') :: defineProperty k v r
        else (k, v) :: props
      | None, _ => (k', v') :: defineProperty k v r
      end
  end.

Definition expect (c : N) (s : jsstring) : option jsstring :=
  match s with
  | c' :: r => if (c' =? c)%N then Some r else None
  | [] => None
  end.

(** The recursive descent of [JSON.parse]: a value at the front of [s]
    and what follows it.  [fuel] bounds the number of values, members and
    elements read; the length of the text always suffices. *)
Fixpoint parseValue (fuel : nat) (s : jsstring)
  : option (value * jsstring) :=
  match fuel with
  | O => None
  | S fuel' =>
    match skipSpace s with
    | [] => None
    | c :: r =>
      if (c =? ch "{")%N then
        match skipSpace r with
        | c' :: r' =>
          if (c' =? ch "}")%N then Some (VObject [], r')
          else parseMembers fuel' (c' :: r') []
        | [] => None
        end
      else if (c =? ch "[")%N then
        match skipSpace r with
        | c' :: r' =>
          if (c' =? ch "]")%N then Some (VArray [], r')
          else parseElements fuel' (c' :: r') []
        | [] => None
        end
      else if (c =? QUOTE)%N then
        match parseString r with
        | Some (str, rest) => Some (VString str, rest)
        | None => None
        end
      else if startsWith (c :: r) (js "true")
      then Some (VBool true, skipn 4 (c :: r))
      else if startsWith (c :: r) (js "false")
      then Some (VBool false, skipn 5 (c :: r))
      else if startsWith (c :: r) (js "null")
      then Some (VNull, skipn 4 (c :: r))
      else
        match readNumber (takeWhile isNumberUnit (c :: r)) with
        | Some x => Some (VNumber x, dropWhile isNumberUnit (c :: r))
        | None => None
        end
    end
  end

with parseMembers (fuel : nat) (s : jsstring)
  (acc : list (jsstring * value)) : option (value * jsstring) :=
  match fuel with
  | O => None
  | S fuel' =>
    match expect QUOTE (skipSpace s) with
    | None => None
    | Some r =>
      match parseString r with
      | None => None
      | Some (k, r1) =>
        match expect (ch ":") (skipSpace r1) with
        | None => None
        | Some r2 =>
          match parseValue fuel' r2 with
          | None => None
          | Some (v, r3) =>
            match skipSpace r3 with
            | c :: r4 =>
              if (c =? ch ",")%N
              then parseMembers fuel' r4 (defineProperty k v acc)
              else if (c =? ch "}")%N
              then Some (VObject (defineProperty k v acc), r4)
              else None
            | [] => None
            end
          end
        end
      end
    end
  end

with parseElements (fuel : nat) (s : jsstring) (acc : list value)
  : option (value * jsstring) :=
  match fuel with
  | O => None
  | S fuel' =>
    match parseValue fuel' s with
    | None => None
    | Some (v, r) =>
      match skipSpace r with
      | c :: r' =>
        if (c =? ch ",")%N then parseElements fuel' r' (acc ++ [v])
        else if (c =? ch "]")%N then Some (VArray (acc ++ [v]), r')
        else None
      | [] => None
      end
    end
  end.

(** [JSON.parse(text)]: [None] where it throws a [SyntaxError]. *)
Definition parse (text : jsstring) : option value :=
  match parseValue (S (List.length text)) text with
  | Some (v, rest) =>
    match skipSpace rest with
    | [] => Some v
    | _ => None
    end
  | None => None
  end.

(** [obj.key] on a parsed value, own properties only: [undefined] where
    there is none; [None] where reading throws ([null]). *)
Definition getProperty (v : value) (key : jsstring) : option value :=
  match v with
  | VNull | VUndefined => None
  | VObject props =>
    match find (fun p => eqb (fst p) key) props with
    | Some (_, x) => Some x
    | None => Some VUndefined
    end
  | _ => Some VUndefined
  end.

(** [ToBoolean]. *)
Definition toBoolean (v : value) : bool :=
  match v with
  | VUndefined | VNull => false
  | VBool b => b
  | VNumber x => negb (isNaN x || PrimFloat.eqb x 0)
  | VString s => truthy s
  | VArray _ | VObject _ => true
  end.

End JSON.

(* ================================================================== *)
(** * src/storage/index.ts: export and import *)
(* ================================================================== *)

Module Storage.
Import Data JSON.

Definition STORAGE_KEY : jsstring := js "finance-dashboard-data".

(** [localStorage]: the strings stored, by key. *)
Definition LocalStorage := list (jsstring * jsstring).

Definition setItem (key val : jsstring) (store : LocalStorage)
  : LocalStorage :=
  (key, val) :: filter (fun p => negb (eqb (fst p) key)) store.

(** ** The objects an [AppData] is at run time

    A property is present exactly when the record holds a value for
    it. *)

Definition Currency_value (c : Currency) : value :=
  VString (match c with USD => js "USD" | PLN => js "PLN" end).

Definition TransactionType_value (t : TransactionType) : value :=
  VString (match t with income => js "income" | expense => js "expense" end).

Definition RecurringInterval_value (i : RecurringInterval) : value :=
  VString (match i with
           | weekly => js "weekly"
           | monthly => js "monthly"
           | yearly => js "yearly"
           end).

Definition optional {A} (key : jsstring) (f : A -> value) (o : option A)
  : list (jsstring * value) :=
  match o with
  | Some a => [(key, f a)]
  | None => []
  end.

Definition Transaction_value (t : Transaction number) : value :=
  VObject
    ([ (js "id", VString (id t));
       (js "type", TransactionType_value (type t));
       (js "amount", VNumber (amount t));
       (js "currency", Currency_value (currency t));
       (js "category", VString (Category_name (category t)));
       (js "description", VString (description t));
       (js "date", VString (date t)) ]
     ++ optional (js "exchangeRateAtTime") VNumber (exchangeRateAtTime t)
     ++ optional (js "recurring") VBool (recurring t)
     ++ optional (js "recurringInterval") RecurringInterval_value
          (recurringInterval t)).

Definition Debt_value (d : Debt) : value :=
  VObject
    ([ (js "id", VString (debt_id d));
       (js "name", VString (debt_name d));
       (js "totalAmount", VNumber (totalAmount d));
       (js "paidAmount", VNumber (paidAmount d));
       (js "currency", Currency_value (debt_currency d)) ]
     ++ optional (js "interestRate") VNumber (interestRate d)
     ++ optional (js "dueDate") VString (dueDate d)
     ++ optional (js "minimumPayment") VNumber (minimumPayment d)).

Definition SavingsGoal_value (g : SavingsGoal) : value :=
  VObject
    ([ (js "id", VString (goal_id g));
       (js "name", VString (goal_name g));
       (js "targetAmount", VNumber (targetAmount g));
       (js "currentAmount", VNumber (currentAmount g));
       (js "currency", Currency_value (goal_currency g)) ]
     ++ optional (js "deadline") VString (deadline g)).

Definition UserSettings_value (u : UserSettings) : value :=
  VObject
    ([ (js "primaryCurrency", Currency_value (primaryCurrency u));
       (js "exchangeRate", VNumber (exchangeRate u));
       (js "autoExchangeRate", VBool (autoExchangeRate u)) ]
     ++ optional (js "monthlyBudget") VNumber (monthlyBudget u)).

Definition AppData_value (data : AppData) : value :=
  VObject
    [ (js "transactions", VArray (map Transaction_value (transactions data)));
      (js "debts", VArray (map Debt_value (debts data)));
      (js "savingsGoals",
       VArray (map SavingsGoal_value (savingsGoals data)));
      (js "settings", UserSettings_value (settings data)) ].

(** ** Reading a value as an [AppData], field by field *)

Definition bind {A B} (o : option A) (f : A -> option B) : option B :=
  match o with
  | Some a => f a
  | None => None
  end.

#[local] Notation "x <- o ;; k" := (bind o (fun x => k))
  (at level 61, o at next level, right associativity).

Definition lookup (props : list (jsstring * value)) (key : jsstring)
  : option value :=
  match find (fun p => eqb (fst p) key) props with
  | Some (_, v) => Some v
  | None => None
  end.

Definition asString (v : value) : option jsstring :=
  match v with VString s => Some s | _ => None end.

Definition asNumber (v : value) : option number :=
  match v with VNumber x => Some x | _ => None end.

Definition asBool (v : value) : option bool :=
  match v with VBool b => Some b | _ => None end.

Definition asEnum {A} (all : list A) (name : A -> value) (v : value)
  : option A :=
  s <- asString v ;;
  find (fun a => match name a with
                 | VString s' => eqb s' s
                 | _ => false
                 end) all.

Definition asCurrency : value -> option Currency :=
  asEnum [USD; PLN] Currency_value.

Definition asTransactionType : value -> option TransactionType :=
  asEnum [income; expense] TransactionType_value.

Definition asRecurringInterval : value -> option RecurringInterval :=
  asEnum [weekly; monthly; yearly] RecurringInterval_value.

Definition asCategory : value -> option Category :=
  asEnum [Salary; Freelance; Investment; Rental; Gift; OtherIncome;
          Housing; Transportation; Food; Utilities; Healthcare; Insurance;
          Entertainment; Shopping; Education; Personal; Subscriptions;
          DebtPayment; Other]
    (fun c => VString (Category_name c)).

(** A required property. *)
Definition field {A} (props : list (jsstring * value)) (key : jsstring)
  (read : value -> option A) : option A :=
  v <- lookup props key ;; read v.

(** An optional property: absent or [undefined], or of the type. *)
Definition optionalField {A} (props : list (jsstring * value))
  (key : jsstring) (read : value -> option A) : option (option A) :=
  match lookup props key with
  | None | Some VUndefined => Some None
  | Some v => a <- read v ;; Some (Some a)
  end.

Definition asObject (v : value) : option (list (jsstring * value)) :=
  match v with VObject props => Some props | _ => None end.

Fixpoint asArray {A} (read : value -> option A) (items : list value)
  : option (list A) :=
  match items with
  | [] => Some []
  | v :: r => a <- read v ;; l <- asArray read r ;; Some (a :: l)
  end.

Definition asArrayOf {A} (read : value -> option A) (v : value)
  : option (list A) :=
  match v with VArray items => asArray read items | _ => None end.

Definition asTransaction (v : value) : option (Transaction number) :=
  p <- asObject v ;;
  id <- field p (js "id") asString ;;
  type <- field p (js "type") asTransactionType ;;
  amount <- field p (js "amount") asNumber ;;
  currency <- field p (js "currency") asCurrency ;;
  category <- field p (js "category") asCategory ;;
  description <- field p (js "description") asString ;;
  date <- field p (js "date") asString ;;
  rate <- optionalField p (js "exchangeRateAtTime") asNumber ;;
  recurring <- optionalField p (js "recurring") asBool ;;
  interval <- optionalField p (js "recurringInterval") asRecurringInterval ;;
  Some {| id := id; type := type; amount := amount; currency := currency;
          category := category; description := description; date := date;
          exchangeRateAtTime := rate; recurring := recurring;
          recurringInterval := interval |}.

Definition asDebt (v : value) : option Debt :=
  p <- asObject v ;;
  id <- field p (js "id") asString ;;
  name <- field p (js "name") asString ;;
  total <- field p (js "totalAmount") asNumber ;;
  paid <- field p (js "paidAmount") asNumber ;;
  currency <- field p (js "currency") asCurrency ;;
  rate <- optionalField p (js "interestRate") asNumber ;;
  due <- optionalField p (js "dueDate") asString ;;
  minimum <- optionalField p (js "minimumPayment") asNumber ;;
  Some {| debt_id := id; debt_name := name; totalAmount := total;
          paidAmount := paid; debt_currency := currency;
          interestRate := rate; dueDate := due; minimumPayment := minimum |}.

Definition asSavingsGoal (v : value) : option SavingsGoal :=
  p <- asObject v ;;
  id <- field p (js "id") asString ;;
  name <- field p (js "name") asString ;;
  target <- field p (js "targetAmount") asNumber ;;
  current <- field p (js "currentAmount") asNumber ;;
  currency <- field p (js "currency") asCurrency ;;
  deadline <- optionalField p (js "deadline") asString ;;
  Some {| goal_id := id; goal_name := name; targetAmount := target;
          currentAmount := current; goal_currency := currency;
          deadline := deadline |}.

Definition asUserSettings (v : value) : option UserSettings :=
  p <- asObject v ;;
  primary <- field p (js "primaryCurrency") asCurrency ;;
  rate <- field p (js "exchangeRate") asNumber ;;
  auto <- field p (js "autoExchangeRate") asBool ;;
  budget <- optionalField p (js "monthlyBudget") asNumber ;;
  Some {| primaryCurrency := primary; exchangeRate := rate;
          autoExchangeRate := auto; monthlyBudget := budget |}.

Definition asAppData (v : value) : option AppData :=
  p <- asObject v ;;
  transactions <- field p (js "transactions") (asArrayOf asTransaction) ;;
  debts <- field p (js "debts") (asArrayOf asDebt) ;;
  goals <- field p (js "savingsGoals") (asArrayOf asSavingsGoal) ;;
  settings <- field p (js "settings") asUserSettings ;;
  Some {| transactions := transactions; debts := debts;
          savingsGoals := goals; settings := settings |}.

(** ** The functions of the source *)

(** [JSON.stringify] of an object is never [undefined]. *)
Definition text (o : option jsstring) : jsstring :=
  match o with Some s => s | None => [] end.

Definition saveData (data : value) (store : LocalStorage) : LocalStorage :=
  setItem STORAGE_KEY (text (stringify [] data)) store.

Definition exportData (data : AppData) : jsstring :=
  text (stringify (js "  ") (AppData_value data)).

(** [importData(json)]: what it returns ([None] for [null]) and the
    store it leaves.  The [catch] covers the [SyntaxError] of
    [JSON.parse] and the [TypeError] of reading a property of [null]. *)
Definition importData (json : jsstring) (store : LocalStorage)
  : option value * LocalStorage :=
  match parse json with
  | None => (None, store)
  | Some parsed =>
    match getProperty parsed (js "transactions") with
    | None => (None, store)
    | Some transactions =>
      let both :=
        if toBoolean transactions
        then match getProperty parsed (js "settings") with
             | Some settings => settings
             | None => VUndefined
             end
        else transactions in
      if toBoolean both then (Some parsed, saveData parsed store)
      else (None, store)
    end
  end.

End Storage.

(* ================================================================== *)
(** * src/storage/index.ts: loading and editing the dataset *)
(* ================================================================== *)

Module StorageOps.
Import Data JSON Storage.

(** [localStorage.getItem(key)]: [None] is [null]. *)
Definition getItem (key : jsstring) (store : LocalStorage)
  : option jsstring :=
  match find (fun p => eqb (fst p) key) store with
  | Some (_, v) => Some v
  | None => None
  end.

(** [DEFAULT_DATA.settings]: [monthlyBudget] is an own property that
    holds [undefined]. *)
Definition DEFAULT_SETTINGS : list (jsstring * value) :=
  [ (js "primaryCurrency", VString (js "USD"));
    (js "exchangeRate", VNumber 4.05%float);
    (js "autoExchangeRate", VBool true);
    (js "monthlyBudget", VUndefined) ].

Definition DEFAULT_DATA : value :=
  VObject
    [ (js "transactions", VArray []);
      (js "debts", VArray []);
      (js "savingsGoals", VArray []);
      (js "settings", VObject DEFAULT_SETTINGS) ].

(** The elements of an array, or the units of a string, under their
    index keys. *)
Definition indexed (items : list value) : list (jsstring * value) :=
  combine (map (fun i => decimalDigits (Z.of_nat i))
             (seq 0 (List.length items)))
    items.

(** The own enumerable properties an object spread copies from a
    value, in the order it copies them. *)
Definition ownProperties (v : value) : list (jsstring * value) :=
  match v with
  | VObject props => props
  | VArray items => indexed items
  | VString s => indexed (map (fun c => VString [c]) s)
  | _ => []
  end.

(** [{ ...target, ...source }] for a [target] given by its properties. *)
Definition spread (target : list (jsstring * value)) (source : value)
  : list (jsstring * value) :=
  fold_left (fun acc p => defineProperty (fst p) (snd p) acc)
    (ownProperties source) target.

(** [a || b] on values. *)
Definition orValue (a b : value) : value :=
  if toBoolean a then a else b.

(** [loadData()].  The [catch] covers the [SyntaxError] of
    [JSON.parse] and the [TypeError] of reading a property of [null]. *)
Definition loadData (store : LocalStorage) : value :=
  match getItem STORAGE_KEY store with
  | None => DEFAULT_DATA
  | Some raw =>
    if negb (truthy raw) then DEFAULT_DATA
    else
      match parse raw with
      | None => DEFAULT_DATA
      | Some parsed =>
        match getProperty parsed (js "transactions"),
              getProperty parsed (js "debts"),
              getProperty parsed (js "savingsGoals"),
              getProperty parsed (js "settings") with
        | Some transactions, Some debts, Some savingsGoals, Some settings =>
          VObject
            [ (js "transactions", orValue transactions (VArray []));
              (js "debts", orValue debts (VArray []));
              (js "savingsGoals", orValue savingsGoals (VArray []));
              (js "settings", VObject (spread DEFAULT_SETTINGS settings)) ]
        | _, _, _, _ => DEFAULT_DATA
        end
      end
  end.

(** ** Transactions

    [uuid] is what [uuidv4()] returns at the call.  The transaction
    passed to [addTransaction] has no [id] of its own: the one of the
    record is replaced. *)

Definition addTransaction (uuid : jsstring) (data : AppData)
  (tx : Transaction number) (store : LocalStorage)
  : AppData * LocalStorage :=
  let updated :=
    {| transactions :=
         transactions data
         ++ [ {| id := uuid; type := type tx; amount := amount tx;
                 currency := currency tx; category := category tx;
                 description := description tx; date := date tx;
                 exchangeRateAtTime := exchangeRateAtTime tx;
                 recurring := recurring tx;
                 recurringInterval := recurringInterval tx |} ];
       debts := debts data;
       savingsGoals := savingsGoals data;
       settings := settings data |} in
  (updated, saveData (AppData_value updated) store).

Definition updateTransaction (data : AppData) (tx : Transaction number)
  (store : LocalStorage) : AppData * LocalStorage :=
  let updated :=
    {| transactions :=
         map (fun t => if eqb (id t) (id tx) then tx else t)
           (transactions data);
       debts := debts data;
       savingsGoals := savingsGoals data;
       settings := settings data |} in
  (updated, saveData (AppData_value updated) store).

Definition deleteTransaction (data : AppData) (id' : jsstring)
  (store : LocalStorage) : AppData * LocalStorage :=
  let updated :=
    {| transactions :=
         filter (fun t => negb (eqb (id t) id')) (transactions data);
       debts := debts data;
       savingsGoals := savingsGoals data;
       settings := settings data |} in
  (updated, saveData (AppData_value updated) store).

(** ** Debts *)

Definition addDebt (uuid : jsstring) (data : AppData) (debt : Debt)
  (store : LocalStorage) : AppData * LocalStorage :=
  let updated :=
    {| transactions := transactions data;
       debts :=
         debts data
         ++ [ {| debt_id := uuid; debt_name := debt_name debt;
                 totalAmount := totalAmount debt;
                 paidAmount := paidAmount debt;
                 debt_currency := debt_currency debt;
                 interestRate := interestRate debt;
                 dueDate := dueDate debt;
                 minimumPayment := minimumPayment debt |} ];
       savingsGoals := savingsGoals data;
       settings := settings data |} in
  (updated, saveData (AppData_value updated) store).

Definition updateDebt (data : AppData) (debt : Debt)
  (store : LocalStorage) : AppData * LocalStorage :=
  let updated :=
    {| transactions := transactions data;
       debts :=
         map (fun d => if eqb (debt_id d) (debt_id debt) then debt else d)
           (debts data);
       savingsGoals := savingsGoals data;
       settings := settings data |} in
  (updated, saveData (AppData_value updated) store).

Definition deleteDebt (data : AppData) (id' : jsstring)
  (store : LocalStorage) : AppData * LocalStorage :=
  let updated :=
    {| transactions := transactions data;
       debts := filter (fun d => negb (eqb (debt_id d) id')) (debts data);
       savingsGoals := savingsGoals data;
       settings := settings data |} in
  (updated, saveData (AppData_value updated) store).

(** ** Savings goals *)

Definition addSavingsGoal (uuid : jsstring) (data : AppData)
  (goal : SavingsGoal) (store : LocalStorage) : AppData * LocalStorage :=
  let updated :=
    {| transactions := transactions data;
       debts := debts data;
       savingsGoals :=
         savingsGoals data
         ++ [ {| goal_id := uuid; goal_name := goal_name goal;
                 targetAmount := targetAmount goal;
                 currentAmount := currentAmount goal;
                 goal_currency := goal_currency goal;
                 deadline := deadline goal |} ];
       settings := settings data |} in
  (updated, saveData (AppData_value updated) store).

Definition updateSavingsGoal (data : AppData) (goal : SavingsGoal)
  (store : LocalStorage) : AppData * LocalStorage :=
  let updated :=
    {| transactions := transactions data;
       debts := debts data;
       savingsGoals :=
         map (fun g => if eqb (goal_id g) (goal_id goal) then goal else g)
           (savingsGoals data);
       settings := settings data |} in
  (updated, saveData (AppData_value updated) store).

Definition deleteSavingsGoal (data : AppData) (id' : jsstring)
  (store : LocalStorage) : AppData * LocalStorage :=
  let updated :=
    {| transactions := transactions data;
       debts := debts data;
       savingsGoals :=
         filter (fun g => negb (eqb (goal_id g) id')) (savingsGoals data);
       settings := settings data |} in
  (updated, saveData (AppData_value updated) store).

(** ** Settings *)

(** [Partial<UserSettings>]: each key is present ([Some]) or absent;
    [monthlyBudget], when present, may hold [undefined]. *)
Record PartialUserSettings := {
  p_primaryCurrency : option Currency;
  p_exchangeRate : option number;
  p_autoExchangeRate : option bool;
  p_monthlyBudget : option (option number)
}.

(** [{ ...settings, ...partial }]. *)
Definition mergeSettings (u : UserSettings) (p : PartialUserSettings)
  : UserSettings :=
  {| primaryCurrency :=
       match p_primaryCurrency p with
       | Some c => c
       | None => primaryCurrency u
       end;
     exchangeRate :=
       match p_exchangeRate p with
       | Some r => r
       | None => exchangeRate u
       end;
     autoExchangeRate :=
       match p_autoExchangeRate p with
       | Some a => a
       | None => autoExchangeRate u
       end;
     monthlyBudget :=
       match p_monthlyBudget p with
       | Some b => b
       | None => monthlyBudget u
       end |}.

Definition updateSettings (data : AppData) (partial : PartialUserSettings)
  (store : LocalStorage) : AppData * LocalStorage :=
  let updated :=
    {| transactions := transactions data;
       debts := debts data;
       savingsGoals := savingsGoals data;
       settings := mergeSettings (settings data) partial |} in
  (updated, saveData (AppData_value updated) store).

End StorageOps.

(* ================================================================== *)
(** * src/utils/advisor.ts: expenses by category;
      src/pages/Dashboard.tsx: totals by currency *)
(* ================================================================== *)

Module Charts.
Import Currency Data.

(** [CATEGORY_COLORS[category]]. *)
Definition CATEGORY_COLORS (c : Category) : jsstring :=
  match c with
  | Housing => js "#6366f1" | Transportation => js "#8b5cf6"
  | Food => js "#ec4899" | Utilities => js "#f59e0b"
  | Healthcare => js "#ef4444" | Insurance => js "#f97316"
  | Entertainment => js "#10b981" | Shopping => js "#14b8a6"
  | Education => js "#3b82f6" | Personal => js "#a855f7"
  | Subscriptions => js "#06b6d4" | DebtPayment => js "#dc2626"
  | Other => js "#64748b" | Salary => js "#10b981"
  | Freelance => js "#34d399" | Investment => js "#6366f1"
  | Rental => js "#8b5cf6" | Gift => js "#f59e0b"
  | OtherIncome => js "#64748b"
  end.

(** A [Map] from categories to numbers, in insertion order. *)
Definition CategoryMap := list (Category * number).

Fixpoint Map_get (k : Category) (m : CategoryMap) : option number :=
  match m with
  | [] => None
  | (k', v) :: r => if Category_eqb k' k then Some v else Map_get k r
  end.

(** [m.set(k, v)]: an existing key keeps its place. *)
Fixpoint Map_set (k : Category) (v : number) (m : CategoryMap)
  : CategoryMap :=
  match m with
  | [] => [(k, v)]
  | (k', v') :: r =>
    if Category_eqb k' k then (k, v) :: r else (k', v') :: Map_set k v r
  end.

(** [x || 0] for [x] a number or [undefined]. *)
Definition orZero (o : option number) : number :=
  match o with
  | Some x => if isNaN x || PrimFloat.eqb x 0 then 0%float else x
  | None => 0%float
  end.

Record CategoryAmount := {
  slice_category : Category;
  slice_amount : number;
  slice_color : jsstring
}.

Section ExpensesByCategory.
Variable dateFields : Advisor.DateFields.
(** [arr.sort(comparefn)], the host's sorting of an array. *)
Variable sort :
  (CategoryAmount -> CategoryAmount -> number) ->
  list CategoryAmount -> list CategoryAmount.

(** The body of the loop of [getExpensesByCategory]. *)
Definition getExpensesByCategory_step (primaryCurrency : Types.Currency)
  (exchangeRate : number) (byCategory : CategoryMap)
  (t : Transaction number) : CategoryMap :=
  let rate := Advisor.rateOf t exchangeRate in
  let amount :=
    convertCurrency ieee (amount t) (currency t) primaryCurrency rate in
  Map_set (category t)
    (PrimFloat.add (orZero (Map_get (category t) byCategory)) amount)
    byCategory.

Definition getExpensesByCategory (transactions : list (Transaction number))
  (month year : Z) (primaryCurrency : Types.Currency)
  (exchangeRate : number) : list CategoryAmount :=
  let monthExpenses :=
    filter (fun t =>
              match type t with expense => true | income => false end
              && Advisor.inMonth dateFields month year t)
      transactions in
  let byCategory :=
    fold_left (getExpensesByCategory_step primaryCurrency exchangeRate)
      monthExpenses [] in
  sort (fun a b => PrimFloat.sub (slice_amount b) (slice_amount a))
    (map (fun e =>
            {| slice_category := fst e;
               slice_amount := snd e;
               slice_color :=
                 if truthy (CATEGORY_COLORS (fst e))
                 then CATEGORY_COLORS (fst e) else js "#64748b" |})
       byCategory).

End ExpensesByCategory.

(** The object [getCurrencyTotals] returns. *)
Record CurrencyTotals (num : Type) := {
  USD_income : num;
  USD_expenses : num;
  PLN_income : num;
  PLN_expenses : num
}.
Arguments USD_income {num}. Arguments USD_expenses {num}.
Arguments PLN_income {num}. Arguments PLN_expenses {num}.

Section CurrencyTotals.
Context {num : Type} (A : Arith num) (dateFields : Advisor.DateFields).

(** The body of the loop of [getCurrencyTotals]; a currency is never
    falsy, so [t.currency || 'USD'] is [t.currency]. *)
Definition getCurrencyTotals_step (month year : Z)
  (result : CurrencyTotals num) (t : Transaction num)
  : CurrencyTotals num :=
  if negb (Advisor.inMonth dateFields month year t) then result
  else
    match currency t, type t with
    | USD, income =>
      {| USD_income := add A (USD_income result) (amount t);
         USD_expenses := USD_expenses result;
         PLN_income := PLN_income result;
         PLN_expenses := PLN_expenses result |}
    | USD, expense =>
      {| USD_income := USD_income result;
         USD_expenses := add A (USD_expenses result) (amount t);
         PLN_income := PLN_income result;
         PLN_expenses := PLN_expenses result |}
    | PLN, income =>
      {| USD_income := USD_income result;
         USD_expenses := USD_expenses result;
         PLN_income := add A (PLN_income result) (amount t);
         PLN_expenses := PLN_expenses result |}
    | PLN, expense =>
      {| USD_income := USD_income result;
         USD_expenses := USD_expenses result;
         PLN_income := PLN_income result;
         PLN_expenses := add A (PLN_expenses result) (amount t) |}
    end.

Definition getCurrencyTotals (transactions : list (Transaction num))
  (month year : Z) : CurrencyTotals num :=
  fold_left (getCurrencyTotals_step month year) transactions
    {| USD_income := zero A; USD_expenses := zero A;
       PLN_income := zero A; PLN_expenses := zero A |}.

End CurrencyTotals.

End Charts.

(* ================================================================== *)
(** * The handlers of the pages that build what is stored *)
(* ================================================================== *)

(** A handler is given by what it passes to the callback of the
    application ([onAdd], [onUpdate], [onUpdateSettings]), [None] where
    it returns before the call; what it does to the state of its form
    is left out. *)
Module Pages.
Import PkoImport Data StorageOps.

(** [Math.min(a, b)]. *)
Definition Math_min (a b : number) : number :=
  if isNaN a || isNaN b then PrimFloat.nan
  else if PrimFloat.ltb a b then a
  else if PrimFloat.ltb b a then b
  else if PrimFloat.get_sign a then a else b.

(** [x || 0] on numbers. *)
Definition orZero (x : number) : number :=
  if isNaN x || PrimFloat.eqb x 0 then 0%float else x.

(** [s || undefined] on strings. *)
Definition orUndefined (s : jsstring) : option jsstring :=
  if truthy s then Some s else None.

(** ** src/pages/Savings.tsx *)

Record AddGoalForm := {
  form_name : jsstring;
  form_targetAmount : jsstring;
  form_currentAmount : jsstring;
  form_currency : Currency;
  form_deadline : jsstring
}.

(** [handleAddGoal]: the goal passed to [onAdd], without an id yet. *)
Definition handleAddGoal (form : AddGoalForm) : option SavingsGoal :=
  let target := parseFloat (form_targetAmount form) in
  let current := orZero (parseFloat (form_currentAmount form)) in
  if negb (truthy (trim (form_name form))) || isNaN target
     || PrimFloat.leb target 0
  then None
  else
    Some {| goal_id := [];
            goal_name := trim (form_name form);
            targetAmount := target;
            currentAmount := Math_min current target;
            goal_currency := form_currency form;
            deadline := orUndefined (form_deadline form) |}.

(** [handleAddFunds(goal)]: the goal passed to [onUpdate]. *)
Definition handleAddFunds (addFundsAmount : jsstring) (goal : SavingsGoal)
  : option SavingsGoal :=
  let amount := parseFloat addFundsAmount in
  if isNaN amount || PrimFloat.leb amount 0 then None
  else
    Some {| goal_id := goal_id goal;
            goal_name := goal_name goal;
            targetAmount := targetAmount goal;
            currentAmount :=
              Math_min (PrimFloat.add (currentAmount goal) amount)
                (targetAmount goal);
            goal_currency := goal_currency goal;
            deadline := deadline goal |}.

(** ** The debts page *)

(** [handleMakePayment(debt)]: the debt passed to [onUpdate];
    [paymentInputs] holds the amount typed for each debt id. *)
Definition handleMakePayment (paymentInputs : list (jsstring * jsstring))
  (debt : Debt) : option Debt :=
  let amount :=
    parseFloat (orElse (getItem (debt_id debt) paymentInputs) []) in
  if isNaN amount || PrimFloat.leb amount 0 then None
  else
    let newPaid :=
      Math_min (PrimFloat.add (paidAmount debt) amount) (totalAmount debt) in
    Some {| debt_id := debt_id debt;
            debt_name := debt_name debt;
            totalAmount := totalAmount debt;
            paidAmount := newPaid;
            debt_currency := debt_currency debt;
            interestRate := interestRate debt;
            dueDate := dueDate debt;
            minimumPayment := minimumPayment debt |}.

(** ** The transactions page *)

Record TransactionForm := {
  formType : TransactionType;
  formAmount : jsstring;
  formCurrency : Currency;
  formCategory : Category;
  formDescription : jsstring;
  formDate : jsstring;
  formExchangeRate : jsstring
}.

(** [handleSave]: the transaction passed to [onAdd], without an id
    yet. *)
Definition handleSave (form : TransactionForm)
  : option (Transaction number) :=
  let amount := parseFloat (formAmount form) in
  if negb (truthy (formAmount form)) || isNaN amount
     || PrimFloat.leb amount 0
  then None
  else if negb (truthy (formDate form)) then None
  else
    let exchangeRateAtTime :=
      match formCurrency form with
      | PLN =>
        let rate := parseFloat (formExchangeRate form) in
        if negb (isNaN rate) && PrimFloat.ltb 0 rate then Some rate
        else None
      | USD => None
      end in
    Some {| id := [];
            type := formType form;
            amount := amount;
            currency := formCurrency form;
            category := formCategory form;
            description := trim (formDescription form);
            date := formDate form;
            exchangeRateAtTime := exchangeRateAtTime;
            recurring := None;
            recurringInterval := None |}.

(** ** The settings page *)

(** [handleSaveSettings]: the settings passed to [onUpdateSettings],
    from the state of the form. *)
Definition handleSaveSettings (primaryCurrency : Currency)
  (exchangeRate monthlyBudget : jsstring) (autoRate : bool)
  : PartialUserSettings :=
  let rate := parseFloat exchangeRate in
  let budget :=
    if negb (eqb monthlyBudget []) then Some (parseFloat monthlyBudget)
    else None in
  {| p_primaryCurrency := Some primaryCurrency;
     p_exchangeRate := Some (if isNaN rate then 4.05%float else rate);
     p_autoExchangeRate := Some autoRate;
     p_monthlyBudget :=
       Some (match budget with
             | Some b => if isNaN b then None else Some b
             | None => None
             end) |}.

(** ** src/pages/BankImport.tsx: importing the selected rows *)

(** The loop of [handleImport], from row [i] on: the transactions
    passed to [onAdd], in order.  [selected] holds the indices of the
    selected rows, [categoryOverrides] the category chosen for a row. *)
Fixpoint handleImport_loop (selected : list nat)
  (categoryOverrides : nat -> option Category) (exchangeRate : number)
  (i : nat) (rows : list ParsedBankTransaction)
  : list (Transaction number) :=
  match rows with
  | [] => []
  | tx :: rest =>
    let others :=
      handleImport_loop selected categoryOverrides exchangeRate (S i) rest in
    if negb (existsb (Nat.eqb i) selected) then others
    else
      {| id := [];
         type := suggestedType tx;
         amount := tx_amount tx;
         currency := tx_currency tx;
         category :=
           match categoryOverrides i with
           | Some c => c
           | None => suggestedCategory tx
           end;
         description := tx_description tx;
         date := tx_date tx;
         exchangeRateAtTime :=
           match tx_currency tx with
           | PLN => Some exchangeRate
           | USD => None
           end;
         recurring := None;
         recurringInterval := None |} :: others
  end.

(** [handleImport]: the transactions added and their count. *)
Definition handleImport (result : ParseResult) (selected : list nat)
  (categoryOverrides : nat -> option Category) (exchangeRate : number)
  : list (Transaction number) * nat :=
  let added :=
    handleImport_loop selected categoryOverrides exchangeRate 0%nat
      (PkoImport.transactions result) in
  (added, List.length added).

(** [handleApplyMapping]: the parse result the page keeps after the
    rows are re-mapped. *)
Definition handleApplyMapping {SC : StringCase} (parseResult : ParseResult)
  (customMapping : ColumnMapping) : ParseResult :=
  {| headers := headers parseResult;
     PkoImport.transactions :=
       BankImport.remapTransactions parseResult customMapping;
     autoMapped := false;
     mapping := customMapping |}.

End Pages.

(* ================================================================== *)
(** * Vocabulary of the statements *)
(* ================================================================== *)

Module Spec.
Import PkoImport.

(** The number of fields [firstLine.split(d)] yields. *)
Definition fieldCount (firstLine : jsstring) (d : N) : nat :=
  List.length (split d firstLine).

Definition signPrefix (neg : bool) : jsstring :=
  if neg then js "-" else [].

Definition isDot : N -> bool := N.eqb (ch ".").

(** The dot-decimal writing of an amount: the form the normalizer
    reduces every other one to. *)
Definition dotDecimal (neg : bool) (ip fp : jsstring) : jsstring :=
  signPrefix neg ++ ip ++ js "." ++ fp.

Definition digits (s : jsstring) : Prop := forallb isDigit s = true.

(** The ways of writing the amount with sign [neg], integer digits [ip]
    and fraction digits [fp]: with a decimal dot; with a decimal comma;
    with a decimal comma and dots between the integer digits; and any of
    these with white space put anywhere. *)
Inductive AmountNotation (neg : bool) (ip fp : jsstring)
  : jsstring -> Prop :=
  | dot_decimal :
      AmountNotation neg ip fp (dotDecimal neg ip fp)
  | comma_decimal :
      AmountNotation neg ip fp (signPrefix neg ++ ip ++ js "," ++ fp)
  | mixed (g : jsstring) :
      removeAll isDot g = ip ->
      AmountNotation neg ip fp (signPrefix neg ++ g ++ js "," ++ fp)
  | spaced (s s' : jsstring) :
      AmountNotation neg ip fp s ->
      removeAll isWhiteSpace s' = s ->
      AmountNotation neg ip fp s'.

(** Left-to-right sum, the way the aggregator accumulates. *)
Definition sumList {num} (A : Arith num) (l : list num) : num :=
  fold_left (add A) l (zero A).

(** The amount of a transaction in the primary currency, at the rate the
    transaction carries or else at the fallback rate. *)
Definition convertedAmount {num} (A : Arith num)
  (primaryCurrency : Types.Currency) (fallback : num)
  (t : Data.Transaction num) : num :=
  Currency.convertCurrency A (Data.amount t) (Data.currency t)
    primaryCurrency
    (match Data.exchangeRateAtTime t with
     | Some r => r
     | None => fallback
     end).

Definition isIncome {num} (t : Data.Transaction num) : bool :=
  match Data.type t with income => true | expense => false end.

Definition isExpense {num} (t : Data.Transaction num) : bool :=
  match Data.type t with income => false | expense => true end.

Inductive Bucket := ToNeeds | ToWants | ToDebt.

(** The bucket an expense of a category is added to. *)
Definition bucketOf (c : Category) : Bucket :=
  match c with
  | DebtPayment => ToDebt
  | Housing | Transportation | Food | Utilities | Healthcare | Insurance =>
    ToNeeds
  | _ => ToWants
  end.

Definition Bucket_eqb (a b : Bucket) : bool :=
  match a, b with
  | ToNeeds, ToNeeds | ToWants, ToWants | ToDebt, ToDebt => true
  | _, _ => false
  end.

Definition inBucket {num} (b : Bucket) (t : Data.Transaction num)
  : bool :=
  isExpense t && Bucket_eqb (bucketOf (Data.category t)) b.

(** A transaction of 15 January 2025. *)
Definition january15 {num} (ty : TransactionType) (a : num)
  (c : Types.Currency) (cat : Category) (rate : option num)
  : Data.Transaction num :=
  {| Data.id := js "tx-1"; Data.type := ty; Data.amount := a;
     Data.currency := c; Data.category := cat; Data.description := [];
     Data.date := js "2025-01-15"; Data.exchangeRateAtTime := rate;
     Data.recurring := None; Data.recurringInterval := None |}.

(** Whether the re-mapping keeps a parsed transaction. *)
Definition remapKeeps {SC : StringCase} (mapping : PkoImport.ColumnMapping)
  (tx : PkoImport.ParsedBankTransaction) : bool :=
  match BankImport.remapTransactions_row mapping tx with
  | Some _ => true
  | None => false
  end.

(** A number the host writes in decimal and reads back as itself: a
    finite number other than negative zero. *)
Definition readsBack (x : number) : bool :=
  PrimFloat.is_finite x
  && forallb JSON.isNumberUnit (JSON.Number_toString x)
  && match JSON.readNumber (JSON.Number_toString x) with
     | Some y => PrimFloat.Leibniz.eqb y x
     | None => false
     end.

(** A key that is not an array index. *)
Definition plainKey (k : jsstring) : bool :=
  match JSON.arrayIndex k with
  | None => true
  | Some _ => false
  end.

Fixpoint distinct (ks : list jsstring) : bool :=
  match ks with
  | [] => true
  | k :: r => negb (existsb (eqb k) r) && distinct r
  end.

(** The values JSON text holds as they are: no [undefined], numbers that
    read back, and objects whose keys are distinct and no array
    indices. *)
Fixpoint jsonClean (v : JSON.value) : bool :=
  match v with
  | JSON.VUndefined => false
  | JSON.VNull | JSON.VBool _ | JSON.VString _ => true
  | JSON.VNumber x => readsBack x
  | JSON.VArray items => forallb jsonClean items
  | JSON.VObject props =>
    forallb (fun p => jsonClean (snd p)) props
    && forallb plainKey (map fst props)
    && distinct (map fst props)
  end.

(** The fuel that suffices to parse the text of a value. *)
Fixpoint cost (v : JSON.value) : nat :=
  match v with
  | JSON.VArray items => S (list_sum (map (fun x => S (cost x)) items))
  | JSON.VObject props =>
    S (list_sum (map (fun p => S (cost (snd p))) props))
  | _ => 1
  end.

(** The numbers of a dataset. *)
Definition optionalNumber (o : option number) : list number :=
  match o with Some x => [x] | None => [] end.

Definition AppData_numbers (d : Data.AppData) : list number :=
  flat_map (fun t => Data.amount t
                     :: optionalNumber (Data.exchangeRateAtTime t))
    (Data.transactions d)
  ++ flat_map (fun b => Data.totalAmount b :: Data.paidAmount b
                        :: optionalNumber (Data.interestRate b)
                        ++ optionalNumber (Data.minimumPayment b))
       (Data.debts d)
  ++ flat_map (fun g => [Data.targetAmount g; Data.currentAmount g])
       (Data.savingsGoals d)
  ++ Data.exchangeRate (Data.settings d)
     :: optionalNumber (Data.monthlyBudget (Data.settings d)).

(** An indentation of [n] spaces. *)
Definition spaces (n : nat) : jsstring := repeat 32%N n.

(** The indentation unit [exportData] passes. *)
Definition gap2 : jsstring := js "  ".

(** A text that starts a value: it does not start with white space or
    with a closing bracket. *)
Definition headOk (t : jsstring) : bool :=
  match t with
  | c :: _ => negb (JSON.isJSONSpace c) && negb (c =? ch "]")%N
  | [] => false
  end.

(** What may follow the text of a value: nothing, or a unit no number
    is written with. *)
Definition restOk (rest : jsstring) : bool :=
  match rest with
  | c :: _ => negb (JSON.isNumberUnit c)
  | [] => true
  end.

(** The text of a value is parsed back as the value, whatever the
    indentation it is written at and whatever follows it. *)
Definition roundTrips (v : JSON.value) : Prop :=
  jsonClean v = true ->
  forall n : nat,
    exists t,
      JSON.serialize gap2 (spaces n) v = Some t
      /\ headOk t = true
      /\ (cost v <= List.length t)%nat
      /\ forall fuel rest,
           (cost v <= fuel)%nat -> restOk rest = true ->
           JSON.parseValue fuel (t ++ rest) = Some (v, rest).

(** ** Vocabulary of the further properties *)

(** A text written in Basic Latin: every code unit is below 128.  On
    such a text the host's [toLowerCase] and [toUpperCase] are
    [asciiCase]. *)
Definition basicLatin (s : jsstring) : bool :=
  forallb (fun u => (u <? 128)%N) s.

(** The lines [parseCSV] keeps: those that are not blank. *)
Definition nonBlankLines (csvText : jsstring) : list jsstring :=
  filter (fun l => (0 <? List.length (trim l))%nat) (splitLines csvText).

(** What [parseCSV] returns when there is no data line. *)
Definition emptyResult : ParseResult :=
  {| headers := []; transactions := []; autoMapped := false;
     mapping := {| date := 0; amount := 1; description := 2;
                   currency := -1; counterparty := -1 |} |}.

(** A field written between double quotes, its own double quotes
    doubled. *)
Definition csvQuote (field : jsstring) : jsstring :=
  [QUOTE] ++ flat_map (fun c => if (c =? QUOTE)%N then [QUOTE; QUOTE]
                                else [c]) field
  ++ [QUOTE].

(** The text with every line feed written as carriage return and line
    feed. *)
Definition toCRLF (s : jsstring) : jsstring :=
  flat_map (fun c => if (c =? 10)%N then [13%N; 10%N] else [c]) s.

(** The keywords of the fallback that the keyword table of the importer
    holds too. *)
Definition sharedKeywords : list jsstring :=
  [js "wynagrodzenie"; js "salary"; js "pensja"; js "biedronka"; js "lidl";
   js "restaurant"; js "mcdonalds"; js "kfc"; js "czynsz"; js "wynajem";
   js "rent"; js "hipoteka"; js "uber"; js "bolt"; js "orlen"; js "paliwo";
   js "pkp"; js "pge"; js "tauron"; js "internet"; js "orange";
   js "netflix"; js "spotify"; js "kino"; js "allegro"; js "amazon";
   js "zalando"; js "apteka"; js "medicover"; js "luxmed"].

(** A sorting of the kind [Array.prototype.sort] performs, used to run
    [getExpensesByCategory]: insertion from the right, an element going
    after those the comparison function puts it after. *)
Fixpoint insertBy {A} (cmp : A -> A -> number) (x : A) (l : list A)
  : list A :=
  match l with
  | [] => [x]
  | y :: r =>
    if PrimFloat.ltb 0 (cmp x y) then y :: insertBy cmp x r else x :: l
  end.

Definition insertionSort {A} (cmp : A -> A -> number) (l : list A)
  : list A :=
  fold_right (insertBy cmp) [] l.

(** The transactions [getCurrencyTotals] adds up under a currency and a
    type. *)
Definition ofCurrency {num} (c : Types.Currency) (ty : TransactionType)
  (t : Data.Transaction num) : bool :=
  Currency_eqb (Data.currency t) c
  && match Data.type t, ty with
     | income, income | expense, expense => true
     | _, _ => false
     end.

(** No transaction, debt or savings goal of the dataset has the id. *)
Definition freshId (uuid : jsstring) (data : Data.AppData) : bool :=
  forallb (fun t => negb (eqb (Data.id t) uuid)) (Data.transactions data)
  && forallb (fun d => negb (eqb (Data.debt_id d) uuid)) (Data.debts data)
  && forallb (fun g => negb (eqb (Data.goal_id g) uuid))
       (Data.savingsGoals data).

(** The transaction with the id replaced. *)
Definition withId (uuid : jsstring) (tx : Data.Transaction number)
  : Data.Transaction number :=
  {| Data.id := uuid; Data.type := Data.type tx;
     Data.amount := Data.amount tx; Data.currency := Data.currency tx;
     Data.category := Data.category tx;
     Data.description := Data.description tx; Data.date := Data.date tx;
     Data.exchangeRateAtTime := Data.exchangeRateAtTime tx;
     Data.recurring := Data.recurring tx;
     Data.recurringInterval := Data.recurringInterval tx |}.

(** The partial settings that hold no key. *)
Definition noSettings : StorageOps.PartialUserSettings :=
  {| StorageOps.p_primaryCurrency := None;
     StorageOps.p_exchangeRate := None;
     StorageOps.p_autoExchangeRate := None;
     StorageOps.p_monthlyBudget := None |}.

(** [{ ...p, ...q }] on partial settings. *)
Definition mergePartial (p q : StorageOps.PartialUserSettings)
  : StorageOps.PartialUserSettings :=
  let pick {A} (a b : option A) := match b with Some _ => b | None => a end in
  {| StorageOps.p_primaryCurrency :=
       pick (StorageOps.p_primaryCurrency p) (StorageOps.p_primaryCurrency q);
     StorageOps.p_exchangeRate :=
       pick (StorageOps.p_exchangeRate p) (StorageOps.p_exchangeRate q);
     StorageOps.p_autoExchangeRate :=
       pick (StorageOps.p_autoExchangeRate p)
         (StorageOps.p_autoExchangeRate q);
     StorageOps.p_monthlyBudget :=
       pick (StorageOps.p_monthlyBudget p) (StorageOps.p_monthlyBudget q) |}.

(** The text [JSON.stringify(v)] writes, without indentation, is parsed
    back as the value, whatever follows it. *)
Definition roundTripsCompact (v : JSON.value) : Prop :=
  jsonClean v = true ->
  exists t,
    JSON.serialize [] [] v = Some t
    /\ headOk t = true
    /\ (cost v <= List.length t)%nat
    /\ forall fuel rest,
         (cost v <= fuel)%nat -> restOk rest = true ->
         JSON.parseValue fuel (t ++ rest) = Some (v, rest).

(** ** Vocabulary of numbers in JSON text and of whole amounts *)

(** A number JSON text holds as it is: finite, and not negative zero. *)
Definition plainNumber (x : number) : bool :=
  PrimFloat.is_finite x && negb (PrimFloat.Leibniz.eqb x PrimFloat.neg_zero).

(** A number as JSON text holds it: [null] for [NaN] and the infinities,
    [0] for negative zero, and the number itself otherwise. *)
Definition writtenNumber (x : number) : JSON.value :=
  if PrimFloat.is_finite x
  then JSON.VNumber (if PrimFloat.eqb x 0 then 0%float else x)
  else JSON.VNull.

(** A value with its numbers as JSON text holds them. *)
Fixpoint written (v : JSON.value) : JSON.value :=
  match v with
  | JSON.VNumber x => writtenNumber x
  | JSON.VArray items => JSON.VArray (map written items)
  | JSON.VObject props =>
    JSON.VObject (map (fun p => (fst p, written (snd p))) props)
  | _ => v
  end.

(** The values whose shape JSON text holds as it is, whatever their
    numbers: no [undefined], and objects whose keys are distinct and no
    array indices. *)
Fixpoint wellKeyed (v : JSON.value) : bool :=
  match v with
  | JSON.VUndefined => false
  | JSON.VNull | JSON.VBool _ | JSON.VString _ | JSON.VNumber _ => true
  | JSON.VArray items => forallb wellKeyed items
  | JSON.VObject props =>
    forallb (fun p => wellKeyed (snd p)) props
    && forallb plainKey (map fst props)
    && distinct (map fst props)
  end.

(** [JSON.readNumber] after the sign. *)
Definition readUnsigned (neg : bool) (u : jsstring) : option number :=
  let ip := takeWhile isDigit u in
  let r1 := dropWhile isDigit u in
  match ip with
  | [] => None
  | d :: ip' =>
    if (d =? ch "0")%N && negb (match ip' with [] => true | _ => false end)
    then None
    else
      match r1 with
      | c :: r2 =>
        if (c =? ch ".")%N then
          let fp := takeWhile isDigit r2 in
          let r3 := dropWhile isDigit r2 in
          match fp with
          | [] => None
          | _ =>
            match JSON.readExponent r3 with
            | Some e =>
              Some (decimalNumber neg (ip ++ fp)
                      (e - Z.of_nat (List.length fp)))
            | None => None
            end
          end
        else
          match JSON.readExponent r1 with
          | Some e => Some (decimalNumber neg ip e)
          | None => None
          end
      | [] => Some (decimalNumber neg ip 0)
      end
  end.

(** An exponent part and the exponent it denotes: nothing, or [e], a
    sign and digits. *)
Definition exponentPart (ex : jsstring) (e : Z) : Prop :=
  (ex = [] /\ e = 0)
  \/ exists sign ds,
       ex = ch "e" :: sign :: ds
       /\ ds <> [] /\ forallb isDigit ds = true
       /\ ((sign = ch "-" /\ e = - digitsValue ds)
           \/ (sign = ch "+" /\ e = digitsValue ds)).

(** The double nearest to a whole number. *)
Definition wholeNumber (z : Z) : number :=
  SF2Prim (binary_normalize prec emax z 0 false).

(** The whole part of a double that is zero or positive, and zero for
    any other. *)
Definition wholePart (x : number) : Z :=
  match Prim2SF x with
  | S754_finite false m e =>
    if 0 <=? e then Zpos m * 2 ^ e else Zpos m / 2 ^ (- e)
  | _ => 0
  end.

(** A double that is a whole number, zero or positive. *)
Definition isWhole (x : number) : bool :=
  PrimFloat.Leibniz.eqb (wholeNumber (wholePart x)) x.

(** The sum of integers. *)
Definition sumZ (l : list Z) : Z := fold_right Z.add 0 l.

End Spec.

(* ================================================================== *)
(** * Properties of the date normalizer *)
(* ================================================================== *)

Section DateNormalizer.
Import PkoImport.

Lemma dropWhile_idem {A} (p : A -> bool) (l : list A) :
  dropWhile p (dropWhile p l) = dropWhile p l.
Proof.
  induction l as [|x r IH]; simpl; [reflexivity|].
  destruct (p x) eqn:Hx; [exact IH|].
  simpl. now rewrite Hx.
Qed.

Lemma dropWhile_snoc_stop {A} (p : A -> bool) (l : list A) (c : A) :
  p c = false -> dropWhile p (l ++ [c]) = dropWhile p l ++ [c].
Proof.
  intros Hc. induction l as [|x r IH]; simpl.
  - now rewrite Hc.
  - destruct (p x); [exact IH | reflexivity].
Qed.

(** A string that starts with a unit [trim] keeps still starts with it
    after its end is trimmed. *)
Lemma trimEnd_keeps_head (c : N) (r : jsstring) :
  isWhiteSpace c = false -> exists r', trimEnd (c :: r) = c :: r'.
Proof.
  intros Hc. unfold trimEnd. simpl rev.
  rewrite (dropWhile_snoc_stop _ _ _ Hc), rev_app_distr. simpl.
  now eexists.
Qed.

Lemma trimEnd_idem (s : jsstring) : trimEnd (trimEnd s) = trimEnd s.
Proof.
  unfold trimEnd. now rewrite rev_involutive, dropWhile_idem.
Qed.

Lemma trimStart_result (s : jsstring) :
  trimStart s = [] \/
  exists c r, trimStart s = c :: r /\ isWhiteSpace c = false.
Proof.
  unfold trimStart. induction s as [|x r IH]; simpl; [now left|].
  destruct (isWhiteSpace x) eqn:Hx; [exact IH|].
  right. now exists x, r.
Qed.

Lemma trim_idem (s : jsstring) : trim (trim s) = trim s.
Proof.
  unfold trim.
  destruct (trimStart_result s) as [E | (c & r & E & Hc)]; rewrite E.
  - reflexivity.
  - destruct (trimEnd_keeps_head c r Hc) as [r' E'].
    rewrite E'. unfold trimStart at 1. simpl. rewrite Hc.
    rewrite <- E'. apply trimEnd_idem.
Qed.

(** Comparisons of a code unit with constants, settled from the bounds
    in the context. *)
Ltac decide_comparisons :=
  repeat match goal with
  | |- context [(?a <=? ?b)%N] =>
    first [ replace (a <=? b)%N with true
              by (symmetry; apply N.leb_le; lia)
          | replace (a <=? b)%N with false
              by (symmetry; apply N.leb_gt; lia) ]
  | |- context [(?a <? ?b)%N] =>
    first [ replace (a <? b)%N with true
              by (symmetry; apply N.ltb_lt; lia)
          | replace (a <? b)%N with false
              by (symmetry; apply N.ltb_ge; lia) ]
  | |- context [(?a =? ?b)%N] =>
    first [ replace (a =? b)%N with false
              by (symmetry; apply N.eqb_neq; lia)
          | replace (a =? b)%N with true
              by (symmetry; apply N.eqb_eq; lia) ]
  end.

(** The units from the comma to the digit nine are no white space. *)
Lemma code_not_space (c : N) :
  (44 <= c <= 57)%N -> isWhiteSpace c = false.
Proof.
  intros H. unfold isWhiteSpace. decide_comparisons. reflexivity.
Qed.

Lemma digit_not_space (c : N) : isDigit c = true -> isWhiteSpace c = false.
Proof.
  unfold isDigit. intros H. apply andb_true_iff in H as [H1 H2].
  apply N.leb_le in H1. apply N.leb_le in H2. apply code_not_space. lia.
Qed.

(** A string of the canonical shape carries no white space at its ends. *)
Lemma canonical_trim (s : jsstring) :
  testCanonical s = true -> trim s = s.
Proof.
  unfold testCanonical.
  destruct s as [|y1 [|y2 [|y3 [|y4 [|s1 [|m1 [|m2 [|s2 [|d1 [|d2 [|x r]]]]]]]]]]];
    try discriminate.
  intros H. apply andb_true_iff in H as [H _].
  apply andb_true_iff in H as [H _]. rewrite forallb_forall in H.
  assert (H1 : isWhiteSpace y1 = false)
    by (apply digit_not_space, H; simpl; auto).
  assert (H2 : isWhiteSpace d2 = false)
    by (apply digit_not_space, H; simpl; auto 10).
  unfold trim, trimStart, trimEnd. simpl. rewrite H1. simpl.
  now rewrite H2.
Qed.

Lemma parseDate_canonical (s : jsstring) :
  testCanonical s = true -> parseDate s = s.
Proof.
  intros H. unfold parseDate. rewrite (canonical_trim s H). now rewrite H.
Qed.

Lemma matchDayFirst_canonical s d m y :
  matchDayFirst s = Some (d, m, y) ->
  testCanonical (y ++ js "-" ++ m ++ js "-" ++ d) = true.
Proof.
  unfold matchDayFirst.
  destruct s as [|a1 [|a2 [|a3 [|a4 [|a5 [|a6 [|a7 [|a8 [|a9 [|a10 [|x r]]]]]]]]]]];
    try discriminate.
  destruct (forallb _ _ && _ && _) eqn:E; [|discriminate].
  intros [= <- <- <-].
  apply andb_true_iff in E as [E _]. apply andb_true_iff in E as [E _].
  rewrite forallb_forall in E.
  unfold testCanonical. simpl app.
  apply andb_true_iff; split; [apply andb_true_iff; split|];
    try reflexivity.
  apply forallb_forall. intros x Hx. apply E. simpl in *. tauto.
Qed.

Lemma matchYearFirst_canonical s y m d :
  matchYearFirst s = Some (y, m, d) ->
  testCanonical (y ++ js "-" ++ m ++ js "-" ++ d) = true.
Proof.
  unfold matchYearFirst.
  destruct s as [|a1 [|a2 [|a3 [|a4 [|a5 [|a6 [|a7 [|a8 [|a9 [|a10 [|x r]]]]]]]]]]];
    try discriminate.
  destruct (forallb _ _ && _ && _) eqn:E; [|discriminate].
  intros [= <- <- <-].
  apply andb_true_iff in E as [E _]. apply andb_true_iff in E as [E _].
  rewrite forallb_forall in E.
  unfold testCanonical. simpl app.
  apply andb_true_iff; split; [apply andb_true_iff; split|];
    try reflexivity.
  apply forallb_forall. intros x Hx. apply E. simpl in *. tauto.
Qed.

(** C4. Date normalization is idempotent: normalizing a normalized date
    changes nothing, for every input string; a string of the canonical
    shape [YYYY-MM-DD] is returned as it is; and the day-first forms with
    each of the three separators normalize to the canonical date. *)
Theorem parseDate_idempotent :
  forall s : jsstring,
    parseDate (parseDate s) = parseDate s
    /\ (testCanonical s = true -> parseDate s = s)
    /\ parseDate (js "15.01.2025") = js "2025-01-15"
    /\ parseDate (js "15-01-2025") = js "2025-01-15"
    /\ parseDate (js "15/01/2025") = js "2025-01-15".
Proof.
  intros s. split; [|split; [apply parseDate_canonical | now vm_compute]].
  unfold parseDate at 2 3.
  destruct (testCanonical (trim s)) eqn:Hc.
  - now apply parseDate_canonical.
  - destruct (matchDayFirst (trim s)) as [[[d m] y]|] eqn:Hd.
    + apply parseDate_canonical. now apply matchDayFirst_canonical with (trim s).
    + destruct (matchYearFirst (trim s)) as [[[y m] d]|] eqn:Hy.
      * apply parseDate_canonical.
        now apply matchYearFirst_canonical with (trim s).
      * unfold parseDate. now rewrite trim_idem, Hc, Hd, Hy.
Qed.

End DateNormalizer.

(* ================================================================== *)
(** * Properties of delimiter detection *)
(* ================================================================== *)

Section DelimiterDetection.
Import PkoImport Spec.

Lemma split_nonempty (d : N) (s : jsstring) : split d s <> [].
Proof.
  destruct s as [|c r]; simpl; [discriminate|].
  destruct (c =? d)%N; [discriminate|].
  destruct (split d r); discriminate.
Qed.

Lemma fieldCount_pos (line : jsstring) (d : N) : (1 <= fieldCount line d)%nat.
Proof.
  unfold fieldCount. pose proof (split_nonempty d line).
  destruct (split d line); [congruence | simpl; lia].
Qed.

(** The loop keeps the first candidate of the highest count seen so
    far: either no candidate beat the initial state, or the result is a
    candidate that beats everything before it and is not beaten after. *)
Lemma detectDelimiter_loop (line : jsstring) (ds : list N) :
  forall (best : N) (n : nat),
    let st := fold_left (detectDelimiter_step line) ds (best, n) in
    (st = (best, n) /\ forall d, In d ds -> (fieldCount line d <= n)%nat)
    \/ exists l1 l2,
         ds = l1 ++ fst st :: l2
         /\ snd st = fieldCount line (fst st)
         /\ (n < snd st)%nat
         /\ (forall d, In d l1 -> (fieldCount line d < snd st)%nat)
         /\ (forall d, In d l2 -> (fieldCount line d <= snd st)%nat).
Proof.
  induction ds as [|d r IH]; intros best n; simpl.
  - left. split; [reflexivity | intros ? []].
  - fold (fieldCount line d).
    destruct (Nat.ltb_spec n (fieldCount line d)) as [Hlt | Hge].
    + destruct (IH d (fieldCount line d))
        as [[E Hall] | (l1 & l2 & E & Hn & Hlt' & H1 & H2)].
      * right. exists [], r. rewrite E. simpl.
        repeat split; auto. intros ? [].
      * right. exists (d :: l1), l2. simpl. rewrite <- E.
        repeat split; auto; try lia.
        intros d' [<- | Hin]; [lia | auto].
    + destruct (IH best n)
        as [[E Hall] | (l1 & l2 & E & Hn & Hlt' & H1 & H2)].
      * left. split; [exact E|]. intros d' [<- | Hin]; auto.
      * right. exists (d :: l1), l2. simpl. rewrite <- E.
        repeat split; auto.
        intros d' [<- | Hin]; [lia | auto].
Qed.

(** C7. For every first line, the detected delimiter is one of the
    four candidates comma, semicolon, tab and pipe, tried in that order;
    it yields at least as many fields as each of the four; and every
    candidate before it in that order yields strictly fewer fields.  So
    comma is detected exactly when none of semicolon, tab and pipe yields
    more fields than comma; semicolon exactly when it yields more than
    comma and neither tab nor pipe yields more than semicolon; tab
    exactly when it yields more than comma and semicolon and pipe does
    not yield more than tab; and pipe exactly when it yields more than
    each of the other three: on a tie the earlier-listed candidate
    wins. *)
Theorem detectDelimiter_first_maximum :
  forall firstLine : jsstring,
    let d := detectDelimiter firstLine in
    let n := fieldCount firstLine in
    (exists l1 l2,
       [ch ","; ch ";"; 9%N; ch "|"] = l1 ++ d :: l2
       /\ (forall d', In d' l1 -> (n d' < n d)%nat)
       /\ (forall d', In d' l2 -> (n d' <= n d)%nat))
    /\ (d = ch "," \/ d = ch ";" \/ d = 9%N \/ d = ch "|")
    /\ ((n (ch ",") <= n d)%nat /\ (n (ch ";") <= n d)%nat
        /\ (n 9%N <= n d)%nat /\ (n (ch "|") <= n d)%nat)
    /\ (d = ch "," <->
          (n (ch ";") <= n (ch ","))%nat /\ (n 9%N <= n (ch ","))%nat
          /\ (n (ch "|") <= n (ch ","))%nat)
    /\ (d = ch ";" <->
          (n (ch ",") < n (ch ";"))%nat /\ (n 9%N <= n (ch ";"))%nat
          /\ (n (ch "|") <= n (ch ";"))%nat)
    /\ (d = 9%N <->
          (n (ch ",") < n 9%N)%nat /\ (n (ch ";") < n 9%N)%nat
          /\ (n (ch "|") <= n 9%N)%nat)
    /\ (d = ch "|" <->
          (n (ch ",") < n (ch "|"))%nat /\ (n (ch ";") < n (ch "|"))%nat
          /\ (n 9%N < n (ch "|"))%nat).
Proof.
  intros line d n.
  assert (Hex : exists l1 l2,
       [ch ","; ch ";"; 9%N; ch "|"] = l1 ++ d :: l2
       /\ (forall d', In d' l1 -> (n d' < n d)%nat)
       /\ (forall d', In d' l2 -> (n d' <= n d)%nat)).
  { subst d n. unfold detectDelimiter.
    destruct (detectDelimiter_loop line delimiters (ch ",") 0)
      as [[_ Hall] | (l1 & l2 & E & Hn & _ & H1 & H2)].
    - specialize (Hall (ch ",") (or_introl eq_refl)).
      pose proof (fieldCount_pos line (ch ",")). lia.
    - exists l1, l2. rewrite <- Hn. auto. }
  split; [exact Hex|].
  destruct Hex as (l1 & l2 & E & H1 & H2).
  clearbody d. clearbody n.
  change (ch ",") with 44%N in *. change (ch ";") with 59%N in *.
  change (ch "|") with 124%N in *.
  destruct l1 as [|c1 [|c2 [|c3 l1]]]; simpl in E.
  - injection E as <- <-.
    pose proof (H2 59%N (or_introl eq_refl)).
    pose proof (H2 9%N (or_intror (or_introl eq_refl))).
    pose proof (H2 124%N (or_intror (or_intror (or_introl eq_refl)))).
    repeat split; auto; try lia; try discriminate; intros; lia.
  - injection E as <- <- <-.
    pose proof (H1 44%N (or_introl eq_refl)).
    pose proof (H2 9%N (or_introl eq_refl)).
    pose proof (H2 124%N (or_intror (or_introl eq_refl))).
    repeat split; auto; try lia; try discriminate; intros; lia.
  - injection E as <- <- <- <-.
    pose proof (H1 44%N (or_introl eq_refl)).
    pose proof (H1 59%N (or_intror (or_introl eq_refl))).
    pose proof (H2 124%N (or_introl eq_refl)).
    repeat split; auto; try lia; try discriminate; intros; lia.
  - injection E as <- <- <- E.
    destruct l1 as [|c4 l1]; simpl in E;
      [|injection E as _ E; destruct l1; discriminate E].
    injection E as <- <-.
    pose proof (H1 44%N (or_introl eq_refl)).
    pose proof (H1 59%N (or_intror (or_introl eq_refl))).
    pose proof (H1 9%N (or_intror (or_intror (or_introl eq_refl)))).
    repeat split; auto; try lia; try discriminate; intros; lia.
Qed.

End DelimiterDetection.

(* ================================================================== *)
(** * Properties of the amount normalizer *)
(* ================================================================== *)

Section AmountNormalizer.
Import PkoImport Spec.

Lemma isDigit_range (c : N) : isDigit c = true -> (48 <= c <= 57)%N.
Proof.
  unfold isDigit. intros H. apply andb_true_iff in H as [H1 H2].
  apply N.leb_le in H1. apply N.leb_le in H2. lia.
Qed.

Lemma digits_forall (s : jsstring) :
  digits s -> forall c, In c s -> (48 <= c <= 57)%N.
Proof.
  unfold digits. rewrite forallb_forall. intros H c Hc.
  now apply isDigit_range, H.
Qed.

Lemma removeAll_id (p : N -> bool) (l : jsstring) :
  (forall c, In c l -> p c = false) -> removeAll p l = l.
Proof.
  intros H. unfold removeAll. apply forallb_filter_id, forallb_forall.
  intros c Hc. now rewrite (H c Hc).
Qed.

Lemma removeAll_app (p : N -> bool) (a b : jsstring) :
  removeAll p (a ++ b) = removeAll p a ++ removeAll p b.
Proof. apply filter_app. Qed.

Lemma removeAll_idem (p : N -> bool) (l : jsstring) :
  removeAll p (removeAll p l) = removeAll p l.
Proof.
  apply removeAll_id. intros c Hc. unfold removeAll in Hc.
  apply filter_In in Hc as [_ Hc]. now destruct (p c).
Qed.

Lemma removeAll_dropWhile (p : N -> bool) (l : jsstring) :
  removeAll p (dropWhile p l) = removeAll p l.
Proof.
  induction l as [|x r IH]; simpl; [reflexivity|].
  destruct (p x) eqn:Hx; simpl; [exact IH | now rewrite Hx].
Qed.

Lemma removeAll_rev (p : N -> bool) (l : jsstring) :
  removeAll p (rev l) = rev (removeAll p l).
Proof. apply filter_rev. Qed.

(** Trimming first changes nothing once all white space is removed. *)
Lemma removeAll_trim (s : jsstring) :
  removeAll isWhiteSpace (trim s) = removeAll isWhiteSpace s.
Proof.
  unfold trim, trimEnd, trimStart.
  now rewrite removeAll_rev, removeAll_dropWhile, removeAll_rev,
    rev_involutive, removeAll_dropWhile.
Qed.

(** What is left of [g] once [p] is removed tells what [g] is made of. *)
Lemma removeAll_members (p : N -> bool) (g l : jsstring) :
  removeAll p g = l -> forall c, In c g -> p c = true \/ In c l.
Proof.
  intros <- c Hc. destruct (p c) eqn:Hp; [now left | right].
  apply filter_In. now rewrite Hp.
Qed.

Lemma includesChar_app (a b : jsstring) (c : N) :
  includesChar (a ++ b) c = includesChar a c || includesChar b c.
Proof. apply existsb_app. Qed.

Lemma includesChar_absent (l : jsstring) (c : N) :
  (forall x, In x l -> x <> c) -> includesChar l c = false.
Proof.
  intros H. unfold includesChar.
  destruct (existsb (N.eqb c) l) eqn:E; [|reflexivity].
  apply existsb_exists in E as (x & Hx & Hc).
  apply N.eqb_eq in Hc. now destruct (H x Hx).
Qed.

Lemma replaceFirst_app (c d : N) (l r : jsstring) :
  (forall x, In x l -> x <> c) ->
  replaceFirst c d (l ++ c :: r) = l ++ d :: r.
Proof.
  induction l as [|x l' IH]; intros H; simpl.
  - now rewrite N.eqb_refl.
  - destruct (N.eqb_spec x c) as [E|_].
    + now destruct (H x (or_introl eq_refl)).
    + f_equal. apply IH. intros y Hy. apply H. now right.
Qed.

Lemma takeWhile_app_stop {A} (p : A -> bool) (l : list A) (c : A) r :
  forallb p l = true -> p c = false -> takeWhile p (l ++ c :: r) = l.
Proof.
  intros Hl Hc. induction l as [|x l' IH]; simpl in *.
  - now rewrite Hc.
  - apply andb_true_iff in Hl as [Hx Hl]. rewrite Hx. f_equal. auto.
Qed.

Lemma dropWhile_app_stop {A} (p : A -> bool) (l : list A) (c : A) r :
  forallb p l = true -> p c = false -> dropWhile p (l ++ c :: r) = c :: r.
Proof.
  intros Hl Hc. induction l as [|x l' IH]; simpl in *.
  - now rewrite Hc.
  - apply andb_true_iff in Hl as [Hx Hl]. rewrite Hx. auto.
Qed.

Lemma takeWhile_all {A} (p : A -> bool) (l : list A) :
  forallb p l = true -> takeWhile p l = l.
Proof.
  induction l as [|x l' IH]; simpl; [reflexivity|].
  intros H. apply andb_true_iff in H as [Hx Hl]. rewrite Hx. f_equal. auto.
Qed.

Lemma dropWhile_all {A} (p : A -> bool) (l : list A) :
  forallb p l = true -> dropWhile p l = [].
Proof.
  induction l as [|x l' IH]; simpl; [reflexivity|].
  intros H. apply andb_true_iff in H as [Hx Hl]. rewrite Hx. auto.
Qed.

(** The units of a sign prefix, of digits and of the two separators are
    told apart by their codes. *)
Lemma signPrefix_members (neg : bool) (c : N) :
  In c (signPrefix neg) -> c = 45%N.
Proof. destruct neg; simpl; [intros [<- | []]; reflexivity | intros []]. Qed.


(** The dot-decimal form is read by [parseFloat] as the decimal number
    its sign and digits denote. *)
Lemma readDecimal_dotDecimal (neg : bool) (ip fp : jsstring) :
  digits ip -> ip <> [] -> digits fp ->
  readDecimal neg (ip ++ js "." ++ fp)
  = decimalNumber neg (ip ++ fp) (- Z.of_nat (List.length fp)).
Proof.
  intros Hip Hne Hfp. destruct ip as [|d ip']; [congruence|].
  assert (Hd : (48 <= d <= 57)%N)
    by (apply (digits_forall _ Hip); now left).
  assert (Hdot : isDigit (ch ".") = false) by reflexivity.
  unfold readDecimal.
  change (startsWith ((d :: ip') ++ js "." ++ fp) (js "Infinity"))
    with ((73 =? d)%N && startsWith (ip' ++ js "." ++ fp) (js "nfinity")).
  destruct (N.eqb_spec 73 d) as [E|_]; [lia|]. simpl andb. cbv zeta.
  change (js "." ++ fp) with (ch "." :: fp).
  rewrite (takeWhile_app_stop isDigit (d :: ip') (ch ".") fp Hip Hdot).
  rewrite (dropWhile_app_stop isDigit (d :: ip') (ch ".") fp Hip Hdot).
  rewrite N.eqb_refl, (takeWhile_all isDigit fp Hfp),
    (dropWhile_all isDigit fp Hfp).
  reflexivity.
Qed.

(** The dot-decimal form is read by [parseFloat] as the decimal number
    its sign and digits denote. *)
Lemma parseFloat_dotDecimal (neg : bool) (ip fp : jsstring) :
  digits ip -> ip <> [] -> digits fp ->
  parseFloat (dotDecimal neg ip fp)
  = decimalNumber neg (ip ++ fp) (- Z.of_nat (List.length fp)).
Proof.
  intros Hip Hne Hfp.
  rewrite <- (readDecimal_dotDecimal neg ip fp Hip Hne Hfp).
  unfold parseFloat, dotDecimal. destruct neg; [reflexivity|].
  destruct ip as [|d ip']; [congruence|].
  assert (Hd : (48 <= d <= 57)%N)
    by (apply (digits_forall _ Hip); now left).
  unfold trimStart, signPrefix. simpl app. simpl dropWhile.
  rewrite code_not_space by lia. unfold splitSign.
  destruct (N.eqb_spec d (ch "-")) as [E|_];
    [change (ch "-") with 45%N in E; lia|].
  destruct (N.eqb_spec d (ch "+")) as [E|_];
    [change (ch "+") with 43%N in E; lia|].
  reflexivity.
Qed.

(** Whatever the notation, removing its white space leaves the
    dot-decimal form, or the comma form with dots among the integer
    digits. *)
Lemma notation_without_spaces neg ip fp s :
  digits ip -> digits fp -> AmountNotation neg ip fp s ->
  removeAll isWhiteSpace s = dotDecimal neg ip fp
  \/ exists g, removeAll isDot g = ip
       /\ removeAll isWhiteSpace s = signPrefix neg ++ g ++ js "," ++ fp.
Proof.
  intros Hip Hfp Hn.
  assert (Hplain : forall g sep,
            removeAll isDot g = ip -> (44 <= sep <= 46)%N ->
            removeAll isWhiteSpace (signPrefix neg ++ g ++ sep :: fp)
            = signPrefix neg ++ g ++ sep :: fp).
  { intros g sep Hg Hsep. apply removeAll_id. intros c Hc.
    apply code_not_space.
    apply in_app_or in Hc as [Hc | Hc];
      [apply signPrefix_members in Hc; lia|].
    apply in_app_or in Hc as [Hc | [<- | Hc]].
    - destruct (removeAll_members _ _ _ Hg c Hc) as [Hd | Hd].
      + apply N.eqb_eq in Hd. change (ch ".") with 46%N in Hd. lia.
      + pose proof (digits_forall _ Hip c Hd). lia.
    - lia.
    - pose proof (digits_forall _ Hfp c Hc). lia. }
  assert (Hown : removeAll isDot ip = ip).
  { apply removeAll_id. intros c Hc. pose proof (digits_forall _ Hip c Hc).
    apply N.eqb_neq. change (ch ".") with 46%N. lia. }
  induction Hn as [ | | g Hg | s s' Hs IH Hrem].
  - left. apply (Hplain ip 46%N Hown). lia.
  - right. exists ip. split; [exact Hown|]. apply (Hplain ip 44%N Hown). lia.
  - right. exists g. split; [exact Hg|]. apply (Hplain g 44%N Hg). lia.
  - rewrite <- Hrem in IH. now rewrite removeAll_idem in IH.
Qed.

(** C3. Every way of writing one amount is read as the same number: for
    a sign, integer digits [ip] and fraction digits [fp], the dot-decimal
    writing [ip.fp], the comma-decimal writing [ip,fp], the mixed writing
    (dots between the integer digits, a decimal comma) and all of these
    with white space put anywhere normalize to the double nearest to
    [ip.fp], negated exactly when the writing starts with a minus sign;
    that is the value [parseFloat] reads off the dot-decimal writing.  In
    particular 1234,56 and 1 234,56 and 1.234,56 all give 1234.56. *)
Theorem parsePKOAmount_notations :
  forall (neg : bool) (ip fp s : jsstring),
    digits ip -> ip <> [] -> digits fp ->
    AmountNotation neg ip fp s ->
    parsePKOAmount s
    = decimalNumber neg (ip ++ fp) (- Z.of_nat (List.length fp))
    /\ parsePKOAmount s = parseFloat (dotDecimal neg ip fp)
    /\ decimalNumber true (ip ++ fp) (- Z.of_nat (List.length fp))
       = PrimFloat.opp
           (decimalNumber false (ip ++ fp) (- Z.of_nat (List.length fp)))
    /\ parsePKOAmount (js "1234,56") = 1234.56%float
    /\ parsePKOAmount (js "1 234,56") = 1234.56%float
    /\ parsePKOAmount (js "1.234,56") = 1234.56%float.
Proof.
  intros neg ip fp s Hip Hne Hfp Hn.
  assert (Hclean : parsePKOAmount s = parseFloat (dotDecimal neg ip fp)).
  { unfold parsePKOAmount. rewrite removeAll_trim.
    assert (Hsign : forall c, In c (signPrefix neg) -> c <> ch "," /\ c <> ch ".").
    { intros c Hc. apply signPrefix_members in Hc. subst c.
      split; discriminate. }
    assert (Hdig : forall l c, digits l -> In c l -> c <> ch "," /\ c <> ch ".").
    { intros l c Hl Hc. pose proof (digits_forall _ Hl c Hc) as Hr.
      change (ch ",") with 44%N. change (ch ".") with 46%N. lia. }
    assert (Hcomma : replaceFirst (ch ",") (ch ".")
                       (signPrefix neg ++ ip ++ js "," ++ fp)
                     = dotDecimal neg ip fp).
    { unfold dotDecimal.
      change (js "," ++ fp) with (ch "," :: fp).
      change (js "." ++ fp) with (ch "." :: fp).
      rewrite !app_assoc. apply replaceFirst_app. intros c Hc.
      apply in_app_or in Hc as [Hc | Hc];
        [apply (Hsign c Hc) | apply (Hdig ip c Hip Hc)]. }
    destruct (notation_without_spaces neg ip fp s Hip Hfp Hn)
      as [E | (g & Hg & E)]; rewrite E.
    - assert (Hno : includesChar (dotDecimal neg ip fp) (ch ",") = false).
      { apply includesChar_absent. intros c Hc. unfold dotDecimal in Hc.
        apply in_app_or in Hc as [Hc | Hc]; [apply (Hsign c Hc)|].
        apply in_app_or in Hc as [Hc | [<- | Hc]];
          [apply (Hdig ip c Hip Hc) | discriminate | apply (Hdig fp c Hfp Hc)]. }
      now rewrite Hno.
    - assert (Hyes : includesChar (signPrefix neg ++ g ++ js "," ++ fp)
                       (ch ",") = true).
      { rewrite !includesChar_app. simpl. now rewrite !orb_true_r. }
      rewrite Hyes, andb_true_l.
      assert (Hrem : removeAll (N.eqb (ch "."))
                       (signPrefix neg ++ g ++ js "," ++ fp)
                     = signPrefix neg ++ ip ++ js "," ++ fp).
      { rewrite !removeAll_app. fold isDot. rewrite Hg. f_equal.
        - apply removeAll_id. intros c Hc. apply N.eqb_neq.
          intros Heq. destruct (Hsign c Hc) as [_ Hne']. congruence.
        - f_equal. f_equal. apply removeAll_id. intros c Hc.
          apply N.eqb_neq. intros Heq.
          destruct (Hdig fp c Hfp Hc) as [_ Hne']. congruence. }
      destruct (includesChar (signPrefix neg ++ g ++ js "," ++ fp) (ch ".")) eqn:Hd.
      + now rewrite Hrem, Hcomma.
      + assert (Hgi : g = ip).
        { rewrite <- Hg. symmetry. apply removeAll_id. intros c Hc. unfold isDot.
          apply N.eqb_neq. intros Heq. subst c.
          rewrite !includesChar_app in Hd.
          apply orb_false_iff in Hd as [_ Hd].
          apply orb_false_iff in Hd as [Hd _].
          unfold includesChar in Hd.
          assert (Hex : existsb (N.eqb (ch ".")) g = true)
            by (apply existsb_exists; exists (ch "."); split;
                [exact Hc | apply N.eqb_refl]).
          congruence. }
        now rewrite Hgi, Hcomma. }
  split; [|split; [exact Hclean | split; [reflexivity | now vm_compute]]].
  rewrite Hclean. now apply parseFloat_dotDecimal.
Qed.

(** An instance of [parsePKOAmount_notations]: a negative amount in the
    mixed writing with spaces. *)
Lemma parsePKOAmount_notations_witness :
  parsePKOAmount (js " - 1.234,56 ")
  = decimalNumber true (js "123456") (-2)
  /\ parsePKOAmount (js " - 1.234,56 ") = (-1234.56)%float.
Proof.
  assert (Hn : AmountNotation true (js "1234") (js "56") (js " - 1.234,56 ")).
  { apply spaced with (s := js "-1.234,56"); [|reflexivity].
    apply (mixed true (js "1234") (js "56") (js "1.234")). reflexivity. }
  destruct (parsePKOAmount_notations true (js "1234") (js "56")
              (js " - 1.234,56 ") eq_refl ltac:(discriminate) eq_refl Hn)
    as (H1 & _).
  split; [exact H1 | now vm_compute].
Defined.

End AmountNormalizer.

(* ================================================================== *)
(** * Properties of the budget aggregator *)
(* ================================================================== *)

Section AggregatorProperties.
Import Currency Data Advisor Spec.
Context {num : Type} (A : Arith num) (dateFields : DateFields).

Lemma bucketOf_tests (c : Category) :
  match bucketOf c with
  | ToDebt => Category_eqb c DebtPayment = true
  | ToNeeds => Category_eqb c DebtPayment = false /\ has NEEDS c = true
  | ToWants => Category_eqb c DebtPayment = false /\ has NEEDS c = false
  end.
Proof. destruct c; simpl; auto. Qed.

(** What the loop of [getMonthlyBreakdown] leaves in each running total:
    the total it started from, plus the converted amounts of the
    transactions of that kind, in the order of the list. *)
Lemma getMonthlyBreakdown_loop primary fallback
  (l : list (Transaction num)) :
  forall st : Totals,
    let st' := fold_left (getMonthlyBreakdown_step A primary fallback) l st in
    let conv := convertedAmount A primary fallback in
    acc_totalIncome st'
      = fold_left (add A) (map conv (filter isIncome l)) (acc_totalIncome st)
    /\ acc_totalExpenses st'
      = fold_left (add A) (map conv (filter isExpense l))
          (acc_totalExpenses st)
    /\ acc_needs st'
      = fold_left (add A) (map conv (filter (inBucket ToNeeds) l)) (acc_needs st)
    /\ acc_wants st'
      = fold_left (add A) (map conv (filter (inBucket ToWants) l)) (acc_wants st)
    /\ acc_debtPayments st'
      = fold_left (add A) (map conv (filter (inBucket ToDebt) l))
          (acc_debtPayments st).
Proof.
  induction l as [|t r IH]; intros st; [simpl; repeat split|].
  cbv zeta. change (fold_left ?f (t :: r) st) with (fold_left f r (f st t)).
  specialize (IH (getMonthlyBreakdown_step A primary fallback st t)).
  cbv zeta in IH. destruct IH as (Hi & He & Hn & Hw & Hd).
  rewrite Hi, He, Hn, Hw, Hd. clear Hi He Hn Hw Hd.
  pose proof (bucketOf_tests (category t)) as Hb.
  unfold getMonthlyBreakdown_step.
  change (convertCurrency A (amount t) (currency t) primary
            (rateOf t fallback))
    with (convertedAmount A primary fallback t).
  cbn [filter]. unfold inBucket, isIncome, isExpense.
  destruct (type t); [cbn; repeat split|].
  destruct (bucketOf (category t)).
  - destruct Hb as [-> ->]. cbn. repeat split.
  - destruct Hb as [-> ->].
    destruct (has WANTS (category t)); cbn; repeat split.
  - rewrite Hb. cbn. repeat split.
Qed.

(** The fields of the breakdown as sums over the month's window. *)
Lemma getMonthlyBreakdown_sums txs month year primary fallback :
  let b := getMonthlyBreakdown A dateFields txs month year primary fallback in
  let window := filter (inMonth dateFields month year) txs in
  let conv := convertedAmount A primary fallback in
  totalIncome b = sumList A (map conv (filter isIncome window))
  /\ totalExpenses b = sumList A (map conv (filter isExpense window))
  /\ needs b = sumList A (map conv (filter (inBucket ToNeeds) window))
  /\ wants b = sumList A (map conv (filter (inBucket ToWants) window))
  /\ debtPayments b = sumList A (map conv (filter (inBucket ToDebt) window)).
Proof.
  cbv zeta. unfold getMonthlyBreakdown, sumList. simpl.
  apply (getMonthlyBreakdown_loop primary fallback
           (filter (inMonth dateFields month year) txs)).
Qed.

Section ExactAddition.
Hypothesis add_assoc : forall a b c, add A (add A a b) c = add A a (add A b c).
Hypothesis add_comm : forall a b, add A a b = add A b a.
Hypothesis add_zero_l : forall a, add A (zero A) a = a.

(** With exact addition, each step of the loop keeps the three buckets
    summing to the total of the expenses. *)
Lemma getMonthlyBreakdown_step_invariant primary fallback st t :
  add A (add A (acc_needs st) (acc_wants st)) (acc_debtPayments st)
    = acc_totalExpenses st ->
  let st' := getMonthlyBreakdown_step A primary fallback st t in
  add A (add A (acc_needs st') (acc_wants st')) (acc_debtPayments st')
    = acc_totalExpenses st'.
Proof.
  intros Hinv. unfold getMonthlyBreakdown_step.
  set (a := convertCurrency A (amount t) (currency t) primary
              (rateOf t fallback)).
  assert (Hdebt :
    add A (add A (acc_needs st) (acc_wants st))
      (add A (acc_debtPayments st) a)
    = add A (acc_totalExpenses st) a)
    by now rewrite <- add_assoc, Hinv.
  assert (Hneeds :
    add A (add A (add A (acc_needs st) a) (acc_wants st))
      (acc_debtPayments st)
    = add A (acc_totalExpenses st) a).
  { rewrite <- Hinv.
    rewrite (add_assoc (acc_needs st) a), (add_comm a (acc_wants st)),
      <- (add_assoc (acc_needs st)).
    rewrite (add_assoc _ a), (add_comm a (acc_debtPayments st)),
      <- (add_assoc _ (acc_debtPayments st)).
    reflexivity. }
  assert (Hwants :
    add A (add A (acc_needs st) (add A (acc_wants st) a))
      (acc_debtPayments st)
    = add A (acc_totalExpenses st) a).
  { rewrite <- Hinv.
    rewrite <- (add_assoc (acc_needs st)).
    rewrite (add_assoc _ a), (add_comm a (acc_debtPayments st)),
      <- (add_assoc _ (acc_debtPayments st)).
    reflexivity. }
  destruct (type t); [exact Hinv|].
  destruct (Category_eqb (category t) DebtPayment); [exact Hdebt|].
  destruct (has NEEDS (category t)); [exact Hneeds|].
  destruct (has WANTS (category t)); exact Hwants.
Qed.

Lemma getMonthlyBreakdown_loop_invariant primary fallback
  (l : list (Transaction num)) :
  forall st : Totals,
    add A (add A (acc_needs st) (acc_wants st)) (acc_debtPayments st)
      = acc_totalExpenses st ->
    let st' := fold_left (getMonthlyBreakdown_step A primary fallback) l st in
    add A (add A (acc_needs st') (acc_wants st')) (acc_debtPayments st')
      = acc_totalExpenses st'.
Proof.
  induction l as [|t r IH]; intros st Hinv; simpl; [exact Hinv|].
  apply IH. now apply getMonthlyBreakdown_step_invariant.
Qed.

End ExactAddition.

(** The running totals do not depend on the fallback rate where every
    transaction carries its own. *)
Lemma getMonthlyBreakdown_step_own_rate primary fb fb' st t :
  exchangeRateAtTime t <> None ->
  getMonthlyBreakdown_step A primary fb st t
  = getMonthlyBreakdown_step A primary fb' st t.
Proof.
  intros H. unfold getMonthlyBreakdown_step, rateOf.
  destruct (exchangeRateAtTime t); [reflexivity | congruence].
Qed.

Lemma getMonthlyBreakdown_loop_own_rate primary fb fb'
  (l : list (Transaction num)) :
  Forall (fun t => exchangeRateAtTime t <> None) l ->
  forall st,
    fold_left (getMonthlyBreakdown_step A primary fb) l st
    = fold_left (getMonthlyBreakdown_step A primary fb') l st.
Proof.
  induction 1 as [|t r Ht _ IH]; intros st; simpl; [reflexivity|].
  now rewrite (getMonthlyBreakdown_step_own_rate primary fb fb' st t Ht), IH.
Qed.

End AggregatorProperties.

Section AggregatorScenarios.
Import Currency Data Advisor Spec.
#[local] Open Scope float_scope.

(** C2, the claim as stated fails on binary64 numbers. Three January
    expenses in the primary currency, 10.00 on food, 9.99 on
    entertainment and 21.80 on food: [totalExpenses] is
    [(10 + 9.99) + 21.8] while the buckets sum to [(10 + 21.8) + 9.99],
    and the two roundings differ. *)
Lemma buckets_sum_rounding_counterexample :
  let b := getMonthlyBreakdown ieee utcDateFields
             [january15 expense 10 USD Food None;
              january15 expense 9.99 USD Entertainment None;
              january15 expense 21.8 USD Food None]
             0%Z 2025%Z USD 4.05 in
  totalExpenses b = 41.790000000000006
  /\ needs b + wants b + debtPayments b = 41.79
  /\ PrimFloat.eqb (needs b + wants b + debtPayments b) (totalExpenses b)
     = false.
Proof. now vm_compute. Qed.

(** C5. The breakdown is built from each transaction's amount converted
    at the rate the transaction carries, and at the fallback rate only
    where it carries none: the income and expense totals are the sums of
    these amounts; a transaction with a rate of its own converts the same
    whatever the fallback is, so that a list whose transactions all carry
    one yields the same breakdown for every fallback; conversion is the
    identity between equal currencies, a multiplication from USD to PLN
    and a division from PLN to USD; and 400 PLN recorded at rate 4.0
    count as 100 USD although the fallback rate passed is 5.0. *)
Theorem per_transaction_rate_precedence :
  forall (num : Type) (A : Arith num) (dateFields : DateFields)
         (txs : list (Transaction num)) (month year : Z)
         (primary : Types.Currency) (fallback : num),
    let b := getMonthlyBreakdown A dateFields txs month year primary fallback in
    let window := filter (inMonth dateFields month year) txs in
    (totalIncome b
       = sumList A (map (convertedAmount A primary fallback)
                      (filter isIncome window))
     /\ totalExpenses b
       = sumList A (map (convertedAmount A primary fallback)
                      (filter isExpense window)))
    /\ (forall t r fallback',
          exchangeRateAtTime t = Some r ->
          convertedAmount A primary fallback' t
          = convertCurrency A (amount t) (currency t) primary r)
    /\ (forall t,
          exchangeRateAtTime t = None ->
          convertedAmount A primary fallback t
          = convertCurrency A (amount t) (currency t) primary fallback)
    /\ (forall fallback',
          Forall (fun t => exchangeRateAtTime t <> None) txs ->
          getMonthlyBreakdown A dateFields txs month year primary fallback'
          = b)
    /\ (forall a c r, convertCurrency A a c c r = a)
    /\ (forall a r, convertCurrency A a USD PLN r = mul A a r)
    /\ (forall a r, convertCurrency A a PLN USD r = div A a r)
    /\ (let s := getMonthlyBreakdown ieee utcDateFields
                   [january15 income 5000 USD Salary None;
                    january15 expense 400 PLN Food (Some 4)]
                   0%Z 2025%Z USD 5 in
        totalIncome s = 5000 /\ totalExpenses s = 100).
Proof.
  intros num A dateFields txs month year primary fallback b window.
  destruct (getMonthlyBreakdown_sums A dateFields txs month year primary
              fallback) as (Hi & He & _).
  split; [now split|].
  split; [intros t r fb' H; unfold convertedAmount; now rewrite H|].
  split; [intros t H; unfold convertedAmount; now rewrite H|].
  split.
  - intros fb' Hall. subst b. unfold getMonthlyBreakdown.
    rewrite (getMonthlyBreakdown_loop_own_rate A primary fb' fallback); auto.
    apply Forall_forall. intros t Ht. apply filter_In in Ht as [Ht _].
    revert t Ht. now apply Forall_forall.
  - split; [intros a c r; unfold convertCurrency; now destruct c|].
    split; [reflexivity|]. split; [reflexivity|]. now vm_compute.
Qed.

End AggregatorScenarios.

(* ================================================================== *)
(** * Properties of the advisor *)
(* ================================================================== *)

Section AdvisorProperties.
Import Advisor.
Variable toFixed : number -> nat -> jsstring.
#[local] Open Scope float_scope.

(** C6. With a zero [totalIncome] (of either sign) the advice is the
    fixed record: optimal rate 20, every amount and percentage 0, status
    [needs_attention] and the income-tracking tip as the only tip,
    whatever the other fields of the breakdown hold; no quotient by the
    income is formed. *)
Theorem getSavingsAdvice_zero_income :
  forall b : BudgetBreakdown number,
    PrimFloat.eqb (totalIncome b) 0 = true ->
    getSavingsAdvice toFixed b
    = {| optimalSavingsRate := 20;
         optimalSavingsAmount := 0;
         currentSavingsRate := 0;
         needsPercent := 0;
         wantsPercent := 0;
         savingsPercent := 0;
         status := needs_attention;
         tips := [js "Start by tracking your income to get personalized advice."] |}.
Proof.
  intros b H. unfold getSavingsAdvice. rewrite H. reflexivity.
Qed.

(** C10. The advice always carries at least one tip: the income-tracking
    tip when the income is zero, and otherwise the base tip of the status
    reached, ahead of any conditional tip. *)
Theorem getSavingsAdvice_tips_nonempty :
  forall b : BudgetBreakdown number,
    exists (tip : jsstring) (more : list jsstring),
      tips (getSavingsAdvice toFixed b) = tip :: more
      /\ (status (getSavingsAdvice toFixed b) = needs_attention ->
          PrimFloat.eqb (totalIncome b) 0 = false ->
          exists tip' more', more = tip' :: more').
Proof.
  intros b. unfold getSavingsAdvice.
  destruct (PrimFloat.eqb (totalIncome b) 0) eqn:Hz.
  - eexists _, _. split; [reflexivity | discriminate].
  - cbv zeta.
    destruct (PrimFloat.leb 20 _);
      [eexists _, _; split; [reflexivity | discriminate]|].
    destruct (PrimFloat.leb 10 _);
      [eexists _, _; split; [reflexivity | discriminate]|].
    destruct (PrimFloat.leb 0 _);
      [eexists _, _; split; [reflexivity | discriminate]|].
    eexists _, _. split; [reflexivity|]. intros _ _. now eexists _, _.
Qed.

End AdvisorProperties.

Section AdvisorScenarios.
Import Advisor.
#[local] Open Scope float_scope.

(** An instance of [getSavingsAdvice_zero_income]: a breakdown with
    expenses and debt payments but no income. *)
Lemma getSavingsAdvice_zero_income_witness :
  let b := {| totalIncome := 0; totalExpenses := 1800; needs := 1200;
              wants := 300; savings := -1800; debtPayments := 300;
              netBalance := -1800 |} in
  status (getSavingsAdvice (fun _ _ => []) b) = needs_attention
  /\ List.length (tips (getSavingsAdvice (fun _ _ => []) b)) = 1%nat.
Proof.
  cbv zeta.
  rewrite (getSavingsAdvice_zero_income (fun _ _ => [])
             {| totalIncome := 0; totalExpenses := 1800; needs := 1200;
                wants := 300; savings := -1800; debtPayments := 300;
                netBalance := -1800 |} eq_refl).
  split; reflexivity.
Defined.

End AdvisorScenarios.

(* ================================================================== *)
(** * Properties of the re-mapping *)
(* ================================================================== *)

Section Remapping.
Import PkoImport BankImport Spec.

Lemma filterMap_length {A B} (f : A -> option B) (l : list A) :
  (List.length (filterMap f l) <= List.length l)%nat.
Proof.
  induction l as [|x r IH]; simpl; [lia|].
  destruct (f x); simpl; lia.
Qed.

Lemma filterMap_In {A B} (f : A -> option B) (l : list A) (y : B) :
  In y (filterMap f l) <-> exists x, In x l /\ f x = Some y.
Proof.
  induction l as [|x r IH]; simpl.
  - split; [intros [] | intros (x & [] & _)].
  - destruct (f x) as [y'|] eqn:E; simpl; rewrite IH; split.
    + intros [<- | (x' & Hx & Hf)]; eauto.
    + intros (x' & [<- | Hx] & Hf); [left; congruence | eauto].
    + intros (x' & Hx & Hf); eauto.
    + intros (x' & [<- | Hx] & Hf); [congruence | eauto].
Qed.

Section WithCase.
Context {SC : StringCase}.

(** The re-mapping hands on the raw fields of the transaction it was
    given. *)
Lemma remapTransactions_row_raw mapping tx tx' :
  remapTransactions_row mapping tx = Some tx' -> raw tx' = raw tx.
Proof.
  unfold remapTransactions_row.
  destruct (isNaN _ || PrimFloat.eqb _ 0); [discriminate|].
  now intros [= <-].
Qed.

Lemma remapTransactions_raws mapping (l : list ParsedBankTransaction) :
  map raw (filterMap (remapTransactions_row mapping) l)
  = map raw (filter (remapKeeps mapping) l).
Proof.
  induction l as [|tx r IH]; simpl; [reflexivity|].
  unfold remapKeeps at 1.
  destruct (remapTransactions_row mapping tx) as [tx'|] eqn:E; simpl.
  - now rewrite IH, (remapTransactions_row_raw _ _ _ E).
  - exact IH.
Qed.

(** [a || ''] and [a ?? ''] agree. *)
Lemma orElse_nullish_empty (a : option jsstring) :
  orElse a [] = nullish a [].
Proof. destruct a as [[|c r]|]; reflexivity. Qed.

(** A row the initial parse kept is kept by the re-mapping under the
    same mapping, with the same fields but for the category, which the
    re-mapping takes from [detectCategoryFallback]. *)
Lemma remapTransactions_row_of_parsed mapping fields tx :
  parseCSV_row mapping fields = Some tx ->
  exists tx',
    remapTransactions_row mapping tx = Some tx'
    /\ tx_date tx' = tx_date tx
    /\ tx_amount tx' = tx_amount tx
    /\ tx_description tx' = tx_description tx
    /\ tx_currency tx' = tx_currency tx
    /\ tx_counterparty tx' = tx_counterparty tx
    /\ suggestedType tx' = suggestedType tx
    /\ raw tx' = raw tx
    /\ suggestedCategory tx'
       = (let category := detectCategoryFallback
                            (if truthy (tx_counterparty tx)
                             then tx_counterparty tx ++ js " - "
                                  ++ nullish (index fields (description mapping)) []
                             else nullish (index fields (description mapping)) []) in
          match suggestedType tx with
          | income => if Category_eqb category Other then OtherIncome
                      else category
          | expense => category
          end).
Proof.
  unfold parseCSV_row.
  destruct (List.length fields <? 2)%nat; [discriminate|].
  destruct (isNaN _ || PrimFloat.eqb _ 0) eqn:Hamt; [discriminate|].
  intros [= <-]. unfold remapTransactions_row. cbn [raw].
  assert (Hraw : parseFloat
            (let cleaned := removeAll isWhiteSpace
                              (trim (nullish (index fields (amount mapping))
                                       (js "0"))) in
             if includesChar cleaned (ch ",") && includesChar cleaned (ch ".")
             then replaceFirst (ch ",") (ch ".")
                    (removeAll (N.eqb (ch ".")) cleaned)
             else if includesChar cleaned (ch ",")
                  then replaceFirst (ch ",") (ch ".") cleaned
                  else cleaned)
          = parsePKOAmount (orElse (index fields (amount mapping)) (js "0"))).
  { destruct (index fields (amount mapping)) as [[|c r]|] eqn:Ei;
      try reflexivity.
    exfalso. unfold orElse in Hamt. simpl in Hamt.
    now vm_compute in Hamt. }
  cbv zeta in Hraw |- *. rewrite Hraw, Hamt.
  rewrite <- !orElse_nullish_empty.
  eexists. split; [reflexivity|]. cbn.
  repeat (split; [reflexivity|]).
  destruct (PrimFloat.ltb 0 _); reflexivity.
Qed.

End WithCase.

(** The corrected mapping of the scenario below: the amount is the third
    column. *)
Definition amountLast : ColumnMapping :=
  {| date := 0; amount := 2; description := 1; currency := -1;
     counterparty := -1 |}.

(** C9. Re-mapping returns at most as many transactions as the parse
    result holds, whatever the mapping: it keeps or drops the entries of
    the parsed list, in order, and every transaction it returns carries
    the raw fields of a parsed one, so a row the initial parse skipped is
    never brought back.  For instance, where the header is not recognised
    the amount is looked for in the second column; a row whose second
    column holds the description is skipped, and although the same fields
    parse under the corrected mapping, re-mapping the parse result with
    it returns nothing. *)
Theorem remapTransactions_never_recovers :
  forall (SC : StringCase) (result : ParseResult) (mapping : ColumnMapping),
    (List.length (remapTransactions result mapping)
       <= List.length (transactions result))%nat
    /\ map raw (remapTransactions result mapping)
       = map raw (filter (remapKeeps mapping) (transactions result))
    /\ (forall tx', In tx' (remapTransactions result mapping) ->
          exists tx, In tx (transactions result) /\ raw tx' = raw tx)
    /\ (let csv := js "Date,Description,Amount
2025-01-15,Biedronka,-50.00" in
        let parsed := @parseCSV asciiCase csv in
        transactions parsed = []
        /\ amount (PkoImport.mapping parsed) = 1
        /\ (exists tx,
              @parseCSV_row asciiCase amountLast
                [js "2025-01-15"; js "Biedronka"; js "-50.00"] = Some tx
              /\ tx_amount tx = 50%float)
        /\ @remapTransactions asciiCase parsed amountLast = []).
Proof.
  intros SC result mapping. unfold remapTransactions.
  split; [apply filterMap_length|].
  split; [apply remapTransactions_raws|].
  split.
  - intros tx' Hin. apply filterMap_In in Hin as (tx & Hin & Hrow).
    exists tx. split; [exact Hin|].
    now apply remapTransactions_row_raw with mapping.
  - cbv zeta. split; [now vm_compute|]. split; [now vm_compute|].
    split; [|now vm_compute].
    eexists. split; [vm_compute; reflexivity | reflexivity].
Qed.

(** C1 fails on the code. In general the re-mapping of a parsed row
    under the mapping it was parsed with agrees with the initial parse on
    the date, the amount, the description, the currency, the counterparty
    and the type, but it takes the category from
    [detectCategoryFallback], whose keyword list is shorter than and
    ordered differently from [CATEGORY_KEYWORDS]: for the row
    [2025-01-15,-50.00,Zakupy Auchan] the initial parse suggests Food and
    the re-mapping under the detected mapping suggests Other, and for
    [Uber Eats] the initial parse suggests Food and the re-mapping
    Transportation. *)
Theorem remap_category_diverges :
  (forall (SC : StringCase) mapping fields tx,
     parseCSV_row mapping fields = Some tx ->
     exists tx',
       remapTransactions_row mapping tx = Some tx'
       /\ tx_date tx' = tx_date tx
       /\ tx_amount tx' = tx_amount tx
       /\ tx_description tx' = tx_description tx
       /\ tx_currency tx' = tx_currency tx
       /\ tx_counterparty tx' = tx_counterparty tx
       /\ suggestedType tx' = suggestedType tx
       /\ raw tx' = raw tx)
  /\ (let result := @parseCSV asciiCase (js "Date,Amount,Description
2025-01-15,-50.00,Zakupy Auchan
2025-01-16,-35.50,Uber Eats") in
      map suggestedCategory (transactions result) = [Food; Food]
      /\ map suggestedCategory
           (@remapTransactions asciiCase result (mapping result))
         = [Other; Transportation]).
Proof.
  split; [|now vm_compute].
  intros SC mapping fields tx H.
  destruct (remapTransactions_row_of_parsed mapping fields tx H)
    as (tx' & H0 & H1 & H2 & H3 & H4 & H5 & H6 & H7 & _).
  exists tx'. repeat (split; [assumption|]). assumption.
Qed.

End Remapping.

(* ================================================================== *)
(** * JSON text read back *)
(* ================================================================== *)

Section JSONRoundTrip.
Import JSON Spec.

(** Induction on values, with the hypothesis on every element of an
    array and on every property value of an object. *)
Lemma value_induction (P : value -> Prop) :
  P VUndefined -> P VNull -> (forall b, P (VBool b)) ->
  (forall x, P (VNumber x)) -> (forall s, P (VString s)) ->
  (forall items, Forall P items -> P (VArray items)) ->
  (forall props, Forall (fun p => P (snd p)) props -> P (VObject props)) ->
  forall v, P v.
Proof.
  intros HU HN HB HX HS HA HO.
  fix IH 1. intros [ | | b | x | s | items | props].
  - exact HU.
  - exact HN.
  - apply HB.
  - apply HX.
  - apply HS.
  - apply HA. induction items as [|v r IHr]; constructor;
      [apply IH | exact IHr].
  - apply HO. induction props as [|[k v] r IHr]; constructor;
      [apply IH | exact IHr].
Qed.

Lemma skipSpace_spaces (ws s : jsstring) :
  forallb isJSONSpace ws = true -> skipSpace (ws ++ s) = skipSpace s.
Proof.
  unfold skipSpace. induction ws as [|c r IH]; simpl; [reflexivity|].
  intros H. apply andb_true_iff in H as [Hc Hr]. rewrite Hc. auto.
Qed.

Lemma skipSpace_head (c : N) (s : jsstring) :
  isJSONSpace c = false -> skipSpace (c :: s) = c :: s.
Proof. unfold skipSpace. simpl. now intros ->. Qed.

Lemma hex_roundtrip (n : N) :
  (n < 16)%N -> hexValue (hexDigit n) = Some n.
Proof.
  intros H.
  assert (Hc : In n [0;1;2;3;4;5;6;7;8;9;10;11;12;13;14;15]%N).
  { simpl. lia. }
  simpl in Hc.
  repeat (destruct Hc as [<- | Hc]; [reflexivity|]). destruct Hc.
Qed.

(** The escape of a code unit is read back as the unit. *)
Lemma parseString_unicodeEscape (c : N) (s : jsstring) :
  (c < 65536)%N ->
  parseString (unicodeEscape c ++ s)
  = match parseString s with
    | Some (str, rest) => Some (c :: str, rest)
    | None => None
    end.
Proof.
  intros Hc. unfold unicodeEscape.
  change (js "\u" ++ ?l) with (ch "\" :: ch "u" :: l).
  cbn [app]. cbn [parseString].
  change (ch "\" =? QUOTE)%N with false.
  change (ch "\" =? ch "\")%N with true.
  change (ch "u" =? QUOTE)%N with false.
  change (ch "u" =? ch "\")%N with false.
  change (ch "u" =? ch "/")%N with false.
  change (ch "u" =? ch "b")%N with false.
  change (ch "u" =? ch "f")%N with false.
  change (ch "u" =? ch "n")%N with false.
  change (ch "u" =? ch "r")%N with false.
  change (ch "u" =? ch "t")%N with false.
  change (ch "u" =? ch "u")%N with true.
  cbv iota.
  assert (H1 : (c / 4096 < 16)%N)
    by (apply N.Div0.div_lt_upper_bound; lia).
  assert (H2 : ((c / 256) mod 16 < 16)%N) by (apply N.mod_lt; lia).
  assert (H3 : ((c / 16) mod 16 < 16)%N) by (apply N.mod_lt; lia).
  assert (H4 : (c mod 16 < 16)%N) by (apply N.mod_lt; lia).
  rewrite !hex_roundtrip by assumption.
  assert (E : (c / 4096 * 4096 + (c / 256) mod 16 * 256
               + (c / 16) mod 16 * 16 + c mod 16 = c)%N).
  { assert (A1 : (c / 256 = c / 16 / 16)%N)
      by (now rewrite N.Div0.div_div).
    assert (A2 : (c / 4096 = c / 256 / 16)%N)
      by (now rewrite N.Div0.div_div).
    pose proof (N.div_mod c 16 ltac:(lia)) as E0.
    pose proof (N.div_mod (c / 16) 16 ltac:(lia)) as E1.
    pose proof (N.div_mod (c / 256) 16 ltac:(lia)) as E2.
    rewrite A2. rewrite A1 in E2 |- *.
    clear H1 H2 H3 H4 A1 A2.
    generalize dependent (c / 16 / 16 / 16)%N.
    generalize dependent ((c / 16 / 16) mod 16)%N.
    generalize dependent (c / 16 / 16)%N.
    generalize dependent ((c / 16) mod 16)%N.
    generalize dependent (c / 16)%N.
    generalize dependent (c mod 16)%N.
    intros. lia. }
  rewrite E. reflexivity.
Qed.

(** A unit written by [quoteUnit] is read back as the unit. *)
Lemma parseString_quoteUnit (c : N) (s : jsstring) :
  parseString (quoteUnit c ++ s)
  = match parseString s with
    | Some (str, rest) => Some (c :: str, rest)
    | None => None
    end.
Proof.
  unfold quoteUnit.
  destruct (N.eqb_spec c 8) as [->|H8]; [reflexivity|].
  destruct (N.eqb_spec c 9) as [->|H9]; [reflexivity|].
  destruct (N.eqb_spec c 10) as [->|H10]; [reflexivity|].
  destruct (N.eqb_spec c 12) as [->|H12]; [reflexivity|].
  destruct (N.eqb_spec c 13) as [->|H13]; [reflexivity|].
  destruct (N.eqb_spec c QUOTE) as [->|Hq]; [reflexivity|].
  destruct (N.eqb_spec c (ch "\")) as [->|Hb]; [reflexivity|].
  destruct ((c <? 32)%N || isHighSurrogate c || isLowSurrogate c) eqn:E.
  - apply parseString_unicodeEscape.
    unfold isHighSurrogate, isLowSurrogate in E.
    repeat match type of E with
    | context [(?a <? ?b)%N] => destruct (N.ltb_spec a b)
    | context [(?a <=? ?b)%N] => destruct (N.leb_spec a b)
    end; simpl in E; try discriminate; lia.
  - apply orb_false_iff in E as [E _]. apply orb_false_iff in E as [E _].
    cbn [app parseString].
    destruct (N.eqb_spec c QUOTE); [contradiction|].
    destruct (N.eqb_spec c (ch "\")); [contradiction|].
    now rewrite E.
Qed.

Lemma parseString_raw (c : N) (s : jsstring) :
  (55296 <= c)%N ->
  parseString (c :: s)
  = match parseString s with
    | Some (str, rest) => Some (c :: str, rest)
    | None => None
    end.
Proof.
  intros H. cbn [parseString].
  destruct (N.eqb_spec c QUOTE) as [E|_];
    [change QUOTE with 34%N in E; lia|].
  destruct (N.eqb_spec c (ch "\")) as [E|_];
    [change (ch "\") with 92%N in E; lia|].
  destruct (N.ltb_spec c 32); [lia | reflexivity].
Qed.

(** The body of a quoted string is read back as the string. *)
Lemma parseString_quoteUnits (s rest : jsstring) :
  parseString (quoteUnits s ++ QUOTE :: rest) = Some (s, rest).
Proof.
  remember (List.length s) as n eqn:Hn.
  revert s Hn. induction n as [n IH] using lt_wf_ind. intros s Hn.
  destruct s as [|c r]; [reflexivity|].
  assert (Hr : parseString (quoteUnits r ++ QUOTE :: rest) = Some (r, rest))
    by (apply (IH (List.length r)); [simpl in Hn; lia | reflexivity]).
  cbn [quoteUnits].
  destruct (isHighSurrogate c) eqn:Hh.
  - unfold isHighSurrogate in Hh. apply andb_true_iff in Hh as [Hh _].
    apply N.leb_le in Hh.
    destruct r as [|c' r'].
    + rewrite parseString_quoteUnit. reflexivity.
    + destruct (isLowSurrogate c') eqn:Hl.
      * unfold isLowSurrogate in Hl. apply andb_true_iff in Hl as [Hl _].
        apply N.leb_le in Hl.
        cbn [app]. rewrite !parseString_raw by lia.
        rewrite (IH (List.length r') ltac:(simpl in Hn; lia) r' eq_refl).
        reflexivity.
      * rewrite <- app_assoc, parseString_quoteUnit, Hr. reflexivity.
  - rewrite <- app_assoc, parseString_quoteUnit, Hr. reflexivity.
Qed.

Lemma spaces_are_spaces (n : nat) : forallb isJSONSpace (spaces n) = true.
Proof. induction n as [|n IH]; simpl; auto. Qed.

Lemma spaces_gap (n : nat) : spaces n ++ gap2 = spaces (n + 2).
Proof. unfold spaces. symmetry. apply repeat_app. Qed.

Lemma parseValue_spaces (fuel : nat) (ws s : jsstring) :
  forallb isJSONSpace ws = true ->
  parseValue fuel (ws ++ s) = parseValue fuel s.
Proof.
  intros H. destruct fuel; [reflexivity|].
  cbn [parseValue]. now rewrite (skipSpace_spaces ws s H).
Qed.

Lemma parseElements_spaces (fuel : nat) (ws s : jsstring) acc :
  forallb isJSONSpace ws = true ->
  parseElements fuel (ws ++ s) acc = parseElements fuel s acc.
Proof.
  intros H. destruct fuel; [reflexivity|].
  cbn [parseElements]. now rewrite (parseValue_spaces fuel ws s H).
Qed.

Lemma parseMembers_spaces (fuel : nat) (ws s : jsstring) acc :
  forallb isJSONSpace ws = true ->
  parseMembers fuel (ws ++ s) acc = parseMembers fuel s acc.
Proof.
  intros H. destruct fuel; [reflexivity|].
  cbn [parseMembers]. now rewrite (skipSpace_spaces ws s H).
Qed.

Lemma eqb_eq (a b : jsstring) : eqb a b = true <-> a = b.
Proof.
  unfold eqb. destruct (list_eq_dec N.eq_dec a b); split; congruence.
Qed.

(** The units a number is written with, by their codes. *)
Lemma isNumberUnit_codes (c : N) :
  isNumberUnit c = true ->
  ((43 <= c <= 57)%N \/ c = 69%N \/ c = 101%N).
Proof.
  unfold isNumberUnit, isDigit. intros H.
  repeat match type of H with
  | context [(?a <=? ?b)%N] => destruct (N.leb_spec a b)
  | context [(?a =? ?b)%N] => destruct (N.eqb_spec a b)
  end; simpl in H; try discriminate;
  change (ch "-") with 45%N in *; change (ch "+") with 43%N in *;
  change (ch ".") with 46%N in *; change (ch "e") with 101%N in *;
  change (ch "E") with 69%N in *; lia.
Qed.

Lemma takeWhile_restOk (t rest : jsstring) :
  forallb isNumberUnit t = true -> restOk rest = true ->
  takeWhile isNumberUnit (t ++ rest) = t
  /\ dropWhile isNumberUnit (t ++ rest) = rest.
Proof.
  intros Ht Hr. destruct rest as [|c r].
  - rewrite app_nil_r. split; [now apply takeWhile_all | now apply dropWhile_all].
  - simpl in Hr. apply negb_true_iff in Hr.
    split; [now apply takeWhile_app_stop | now apply dropWhile_app_stop].
Qed.

(** A token [readNumber] accepts starts with a minus sign or a digit. *)
Lemma readNumber_head (tok : jsstring) (x : number) :
  readNumber tok = Some x ->
  exists c r, tok = c :: r /\ (c = 45%N \/ (48 <= c <= 57)%N).
Proof.
  destruct tok as [|c r]; [discriminate|]. intros H.
  exists c, r. split; [reflexivity|].
  unfold readNumber in H.
  destruct (N.eqb_spec c (ch "-")) as [->|Hm]; [now left|]. right.
  cbn [takeWhile] in H. destruct (isDigit c) eqn:Hd; [|discriminate].
  now apply isDigit_range.
Qed.

(** The text of a number that reads back is parsed as the number. *)
Lemma parseValue_number (x : number) (fuel : nat) (rest : jsstring) :
  readsBack x = true -> restOk rest = true ->
  headOk (Number_toString x) = true
  /\ parseValue (S fuel) (Number_toString x ++ rest) = Some (VNumber x, rest).
Proof.
  unfold readsBack. intros H Hrest.
  apply andb_true_iff in H as [H Hread].
  apply andb_true_iff in H as [_ Hunits].
  destruct (readNumber (Number_toString x)) as [y|] eqn:Hy; [|discriminate].
  apply FloatAxioms.Leibniz.eqb_spec in Hread. subst y.
  destruct (readNumber_head _ _ Hy) as (c & r & Htok & Hc).
  destruct (takeWhile_restOk _ rest Hunits Hrest) as [Htake Hdrop].
  rewrite Htok in *. clear Htok.
  assert (Hspace : isJSONSpace c = false).
  { unfold isJSONSpace.
    repeat match goal with
    | |- context [(?a =? ?b)%N] => destruct (N.eqb_spec a b)
    end; simpl; try reflexivity; lia. }
  split.
  { unfold headOk. rewrite Hspace.
    destruct (N.eqb_spec c (ch "]")) as [E|_]; [|reflexivity].
    change (ch "]") with 93%N in E. lia. }
  cbn [parseValue]. cbn [app]. rewrite (skipSpace_head c _ Hspace).
  destruct (N.eqb_spec c (ch "{")) as [E|_];
    [change (ch "{") with 123%N in E; lia|].
  destruct (N.eqb_spec c (ch "[")) as [E|_];
    [change (ch "[") with 91%N in E; lia|].
  destruct (N.eqb_spec c QUOTE) as [E|_];
    [change QUOTE with 34%N in E; lia|].
  change (startsWith (c :: r ++ rest) (js "true"))
    with ((116 =? c)%N && startsWith (r ++ rest) (js "rue")).
  destruct (N.eqb_spec 116 c) as [E|_]; [lia|]. cbn [andb].
  change (startsWith (c :: r ++ rest) (js "false"))
    with ((102 =? c)%N && startsWith (r ++ rest) (js "alse")).
  destruct (N.eqb_spec 102 c) as [E|_]; [lia|]. cbn [andb].
  change (startsWith (c :: r ++ rest) (js "null"))
    with ((110 =? c)%N && startsWith (r ++ rest) (js "ull")).
  destruct (N.eqb_spec 110 c) as [E|_]; [lia|]. cbn [andb].
  change (c :: r ++ rest) with ((c :: r) ++ rest).
  now rewrite Htake, Hdrop, Hy.
Qed.

Lemma join_cons (sep p : jsstring) (ps : list jsstring) :
  ps <> [] -> join sep (p :: ps) = p ++ sep ++ join sep ps.
Proof. destruct ps; [congruence | reflexivity]. Qed.

Lemma headOk_cons (t : jsstring) :
  headOk t = true ->
  exists c r, t = c :: r /\ isJSONSpace c = false /\ c <> ch "]".
Proof.
  destruct t as [|c r]; [discriminate|]. unfold headOk. intros H.
  apply andb_true_iff in H as [H1 H2].
  apply negb_true_iff in H1. apply negb_true_iff, N.eqb_neq in H2.
  now exists c, r.
Qed.

Lemma headOk_app (t s : jsstring) : headOk t = true -> headOk (t ++ s) = true.
Proof. destruct t; [discriminate | auto]. Qed.

(** One element: its text is read, and the comma or the closing
    bracket after it decides how the array goes on. *)
Lemma parseElements_step fuel v t rest acc :
  parseValue fuel (t ++ rest) = Some (v, rest) ->
  parseElements (S fuel) (t ++ rest) acc
  = match skipSpace rest with
    | c :: r' =>
      if (c =? ch ",")%N then parseElements fuel r' (acc ++ [v])
      else if (c =? ch "]")%N then Some (VArray (acc ++ [v]), r')
      else None
    | [] => None
    end.
Proof. intros H. cbn [parseElements]. now rewrite H. Qed.

(** The elements of an array, written one per line, are read back in
    order. *)
Lemma elements_roundtrip (n : nat) (items : list value) :
  Forall roundTrips items -> forallb jsonClean items = true ->
  items <> [] ->
  let parts :=
    map (fun v => match serialize gap2 (spaces (n + 2)) v with
                  | Some str => str
                  | None => js "null"
                  end) items in
  let sep := [ch ","; LF] ++ spaces (n + 2) in
  headOk (join sep parts) = true
  /\ (list_sum (map (fun x => S (cost x)) items)
      <= List.length (join sep parts) + 1)%nat
  /\ forall fuel acc rest,
       (list_sum (map (fun x => S (cost x)) items) <= fuel)%nat ->
       parseElements fuel
         (join sep parts ++ [LF] ++ spaces n ++ [ch "]"] ++ rest) acc
       = Some (VArray (acc ++ items), rest).
Proof.
  intros Hall Hclean Hne. cbv zeta.
  induction items as [|x r IH]; [congruence|]. clear Hne.
  apply Forall_cons_iff in Hall as [Hx Hr].
  cbn [forallb] in Hclean. apply andb_true_iff in Hclean as [Hcx Hcr].
  destruct (Hx Hcx (n + 2)%nat) as (t & Ht & Hhead & Hcost & Hparse).
  cbn [map]. rewrite Ht.
  assert (Hclose : forall rest,
            skipSpace ([LF] ++ spaces n ++ [ch "]"] ++ rest)
            = ch "]" :: rest).
  { intros rest. rewrite app_assoc, skipSpace_spaces; [reflexivity|].
    cbn [app forallb]. apply spaces_are_spaces. }
  destruct r as [|y r'].
  - cbn [map join list_sum fold_right]. split; [exact Hhead|]. split; [lia|].
    intros fuel acc rest Hfuel.
    destruct fuel as [|fuel]; [lia|].
    rewrite (parseElements_step fuel x t _ acc)
      by (apply Hparse; [lia | reflexivity]).
    now rewrite Hclose.
  - destruct (IH Hr Hcr ltac:(discriminate)) as (Hh' & Hc' & Hp').
    rewrite join_cons by discriminate.
    split; [now apply headOk_app|]. split.
    { rewrite !length_app. cbn [map list_sum fold_right] in *. cbn [List.length]. lia. }
    intros fuel acc rest Hfuel.
    destruct fuel as [|fuel]; [cbn [map list_sum fold_right] in Hfuel; lia|].
    rewrite <- !app_assoc.
    rewrite (parseElements_step fuel x t _ acc).
    + cbn [app]. rewrite (skipSpace_head (ch ",")) by reflexivity.
      change (ch "," =? ch ",")%N with true. cbv iota.
      change (LF :: ?l) with ([LF] ++ l).
      rewrite app_assoc, parseElements_spaces
        by (cbn [app forallb]; apply spaces_are_spaces).
      replace (acc ++ x :: y :: r') with ((acc ++ [x]) ++ y :: r')
        by (now rewrite <- app_assoc).
      apply Hp'. cbn [map list_sum fold_right] in Hfuel |- *. lia.
    + apply Hparse; [cbn [map list_sum fold_right] in Hfuel; lia | reflexivity].
Qed.

Lemma distinct_cons (k : jsstring) (ks : list jsstring) :
  distinct (k :: ks) = true -> ~ In k ks /\ distinct ks = true.
Proof.
  cbn [distinct]. intros H. apply andb_true_iff in H as [H1 H2].
  split; [|exact H2]. intros Hin. apply negb_true_iff in H1.
  assert (E : existsb (eqb k) ks = true)
    by (apply existsb_exists; exists k; split; [exact Hin | now apply eqb_eq]).
  congruence.
Qed.

(** A new key that is no array index is added last. *)
Lemma defineProperty_new k v (acc : list (jsstring * value)) :
  plainKey k = true -> ~ In k (map fst acc) ->
  defineProperty k v acc = acc ++ [(k, v)].
Proof.
  unfold plainKey. intros Hk Hnew.
  destruct (arrayIndex k) eqn:Hi; [discriminate|].
  induction acc as [|[k' v'] r IH]; [reflexivity|].
  cbn [defineProperty]. cbn [map fst In] in Hnew.
  destruct (eqb k' k) eqn:E; [apply eqb_eq in E; tauto|].
  rewrite Hi. cbn [app]. f_equal. apply IH. tauto.
Qed.

(** One member: its key and its value are read, and the comma or the
    closing brace after it decides how the object goes on. *)
Lemma parseMembers_step fuel k v t rest acc :
  parseValue fuel (t ++ rest) = Some (v, rest) ->
  parseMembers (S fuel) ((quote k ++ js ": " ++ t) ++ rest) acc
  = match skipSpace rest with
    | c :: r4 =>
      if (c =? ch ",")%N
      then parseMembers fuel r4 (defineProperty k v acc)
      else if (c =? ch "}")%N
      then Some (VObject (defineProperty k v acc), r4)
      else None
    | [] => None
    end.
Proof.
  intros H. cbn [parseMembers].
  replace ((quote k ++ js ": " ++ t) ++ rest)
    with (QUOTE :: quoteUnits k ++ QUOTE :: ch ":" :: [32%N] ++ t ++ rest)
    by (unfold quote; cbn [app]; now rewrite <- !app_assoc).
  rewrite (skipSpace_head QUOTE) by reflexivity.
  cbn [expect]. change (QUOTE =? QUOTE)%N with true. cbv iota.
  rewrite parseString_quoteUnits.
  rewrite (skipSpace_head (ch ":")) by reflexivity.
  cbn [expect]. change (ch ":" =? ch ":")%N with true. cbv iota.
  rewrite parseValue_spaces by reflexivity.
  now rewrite H.
Qed.

(** The members of an object, written one per line, are read back in
    order. *)
Lemma members_roundtrip (n : nat) (props : list (jsstring * value)) :
  Forall (fun p => roundTrips (snd p)) props ->
  forallb (fun p => jsonClean (snd p)) props = true ->
  forallb plainKey (map fst props) = true ->
  distinct (map fst props) = true ->
  props <> [] ->
  let parts :=
    flat_map (fun p => match serialize gap2 (spaces (n + 2)) (snd p) with
                       | Some str =>
                         [quote (fst p)
                          ++ (if truthy gap2 then js ": " else js ":")
                          ++ str]
                       | None => []
                       end) props in
  let sep := ch "," :: LF :: spaces (n + 2) in
  (exists j, join sep parts = QUOTE :: j)
  /\ (list_sum (map (fun p => S (cost (snd p))) props)
      <= List.length (join sep parts) + 1)%nat
  /\ forall fuel acc rest,
       (list_sum (map (fun p => S (cost (snd p))) props) <= fuel)%nat ->
       (forall p, In p props -> ~ In (fst p) (map fst acc)) ->
       parseMembers fuel
         (join sep parts ++ LF :: spaces n ++ ch "}" :: rest) acc
       = Some (VObject (acc ++ props), rest).
Proof.
  intros Hall Hclean Hplain Hdist Hne. cbv zeta.
  change (if truthy gap2 then js ": " else js ":") with (js ": ").
  induction props as [|[k v] r IH]; [congruence|]. clear Hne.
  apply Forall_cons_iff in Hall as [Hv Hr]. cbn [snd] in Hv.
  cbn [forallb snd] in Hclean. apply andb_true_iff in Hclean as [Hcv Hcr].
  cbn [map fst forallb] in Hplain.
  apply andb_true_iff in Hplain as [Hpk Hpr].
  cbn [map fst] in Hdist. apply distinct_cons in Hdist as [Hnew Hdr].
  destruct (Hv Hcv (n + 2)%nat) as (t & Ht & Hhead & Hcost & Hparse).
  cbn [flat_map snd fst]. rewrite Ht.
  assert (Hclose : forall rest,
            skipSpace (LF :: spaces n ++ ch "}" :: rest) = ch "}" :: rest).
  { intros rest. change (LF :: spaces n ++ ?l) with ((LF :: spaces n) ++ l).
    rewrite skipSpace_spaces; [reflexivity|].
    cbn [forallb]. apply spaces_are_spaces. }
  assert (Hdef : forall acc,
            (forall p, In p ((k, v) :: r) -> ~ In (fst p) (map fst acc)) ->
            defineProperty k v acc = acc ++ [(k, v)]).
  { intros acc Hacc. apply defineProperty_new; [exact Hpk|].
    apply (Hacc (k, v)). now left. }
  destruct r as [|q r'].
  - cbn [flat_map app join map list_sum fold_right snd].
    split; [unfold quote; cbn [app]; eauto|]. split.
    { rewrite !length_app. lia. }
    intros fuel acc rest Hfuel Hacc.
    destruct fuel as [|fuel]; [lia|].
    rewrite (parseMembers_step fuel k v t _ acc)
      by (apply Hparse; [lia | reflexivity]).
    rewrite Hclose.
    change (ch "}" =? ch ",")%N with false.
    change (ch "}" =? ch "}")%N with true. cbv iota.
    now rewrite Hdef.
  - destruct (IH Hr Hcr Hpr Hdr ltac:(discriminate))
      as ((j & Hj) & Hc' & Hp').
    set (parts := flat_map _ (q :: r')) in *.
    assert (Hparts : parts <> [])
      by (intros E; rewrite E in Hj; discriminate).
    cbn [app]. rewrite join_cons by exact Hparts.
    split; [unfold quote; cbn [app]; eauto|]. split.
    { rewrite !length_app. cbn [map list_sum fold_right snd] in *.
      cbn [List.length]. lia. }
    intros fuel acc rest Hfuel Hacc.
    destruct fuel as [|fuel];
      [cbn [map list_sum fold_right snd] in Hfuel; lia|].
    rewrite <- app_assoc.
    rewrite (parseMembers_step fuel k v t _ acc).
    + cbn [app]. rewrite (skipSpace_head (ch ",")) by reflexivity.
      change (ch "," =? ch ",")%N with true. cbv iota.
      rewrite <- app_assoc.
      change (LF :: spaces (n + 2) ++ ?l)
        with ((LF :: spaces (n + 2)) ++ l).
      rewrite parseMembers_spaces
        by (cbn [forallb]; apply spaces_are_spaces).
      rewrite Hdef by exact Hacc.
      replace (acc ++ (k, v) :: q :: r') with ((acc ++ [(k, v)]) ++ q :: r')
        by (now rewrite <- app_assoc).
      apply Hp'; [cbn [map list_sum fold_right snd] in Hfuel |- *; lia|].
      intros p Hp. rewrite map_app, in_app_iff. cbn [map fst In].
      intros [Hin | [E | []]].
      * apply (Hacc p); [now right | exact Hin].
      * apply Hnew. rewrite E. now apply in_map.
    + apply Hparse; [cbn [map list_sum fold_right snd] in Hfuel; lia
                    | reflexivity].
Qed.

(** Every clean value is read back from its text. *)
Lemma value_roundtrip (v : value) : roundTrips v.
Proof.
  induction v as [ | | b | x | s | items IH | props IH] using value_induction;
    intros Hclean n.
  - discriminate.
  - exists (js "null"). repeat split; [simpl; lia|].
    intros [|fuel] rest Hf _; [simpl in Hf; lia | now vm_compute].
  - destruct b.
    + exists (js "true"). repeat split; [simpl; lia|].
      intros [|fuel] rest Hf _; [simpl in Hf; lia | now vm_compute].
    + exists (js "false"). repeat split; [simpl; lia|].
      intros [|fuel] rest Hf _; [simpl in Hf; lia | now vm_compute].
  - cbn [jsonClean] in Hclean. exists (Number_toString x).
    assert (Hfin : PrimFloat.is_finite x = true).
    { unfold readsBack in Hclean.
      apply andb_true_iff in Hclean as [H _].
      now apply andb_true_iff in H as [H _]. }
    cbn [serialize]. rewrite Hfin.
    destruct (parseValue_number x 0 [] Hclean eq_refl) as [Hhead _].
    split; [reflexivity|]. split; [exact Hhead|]. split.
    { destruct (Number_toString x); [discriminate | simpl; lia]. }
    intros [|fuel] rest Hf Hrest; [simpl in Hf; lia|].
    now apply parseValue_number.
  - exists (quote s). split; [reflexivity|]. split; [reflexivity|]. split.
    { unfold quote. rewrite !length_app. simpl. lia. }
    intros [|fuel] rest Hf _; [simpl in Hf; lia|].
    unfold quote. cbn [app parseValue].
    rewrite (skipSpace_head QUOTE) by reflexivity.
    change (QUOTE =? ch "{")%N with false.
    change (QUOTE =? ch "[")%N with false.
    change (QUOTE =? QUOTE)%N with true. cbv iota.
    rewrite <- app_assoc. cbn [app].
    now rewrite parseString_quoteUnits.
  - cbn [jsonClean] in Hclean. cbn [serialize]. rewrite spaces_gap.
    destruct items as [|x r].
    + exists (js "[]"). repeat split; [simpl; lia|].
      intros [|fuel] rest Hf _; [simpl in Hf; lia | now vm_compute].
    + destruct (elements_roundtrip n (x :: r) IH Hclean ltac:(discriminate))
        as (Hhead & Hcost & Hparse).
      set (parts := map _ (x :: r)) in *.
      set (sep := [ch ","; LF] ++ spaces (n + 2)) in *.
      assert (Hparts : parts <> []) by discriminate.
      unfold wrap. change (truthy gap2) with true.
      destruct parts as [|p ps] eqn:Eparts; [congruence|].
      rewrite <- Eparts in *. cbv iota zeta. rewrite !spaces_gap.
      fold sep. eexists. split; [reflexivity|]. split; [reflexivity|]. split.
      { rewrite !length_app. cbn [cost List.length]. lia. }
      intros [|fuel] rest Hf _; [cbn [cost] in Hf; lia|].
      destruct (headOk_cons _ Hhead) as (c & j & Ej & Hsp & Hnb).
      cbn [parseValue app].
      rewrite (skipSpace_head (ch "[")) by reflexivity.
      change (ch "[" =? ch "{")%N with false.
      change (ch "[" =? ch "[")%N with true. cbv iota.
      change (LF :: ?l) with ([LF] ++ l).
      rewrite <- !app_assoc.
      rewrite (app_assoc [LF] (spaces (n + 2))).
      rewrite skipSpace_spaces
        by (cbn [app forallb]; apply spaces_are_spaces).
      fold sep. rewrite Ej. cbn [app].
      rewrite (skipSpace_head c) by exact Hsp.
      destruct (N.eqb_spec c (ch "]")) as [E|_]; [contradiction|].
      change (c :: j ++ ?l) with ((c :: j) ++ l). rewrite <- Ej.
      rewrite <- (app_assoc (spaces n)).
      apply (Hparse fuel [] rest). cbn [cost] in Hf. lia.
  - cbn [jsonClean] in Hclean.
    apply andb_true_iff in Hclean as [Hclean Hdist].
    apply andb_true_iff in Hclean as [Hclean Hplain].
    cbn [serialize]. rewrite spaces_gap.
    destruct props as [|p r].
    + exists (js "{}"). repeat split; [simpl; lia|].
      intros [|fuel] rest Hf _; [simpl in Hf; lia | now vm_compute].
    + destruct (members_roundtrip n (p :: r) IH Hclean Hplain Hdist
                  ltac:(discriminate)) as ((j & Ej) & Hcost & Hparse).
      set (parts := flat_map _ (p :: r)) in *.
      set (sep := ch "," :: LF :: spaces (n + 2)) in *.
      unfold wrap. change (truthy gap2) with true.
      destruct parts as [|m ms] eqn:Eparts; [discriminate|].
      rewrite <- Eparts in *. cbv iota zeta. rewrite !spaces_gap.
      change ([ch ","; LF] ++ spaces (n + 2)) with sep. eexists. split; [reflexivity|]. split; [reflexivity|]. split.
      { rewrite !length_app. cbn [cost List.length]. lia. }
      intros [|fuel] rest Hf _; [cbn [cost] in Hf; lia|].
      cbn [parseValue app].
      rewrite (skipSpace_head (ch "{")) by reflexivity.
      change (ch "{" =? ch "{")%N with true. cbv iota.
      change (LF :: ?l) with ([LF] ++ l).
      rewrite <- !app_assoc.
      rewrite (app_assoc [LF] (spaces (n + 2))).
      rewrite skipSpace_spaces
        by (cbn [app forallb]; apply spaces_are_spaces).
      rewrite Ej. cbn [app].
      rewrite (skipSpace_head QUOTE) by reflexivity.
      change (QUOTE =? ch "}")%N with false. cbv iota.
      change (QUOTE :: j ++ ?l) with ((QUOTE :: j) ++ l). rewrite <- Ej.
      rewrite <- (app_assoc (spaces n)).
      apply (Hparse fuel [] rest); [cbn [cost] in Hf; lia | auto].
Qed.

(** [JSON.parse(JSON.stringify(v, null, 2))] gives back a clean [v]. *)
Lemma parse_stringify (v : value) :
  jsonClean v = true ->
  exists t, stringify gap2 v = Some t /\ parse t = Some v.
Proof.
  intros Hclean.
  destruct (value_roundtrip v Hclean 0%nat) as (t & Ht & _ & Hcost & Hparse).
  exists t. split; [exact Ht|]. unfold parse.
  specialize (Hparse (S (List.length t)) [] ltac:(lia) eq_refl).
  rewrite app_nil_r in Hparse. now rewrite Hparse.
Qed.

End JSONRoundTrip.

(* ================================================================== *)
(** * Properties of export and import *)
(* ================================================================== *)

Section ExportImport.
Import Data JSON Storage Spec.

Lemma forallb_app_split {A} (f : A -> bool) (l1 l2 : list A) :
  forallb f (l1 ++ l2) = true -> forallb f l1 = true /\ forallb f l2 = true.
Proof. rewrite forallb_app. apply andb_true_iff. Qed.

Lemma optionalNumber_clean key (o : option number) :
  forallb readsBack (optionalNumber o) = true ->
  forallb (fun p => jsonClean (snd p)) (optional key VNumber o) = true.
Proof. destruct o; simpl; auto. Qed.

Ltac split_clean :=
  apply andb_true_iff; split; [apply andb_true_iff; split|].

Lemma Transaction_value_clean (t : Transaction number) :
  forallb readsBack (amount t :: optionalNumber (exchangeRateAtTime t)) = true ->
  jsonClean (Transaction_value t) = true.
Proof.
  destruct t as [i ty a c cat de da rate rec int]. cbn [amount exchangeRateAtTime].
  intros H. cbn [forallb] in H. apply andb_true_iff in H as [Ha Hr].
  unfold Transaction_value.
  cbn [id type amount currency category description date exchangeRateAtTime
       recurring recurringInterval jsonClean].
  split_clean.
  - rewrite !forallb_app. cbn [forallb snd jsonClean].
    rewrite Ha, (optionalNumber_clean _ _ Hr).
    destruct ty, c, rec, int; reflexivity.
  - destruct rate, rec, int; reflexivity.
  - destruct rate, rec, int; reflexivity.
Qed.

Lemma Debt_value_clean (d : Debt) :
  forallb readsBack (totalAmount d :: paidAmount d
                     :: optionalNumber (interestRate d)
                     ++ optionalNumber (minimumPayment d)) = true ->
  jsonClean (Debt_value d) = true.
Proof.
  destruct d as [i nm ta pa c ir due mp].
  cbn [totalAmount paidAmount interestRate minimumPayment].
  intros H. cbn [forallb] in H. apply andb_true_iff in H as [Ht H].
  apply andb_true_iff in H as [Hp H].
  apply forallb_app_split in H as [Hi Hm].
  unfold Debt_value.
  cbn [debt_id debt_name totalAmount paidAmount debt_currency interestRate
       dueDate minimumPayment jsonClean].
  split_clean.
  - rewrite !forallb_app. cbn [forallb snd jsonClean].
    rewrite Ht, Hp, (optionalNumber_clean _ _ Hi),
      (optionalNumber_clean _ _ Hm).
    destruct c, due; reflexivity.
  - destruct ir, due, mp; reflexivity.
  - destruct ir, due, mp; reflexivity.
Qed.

Lemma SavingsGoal_value_clean (g : SavingsGoal) :
  forallb readsBack [targetAmount g; currentAmount g] = true ->
  jsonClean (SavingsGoal_value g) = true.
Proof.
  destruct g as [i nm ta ca c dl]. cbn [targetAmount currentAmount].
  intros H. cbn [forallb] in H. apply andb_true_iff in H as [Ht H].
  apply andb_true_iff in H as [Hc _].
  unfold SavingsGoal_value.
  cbn [goal_id goal_name targetAmount currentAmount goal_currency deadline
       jsonClean].
  split_clean.
  - rewrite !forallb_app. cbn [forallb snd jsonClean]. rewrite Ht, Hc.
    destruct c, dl; reflexivity.
  - destruct dl; reflexivity.
  - destruct dl; reflexivity.
Qed.

Lemma UserSettings_value_clean (u : UserSettings) :
  forallb readsBack (exchangeRate u :: optionalNumber (monthlyBudget u)) = true ->
  jsonClean (UserSettings_value u) = true.
Proof.
  destruct u as [pc er auto mb]. cbn [exchangeRate monthlyBudget].
  intros H. cbn [forallb] in H. apply andb_true_iff in H as [He Hm].
  unfold UserSettings_value.
  cbn [primaryCurrency exchangeRate autoExchangeRate monthlyBudget jsonClean].
  split_clean.
  - rewrite !forallb_app. cbn [forallb snd jsonClean].
    rewrite He, (optionalNumber_clean _ _ Hm). destruct pc; reflexivity.
  - destruct mb; reflexivity.
  - destruct mb; reflexivity.
Qed.

Lemma map_clean {A} (f : A -> value) (numbers : A -> list number)
  (l : list A) :
  (forall a, forallb readsBack (numbers a) = true -> jsonClean (f a) = true) ->
  forallb readsBack (flat_map numbers l) = true ->
  forallb jsonClean (map f l) = true.
Proof.
  intros Hf. induction l as [|a r IH]; [reflexivity|].
  cbn [flat_map map forallb]. intros H.
  apply forallb_app_split in H as [Ha Hr].
  now rewrite (Hf a Ha), (IH Hr).
Qed.

(** The object of a dataset whose numbers read back is clean. *)
Lemma AppData_value_clean (d : AppData) :
  forallb readsBack (AppData_numbers d) = true ->
  jsonClean (AppData_value d) = true.
Proof.
  unfold AppData_numbers. intros H.
  apply forallb_app_split in H as [Ht H].
  apply forallb_app_split in H as [Hd H].
  apply forallb_app_split in H as [Hg Hs].
  unfold AppData_value. cbn [jsonClean forallb snd].
  rewrite (map_clean _ _ _ Transaction_value_clean Ht).
  rewrite (map_clean _ _ _ Debt_value_clean Hd).
  rewrite (map_clean _ _ _ SavingsGoal_value_clean Hg).
  rewrite (UserSettings_value_clean _ Hs).
  reflexivity.
Qed.

Lemma asCurrency_value c : asCurrency (Currency_value c) = Some c.
Proof. now destruct c. Qed.

Lemma asTransactionType_value t :
  asTransactionType (TransactionType_value t) = Some t.
Proof. now destruct t. Qed.

Lemma asRecurringInterval_value i :
  asRecurringInterval (RecurringInterval_value i) = Some i.
Proof. now destruct i. Qed.

Lemma asCategory_value c : asCategory (VString (Category_name c)) = Some c.
Proof. now destruct c. Qed.

Lemma lookup_cons k v (r : list (jsstring * value)) key :
  lookup ((k, v) :: r) key = if eqb k key then Some v else lookup r key.
Proof. unfold lookup. cbn [find fst]. now destruct (eqb k key). Qed.

Lemma lookup_nil key : lookup [] key = None.
Proof. reflexivity. Qed.

(** Looking a literal key up in a list of literal keys. *)
Ltac eval_lookup :=
  repeat first
    [ rewrite lookup_nil
    | rewrite lookup_cons;
      match goal with
      | |- context [if eqb ?a ?b then _ else _] =>
        let e := eval vm_compute in (eqb a b) in
        change (eqb a b) with e; cbv iota
      end ].

Ltac read_fields :=
  repeat (eval_lookup;
          cbn [bind asString asNumber asBool asObject];
          rewrite ?asTransactionType_value, ?asCurrency_value,
            ?asCategory_value, ?asRecurringInterval_value).

Lemma asTransaction_value (t : Transaction number) :
  asTransaction (Transaction_value t) = Some t.
Proof.
  destruct t as [i ty a c cat de da rate rec int].
  unfold asTransaction, Transaction_value, field, optionalField.
  cbn [id type amount currency category description date exchangeRateAtTime
       recurring recurringInterval asObject bind].
  destruct rate, rec, int; cbn [optional app]; read_fields; reflexivity.
Qed.

Lemma asDebt_value (d : Debt) : asDebt (Debt_value d) = Some d.
Proof.
  destruct d as [i nm ta pa c ir due mp].
  unfold asDebt, Debt_value, field, optionalField.
  cbn [debt_id debt_name totalAmount paidAmount debt_currency interestRate
       dueDate minimumPayment asObject bind].
  destruct ir, due, mp; cbn [optional app]; read_fields; reflexivity.
Qed.

Lemma asSavingsGoal_value (g : SavingsGoal) :
  asSavingsGoal (SavingsGoal_value g) = Some g.
Proof.
  destruct g as [i nm ta ca c dl].
  unfold asSavingsGoal, SavingsGoal_value, field, optionalField.
  cbn [goal_id goal_name targetAmount currentAmount goal_currency deadline
       asObject bind].
  destruct dl; cbn [optional app]; read_fields; reflexivity.
Qed.

Lemma asUserSettings_value (u : UserSettings) :
  asUserSettings (UserSettings_value u) = Some u.
Proof.
  destruct u as [pc er auto mb].
  unfold asUserSettings, UserSettings_value, field, optionalField.
  cbn [primaryCurrency exchangeRate autoExchangeRate monthlyBudget
       asObject bind].
  destruct mb; cbn [optional app]; read_fields; reflexivity.
Qed.

Lemma asArray_map {A} (read : value -> option A) (f : A -> value)
  (l : list A) :
  (forall a, read (f a) = Some a) -> asArray read (map f l) = Some l.
Proof.
  intros H. induction l as [|a r IH]; [reflexivity|].
  cbn [map asArray]. now rewrite H, IH.
Qed.

(** The object of a dataset reads as the dataset, field by field. *)
Lemma asAppData_value (d : AppData) : asAppData (AppData_value d) = Some d.
Proof.
  destruct d as [ts ds gs st].
  unfold asAppData, AppData_value, field.
  cbn [transactions debts savingsGoals settings asObject bind].
  eval_lookup. cbn [bind asArrayOf].
  rewrite (asArray_map _ _ ts asTransaction_value). cbn [bind].
  eval_lookup. cbn [bind asArrayOf].
  rewrite (asArray_map _ _ ds asDebt_value). cbn [bind].
  eval_lookup. cbn [bind asArrayOf].
  rewrite (asArray_map _ _ gs asSavingsGoal_value). cbn [bind].
  eval_lookup. cbn [bind].
  now rewrite asUserSettings_value.
Qed.

End ExportImport.

Section ExportImportScenarios.
Import Data JSON Storage Spec.
#[local] Open Scope float_scope.

(** The dataset of the round-trip test of the repository, with a debt
    added. *)
Definition sampleData : AppData :=
  {| transactions :=
       [ {| id := js "tx-1"; type := income; amount := 5000;
            currency := USD; category := Salary; description := js "Pay";
            date := js "2025-01-01"; exchangeRateAtTime := None;
            recurring := Some true; recurringInterval := Some monthly |} ];
     debts :=
       [ {| debt_id := js "debt-1"; debt_name := js "Car loan";
            totalAmount := 10000.5; paidAmount := 0.1;
            debt_currency := PLN; interestRate := Some 4.5;
            dueDate := None; minimumPayment := None |} ];
     savingsGoals := [];
     settings :=
       {| primaryCurrency := USD; exchangeRate := 4.05;
          autoExchangeRate := true; monthlyBudget := None |} |}.

(** C8, the claim as stated fails. A dataset whose exchange rate is
    infinite (importing a file that holds [1e999] there stores one): its
    export holds [null] for the rate, so the import succeeds but returns
    an object whose [exchangeRate] is [null], which is no dataset. *)
Lemma importData_exportData_counterexample :
  let data :=
    {| transactions := []; debts := []; savingsGoals := [];
       settings :=
         {| primaryCurrency := USD; exchangeRate := infinity;
            autoExchangeRate := true; monthlyBudget := None |} |} in
  exists imported stored,
    fst (importData (exportData data) []) = Some imported
    /\ getProperty imported (js "settings") = Some stored
    /\ getProperty stored (js "exchangeRate") = Some VNull
    /\ asAppData imported = None
    /\ fst (importData
              (jsq "{'transactions': [], 'settings': {'primaryCurrency': 'USD', 'exchangeRate': 1e999, 'autoExchangeRate': true}}")
              [])
       = Some (VObject
                 [(js "transactions", VArray []);
                  (js "settings", UserSettings_value (settings data))]).
Proof.
  cbv zeta. eexists _, _.
  split; [vm_compute; reflexivity|].
  split; [vm_compute; reflexivity|].
  split; [vm_compute; reflexivity|].
  split; now vm_compute.
Qed.

End ExportImportScenarios.

(* ================================================================== *)
(** * Further properties of the importer, the advisor, the storage and
      the pages *)
(* ================================================================== *)

Section FloatOrder.
Import Pages.

Lemma Prim2SF_zero : Prim2SF 0%float = S754_zero false.
Proof. reflexivity. Qed.

Lemma isNaN_spec (x : number) :
  isNaN x = match Prim2SF x with S754_nan => true | _ => false end.
Proof.
  unfold isNaN, PrimFloat.is_nan. rewrite FloatAxioms.eqb_spec.
  unfold SFeqb. destruct (Prim2SF x) as [s|s| |s m e]; try reflexivity.
  - now destruct s.
  - simpl. rewrite Z.compare_refl.
    destruct s; simpl; now rewrite Pos.compare_cont_refl.
Qed.

(** A number that is neither [NaN] nor a zero has a positive absolute
    value. *)
Lemma abs_positive (x : number) :
  isNaN x || PrimFloat.eqb x 0 = false ->
  PrimFloat.ltb 0 (PrimFloat.abs x) = true.
Proof.
  rewrite isNaN_spec, FloatAxioms.eqb_spec, ltb_spec, abs_spec, Prim2SF_zero.
  destruct (Prim2SF x) as [s|s| |s m e]; simpl; intros H;
    try discriminate; reflexivity.
Qed.

(** A number that is neither [NaN] nor at most zero is positive. *)
Lemma positive_of_guard (x : number) :
  isNaN x || PrimFloat.leb x 0 = false -> PrimFloat.ltb 0 x = true.
Proof.
  rewrite isNaN_spec, leb_spec, ltb_spec, Prim2SF_zero.
  destruct (Prim2SF x) as [s|s| |s m e]; simpl; intros H;
    try discriminate; destruct s; try discriminate; reflexivity.
Qed.

Lemma positive_not_nan (x : number) :
  PrimFloat.ltb 0 x = true -> isNaN x = false.
Proof.
  rewrite isNaN_spec, ltb_spec, Prim2SF_zero.
  destruct (Prim2SF x); simpl; intros H; try discriminate; reflexivity.
Qed.

Lemma SFcompare_refl (a : spec_float) :
  a <> S754_nan -> SFcompare a a = Some Eq.
Proof.
  destruct a as [s|s| |s m e]; intros H; simpl; try easy.
  - now destruct s.
  - rewrite Z.compare_refl. destruct s; now rewrite Pos.compare_cont_refl.
Qed.

Lemma SFcompare_antisym (a b : spec_float) :
  SFcompare a b = Some Gt -> SFcompare b a = Some Lt.
Proof.
  destruct a as [s|s| |s m e], b as [s'|s'| |s' m' e']; simpl;
    try discriminate;
    try (destruct s; try discriminate; destruct s'; try discriminate;
         reflexivity);
    try (destruct s'; try discriminate; reflexivity);
    try (destruct s; try discriminate; reflexivity).
  assert (Hm : Pos.compare_cont Eq m' m = CompOpp (Pos.compare_cont Eq m m'))
    by (rewrite (Pos.compare_cont_antisym m m' Eq); reflexivity).
  rewrite (Z.compare_antisym e e'), Hm.
  destruct s, s'; try discriminate; try reflexivity;
    destruct (e ?= e'); simpl; try discriminate; try reflexivity;
    destruct (Pos.compare_cont Eq m m'); simpl; try discriminate;
    reflexivity.
Qed.

(** [Math.min(a, b)] of two numbers is at most each of them. *)
Lemma Math_min_le (a b : number) :
  isNaN a = false -> isNaN b = false ->
  PrimFloat.leb (Math_min a b) b = true
  /\ PrimFloat.leb (Math_min a b) a = true
  /\ (Math_min a b = a \/ Math_min a b = b).
Proof.
  intros Ha Hb. unfold Math_min. rewrite Ha, Hb. cbn [orb].
  rewrite isNaN_spec in Ha, Hb.
  assert (Hra : SFcompare (Prim2SF a) (Prim2SF a) = Some Eq)
    by (apply SFcompare_refl; intros E; now rewrite E in Ha).
  assert (Hrb : SFcompare (Prim2SF b) (Prim2SF b) = Some Eq)
    by (apply SFcompare_refl; intros E; now rewrite E in Hb).
  assert (Hab : exists c, SFcompare (Prim2SF a) (Prim2SF b) = Some c).
  { destruct (Prim2SF a), (Prim2SF b); try discriminate; simpl; eauto. }
  destruct Hab as [c Hc].
  rewrite !ltb_spec. unfold SFltb. rewrite Hc.
  destruct c.
  - destruct (SFcompare (Prim2SF b) (Prim2SF a)) as [[| |]|] eqn:Hba.
    + destruct (get_sign a); rewrite !leb_spec; unfold SFleb;
        rewrite ?Hc, ?Hra, ?Hrb, ?Hba; auto.
    + rewrite !leb_spec; unfold SFleb; rewrite ?Hc, ?Hra, ?Hrb, ?Hba; auto.
    + apply SFcompare_antisym in Hba. congruence.
    + destruct (Prim2SF a), (Prim2SF b); discriminate.
  - rewrite !leb_spec; unfold SFleb; rewrite ?Hc, ?Hra; auto.
  - apply SFcompare_antisym in Hc as Hba. rewrite Hba.
    rewrite !leb_spec; unfold SFleb; rewrite ?Hba, ?Hrb; auto.
Qed.

End FloatOrder.


Section CsvLines.
Import PkoImport Spec.

Lemma splitLines_no_line_feed (s : jsstring) :
  includesChar s 10%N = false -> splitLines s = [s].
Proof.
  unfold includesChar.
  induction s as [|c r IH]; [reflexivity|].
  cbn [existsb]. intros H. apply orb_false_iff in H as [Hc Hr].
  specialize (IH Hr). cbn [splitLines].
  rewrite N.eqb_sym, Hc.
  destruct (c =? 13)%N.
  - destruct r as [|c' r']; [now rewrite IH|].
    cbn [existsb] in Hr. apply orb_false_iff in Hr as [Hc' _].
    rewrite N.eqb_sym, Hc'. now rewrite IH.
  - now rewrite IH.
Qed.

(** X1. A text without a line feed (the empty text, a header line alone)
    has no data line: [parseCSV] returns no headers, no transactions
    and the default mapping. *)
Theorem parseCSV_no_line_feed :
  forall (SC : StringCase) (csvText : jsstring),
    includesChar csvText 10%N = false ->
    parseCSV csvText = emptyResult.
Proof.
  intros SC csvText H. unfold parseCSV.
  rewrite (splitLines_no_line_feed _ H). cbn [filter].
  now destruct (0 <? List.length (trim csvText))%nat.
Qed.

(** An instance of [parseCSV_no_line_feed]. *)
Lemma parseCSV_no_line_feed_witness :
  @parseCSV asciiCase (js "Date,Amount,Description") = emptyResult.
Proof. apply parseCSV_no_line_feed. reflexivity. Defined.

(** The loop of [parseCSVLine] outside quotes, on a rest without a
    double quote: the pieces between the delimiters, trimmed. *)
Lemma parseCSVLine_loop_unquoted (d : N) (line : jsstring) :
  includesChar line QUOTE = false ->
  forall current result,
    parseCSVLine_loop d line current false result
    = result
      ++ match split d line with
         | f :: fs => trim (current ++ f) :: map trim fs
         | [] => []
         end.
Proof.
  unfold includesChar.
  induction line as [|c r IH]; intros H current result.
  - cbn. now rewrite app_nil_r.
  - cbn [existsb] in H. apply orb_false_iff in H as [Hc Hr].
    cbn [parseCSVLine_loop split]. rewrite N.eqb_sym, Hc.
    cbn [negb]. rewrite andb_true_r.
    destruct (c =? d)%N.
    + rewrite (IH Hr). rewrite <- app_assoc. cbn [app map].
      rewrite app_nil_r.
      destruct (split d r) as [|f fs] eqn:E; [|reflexivity].
      destruct r; cbn in E; [discriminate|].
      destruct (_ =? _)%N; [discriminate|]. now destruct (split d r).
    + rewrite (IH Hr).
      destruct (split d r) as [|f fs] eqn:E.
      * destruct r; cbn in E; [discriminate|].
        destruct (_ =? _)%N; [discriminate|]. now destruct (split d r).
      * now rewrite <- app_assoc.
Qed.

(** X2. On a line without a double quote, [parseCSVLine] returns the
    pieces [split] cuts the line into at the delimiter, each trimmed:
    as many fields as [detectDelimiter] counted. *)
Theorem parseCSVLine_unquoted :
  forall (line : jsstring) (delimiter : N),
    includesChar line QUOTE = false ->
    parseCSVLine line delimiter = map trim (split delimiter line)
    /\ List.length (parseCSVLine line delimiter) = fieldCount line delimiter.
Proof.
  intros line d H. unfold parseCSVLine, fieldCount.
  rewrite (parseCSVLine_loop_unquoted d line H).
  destruct (split d line) as [|f fs] eqn:E.
  - destruct line; cbn in E; [discriminate|].
    destruct (_ =? _)%N; [discriminate|]. now destruct (split d line).
  - cbn. now rewrite length_map.
Qed.

(** An instance of [parseCSVLine_unquoted]. *)
Lemma parseCSVLine_unquoted_witness :
  parseCSVLine (js "Date ; Amount;Description") (ch ";")
  = [js "Date"; js "Amount"; js "Description"].
Proof.
  destruct (parseCSVLine_unquoted (js "Date ; Amount;Description") (ch ";")
              eq_refl) as [H _].
  rewrite H. reflexivity.
Defined.

Lemma parseCSVLine_loop_fields (d : N) (n : nat) :
  forall line current inQuotes result,
    (List.length line <= n)%nat ->
    exists fields,
      parseCSVLine_loop d line current inQuotes result
      = result ++ fields
      /\ fields <> []
      /\ Forall (fun f => trim f = f) fields.
Proof.
  induction n as [|n IH]; intros line current inQuotes result Hlen.
  - destruct line; [|simpl in Hlen; lia].
    exists [trim current]. cbn. split; [reflexivity|].
    split; [discriminate|]. constructor; [apply trim_idem | constructor].
  - destruct line as [|c r].
    + exists [trim current]. cbn. split; [reflexivity|].
      split; [discriminate|]. constructor; [apply trim_idem | constructor].
    + simpl in Hlen. cbn [parseCSVLine_loop].
      destruct (c =? QUOTE)%N.
      * destruct inQuotes, r as [|next r'];
          try (apply IH; simpl in *; lia).
        destruct (next =? QUOTE)%N; apply IH; simpl in *; lia.
      * destruct ((c =? d)%N && negb inQuotes).
        -- destruct (IH r [] inQuotes (result ++ [trim current])
                       ltac:(lia)) as (fs & E & Hne & Hall).
           exists (trim current :: fs). rewrite E, <- app_assoc.
           split; [reflexivity|]. split; [discriminate|].
           constructor; [apply trim_idem | exact Hall].
        -- apply IH. lia.
Qed.

(** X3. [parseCSVLine] never returns an empty array, and every field it
    returns is trimmed: it has no white space at either end. *)
Theorem parseCSVLine_fields_trimmed :
  forall (line : jsstring) (delimiter : N),
    parseCSVLine line delimiter <> []
    /\ Forall (fun f => trim f = f) (parseCSVLine line delimiter).
Proof.
  intros line d. unfold parseCSVLine.
  destruct (parseCSVLine_loop_fields d (List.length line) line [] false []
              (le_n _)) as (fs & E & Hne & Hall).
  rewrite E. now split.
Qed.

(** Inside quotes the loop reads a field written by [csvQuote] up to
    its closing quote, delimiters included. *)
Lemma parseCSVLine_loop_quoted (d : N) (field rest : jsstring) :
  match rest with c :: _ => (c =? QUOTE)%N = false | [] => True end ->
  forall current result,
    parseCSVLine_loop d
      (flat_map (fun c => if (c =? QUOTE)%N then [QUOTE; QUOTE] else [c])
         field ++ QUOTE :: rest)
      current true result
    = parseCSVLine_loop d rest (current ++ field) false result.
Proof.
  intros Hrest.
  induction field as [|c r IH]; intros current result.
  - cbn [flat_map app parseCSVLine_loop]. rewrite N.eqb_refl.
    rewrite app_nil_r.
    destruct rest as [|c' rest']; [reflexivity|].
    now rewrite Hrest.
  - cbn [flat_map]. destruct (c =? QUOTE)%N eqn:Hc.
    + apply N.eqb_eq in Hc. subst c.
      cbn [app parseCSVLine_loop]. rewrite !N.eqb_refl.
      rewrite IH. now rewrite <- app_assoc.
    + cbn [app parseCSVLine_loop]. rewrite Hc. cbn [negb].
      rewrite andb_false_r. rewrite IH. now rewrite <- app_assoc.
Qed.

Lemma parseCSVLine_loop_csvQuote (d : N) (fields : list jsstring) :
  (d =? QUOTE)%N = false -> fields <> [] ->
  forall result,
    parseCSVLine_loop d (JSON.join [d] (map csvQuote fields)) [] false result
    = result ++ map trim fields.
Proof.
  intros Hd.
  induction fields as [|f r IH]; intros Hne result; [congruence|].
  destruct r as [|g r'].
  - cbn [map JSON.join]. unfold csvQuote.
    cbn [app parseCSVLine_loop]. rewrite N.eqb_refl.
    rewrite (parseCSVLine_loop_quoted d f [] I). reflexivity.
  - change (JSON.join [d] (map csvQuote (f :: g :: r')))
      with (csvQuote f ++ [d] ++ JSON.join [d] (map csvQuote (g :: r'))).
    unfold csvQuote at 1. rewrite <- !app_assoc.
    cbn [app parseCSVLine_loop]. rewrite N.eqb_refl.
    rewrite (parseCSVLine_loop_quoted d f (d :: _) Hd).
    cbn [parseCSVLine_loop]. rewrite Hd, N.eqb_refl. cbn [negb andb].
    rewrite IH by discriminate. now rewrite <- app_assoc.
Qed.

(** X4. Quoting is undone: a line of fields each written between double
    quotes, with its own double quotes doubled, and joined by a
    delimiter other than the double quote, is read back as those fields,
    trimmed; delimiters inside the quotes do not split. *)
Theorem parseCSVLine_quoted_fields :
  forall (delimiter : N) (fields : list jsstring),
    (delimiter =? QUOTE)%N = false -> fields <> [] ->
    parseCSVLine (JSON.join [delimiter] (map csvQuote fields)) delimiter
    = map trim fields.
Proof.
  intros d fields Hd Hne. unfold parseCSVLine.
  now rewrite (parseCSVLine_loop_csvQuote d fields Hd Hne).
Qed.

(** An instance of [parseCSVLine_quoted_fields]. *)
Lemma parseCSVLine_quoted_fields_witness :
  parseCSVLine
    (jsq "'2025-01-15','-1 234,56','Sklep ''Biedronka'', Warszawa'")
    (ch ",")
  = [js "2025-01-15"; js "-1 234,56"; jsq "Sklep 'Biedronka', Warszawa"].
Proof.
  apply (parseCSVLine_quoted_fields (ch ",")
           [js "2025-01-15"; js "-1 234,56";
            jsq "Sklep 'Biedronka', Warszawa"]);
    [reflexivity | discriminate].
Defined.

End CsvLines.


Section ColumnDetection.
Import PkoImport Spec.

Lemma indexOf_spec (arr : list jsstring) (x : jsstring) :
  (indexOf arr x = -1 /\ ~ In x arr)
  \/ (0 <= indexOf arr x < Z.of_nat (List.length arr)
      /\ nth_error arr (Z.to_nat (indexOf arr x)) = Some x
      /\ forall j, (j < Z.to_nat (indexOf arr x))%nat ->
                   nth_error arr j <> Some x).
Proof.
  induction arr as [|y r IH]; [left; split; [reflexivity | intros []]|].
  cbn [indexOf].
  destruct (eqb y x) eqn:E.
  - apply eqb_eq in E. subst y. right. cbn [List.length].
    split; [lia|]. split; [reflexivity|]. intros j Hj. simpl in Hj. lia.
  - assert (Hne : y <> x) by (intros ->; rewrite (proj2 (eqb_eq x x) eq_refl) in E; discriminate).
    destruct IH as [[Hi Hnot] | (Hr & Hnth & Hfirst)].
    + rewrite Hi. left. split; [reflexivity|]. intros [H | H]; auto.
    + destruct (indexOf r x <? 0) eqn:Hneg; [apply Z.ltb_lt in Hneg; lia|].
      right. cbn [List.length]. split; [lia|].
      replace (Z.to_nat (indexOf r x + 1)) with (S (Z.to_nat (indexOf r x)))
        by lia.
      split; [exact Hnth|].
      intros [|j] Hj; cbn [nth_error]; [congruence|]. apply Hfirst. lia.
Qed.

Lemma findColumnIndex_loop_spec (normalized candidates : list jsstring) :
  let i := findColumnIndex_loop normalized candidates in
  (i = -1 /\ forall c, In c candidates -> ~ In c normalized)
  \/ (0 <= i < Z.of_nat (List.length normalized)
      /\ exists c earlier later,
           candidates = earlier ++ c :: later
           /\ (forall c', In c' earlier -> ~ In c' normalized)
           /\ nth_error normalized (Z.to_nat i) = Some c
           /\ forall j, (j < Z.to_nat i)%nat ->
                        nth_error normalized j <> Some c).
Proof.
  induction candidates as [|c r IH]; cbn zeta.
  - left. split; [reflexivity | intros c []].
  - cbn [findColumnIndex_loop].
    destruct (indexOf_spec normalized c) as [[Hi Hnot] | (Hr & Hnth & Hfirst)].
    + rewrite Hi. cbn [Z.eqb negb].
      destruct IH as [[Hj Hall] | (Hrange & c' & l1 & l2 & E & Hl1 & H1 & H2)].
      * left. split; [exact Hj|].
        intros c' [<- | Hin]; [exact Hnot | exact (Hall c' Hin)].
      * right. split; [exact Hrange|].
        exists c', (c :: l1), l2.
        split; [now rewrite E|]. split; [|split; [exact H1 | exact H2]].
        intros c'' [<- | Hin]; [exact Hnot | exact (Hl1 c'' Hin)].
    + destruct (indexOf normalized c =? -1) eqn:E;
        [apply Z.eqb_eq in E; lia|]. cbn [negb].
      right. split; [exact Hr|]. exists c, [], r.
      split; [reflexivity|]. split; [intros c' []|]. now split.
Qed.

(** X5. [findColumnIndex] returns [-1] exactly when no candidate is the
    normalized form (lower case, trimmed) of a header; otherwise it
    returns the position of a header, the first one whose normalized
    form is the first candidate that occurs at all. *)
Theorem findColumnIndex_bounds :
  forall (SC : StringCase) (headers candidates : list jsstring),
    let normalized := map (fun h => trim (toLowerCase h)) headers in
    let i := findColumnIndex headers candidates in
    (i = -1 /\ forall c, In c candidates -> ~ In c normalized)
    \/ (0 <= i < Z.of_nat (List.length headers)
        /\ exists c earlier later,
             candidates = earlier ++ c :: later
             /\ (forall c', In c' earlier -> ~ In c' normalized)
             /\ nth_error normalized (Z.to_nat i) = Some c
             /\ forall j, (j < Z.to_nat i)%nat ->
                          nth_error normalized j <> Some c).
Proof.
  intros SC headers candidates normalized i. subst i normalized.
  unfold findColumnIndex.
  pose proof (findColumnIndex_loop_spec
                (map (fun h => trim (toLowerCase h)) headers) candidates) as H.
  cbn zeta in H. now rewrite length_map in H.
Qed.

Lemma findColumnIndex_range {SC : StringCase}
  (headers candidates : list jsstring) :
  findColumnIndex headers candidates = -1
  \/ 0 <= findColumnIndex headers candidates
          < Z.of_nat (List.length headers).
Proof.
  unfold findColumnIndex.
  destruct (findColumnIndex_loop_spec
              (map (fun h => trim (toLowerCase h)) headers) candidates)
    as [[H _] | [H _]]; cbn zeta in H; rewrite ?length_map in H; auto.
Qed.

(** X6. The mapping [parseCSV] detects: a column it found is a column of
    the header row; the date, amount and description columns default to
    0, 1 and 2 where none is found, so they are never negative, and all
    three lie in the header row when [autoMapped] is set; the currency
    and counterparty columns are [-1] where none is found. *)
Theorem parseCSV_mapping_in_range :
  forall (SC : StringCase) (csvText : jsstring),
    let r := parseCSV csvText in
    let n := Z.of_nat (List.length (headers r)) in
    0 <= date (mapping r) /\ 0 <= amount (mapping r)
    /\ 0 <= description (mapping r)
    /\ (currency (mapping r) = -1 \/ 0 <= currency (mapping r) < n)
    /\ (counterparty (mapping r) = -1 \/ 0 <= counterparty (mapping r) < n)
    /\ (autoMapped r = true ->
        date (mapping r) < n /\ amount (mapping r) < n
        /\ description (mapping r) < n)
    /\ (autoMapped r = false ->
        date (mapping r) = 0 \/ amount (mapping r) = 1
        \/ description (mapping r) = 2).
Proof.
  intros SC csvText. unfold parseCSV.
  destruct (filter _ (splitLines csvText)) as [|line0 [|line1 rows]];
    cbn zeta; cbn [headers mapping autoMapped date amount description
                   currency counterparty List.length];
    try (repeat split; try lia; auto; discriminate).
  set (hs := parseCSVLine line0 (detectDelimiter line0)).
  destruct (findColumnIndex_range hs PKO_COLUMNS.date) as [Hd | Hd];
  destruct (findColumnIndex_range hs PKO_COLUMNS.amount) as [Ha | Ha];
  destruct (findColumnIndex_range hs PKO_COLUMNS.description) as [He | He];
    rewrite ?Hd, ?Ha, ?He; cbn [Z.eqb Pos.eqb negb andb];
    repeat match goal with
           | |- context [?x =? -1] =>
             let E := fresh "E" in
             destruct (x =? -1) eqn:E; [apply Z.eqb_eq in E; lia|]
           end;
    cbn [negb andb];
    (split; [lia|]); (split; [lia|]); (split; [lia|]);
    (split; [apply findColumnIndex_range|]);
    (split; [apply findColumnIndex_range|]);
    split; intros H; try discriminate; try lia; auto.
Qed.

End ColumnDetection.


Section Categorization.
Import PkoImport Spec.

Lemma detectCategory_loop_spec (lower : jsstring)
  (entries : list (jsstring * Category)) :
  (detectCategory_loop lower entries = Other
   /\ forall kw c, In (kw, c) entries -> includes lower kw = false)
  \/ exists kw earlier later,
       entries = earlier ++ (kw, detectCategory_loop lower entries) :: later
       /\ includes lower kw = true
       /\ forall kw' c', In (kw', c') earlier -> includes lower kw' = false.
Proof.
  induction entries as [|[kw c] r IH].
  - left. split; [reflexivity | intros kw c []].
  - cbn [detectCategory_loop]. destruct (includes lower kw) eqn:E.
    + right. exists kw, [], r. split; [reflexivity|]. split; [exact E|].
      intros kw' c' [].
    + destruct IH as [[Ho Hall] | (kw' & l1 & l2 & Er & Hinc & Hl1)].
      * left. split; [exact Ho|].
        intros kw' c' [[= <- <-] | Hin]; [exact E | exact (Hall kw' c' Hin)].
      * right. exists kw', ((kw, c) :: l1), l2.
        split; [cbn [app]; now rewrite <- Er|]. split; [exact Hinc|].
        intros kw'' c'' [[= <- <-] | Hin]; [exact E | exact (Hl1 kw'' c'' Hin)].
Qed.

Lemma CATEGORY_KEYWORDS_categories :
  forallb (fun e => negb (Category_eqb (snd e) Other)
                    && negb (Category_eqb (snd e) OtherIncome)
                    && negb (Category_eqb (snd e) DebtPayment)
                    && negb (Category_eqb (snd e) Personal))
    CATEGORY_KEYWORDS = true.
Proof. reflexivity. Qed.

Lemma Category_eqb_eq (a b : Category) : Category_eqb a b = true <-> a = b.
Proof. unfold Category_eqb. destruct (Category_eq_dec a b); split; congruence. Qed.

Lemma keyword_category (kw : jsstring) (c : Category) :
  In (kw, c) CATEGORY_KEYWORDS ->
  c <> Other /\ c <> OtherIncome /\ c <> DebtPayment /\ c <> Personal.
Proof.
  intros Hin.
  pose proof (proj1 (forallb_forall _ _) CATEGORY_KEYWORDS_categories
                (kw, c) Hin) as H.
  cbn [snd] in H.
  repeat (apply andb_true_iff in H as [H ?]).
  repeat split; intros ->; discriminate.
Qed.

Lemma asciiLower_asciiUpper (c : N) : asciiLower (asciiUpper c) = asciiLower c.
Proof.
  unfold asciiLower, asciiUpper.
  destruct ((97 <=? c) && (c <=? 122))%N eqn:E.
  - apply andb_true_iff in E as [E1 E2].
    apply N.leb_le in E1, E2.
    replace ((65 <=? c - 32) && (c - 32 <=? 90))%N with true
      by (symmetry; apply andb_true_iff; split; apply N.leb_le; lia).
    replace ((65 <=? c) && (c <=? 90))%N with false
      by (symmetry; apply andb_false_iff; right; apply N.leb_gt; lia).
    lia.
  - reflexivity.
Qed.

Lemma asciiLower_idem (c : N) : asciiLower (asciiLower c) = asciiLower c.
Proof.
  unfold asciiLower.
  destruct ((65 <=? c) && (c <=? 90))%N eqn:E; [|now rewrite E].
  apply andb_true_iff in E as [E1 E2]. apply N.leb_le in E1, E2.
  replace ((65 <=? c + 32) && (c + 32 <=? 90))%N with false
    by (symmetry; apply andb_false_iff; right; apply N.leb_gt; lia).
  reflexivity.
Qed.

(** X7. [detectCategory] answers [Other] exactly when the description, in
    lower case, contains none of the keywords; otherwise it answers the
    category of the first keyword of the table it contains.  It never
    answers [Other Income], [Debt Payment] or [Personal].  For a
    description written in Basic Latin (every code unit below 128),
    where the host's case conversion is [asciiCase], the case of the
    description does not matter. *)
Theorem detectCategory_first_keyword :
  forall (SC : StringCase) (description : jsstring),
    let lower := toLowerCase description in
    let c := detectCategory description in
    (c = Other <->
     forall kw c', In (kw, c') CATEGORY_KEYWORDS -> includes lower kw = false)
    /\ (c = Other
        \/ exists kw earlier later,
             CATEGORY_KEYWORDS = earlier ++ (kw, c) :: later
             /\ includes lower kw = true
             /\ forall kw' c', In (kw', c') earlier ->
                               includes lower kw' = false)
    /\ c <> OtherIncome /\ c <> DebtPayment /\ c <> Personal
    /\ (basicLatin description = true ->
        @detectCategory asciiCase (@toUpperCase asciiCase description)
        = @detectCategory asciiCase description)
    /\ (basicLatin description = true ->
        @detectCategory asciiCase (@toLowerCase asciiCase description)
        = @detectCategory asciiCase description).
Proof.
  intros SC description lower c. subst lower c. unfold detectCategory.
  destruct (detectCategory_loop_spec (toLowerCase description)
              CATEGORY_KEYWORDS)
    as [[Ho Hall] | (kw & l1 & l2 & E & Hinc & Hl1)].
  - rewrite Ho. split; [split; auto|]. split; [now left|].
    repeat split; try discriminate.
    + intros _. cbn [toUpperCase toLowerCase asciiCase]. rewrite map_map.
      f_equal. apply map_ext. apply asciiLower_asciiUpper.
    + intros _. cbn [toUpperCase toLowerCase asciiCase]. rewrite map_map.
      f_equal. apply map_ext. apply asciiLower_idem.
  - assert (Hin : In (kw, detectCategory_loop (toLowerCase description)
                            CATEGORY_KEYWORDS) CATEGORY_KEYWORDS).
    { rewrite E at 2. apply in_or_app. right. now left. }
    destruct (keyword_category _ _ Hin) as (H1 & H2 & H3 & H4).
    split.
    { split; [intros Hc; contradiction|].
      intros Hall. specialize (Hall _ _ Hin). congruence. }
    split; [right; now exists kw, l1, l2|].
    repeat split; try assumption.
    + intros _. cbn [toUpperCase toLowerCase asciiCase]. rewrite map_map.
      f_equal. apply map_ext. apply asciiLower_asciiUpper.
    + intros _. cbn [toUpperCase toLowerCase asciiCase]. rewrite map_map.
      f_equal. apply map_ext. apply asciiLower_idem.
Qed.

End Categorization.

Section ParsedRows.
Import PkoImport Spec.
Context {SC : StringCase}.

Lemma detectCategory_not_income (description : jsstring) :
  detectCategory description <> OtherIncome.
Proof.
  unfold detectCategory.
  destruct (detectCategory_loop_spec (toLowerCase description)
              CATEGORY_KEYWORDS)
    as [[Ho _] | (kw & l1 & l2 & E & _)].
  - rewrite Ho. discriminate.
  - assert (Hin : In (kw, detectCategory_loop (toLowerCase description)
                            CATEGORY_KEYWORDS) CATEGORY_KEYWORDS).
    { rewrite E at 2. apply in_or_app. right. now left. }
    now destruct (keyword_category _ _ Hin) as (_ & H & _).
Qed.

(** A normalized date is left as it is by the normalizer. *)
Lemma parseDate_fixed (s : jsstring) : parseDate (parseDate s) = parseDate s.
Proof.
  unfold parseDate at 2 3.
  destruct (testCanonical (trim s)) eqn:Hc.
  - now apply parseDate_canonical.
  - destruct (matchDayFirst (trim s)) as [[[d m] y]|] eqn:Hd.
    + apply parseDate_canonical.
      now apply matchDayFirst_canonical with (trim s).
    + destruct (matchYearFirst (trim s)) as [[[y m] d]|] eqn:Hy.
      * apply parseDate_canonical.
        now apply matchYearFirst_canonical with (trim s).
      * unfold parseDate. now rewrite trim_idem, Hc, Hd, Hy.
Qed.

(** What holds of a transaction the row loop of [parseCSV] pushes. *)
Lemma parseCSV_row_invariant (mapping : ColumnMapping)
  (fields : list jsstring) (tx : ParsedBankTransaction) :
  parseCSV_row mapping fields = Some tx ->
  PrimFloat.ltb 0 (tx_amount tx) = true
  /\ (List.length (tx_description tx) <= 200)%nat
  /\ raw tx = fields
  /\ (2 <= List.length (raw tx))%nat
  /\ (suggestedType tx = income -> suggestedCategory tx <> Other)
  /\ (suggestedCategory tx = OtherIncome -> suggestedType tx = income)
  /\ parseDate (tx_date tx) = tx_date tx.
Proof.
  unfold parseCSV_row. cbv zeta.
  destruct (List.length fields <? 2)%nat eqn:Hlen; [discriminate|].
  apply Nat.ltb_ge in Hlen.
  destruct (isNaN _ || PrimFloat.eqb _ 0) eqn:Hamt; [discriminate|].
  set (desc := slice0 200 _).
  assert (Hdesc : (List.length desc <= 200)%nat)
    by (subst desc; unfold slice0; apply firstn_le_length).
  clearbody desc.
  intros [= <-].
  cbn [tx_amount tx_description raw suggestedType suggestedCategory tx_date].
  split; [now apply abs_positive|].
  split; [exact Hdesc|].
  split; [reflexivity|]. split; [exact Hlen|].
  split; [|split].
  - destruct (PrimFloat.ltb 0 _); [|discriminate]. intros _. cbn [andb].
    destruct (Category_eqb _ Other) eqn:E; [discriminate|].
    intros H. rewrite H in E. discriminate.
  - destruct (PrimFloat.ltb 0 _); [reflexivity|]. cbn [andb].
    intros H. now apply detectCategory_not_income in H.
  - apply parseDate_fixed.
Qed.


(** X8. Every transaction [parseCSV] returns has a positive amount (never
    zero, never [NaN]), a description of at most 200 units, the fields
    of its line, at least two of them, and a normalized date; one of
    type income is never suggested [Other], and [Other Income] is
    suggested for income only. *)
Theorem parseCSV_transaction_invariant :
  forall (csvText : jsstring) (tx : ParsedBankTransaction),
    In tx (transactions (parseCSV csvText)) ->
    PrimFloat.ltb 0 (tx_amount tx) = true
    /\ isNaN (tx_amount tx) = false
    /\ (List.length (tx_description tx) <= 200)%nat
    /\ (2 <= List.length (raw tx))%nat
    /\ (suggestedType tx = income -> suggestedCategory tx <> Other)
    /\ (suggestedCategory tx = OtherIncome -> suggestedType tx = income)
    /\ parseDate (tx_date tx) = tx_date tx.
Proof.
  intros csvText tx. unfold parseCSV.
  destruct (filter _ (splitLines csvText)) as [|line0 [|line1 rows]];
    cbn [transactions]; try (intros []).
  intros Hin. apply filterMap_In in Hin as (line & _ & Hrow).
  destruct (parseCSV_row_invariant _ _ _ Hrow)
    as (H1 & H2 & _ & H4 & H5 & H6 & H7).
  repeat split; try assumption. now apply positive_not_nan.
Qed.

(** X9. [parseCSV] returns at most one transaction for each line after the
    header that is not blank, and the raw fields of each transaction
    are those of such a line, cut at the delimiter detected on the
    header. *)
Theorem parseCSV_rows_bound :
  forall csvText : jsstring,
    let lines := nonBlankLines csvText in
    (List.length (transactions (parseCSV csvText))
       <= List.length lines - 1)%nat
    /\ (forall tx, In tx (transactions (parseCSV csvText)) ->
          exists line,
            In line (tl lines)
            /\ raw tx = parseCSVLine line (detectDelimiter (hd [] lines)))
    /\ (transactions (parseCSV csvText) <> [] ->
        headers (parseCSV csvText)
        = parseCSVLine (hd [] lines) (detectDelimiter (hd [] lines))).
Proof.
  intros csvText. unfold nonBlankLines, parseCSV. cbv zeta.
  destruct (filter _ (splitLines csvText)) as [|line0 [|line1 rows]];
    cbn [transactions headers List.length tl hd].
  - split; [lia|]. split; [intros tx [] | congruence].
  - split; [lia|]. split; [intros tx [] | congruence].
  - split.
    + match goal with |- (List.length (filterMap ?f ?l) <= _)%nat =>
        pose proof (filterMap_length f l) as H end.
      cbn [List.length] in H. lia.
    + split; [|reflexivity].
      intros tx Hin. apply filterMap_In in Hin as (line & Hl & Hrow).
      exists line. split; [exact Hl|].
      now destruct (parseCSV_row_invariant _ _ _ Hrow) as (_ & _ & -> & _).
Qed.

End ParsedRows.

Section ParsedRowsScenarios.
Import PkoImport Spec.

(** An instance of [parseCSV_transaction_invariant]. *)
Lemma parseCSV_transaction_invariant_witness :
  let csv := js "Date,Amount,Description
2025-01-15,-50.00,Test" in
  exists tx,
    transactions (@parseCSV asciiCase csv) = [tx]
    /\ PrimFloat.ltb 0 (tx_amount tx) = true
    /\ (List.length (tx_description tx) <= 200)%nat.
Proof.
  cbv zeta. eexists. split; [vm_compute; reflexivity|].
  match goal with |- context [PrimFloat.ltb 0 (tx_amount ?t)] =>
    destruct (@parseCSV_transaction_invariant asciiCase
                (js "Date,Amount,Description
2025-01-15,-50.00,Test") t ltac:(vm_compute; left; reflexivity))
      as (H1 & _ & H3 & _)
  end.
  split; [exact H1 | exact H3].
Defined.

End ParsedRowsScenarios.



Section RemappingMore.
Import PkoImport BankImport Spec Pages.
Context {SC : StringCase}.

(** The re-mapping of a row reads nothing but its raw fields. *)
Lemma remapTransactions_row_reads_raw mapping tx tx' :
  raw tx = raw tx' ->
  remapTransactions_row mapping tx = remapTransactions_row mapping tx'.
Proof. intros H. unfold remapTransactions_row. now rewrite H. Qed.

Lemma remapTransactions_twice m1 m2 (l : list ParsedBankTransaction) :
  filterMap (remapTransactions_row m2) (filterMap (remapTransactions_row m1) l)
  = filterMap (remapTransactions_row m2) (filter (remapKeeps m1) l).
Proof.
  induction l as [|tx r IH]; [reflexivity|].
  cbn [filterMap filter]. unfold remapKeeps at 1.
  destruct (remapTransactions_row m1 tx) as [tx'|] eqn:E; [|exact IH].
  cbn [filterMap].
  rewrite (remapTransactions_row_reads_raw m2 tx' tx
             (remapTransactions_row_raw _ _ _ E)).
  now rewrite IH.
Qed.

Lemma remapTransactions_kept m (l : list ParsedBankTransaction) :
  filterMap (remapTransactions_row m) (filter (remapKeeps m) l)
  = filterMap (remapTransactions_row m) l.
Proof.
  induction l as [|tx r IH]; [reflexivity|].
  cbn [filterMap filter]. unfold remapKeeps at 1.
  destruct (remapTransactions_row m tx) as [tx'|] eqn:E.
  - cbn [filterMap]. now rewrite E, IH.
  - exact IH.
Qed.

Lemma filterMap_filter_length {A B} (f : A -> option B) (p : A -> bool)
  (l : list A) :
  (List.length (filterMap f (filter p l)) <= List.length (filterMap f l))%nat.
Proof.
  induction l as [|x r IH]; [simpl; lia|].
  cbn [filter filterMap]. destruct (p x); cbn [filterMap];
    destruct (f x); simpl; lia.
Qed.

(** X10. Applying a mapping to rows that were already re-mapped: the rows
    are derived from the raw fields again, so applying the same mapping
    twice changes nothing more; but the rows the first mapping dropped
    are gone, and a second mapping yields only what it derives from the
    rows the first one kept. *)
Theorem remapTransactions_idempotent :
  forall (result : ParseResult) (m1 m2 : ColumnMapping),
    remapTransactions (handleApplyMapping result m1) m1
    = remapTransactions result m1
    /\ remapTransactions (handleApplyMapping result m1) m2
       = filterMap (remapTransactions_row m2)
           (filter (remapKeeps m1) (transactions result))
    /\ (List.length (remapTransactions (handleApplyMapping result m1) m2)
        <= List.length (remapTransactions result m2))%nat.
Proof.
  intros result m1 m2.
  unfold remapTransactions, handleApplyMapping. cbn [transactions].
  unfold remapTransactions.
  rewrite !remapTransactions_twice. rewrite remapTransactions_kept.
  split; [reflexivity|]. split; [reflexivity|].
  apply filterMap_filter_length.
Qed.

Lemma detectCategoryFallback_values (description : jsstring) :
  In (detectCategoryFallback description)
    [Salary; Food; Housing; Transportation; Utilities; Entertainment;
     Shopping; Healthcare; Other].
Proof.
  unfold detectCategoryFallback. cbv zeta.
  repeat match goal with
         | |- context [if ?b then _ else _] => destruct b
         end; simpl; tauto.
Qed.

Lemma remapTransactions_row_invariant (mapping : ColumnMapping)
  (tx tx' : ParsedBankTransaction) :
  remapTransactions_row mapping tx = Some tx' ->
  PrimFloat.ltb 0 (tx_amount tx') = true
  /\ (List.length (tx_description tx') <= 200)%nat
  /\ raw tx' = raw tx
  /\ (suggestedType tx' = income -> suggestedCategory tx' <> Other)
  /\ (suggestedCategory tx' = OtherIncome -> suggestedType tx' = income)
  /\ parseDateFallback (tx_date tx') = tx_date tx'.
Proof.
  unfold remapTransactions_row. cbv zeta.
  destruct (isNaN _ || PrimFloat.eqb _ 0) eqn:Hamt; [discriminate|].
  set (desc := slice0 200 _).
  assert (Hdesc : (List.length desc <= 200)%nat)
    by (subst desc; unfold slice0; apply firstn_le_length).
  clearbody desc.
  set (cat := detectCategoryFallback _).
  assert (Hcat : cat <> OtherIncome).
  { subst cat.
    match goal with |- detectCategoryFallback ?d <> _ =>
      pose proof (detectCategoryFallback_values d) as H end.
    intros E. rewrite E in H. simpl in H.
    repeat (destruct H as [H | H]; [discriminate|]). exact H. }
  clearbody cat.
  intros [= <-].
  cbn [tx_amount tx_description raw suggestedType suggestedCategory tx_date].
  split; [now apply abs_positive|].
  split; [exact Hdesc|]. split; [reflexivity|].
  split; [|split].
  - destruct (PrimFloat.ltb 0 _); [|discriminate]. intros _. cbn [andb].
    destruct (Category_eqb cat Other) eqn:E; [discriminate|].
    intros H. rewrite H in E. discriminate.
  - destruct (PrimFloat.ltb 0 _); [reflexivity|]. cbn [andb].
    intros H. contradiction.
  - apply parseDate_fixed.
Qed.

(** X11. Every transaction the re-mapping returns has a positive amount
    (never zero, never [NaN]), a description of at most 200 units and a
    normalized date; one of type income is never suggested [Other], and
    [Other Income] is suggested for income only; its category is one of
    the nine the fallback keywords stand for, so never [Insurance],
    [Education] or [Subscriptions], which the initial parse can
    suggest. *)
Theorem remapTransactions_transaction_invariant :
  forall (result : ParseResult) (mapping : ColumnMapping)
         (tx : ParsedBankTransaction),
    In tx (remapTransactions result mapping) ->
    PrimFloat.ltb 0 (tx_amount tx) = true
    /\ isNaN (tx_amount tx) = false
    /\ (List.length (tx_description tx) <= 200)%nat
    /\ (suggestedType tx = income -> suggestedCategory tx <> Other)
    /\ (suggestedCategory tx = OtherIncome -> suggestedType tx = income)
    /\ parseDateFallback (tx_date tx) = tx_date tx
    /\ In (suggestedCategory tx)
         [Salary; Food; Housing; Transportation; Utilities; Entertainment;
          Shopping; Healthcare; Other; OtherIncome].
Proof.
  intros result mapping tx Hin. unfold remapTransactions in Hin.
  apply filterMap_In in Hin as (tx0 & _ & Hrow).
  destruct (remapTransactions_row_invariant _ _ _ Hrow)
    as (H1 & H2 & _ & H4 & H5 & H6).
  repeat split; try assumption; [now apply positive_not_nan|].
  unfold remapTransactions_row in Hrow. cbv zeta in Hrow.
  destruct (isNaN _ || PrimFloat.eqb _ 0); [discriminate|].
  injection Hrow as <-. cbn [suggestedCategory].
  match goal with |- context [detectCategoryFallback ?d] =>
    pose proof (detectCategoryFallback_values d) as H;
    destruct (detectCategoryFallback d) end;
    destruct (PrimFloat.ltb 0 _); simpl in *; tauto.
Qed.

End RemappingMore.


Section FallbackKeywords.
Import PkoImport BankImport Spec Pages.
Context {SC : StringCase}.

Lemma sharedKeywords_in_table :
  forallb (fun kw => existsb (fun e => eqb (fst e) kw) CATEGORY_KEYWORDS)
    sharedKeywords = true.
Proof. now vm_compute. Qed.

Lemma shared_keyword_detected (description kw : jsstring) :
  In kw sharedKeywords ->
  includes (toLowerCase description) kw = true ->
  detectCategory description <> Other.
Proof.
  intros Hin Hinc.
  pose proof (proj1 (forallb_forall _ _) sharedKeywords_in_table kw Hin) as H.
  apply existsb_exists in H as ([kw' c] & Hc & He).
  cbn [fst] in He. apply eqb_eq in He. subst kw'.
  unfold detectCategory.
  destruct (detectCategory_loop_spec (toLowerCase description)
              CATEGORY_KEYWORDS)
    as [[_ Hall] | (k & l1 & l2 & E & _)].
  - rewrite (Hall kw c Hc) in Hinc. discriminate.
  - assert (Hk : In (k, detectCategory_loop (toLowerCase description)
                          CATEGORY_KEYWORDS) CATEGORY_KEYWORDS).
    { rewrite E at 2. apply in_or_app. right. now left. }
    now destruct (keyword_category _ _ Hk) as (Ho & _).
Qed.

(** X12. The fallback answers one of nine categories.  Where it recognizes
    a keyword (it does not answer [Other]) the keyword table of the
    importer recognizes one too, unless the only keyword found is the
    mis-encoded one the table does not hold; the categories of the two
    may differ. *)
Theorem detectCategoryFallback_recognized :
  forall description : jsstring,
    In (detectCategoryFallback description)
      [Salary; Food; Housing; Transportation; Utilities; Entertainment;
       Shopping; Healthcare; Other]
    /\ (detectCategoryFallback description = Other
        \/ includes (toLowerCase description) (js "Å¼abka") = true
        \/ detectCategory description <> Other)
    /\ (detectCategoryFallback description = Other <->
        includes (toLowerCase description) (js "Å¼abka") = false
        /\ forall kw, In kw sharedKeywords ->
                      includes (toLowerCase description) kw = false).
Proof.
  intros description. split; [apply detectCategoryFallback_values|].
  assert (Hkw : forall kw, In kw sharedKeywords ->
                  includes (toLowerCase description) kw = true ->
                  detectCategory description <> Other)
    by (intros kw; apply shared_keyword_detected).
  unfold detectCategoryFallback. cbv zeta.
  set (lower := toLowerCase description) in *.
  assert (Hall : forall kw, In kw sharedKeywords ->
                   includes lower kw = true \/ includes lower kw = false)
    by (intros kw _; destruct (includes lower kw); auto).
  unfold sharedKeywords in Hkw.
  repeat match goal with
         | |- context [includes lower (js ?k)] =>
           let E := fresh "E" in
           destruct (includes lower (js k)) eqn:E; cbn [orb];
           [ split;
             [ first [ right; left; reflexivity
                     | right; right; apply (Hkw (js k)); [simpl; tauto | exact E] ]
             | split; [discriminate|];
               first [ intros [H _]; discriminate
                     | intros [_ H]; specialize (H (js k) ltac:(simpl; tauto));
                       congruence ] ]
           | ]
         end.
  split; [now left|]. split; [intros _|reflexivity].
  split; [reflexivity|].
  intros kw Hin. unfold sharedKeywords in Hin. simpl in Hin.
  repeat (destruct Hin as [<- | Hin]; [assumption|]). destruct Hin.
Qed.

End FallbackKeywords.


Section ImportSelected.
Import Currency Data Advisor Spec Pages.

Lemma handleImport_loop_length selected overrides rate rows :
  forall i,
    (List.length (handleImport_loop selected overrides rate i rows)
     <= List.length rows)%nat.
Proof.
  induction rows as [|tx r IH]; intros i; [simpl; lia|].
  cbn [handleImport_loop]. destruct (negb _); cbn [List.length];
    specialize (IH (S i)); lia.
Qed.

Lemma handleImport_loop_all selected overrides rate rows :
  forall i,
    (forall j, (i <= j < i + List.length rows)%nat -> In j selected) ->
    List.length (handleImport_loop selected overrides rate i rows)
    = List.length rows.
Proof.
  induction rows as [|tx r IH]; intros i Hsel; [reflexivity|].
  cbn [handleImport_loop].
  assert (Hi : existsb (Nat.eqb i) selected = true).
  { apply existsb_exists. exists i. split; [|apply Nat.eqb_refl].
    apply Hsel. simpl. lia. }
  rewrite Hi. cbn [negb List.length]. f_equal. apply IH.
  intros j Hj. apply Hsel. simpl. lia.
Qed.

Lemma handleImport_loop_rates selected overrides rate rows :
  forall i,
    Forall (fun t => exchangeRateAtTime t
                     = match currency t with
                       | PLN => Some rate
                       | USD => None
                       end)
      (handleImport_loop selected overrides rate i rows).
Proof.
  induction rows as [|tx r IH]; intros i; [constructor|].
  cbn [handleImport_loop]. destruct (negb _); [apply IH|].
  constructor; [reflexivity | apply IH].
Qed.

Lemma getMonthlyBreakdown_step_settled {num} (A : Arith num)
  primary fb fb' st (t : Transaction num) :
  currency t = primary \/ exchangeRateAtTime t <> None ->
  getMonthlyBreakdown_step A primary fb st t
  = getMonthlyBreakdown_step A primary fb' st t.
Proof.
  intros [H | H].
  - unfold getMonthlyBreakdown_step, convertCurrency. rewrite H.
    now destruct primary.
  - unfold getMonthlyBreakdown_step, rateOf.
    destruct (exchangeRateAtTime t); [reflexivity | congruence].
Qed.

Lemma getMonthlyBreakdown_loop_settled {num} (A : Arith num)
  primary fb fb' (l : list (Transaction num)) :
  Forall (fun t => currency t = primary \/ exchangeRateAtTime t <> None) l ->
  forall st,
    fold_left (getMonthlyBreakdown_step A primary fb) l st
    = fold_left (getMonthlyBreakdown_step A primary fb') l st.
Proof.
  induction 1 as [|t r Ht _ IH]; intros st; simpl; [reflexivity|].
  now rewrite (getMonthlyBreakdown_step_settled A primary fb fb' st t Ht), IH.
Qed.

(** X13. [handleImport] adds at most one transaction for each parsed row,
    one for every row when all are selected, and counts what it adds.
    A transaction in PLN carries the exchange rate of the settings at
    the time of the import and one in USD carries none; so with USD as
    the primary currency the monthly breakdown of what was imported is
    the same whatever the rate of the settings becomes later. *)
Theorem handleImport_settles_rates :
  forall (dateFields : DateFields) (result : PkoImport.ParseResult)
         (selected : list nat) (categoryOverrides : nat -> option Category)
         (exchangeRate : number),
    let added :=
      fst (handleImport result selected categoryOverrides exchangeRate) in
    snd (handleImport result selected categoryOverrides exchangeRate)
    = List.length added
    /\ (List.length added <= List.length (PkoImport.transactions result))%nat
    /\ ((forall j, (j < List.length (PkoImport.transactions result))%nat ->
                   In j selected) ->
        List.length added = List.length (PkoImport.transactions result))
    /\ Forall (fun t => exchangeRateAtTime t
                        = match currency t with
                          | PLN => Some exchangeRate
                          | USD => None
                          end) added
    /\ forall (month year : Z) (later later' : number),
         getMonthlyBreakdown ieee dateFields added month year USD later
         = getMonthlyBreakdown ieee dateFields added month year USD later'.
Proof.
  intros dateFields result selected overrides rate added. subst added.
  unfold handleImport. cbn [fst snd].
  split; [reflexivity|].
  split; [apply handleImport_loop_length|].
  split.
  { intros Hall. apply handleImport_loop_all. intros j Hj. apply Hall. lia. }
  split; [apply handleImport_loop_rates|].
  intros month year later later'. unfold getMonthlyBreakdown.
  rewrite (getMonthlyBreakdown_loop_settled ieee USD later later').
  - reflexivity.
  - apply incl_Forall with (l1 := handleImport_loop selected overrides rate 0
                                    (PkoImport.transactions result)).
    + intros t Ht. now apply filter_In in Ht as [Ht _].
    + eapply Forall_impl; [|apply handleImport_loop_rates].
      intros t Ht. cbv beta in Ht.
      destruct (currency t); [now left | right; congruence].
Qed.

End ImportSelected.


Section AdvisorMore.
Import Currency Data Advisor Spec.

Section Window.
Context {num : Type} (A : Arith num) (dateFields : DateFields).

(** The window test, through the calendar fields of the host. *)
Lemma inMonth_dateFields (month year : Z) (t : Transaction num) :
  inMonth dateFields month year t = true
  <-> dateFields (date t) = Some (month, year).
Proof.
  unfold inMonth. destruct (dateFields (date t)) as [[m y]|].
  - rewrite andb_true_iff, !Z.eqb_eq. split.
    + now intros [-> ->].
    + intros [= -> ->]. now split.
  - split; discriminate.
Qed.

(** X14. A transaction whose date the host reads in another month or
    another year, or cannot read, changes nothing, wherever it stands in
    the list; a transaction whose date the host reads in the month and
    year asked for counts: appended to the list it adds its converted
    amount to [totalIncome] if it is an income and to [totalExpenses]
    otherwise, and leaves the other of the two alone.  A list with no
    transaction in the month gives zeros; and [savings] is [netBalance],
    income less expenses. *)
Theorem getMonthlyBreakdown_window :
  forall (txs : list (Transaction num)) (month year : Z)
         (primary : Types.Currency) (fallback : num),
    let breakdown := fun l =>
      getMonthlyBreakdown A dateFields l month year primary fallback in
    let converted := fun t : Transaction num =>
      convertCurrency A (amount t) (currency t) primary
        (rateOf t fallback) in
    (forall before t after m y,
       txs = before ++ t :: after ->
       dateFields (date t) = Some (m, y) ->
       m <> month \/ y <> year ->
       breakdown (before ++ after) = breakdown txs)
    /\ (forall before t after,
          txs = before ++ t :: after ->
          dateFields (date t) = None ->
          breakdown (before ++ after) = breakdown txs)
    /\ (forall t : Transaction num,
          dateFields (date t) = Some (month, year) ->
          match type t with
          | income =>
            totalIncome (breakdown (txs ++ [t]))
            = add A (totalIncome (breakdown txs)) (converted t)
            /\ totalExpenses (breakdown (txs ++ [t]))
               = totalExpenses (breakdown txs)
          | expense =>
            totalExpenses (breakdown (txs ++ [t]))
            = add A (totalExpenses (breakdown txs)) (converted t)
            /\ totalIncome (breakdown (txs ++ [t]))
               = totalIncome (breakdown txs)
          end)
    /\ (forall t : Transaction num,
          inMonth dateFields month year t = true
          <-> dateFields (date t) = Some (month, year))
    /\ ((forall t, In t txs -> dateFields (date t) <> Some (month, year)) ->
        breakdown txs
        = {| totalIncome := zero A; totalExpenses := zero A;
             needs := zero A; wants := zero A;
             savings := sub A (zero A) (zero A);
             debtPayments := zero A;
             netBalance := sub A (zero A) (zero A) |})
    /\ savings (breakdown txs)
       = sub A (totalIncome (breakdown txs)) (totalExpenses (breakdown txs))
    /\ netBalance (breakdown txs) = savings (breakdown txs).
Proof.
  intros txs month year primary fallback breakdown converted.
  subst breakdown converted. cbv beta.
  assert (Hout : forall before t after,
            txs = before ++ t :: after ->
            inMonth dateFields month year t = false ->
            getMonthlyBreakdown A dateFields (before ++ after) month year
              primary fallback
            = getMonthlyBreakdown A dateFields txs month year primary
                fallback).
  { intros before t after -> Ht. unfold getMonthlyBreakdown.
    rewrite !filter_app. cbn [filter]. now rewrite Ht. }
  split; [|split; [|split; [|split; [|split; [|split; reflexivity]]]]].
  - intros before t after m y E Hd Hne. apply (Hout _ _ _ E).
    destruct (inMonth dateFields month year t) eqn:Hin; [|reflexivity].
    apply inMonth_dateFields in Hin. rewrite Hin in Hd.
    injection Hd as <- <-. destruct Hne as [Hne | Hne]; now elim Hne.
  - intros before t after E Hd. apply (Hout _ _ _ E).
    unfold inMonth. now rewrite Hd.
  - intros t Hd. apply inMonth_dateFields in Hd.
    unfold getMonthlyBreakdown. rewrite filter_app. cbn [filter].
    rewrite Hd, fold_left_app. cbn [fold_left].
    set (st := fold_left _ (filter _ txs) _).
    cbn [totalIncome totalExpenses]. unfold getMonthlyBreakdown_step.
    destruct (type t); [split; reflexivity|].
    destruct (Category_eqb (category t) DebtPayment);
      [split; reflexivity|].
    destruct (has NEEDS (category t)); [split; reflexivity|].
    destruct (has WANTS (category t)); split; reflexivity.
  - intros t. apply inMonth_dateFields.
  - intros Hnone. unfold getMonthlyBreakdown.
    replace (filter (inMonth dateFields month year) txs) with
      (@nil (Transaction num)); [reflexivity|].
    symmetry. clear Hout. induction txs as [|t r IH]; [reflexivity|].
    cbn [filter].
    destruct (inMonth dateFields month year t) eqn:Ht.
    + apply inMonth_dateFields in Ht.
      now elim (Hnone t (or_introl eq_refl)).
    + apply IH. intros t' Hin. apply Hnone. now right.
Qed.
End Window.

Variable toFixed : number -> nat -> jsstring.
#[local] Open Scope float_scope.

Lemma Prim2SF_twenty : Prim2SF 20 = S754_finite false 5629499534213120 (-48).
Proof. reflexivity. Qed.
Lemma Prim2SF_ten : Prim2SF 10 = S754_finite false 5629499534213120 (-49).
Proof. reflexivity. Qed.

Lemma leb_twenty_ten (x : number) :
  PrimFloat.leb 20 x = true -> PrimFloat.leb 10 x = true.
Proof.
  rewrite !leb_spec, Prim2SF_twenty, Prim2SF_ten. unfold SFleb.
  destruct (Prim2SF x) as [s|s| |s m e]; cbn [SFcompare]; try easy.
  destruct s; [easy|].
  destruct (-48 ?= e)%Z eqn:E1.
  - apply Z.compare_eq in E1. subst e. now cbn.
  - rewrite Z.compare_lt_iff in E1.
    replace (-49 ?= e)%Z with Lt; [reflexivity|].
    symmetry. apply Z.compare_lt_iff. lia.
  - discriminate.
Qed.

Lemma leb_ten_zero (x : number) :
  PrimFloat.leb 10 x = true -> PrimFloat.leb 0 x = true.
Proof.
  rewrite !leb_spec, Prim2SF_ten, Prim2SF_zero. unfold SFleb.
  destruct (Prim2SF x) as [s|s| |s m e]; cbn [SFcompare]; try easy;
    destruct s; easy.
Qed.

Lemma leb_nan (c x : number) : isNaN x = true -> PrimFloat.leb c x = false.
Proof.
  rewrite isNaN_spec, leb_spec. unfold SFleb.
  destruct (Prim2SF x); try discriminate. intros _.
  now destruct (Prim2SF c).
Qed.

(** X15. With a non-zero income the status is read off the savings rate
    [savings / totalIncome * 100] alone: excellent from 20 up, good from
    10 up to 20, fair from 0 up to 10, and needs attention below 0 or
    where the rate is [NaN]; the advice holds at most three tips. *)
Theorem getSavingsAdvice_status_bands :
  forall b : BudgetBreakdown number,
    PrimFloat.eqb (totalIncome b) 0 = false ->
    let a := getSavingsAdvice toFixed b in
    let rate := savings b / totalIncome b * 100 in
    savingsPercent a = rate /\ currentSavingsRate a = rate
    /\ (status a = excellent <-> PrimFloat.leb 20 rate = true)
    /\ (status a = good <->
        PrimFloat.leb 10 rate = true /\ PrimFloat.leb 20 rate = false)
    /\ (status a = fair <->
        PrimFloat.leb 0 rate = true /\ PrimFloat.leb 10 rate = false)
    /\ (status a = needs_attention <-> PrimFloat.leb 0 rate = false)
    /\ (isNaN rate = true -> status a = needs_attention)
    /\ (1 <= List.length (tips a) <= 3)%nat.
Proof.
  intros b Hz a rate. subst a rate. unfold getSavingsAdvice. rewrite Hz.
  cbv zeta.
  set (rate := savings b / totalIncome b * 100).
  pose proof (leb_twenty_ten rate) as H2010.
  pose proof (leb_ten_zero rate) as H100.
  pose proof (leb_nan 0 rate) as Hnan.
  destruct (PrimFloat.leb 20 rate) eqn:E20.
  { rewrite (H2010 eq_refl) in *. rewrite (H100 eq_refl) in *.
    cbn [status tips savingsPercent currentSavingsRate].
    repeat split; try easy; try (intros [? ?]; easy);
      try (intros Hn; specialize (Hnan Hn); discriminate);
      destruct (PrimFloat.ltb 50 _); simpl; lia. }
  destruct (PrimFloat.leb 10 rate) eqn:E10.
  { rewrite (H100 eq_refl) in *.
    cbn [status tips savingsPercent currentSavingsRate].
    repeat split; try easy; try (intros [? ?]; easy);
      try (intros Hn; specialize (Hnan Hn); discriminate);
      destruct (PrimFloat.ltb 30 _); simpl; lia. }
  destruct (PrimFloat.leb 0 rate) eqn:E0.
  { cbn [status tips savingsPercent currentSavingsRate].
    repeat split; try easy; try (intros [? ?]; easy);
      try (intros Hn; specialize (Hnan Hn); discriminate);
      destruct (PrimFloat.ltb 60 _); destruct (PrimFloat.ltb 30 _);
      simpl; lia. }
  cbn [status tips savingsPercent currentSavingsRate].
  repeat split; try easy; try (intros [? ?]; easy);
    destruct (PrimFloat.ltb 20 _); simpl; lia.
Qed.

(** [Math.max(a, b)] of two numbers is at least each of them. *)
Lemma Math_max_ge (a b : number) :
  isNaN a = false -> isNaN b = false ->
  PrimFloat.leb a (Math_max a b) = true
  /\ PrimFloat.leb b (Math_max a b) = true.
Proof.
  intros Ha Hb. unfold Math_max. rewrite Ha, Hb. cbn [orb].
  rewrite isNaN_spec in Ha, Hb.
  assert (Hra : SFcompare (Prim2SF a) (Prim2SF a) = Some Eq)
    by (apply SFcompare_refl; intros E; now rewrite E in Ha).
  assert (Hrb : SFcompare (Prim2SF b) (Prim2SF b) = Some Eq)
    by (apply SFcompare_refl; intros E; now rewrite E in Hb).
  assert (Hab : exists c, SFcompare (Prim2SF a) (Prim2SF b) = Some c).
  { destruct (Prim2SF a), (Prim2SF b); try discriminate; simpl; eauto. }
  destruct Hab as [c Hc].
  rewrite !ltb_spec. unfold SFltb. rewrite Hc.
  destruct c.
  - destruct (SFcompare (Prim2SF b) (Prim2SF a)) as [[| |]|] eqn:Hba.
    + destruct (get_sign a); rewrite !leb_spec; unfold SFleb;
        rewrite ?Hc, ?Hra, ?Hrb, ?Hba; auto.
    + rewrite !leb_spec; unfold SFleb; rewrite ?Hc, ?Hra, ?Hrb, ?Hba; auto.
    + apply SFcompare_antisym in Hba. congruence.
    + destruct (Prim2SF a), (Prim2SF b); discriminate.
  - rewrite !leb_spec; unfold SFleb; rewrite ?Hc, ?Hrb; auto.
  - apply SFcompare_antisym in Hc as Hba. rewrite Hba.
    rewrite !leb_spec; unfold SFleb; rewrite ?Hba, ?Hra; auto.
Qed.

(** X16. The optimal savings rate is 20 unless debt is being paid, and then
    it is never let below 10: it is [NaN] or at least 10; the optimal
    amount is that share of the income. *)
Theorem getSavingsAdvice_optimal_rate_floor :
  forall b : BudgetBreakdown number,
    let a := getSavingsAdvice toFixed b in
    (isNaN (optimalSavingsRate a) = true
     \/ PrimFloat.leb 10 (optimalSavingsRate a) = true)
    /\ (PrimFloat.ltb 0 (debtPayments b) = false ->
        optimalSavingsRate a = 20)
    /\ (PrimFloat.eqb (totalIncome b) 0 = false ->
        optimalSavingsAmount a
        = totalIncome b * optimalSavingsRate a / 100).
Proof.
  intros b a. subst a. unfold getSavingsAdvice.
  destruct (PrimFloat.eqb (totalIncome b) 0) eqn:Hz.
  - cbn [optimalSavingsRate]. split; [right; reflexivity|].
    split; [reflexivity | discriminate].
  - cbv zeta.
    match goal with |- context [let '(_, _) := ?p in _] => destruct p end.
    cbn [optimalSavingsRate optimalSavingsAmount].
    destruct (PrimFloat.ltb 0 (debtPayments b)).
    + split; [|split; [discriminate | reflexivity]].
      set (y := 20 - debtPayments b / totalIncome b * 100).
      destruct (isNaN y) eqn:Hy.
      * left. unfold Math_max. rewrite Hy. now rewrite orb_true_r.
      * right. now apply Math_max_ge.
    + split; [right; reflexivity|]. split; reflexivity.
Qed.

End AdvisorMore.


Section ChartsProperties.
Import Currency Data Advisor Spec Charts.

Lemma Map_set_keys (k : Category) (v : number) (m : CategoryMap) :
  forall k', In k' (map fst (Map_set k v m)) <-> k = k' \/ In k' (map fst m).
Proof.
  induction m as [|[k0 v0] r IH]; intros k'; cbn [Map_set map fst In].
  - tauto.
  - destruct (Category_eqb k0 k) eqn:E.
    + apply Category_eqb_eq in E. subst k0. cbn [map fst In]. tauto.
    + cbn [map fst In]. rewrite IH. tauto.
Qed.

Lemma Map_set_NoDup (k : Category) (v : number) (m : CategoryMap) :
  NoDup (map fst m) -> NoDup (map fst (Map_set k v m)).
Proof.
  induction m as [|[k0 v0] r IH]; intros H; cbn [Map_set map fst].
  - constructor; [intros [] | constructor].
  - cbn [map fst] in H. inversion H as [|? ? Hnot Hr]; subst.
    destruct (Category_eqb k0 k) eqn:E.
    + apply Category_eqb_eq in E. subst k0. now constructor.
    + cbn [map fst]. constructor; [|now apply IH].
      rewrite Map_set_keys. intros [<- | Hin]; [|contradiction].
      unfold Category_eqb in E. destruct (Category_eq_dec k k); congruence.
Qed.

Lemma getExpensesByCategory_loop primary rate
  (l : list (Transaction number)) :
  forall m : CategoryMap,
    let m' := fold_left (getExpensesByCategory_step primary rate) l m in
    (NoDup (map fst m) -> NoDup (map fst m'))
    /\ (forall c, In c (map fst m') <->
                  In c (map fst m) \/ exists t, In t l /\ category t = c)
    /\ (List.length m' <= List.length m + List.length l)%nat.
Proof.
  induction l as [|t r IH]; intros m; cbn zeta.
  - cbn [fold_left]. split; [auto|]. split; [|simpl; lia].
    intros c. split; [auto | intros [H | (t & [] & _)]; exact H].
  - cbn [fold_left].
    destruct (IH (getExpensesByCategory_step primary rate m t))
      as (Hnd & Hin & Hlen).
    cbv zeta in Hnd, Hin, Hlen.
    split; [|split].
    + intros H. apply Hnd. unfold getExpensesByCategory_step.
      now apply Map_set_NoDup.
    + intros c. rewrite Hin. unfold getExpensesByCategory_step at 1.
      rewrite Map_set_keys. cbn [In].
      split.
      * intros [[H | H] | (t' & Ht' & Hc)]; eauto.
      * intros [H | (t' & [<- | Ht'] & Hc)]; eauto.
    + assert (Hstep : (List.length (getExpensesByCategory_step primary rate m t)
                       <= S (List.length m))%nat).
      { unfold getExpensesByCategory_step.
        generalize (category t),
          (PrimFloat.add (orZero (Map_get (category t) m))
             (convertCurrency ieee (amount t) (currency t) primary
                (rateOf t rate))).
        intros k v. clear. induction m as [|[k0 v0] r IH]; cbn [Map_set];
          [simpl; lia|].
        destruct (Category_eqb k0 k); simpl in *; lia. }
      cbn [List.length]. lia.
Qed.

Variable dateFields : DateFields.
Variable sort :
  (CategoryAmount -> CategoryAmount -> number) ->
  list CategoryAmount -> list CategoryAmount.
Hypothesis sort_permutation :
  forall cmp l, Permutation (sort cmp l) l.

(** X17. Whatever order the host's sort leaves them in (it returns a
    permutation of the array), the slices [getExpensesByCategory]
    returns hold one slice for each category that has an expense in the
    month and no other, no category twice, and each slice has the colour
    of its category in [CATEGORY_COLORS]: the default colour is never
    used. *)
Theorem getExpensesByCategory_slices :
  forall (txs : list (Transaction number)) (month year : Z)
         (primary : Types.Currency) (exchangeRate : number),
    let slices :=
      getExpensesByCategory dateFields sort txs month year primary
        exchangeRate in
    NoDup (map slice_category slices)
    /\ (forall c,
          In c (map slice_category slices) <->
          exists t, In t txs /\ type t = expense
                    /\ inMonth dateFields month year t = true
                    /\ category t = c)
    /\ Forall (fun s => slice_color s = CATEGORY_COLORS (slice_category s))
         slices
    /\ (List.length slices <= List.length txs)%nat.
Proof.
  intros txs month year primary rate slices. subst slices.
  unfold getExpensesByCategory.
  set (monthExpenses := filter _ txs).
  set (byCategory :=
         fold_left (getExpensesByCategory_step primary rate) monthExpenses []).
  set (slices := map _ byCategory).
  pose proof (sort_permutation
                (fun a b => PrimFloat.sub (slice_amount b) (slice_amount a))
                slices) as Hperm.
  destruct (getExpensesByCategory_loop primary rate monthExpenses [])
    as (Hnd & Hin & Hlen).
  cbv zeta in Hnd, Hin, Hlen. fold byCategory in Hnd, Hin, Hlen.
  assert (Hcat : map slice_category slices = map fst byCategory).
  { subst slices. rewrite map_map. now apply map_ext. }
  split; [|split; [|split]].
  - apply (Permutation_NoDup (l := map slice_category slices)).
    + apply Permutation_map. now apply Permutation_sym.
    + rewrite Hcat. apply Hnd. constructor.
  - intros c.
    assert (Hc : In c (map slice_category (sort
                   (fun a b => PrimFloat.sub (slice_amount b) (slice_amount a))
                   slices))
                 <-> In c (map slice_category slices)).
    { split; apply Permutation_in; apply Permutation_map;
        [exact Hperm | now apply Permutation_sym]. }
    rewrite Hc, Hcat, Hin. cbn [map In].
    split.
    + intros [[] | (t & Ht & Hcc)]. subst monthExpenses.
      apply filter_In in Ht as [Ht Hf]. apply andb_true_iff in Hf as [Hty Hm].
      exists t. repeat split; try assumption. now destruct (type t).
    + intros (t & Ht & Hty & Hm & Hcc). right. exists t. split; [|exact Hcc].
      subst monthExpenses. apply filter_In. split; [exact Ht|].
      now rewrite Hty, Hm.
  - apply (Permutation_Forall (Permutation_sym Hperm)).
    subst slices. apply Forall_forall. intros s Hs.
    apply in_map_iff in Hs as ([c v] & <- & _). cbn [slice_color slice_category fst].
    now destruct c.
  - rewrite (Permutation_length Hperm). subst slices. rewrite length_map.
    cbn [List.length] in Hlen. etransitivity; [exact Hlen|].
    subst monthExpenses. cbn. apply filter_length_le.
Qed.

End ChartsProperties.

Section ChartsScenarios.
Import Currency Data Advisor Spec Charts.
#[local] Open Scope float_scope.

Lemma insertBy_permutation {A} (cmp : A -> A -> number) (x : A) (l : list A) :
  Permutation (insertBy cmp x l) (x :: l).
Proof.
  induction l as [|y r IH]; cbn [insertBy]; [reflexivity|].
  destruct (PrimFloat.ltb 0 (cmp x y)); [|reflexivity].
  etransitivity; [apply perm_skip, IH | apply perm_swap].
Qed.

Lemma insertionSort_permutation {A} (cmp : A -> A -> number) (l : list A) :
  Permutation (insertionSort cmp l) l.
Proof.
  induction l as [|x r IH]; [reflexivity|].
  cbn [insertionSort fold_right].
  etransitivity; [apply insertBy_permutation | now apply perm_skip].
Qed.

(** An instance of [getExpensesByCategory_slices]. *)
Lemma getExpensesByCategory_slices_witness :
  let slices :=
    getExpensesByCategory utcDateFields insertionSort
      [january15 expense 10 USD Food None;
       january15 expense 9.99 USD Entertainment None;
       january15 income 5000 USD Salary None;
       january15 expense 21.8 USD Food None]
      0%Z 2025%Z USD 4.05 in
  NoDup (map slice_category slices)
  /\ map slice_category slices = [Food; Entertainment]
  /\ map slice_amount slices = [31.8; 9.99].
Proof.
  cbv zeta. split; [|split; now vm_compute].
  apply (getExpensesByCategory_slices utcDateFields insertionSort
           (@insertionSort_permutation CategoryAmount)).
Defined.

End ChartsScenarios.

Section CurrencyTotalsProperties.
Import Currency Data Advisor Spec Charts.
Context {num : Type} (A : Arith num) (dateFields : DateFields).

Lemma getCurrencyTotals_loop month year (l : list (Transaction num)) :
  forall st : CurrencyTotals num,
    let st' := fold_left (getCurrencyTotals_step A dateFields month year) l st in
    let window := filter (inMonth dateFields month year) l in
    let sum c ty init :=
      fold_left (add A) (map amount (filter (ofCurrency c ty) window)) init in
    USD_income st' = sum USD income (USD_income st)
    /\ USD_expenses st' = sum USD expense (USD_expenses st)
    /\ PLN_income st' = sum PLN income (PLN_income st)
    /\ PLN_expenses st' = sum PLN expense (PLN_expenses st).
Proof.
  induction l as [|t r IH]; intros st; [cbn; repeat split|].
  cbv zeta. cbn [fold_left filter].
  specialize (IH (getCurrencyTotals_step A dateFields month year st t)).
  cbv zeta in IH. destruct IH as (H1 & H2 & H3 & H4).
  rewrite H1, H2, H3, H4. clear H1 H2 H3 H4.
  unfold getCurrencyTotals_step.
  destruct (inMonth dateFields month year t); cbn [negb];
    [|repeat split].
  cbn [filter]. unfold ofCurrency.
  destruct (currency t), (type t); cbn; repeat split.
Qed.

(** X18. For every transaction list, [getCurrencyTotals] adds up, left
    to right, the amounts of the month by currency and type,
    unconverted.  On transactions that are
    all in the primary currency its totals for that currency are the
    income and the expenses of [getMonthlyBreakdown], exactly, and its
    totals for the other currency are zero. *)
Theorem getCurrencyTotals_single_currency :
  forall (txs : list (Transaction num)) (month year : Z),
    let r := getCurrencyTotals A dateFields txs month year in
    let window := filter (inMonth dateFields month year) txs in
    (forall c ty,
       (match c, ty with
        | USD, income => USD_income r
        | USD, expense => USD_expenses r
        | PLN, income => PLN_income r
        | PLN, expense => PLN_expenses r
        end)
       = sumList A (map amount (filter (ofCurrency c ty) window)))
    /\ (forall (primary : Types.Currency) (fallback : num),
          Forall (fun t => currency t = primary) txs ->
          let b := getMonthlyBreakdown A dateFields txs month year primary
                     fallback in
          match primary with
          | USD =>
            USD_income r = totalIncome b /\ USD_expenses r = totalExpenses b
            /\ PLN_income r = zero A /\ PLN_expenses r = zero A
          | PLN =>
            PLN_income r = totalIncome b /\ PLN_expenses r = totalExpenses b
            /\ USD_income r = zero A /\ USD_expenses r = zero A
          end).
Proof.
  intros txs month year r window.
  destruct (getCurrencyTotals_loop month year txs
              {| USD_income := zero A; USD_expenses := zero A;
                 PLN_income := zero A; PLN_expenses := zero A |})
    as (H1 & H2 & H3 & H4).
  cbv zeta in H1, H2, H3, H4. cbn [USD_income USD_expenses PLN_income
                                   PLN_expenses] in H1, H2, H3, H4.
  fold (getCurrencyTotals A dateFields txs month year) in H1, H2, H3, H4.
  fold r in H1, H2, H3, H4. fold window in H1, H2, H3, H4.
  split; [intros [] []; unfold sumList; assumption|].
  intros primary fallback Hall b.
  destruct (getMonthlyBreakdown_sums A dateFields txs month year primary
              fallback) as (Hi & He & _).
  fold b in Hi, He. fold window in Hi, He. unfold sumList in Hi, He.
  assert (Hw : Forall (fun t => currency t = primary) window).
  { apply incl_Forall with (l1 := txs); [|exact Hall].
    intros t Ht. now apply filter_In in Ht as [Ht _]. }
  assert (Hconv : map (convertedAmount A primary fallback) (filter isIncome window)
                  = map amount (filter (ofCurrency primary income) window)
                  /\ map (convertedAmount A primary fallback) (filter isExpense window)
                  = map amount (filter (ofCurrency primary expense) window)
                  /\ forall ty c, c <> primary ->
                       filter (ofCurrency c ty) window = []).
  { clear - Hw. induction Hw as [|t l Ht _ IH]; [repeat split|].
    destruct IH as (IH1 & IH2 & IH3).
    assert (Hamount : convertedAmount A primary fallback t = amount t).
    { unfold convertedAmount, convertCurrency. rewrite Ht.
      now destruct primary. }
    assert (Hsame : forall ty,
              ofCurrency primary ty t
              = match type t, ty with
                | income, income | expense, expense => true
                | _, _ => false
                end).
    { intros ty. unfold ofCurrency. rewrite Ht. now destruct primary. }
    assert (Hother : forall ty c, c <> primary -> ofCurrency c ty t = false).
    { intros ty c Hc. unfold ofCurrency. rewrite Ht.
      destruct primary, c; try congruence; reflexivity. }
    cbn [filter]. rewrite !Hsame. unfold isIncome at 1, isExpense at 1.
    split; [|split].
    - destruct (type t); cbn [map]; now rewrite ?Hamount, IH1.
    - destruct (type t); cbn [map]; now rewrite ?Hamount, IH2.
    - intros ty c Hc. cbn [filter]. rewrite (Hother ty c Hc).
      now apply IH3. }
  destruct Hconv as (Hc1 & Hc2 & Hc3).
  rewrite Hc1 in Hi. rewrite Hc2 in He.
  destruct primary.
  - rewrite H1, H2, H3, H4, Hi, He.
    rewrite !(Hc3 _ PLN) by discriminate. now cbn.
  - rewrite H1, H2, H3, H4, Hi, He.
    rewrite !(Hc3 _ USD) by discriminate. now cbn.
Qed.

End CurrencyTotalsProperties.


Section Editing.
Import Data JSON Storage StorageOps Spec.

Lemma eqb_refl (a : jsstring) : eqb a a = true.
Proof. now apply eqb_eq. Qed.

Lemma eqb_neq (a b : jsstring) : eqb a b = false <-> a <> b.
Proof.
  unfold eqb. destruct (list_eq_dec N.eq_dec a b); split; congruence.
Qed.

Lemma getItem_setItem (key val : jsstring) (store : LocalStorage) :
  getItem key (setItem key val store) = Some val.
Proof. unfold getItem, setItem. cbn [find fst]. now rewrite eqb_refl. Qed.

Lemma getItem_saveData (v : value) (store : LocalStorage) :
  getItem STORAGE_KEY (saveData v store) = Some (text (stringify [] v)).
Proof. apply getItem_setItem. Qed.

Section ById.
Context {T : Type} (key : T -> jsstring).

Lemma filter_fresh (k : jsstring) (l : list T) :
  forallb (fun x => negb (eqb (key x) k)) l = true ->
  filter (fun x => negb (eqb (key x) k)) l = l.
Proof.
  induction l as [|x r IH]; [reflexivity|]. cbn [forallb filter].
  intros H. apply andb_true_iff in H as [Hx Hr]. rewrite Hx.
  now rewrite IH.
Qed.

Lemma filter_appended (k : jsstring) (l : list T) (y : T) :
  key y = k ->
  filter (fun x => negb (eqb (key x) k)) (l ++ [y])
  = filter (fun x => negb (eqb (key x) k)) l.
Proof.
  intros Hy. rewrite filter_app. cbn [filter]. rewrite Hy, eqb_refl.
  apply app_nil_r.
Qed.

Lemma filter_none_left (k : jsstring) (l : list T) :
  forallb (fun x => negb (eqb (key x) k))
    (filter (fun x => negb (eqb (key x) k)) l) = true.
Proof.
  apply forallb_forall. intros x Hx. now apply filter_In in Hx as [_ Hx].
Qed.

Lemma filter_commute (k k' : jsstring) (l : list T) :
  filter (fun x => negb (eqb (key x) k))
    (filter (fun x => negb (eqb (key x) k')) l)
  = filter (fun x => negb (eqb (key x) k'))
      (filter (fun x => negb (eqb (key x) k)) l).
Proof.
  induction l as [|x r IH]; [reflexivity|]. cbn [filter].
  destruct (negb (eqb (key x) k')) eqn:E', (negb (eqb (key x) k)) eqn:E;
    cbn [filter]; rewrite ?E, ?E', IH; reflexivity.
Qed.

Lemma replace_keys (y : T) (l : list T) :
  map key (map (fun x => if eqb (key x) (key y) then y else x) l)
  = map key l.
Proof.
  rewrite map_map. apply map_ext. intros x.
  destruct (eqb (key x) (key y)) eqn:E; [|reflexivity].
  apply eqb_eq in E. congruence.
Qed.

Lemma replace_absent (y : T) (l : list T) :
  forallb (fun x => negb (eqb (key x) (key y))) l = true ->
  map (fun x => if eqb (key x) (key y) then y else x) l = l.
Proof.
  induction l as [|x r IH]; [reflexivity|]. cbn [forallb map].
  intros H. apply andb_true_iff in H as [Hx Hr].
  apply negb_true_iff in Hx. rewrite Hx. now rewrite IH.
Qed.

Lemma replace_find (y : T) (l : list T) :
  find (fun x => eqb (key x) (key y))
    (map (fun x => if eqb (key x) (key y) then y else x) l)
  = match find (fun x => eqb (key x) (key y)) l with
    | Some _ => Some y
    | None => None
    end.
Proof.
  induction l as [|x r IH]; [reflexivity|]. cbn [map find].
  destruct (eqb (key x) (key y)) eqn:E.
  - now rewrite eqb_refl.
  - now rewrite E, IH.
Qed.

Lemma replace_others (y : T) (k : jsstring) (l : list T) :
  k <> key y ->
  find (fun x => eqb (key x) k)
    (map (fun x => if eqb (key x) (key y) then y else x) l)
  = find (fun x => eqb (key x) k) l.
Proof.
  intros Hk. induction l as [|x r IH]; [reflexivity|]. cbn [map find].
  destruct (eqb (key x) (key y)) eqn:E.
  - apply eqb_eq in E.
    replace (eqb (key y) k) with false
      by (symmetry; apply eqb_neq; congruence).
    replace (eqb (key x) k) with false
      by (symmetry; apply eqb_neq; congruence).
    exact IH.
  - destruct (eqb (key x) k); [reflexivity | exact IH].
Qed.

Lemma replace_twice (y : T) (l : list T) :
  map (fun x => if eqb (key x) (key y) then y else x)
    (map (fun x => if eqb (key x) (key y) then y else x) l)
  = map (fun x => if eqb (key x) (key y) then y else x) l.
Proof.
  rewrite map_map. apply map_ext. intros x.
  destruct (eqb (key x) (key y)) eqn:E; [now rewrite eqb_refl | now rewrite E].
Qed.

End ById.

Lemma AppData_eta (d : AppData) :
  {| transactions := transactions d; debts := debts d;
     savingsGoals := savingsGoals d; settings := settings d |} = d.
Proof. now destruct d. Qed.

(** X19. What was added is removed again by its id: with a fresh id the
    dataset is back as it was, for a transaction, a debt and a savings
    goal alike; and in any case deleting by the id just given removes
    the new record together with every older one of that id. *)
Theorem delete_after_add :
  forall (uuid : jsstring) (data : AppData) (tx : Transaction number)
         (debt : Debt) (goal : SavingsGoal) (store store' : LocalStorage),
    freshId uuid data = true ->
    fst (deleteTransaction (fst (addTransaction uuid data tx store)) uuid
           store') = data
    /\ fst (deleteDebt (fst (addDebt uuid data debt store)) uuid store')
       = data
    /\ fst (deleteSavingsGoal (fst (addSavingsGoal uuid data goal store))
              uuid store') = data
    /\ List.length (transactions (fst (addTransaction uuid data tx store)))
       = S (List.length (transactions data))
    /\ find (fun t => eqb (id t) uuid)
         (transactions (fst (addTransaction uuid data tx store)))
       = Some (withId uuid tx)
    /\ (forall k, k <> uuid ->
          find (fun t => eqb (id t) k)
            (transactions (fst (addTransaction uuid data tx store)))
          = find (fun t => eqb (id t) k) (transactions data)).
Proof.
  intros uuid data tx debt goal store store' Hfresh.
  unfold freshId in Hfresh.
  apply andb_true_iff in Hfresh as [Hfresh Hg].
  apply andb_true_iff in Hfresh as [Ht Hd].
  unfold deleteTransaction, addTransaction, deleteDebt, addDebt,
    deleteSavingsGoal, addSavingsGoal.
  cbn [fst transactions debts savingsGoals settings].
  rewrite (filter_appended id uuid (transactions data)) by reflexivity.
  rewrite (filter_appended debt_id uuid (debts data)) by reflexivity.
  rewrite (filter_appended goal_id uuid (savingsGoals data)) by reflexivity.
  rewrite (filter_fresh id uuid _ Ht), (filter_fresh debt_id uuid _ Hd),
    (filter_fresh goal_id uuid _ Hg), AppData_eta.
  repeat split.
  - rewrite length_app. simpl. lia.
  - fold (withId uuid tx).
    induction (transactions data) as [|t r IH]; cbn [app find forallb] in *.
    + cbn [withId id]. now rewrite eqb_refl.
    + apply andb_true_iff in Ht as [Ht Hr].
      apply negb_true_iff in Ht. rewrite Ht. now apply IH.
  - intros k Hk. fold (withId uuid tx).
    induction (transactions data) as [|t r IH]; cbn [app find].
    + cbn [withId id].
      replace (eqb uuid k) with false
        by (symmetry; apply eqb_neq; congruence).
      reflexivity.
    + destruct (eqb (id t) k); [reflexivity|]. apply IH.
      cbn [forallb] in Ht. now apply andb_true_iff in Ht as [_ Ht].
Qed.

End Editing.


Section EditingMore.
Import Data JSON Storage StorageOps Spec.

(** X20. Updating replaces by id and never adds or removes: the ids stay as
    they are, in order; a record whose id the dataset does not hold
    changes nothing (it is not added); looking the id up afterwards
    finds the new record where the id was there, and looking any other
    id up finds what it found before; updating twice is updating once.
    So it is for transactions, debts and savings goals; what is stored
    is the text of the updated dataset. *)
Theorem update_replaces_by_id :
  forall (data : AppData) (tx : Transaction number) (debt : Debt)
         (goal : SavingsGoal) (store : LocalStorage),
    let t' := fst (updateTransaction data tx store) in
    let d' := fst (updateDebt data debt store) in
    let g' := fst (updateSavingsGoal data goal store) in
    (map id (transactions t') = map id (transactions data)
     /\ map debt_id (debts d') = map debt_id (debts data)
     /\ map goal_id (savingsGoals g') = map goal_id (savingsGoals data))
    /\ ((forallb (fun t => negb (eqb (id t) (id tx))) (transactions data)
         = true -> t' = data)
        /\ (forallb (fun d => negb (eqb (debt_id d) (debt_id debt)))
              (debts data) = true -> d' = data)
        /\ (forallb (fun g => negb (eqb (goal_id g) (goal_id goal)))
              (savingsGoals data) = true -> g' = data))
    /\ (find (fun t => eqb (id t) (id tx)) (transactions t')
        = match find (fun t => eqb (id t) (id tx)) (transactions data) with
          | Some _ => Some tx
          | None => None
          end
        /\ find (fun d => eqb (debt_id d) (debt_id debt)) (debts d')
           = match find (fun d => eqb (debt_id d) (debt_id debt))
                     (debts data) with
             | Some _ => Some debt
             | None => None
             end
        /\ find (fun g => eqb (goal_id g) (goal_id goal)) (savingsGoals g')
           = match find (fun g => eqb (goal_id g) (goal_id goal))
                     (savingsGoals data) with
             | Some _ => Some goal
             | None => None
             end)
    /\ (forall k,
          (k <> id tx ->
           find (fun t => eqb (id t) k) (transactions t')
           = find (fun t => eqb (id t) k) (transactions data))
          /\ (k <> debt_id debt ->
              find (fun d => eqb (debt_id d) k) (debts d')
              = find (fun d => eqb (debt_id d) k) (debts data))
          /\ (k <> goal_id goal ->
              find (fun g => eqb (goal_id g) k) (savingsGoals g')
              = find (fun g => eqb (goal_id g) k) (savingsGoals data)))
    /\ (fst (updateTransaction t' tx store) = t'
        /\ fst (updateDebt d' debt store) = d'
        /\ fst (updateSavingsGoal g' goal store) = g')
    /\ (getItem STORAGE_KEY (snd (updateTransaction data tx store))
        = Some (text (stringify [] (AppData_value t')))
        /\ getItem STORAGE_KEY (snd (updateDebt data debt store))
           = Some (text (stringify [] (AppData_value d')))
        /\ getItem STORAGE_KEY (snd (updateSavingsGoal data goal store))
           = Some (text (stringify [] (AppData_value g')))).
Proof.
  intros data tx debt goal store t' d' g'. subst t' d' g'.
  unfold updateTransaction, updateDebt, updateSavingsGoal.
  cbn [fst snd transactions debts savingsGoals settings].
  split; [|split; [|split; [|split; [|split]]]].
  - split; [apply (replace_keys id)|].
    split; [apply (replace_keys debt_id) | apply (replace_keys goal_id)].
  - split; [|split]; intros H.
    + rewrite (replace_absent id tx _ H). apply AppData_eta.
    + rewrite (replace_absent debt_id debt _ H). apply AppData_eta.
    + rewrite (replace_absent goal_id goal _ H). apply AppData_eta.
  - split; [apply (replace_find id)|].
    split; [apply (replace_find debt_id) | apply (replace_find goal_id)].
  - intros k. split; [|split]; intros Hk.
    + now apply (replace_others id).
    + now apply (replace_others debt_id).
    + now apply (replace_others goal_id).
  - rewrite (replace_twice id), (replace_twice debt_id),
      (replace_twice goal_id). repeat split.
  - repeat split; apply getItem_saveData.
Qed.

(** X21. Deleting removes every record of the id and nothing else, keeping
    the order: no record of the id is left; an id the dataset does not
    hold changes nothing; deleting twice is deleting once; and two
    deletions can be done in either order.  So it is for transactions,
    debts and savings goals. *)
Theorem delete_removes_by_id :
  forall (data : AppData) (k k' : jsstring) (store store' : LocalStorage),
    let t' := fst (deleteTransaction data k store) in
    let d' := fst (deleteDebt data k store) in
    let g' := fst (deleteSavingsGoal data k store) in
    (find (fun t => eqb (id t) k) (transactions t') = None
     /\ find (fun d => eqb (debt_id d) k) (debts d') = None
     /\ find (fun g => eqb (goal_id g) k) (savingsGoals g') = None)
    /\ (forall t, In t (transactions t') <->
                  In t (transactions data) /\ id t <> k)
    /\ (forall d, In d (debts d') <-> In d (debts data) /\ debt_id d <> k)
    /\ (forall g, In g (savingsGoals g') <->
                  In g (savingsGoals data) /\ goal_id g <> k)
    /\ (freshId k data = true -> t' = data /\ d' = data /\ g' = data)
    /\ (fst (deleteTransaction t' k store') = t'
        /\ fst (deleteDebt d' k store') = d'
        /\ fst (deleteSavingsGoal g' k store') = g')
    /\ (fst (deleteTransaction t' k' store')
        = fst (deleteTransaction (fst (deleteTransaction data k' store)) k
                 store')
        /\ fst (deleteDebt d' k' store')
           = fst (deleteDebt (fst (deleteDebt data k' store)) k store')
        /\ fst (deleteSavingsGoal g' k' store')
           = fst (deleteSavingsGoal (fst (deleteSavingsGoal data k' store)) k
                    store'))
    /\ ((List.length (transactions t') <= List.length (transactions data))%nat
        /\ debts t' = debts data /\ savingsGoals t' = savingsGoals data
        /\ settings t' = settings data).
Proof.
  intros data k k' store store' t' d' g'. subst t' d' g'.
  unfold deleteTransaction, deleteDebt, deleteSavingsGoal.
  cbn [fst snd transactions debts savingsGoals settings].
  assert (Hfind : forall (T : Type) (key : T -> jsstring) (l : list T),
            find (fun x => eqb (key x) k)
              (filter (fun x => negb (eqb (key x) k)) l) = None).
  { intros T key l. induction l as [|x r IH]; [reflexivity|].
    cbn [filter]. destruct (eqb (key x) k) eqn:E; cbn [negb]; [exact IH|].
    cbn [find]. now rewrite E. }
  assert (Hin : forall (T : Type) (key : T -> jsstring) (l : list T) (x : T),
            In x (filter (fun x => negb (eqb (key x) k)) l)
            <-> In x l /\ key x <> k).
  { intros T key l x. rewrite filter_In, negb_true_iff, eqb_neq. tauto. }
  split; [repeat split; apply Hfind|].
  split; [intros t; apply Hin|].
  split; [intros d; apply Hin|].
  split; [intros g; apply Hin|].
  split.
  { unfold freshId. intros H.
    apply andb_true_iff in H as [H Hg]. apply andb_true_iff in H as [Ht Hd].
    rewrite (filter_fresh id k _ Ht), (filter_fresh debt_id k _ Hd),
      (filter_fresh goal_id k _ Hg), AppData_eta. auto. }
  split.
  { rewrite (filter_fresh id k _ (filter_none_left id k _)),
      (filter_fresh debt_id k _ (filter_none_left debt_id k _)),
      (filter_fresh goal_id k _ (filter_none_left goal_id k _)). auto. }
  split.
  { rewrite (filter_commute id k' k), (filter_commute debt_id k' k),
      (filter_commute goal_id k' k). auto. }
  split; [apply filter_length_le | auto].
Qed.

(** X22. [updateSettings] changes the settings only, and of the settings
    only the keys the partial settings hold: with none the dataset is as
    it was; each of the four keys ([primaryCurrency], [exchangeRate],
    [autoExchangeRate], [monthlyBudget]) takes the new value when it is
    given and keeps the old one when it is not; and two updates are one update with the later
    keys over the earlier ones. *)
Theorem updateSettings_merges :
  forall (data : AppData) (p q : PartialUserSettings)
         (store store' : LocalStorage),
    let updated := fst (updateSettings data p store) in
    fst (updateSettings data noSettings store) = data
    /\ transactions updated = transactions data
    /\ debts updated = debts data
    /\ savingsGoals updated = savingsGoals data
    /\ (forall c, p_primaryCurrency p = Some c ->
                  primaryCurrency (settings updated) = c)
    /\ (p_primaryCurrency p = None ->
        primaryCurrency (settings updated) = primaryCurrency (settings data))
    /\ (forall r, p_exchangeRate p = Some r ->
                  exchangeRate (settings updated) = r)
    /\ (p_exchangeRate p = None ->
        exchangeRate (settings updated) = exchangeRate (settings data))
    /\ (forall a, p_autoExchangeRate p = Some a ->
                  autoExchangeRate (settings updated) = a)
    /\ (p_autoExchangeRate p = None ->
        autoExchangeRate (settings updated)
        = autoExchangeRate (settings data))
    /\ (forall b, p_monthlyBudget p = Some b ->
                  monthlyBudget (settings updated) = b)
    /\ (p_monthlyBudget p = None ->
        monthlyBudget (settings updated) = monthlyBudget (settings data))
    /\ fst (updateSettings updated q store')
       = fst (updateSettings data (mergePartial p q) store)
    /\ getItem STORAGE_KEY (snd (updateSettings data p store))
       = Some (text (stringify [] (AppData_value updated))).
Proof.
  intros data p q store store' updated. subst updated.
  unfold updateSettings. cbn [fst snd transactions debts savingsGoals settings].
  split.
  { destruct data as [ts ds gs [c r a b]]. reflexivity. }
  repeat (split; [reflexivity|]).
  unfold mergeSettings. cbn [primaryCurrency exchangeRate autoExchangeRate
                             monthlyBudget].
  split; [now intros c ->|]. split; [now intros ->|].
  split; [now intros r ->|]. split; [now intros ->|].
  split; [now intros a ->|]. split; [now intros ->|].
  split; [now intros b ->|]. split; [now intros ->|].
  split; [|apply getItem_saveData].
  f_equal. unfold mergePartial. destruct p as [pc pr pa pb], q as [qc qr qa qb].
  cbn. destruct qc, qr, qa, qb; reflexivity.
Qed.

(** X23. An import that is rejected leaves the store as it was; one that is
    accepted returns what the text parses to and stores its text; and a
    text that does not parse, or parses to [null], to a number, to a
    string or to an array, is rejected. *)
Theorem importData_rejects_or_stores :
  forall (json : jsstring) (store : LocalStorage),
    match fst (importData json store) with
    | None => snd (importData json store) = store
    | Some parsed =>
      parse json = Some parsed
      /\ (exists props transactions settings,
            parsed = VObject props
            /\ getProperty parsed (js "transactions") = Some transactions
            /\ toBoolean transactions = true
            /\ getProperty parsed (js "settings") = Some settings
            /\ toBoolean settings = true)
      /\ snd (importData json store) = saveData parsed store
      /\ getItem STORAGE_KEY (snd (importData json store))
         = Some (text (stringify [] parsed))
    end.
Proof.
  intros json store. unfold importData.
  destruct (parse json) as [parsed|]; [|reflexivity].
  destruct (getProperty parsed (js "transactions")) as [transactions|] eqn:Ht;
    [|reflexivity].
  destruct (toBoolean transactions) eqn:Hb.
  - destruct (getProperty parsed (js "settings")) as [settings|] eqn:Hs.
    + destruct (toBoolean settings) eqn:Hb'; [|reflexivity].
      cbn [fst snd]. split; [reflexivity|].
      split; [|split; [reflexivity | apply getItem_saveData]].
      destruct parsed; try discriminate;
        try (cbn in Ht; injection Ht as <-; discriminate).
      now exists props, transactions, settings.
    + reflexivity.
  - rewrite Hb. reflexivity.
Qed.

End EditingMore.


Section CompactJSON.
Import JSON Spec.

Lemma elements_compact (items : list value) :
  Forall roundTripsCompact items -> forallb jsonClean items = true ->
  items <> [] ->
  let parts :=
    map (fun v => match serialize [] [] v with
                  | Some str => str
                  | None => js "null"
                  end) items in
  headOk (join [ch ","] parts) = true
  /\ (list_sum (map (fun x => S (cost x)) items)
      <= List.length (join [ch ","] parts) + 1)%nat
  /\ forall fuel acc rest,
       (list_sum (map (fun x => S (cost x)) items) <= fuel)%nat ->
       parseElements fuel (join [ch ","] parts ++ ch "]" :: rest) acc
       = Some (VArray (acc ++ items), rest).
Proof.
  intros Hall Hclean Hne. cbv zeta.
  induction items as [|x r IH]; [congruence|]. clear Hne.
  apply Forall_cons_iff in Hall as [Hx Hr].
  cbn [forallb] in Hclean. apply andb_true_iff in Hclean as [Hcx Hcr].
  destruct (Hx Hcx) as (t & Ht & Hhead & Hcost & Hparse).
  cbn [map]. rewrite Ht.
  destruct r as [|y r'].
  - cbn [map join list_sum fold_right]. split; [exact Hhead|]. split; [lia|].
    intros fuel acc rest Hfuel.
    destruct fuel as [|fuel]; [lia|].
    rewrite (parseElements_step fuel x t _ acc)
      by (apply Hparse; [lia | reflexivity]).
    rewrite (skipSpace_head (ch "]")) by reflexivity.
    reflexivity.
  - destruct (IH Hr Hcr ltac:(discriminate)) as (Hh' & Hc' & Hp').
    rewrite join_cons by discriminate.
    split; [now apply headOk_app|]. split.
    { rewrite !length_app. cbn [map list_sum fold_right] in *.
      cbn [List.length]. lia. }
    intros fuel acc rest Hfuel.
    destruct fuel as [|fuel]; [cbn [map list_sum fold_right] in Hfuel; lia|].
    rewrite <- !app_assoc.
    rewrite (parseElements_step fuel x t _ acc).
    + cbn [app]. rewrite (skipSpace_head (ch ",")) by reflexivity.
      change (ch "," =? ch ",")%N with true. cbv iota.
      replace (acc ++ x :: y :: r') with ((acc ++ [x]) ++ y :: r')
        by (now rewrite <- app_assoc).
      apply Hp'. cbn [map list_sum fold_right] in Hfuel |- *. lia.
    + apply Hparse; [cbn [map list_sum fold_right] in Hfuel; lia | reflexivity].
Qed.

Lemma parseMembers_step_compact fuel k v t rest acc :
  parseValue fuel (t ++ rest) = Some (v, rest) ->
  parseMembers (S fuel) ((quote k ++ js ":" ++ t) ++ rest) acc
  = match skipSpace rest with
    | c :: r4 =>
      if (c =? ch ",")%N
      then parseMembers fuel r4 (defineProperty k v acc)
      else if (c =? ch "}")%N
      then Some (VObject (defineProperty k v acc), r4)
      else None
    | [] => None
    end.
Proof.
  intros H. cbn [parseMembers].
  replace ((quote k ++ js ":" ++ t) ++ rest)
    with (QUOTE :: quoteUnits k ++ QUOTE :: ch ":" :: t ++ rest)
    by (unfold quote; cbn [app]; now rewrite <- !app_assoc).
  rewrite (skipSpace_head QUOTE) by reflexivity.
  cbn [expect]. change (QUOTE =? QUOTE)%N with true. cbv iota.
  rewrite parseString_quoteUnits.
  rewrite (skipSpace_head (ch ":")) by reflexivity.
  cbn [expect]. change (ch ":" =? ch ":")%N with true. cbv iota.
  now rewrite H.
Qed.

Lemma members_compact (props : list (jsstring * value)) :
  Forall (fun p => roundTripsCompact (snd p)) props ->
  forallb (fun p => jsonClean (snd p)) props = true ->
  forallb plainKey (map fst props) = true ->
  distinct (map fst props) = true ->
  props <> [] ->
  let parts :=
    flat_map (fun p => match serialize [] [] (snd p) with
                       | Some str => [quote (fst p) ++ js ":" ++ str]
                       | None => []
                       end) props in
  (exists j, join [ch ","] parts = QUOTE :: j)
  /\ (list_sum (map (fun p => S (cost (snd p))) props)
      <= List.length (join [ch ","] parts) + 1)%nat
  /\ forall fuel acc rest,
       (list_sum (map (fun p => S (cost (snd p))) props) <= fuel)%nat ->
       (forall p, In p props -> ~ In (fst p) (map fst acc)) ->
       parseMembers fuel (join [ch ","] parts ++ ch "}" :: rest) acc
       = Some (VObject (acc ++ props), rest).
Proof.
  intros Hall Hclean Hplain Hdist Hne. cbv zeta.
  induction props as [|[k v] r IH]; [congruence|]. clear Hne.
  apply Forall_cons_iff in Hall as [Hv Hr]. cbn [snd] in Hv.
  cbn [forallb snd] in Hclean. apply andb_true_iff in Hclean as [Hcv Hcr].
  cbn [map fst forallb] in Hplain.
  apply andb_true_iff in Hplain as [Hpk Hpr].
  cbn [map fst] in Hdist. apply distinct_cons in Hdist as [Hnew Hdr].
  destruct (Hv Hcv) as (t & Ht & Hhead & Hcost & Hparse).
  cbn [flat_map snd fst]. rewrite Ht.
  assert (Hdef : forall acc,
            (forall p, In p ((k, v) :: r) -> ~ In (fst p) (map fst acc)) ->
            defineProperty k v acc = acc ++ [(k, v)]).
  { intros acc Hacc. apply defineProperty_new; [exact Hpk|].
    apply (Hacc (k, v)). now left. }
  destruct r as [|q r'].
  - cbn [flat_map app join map list_sum fold_right snd].
    split; [unfold quote; cbn [app]; eauto|]. split.
    { rewrite !length_app. lia. }
    intros fuel acc rest Hfuel Hacc.
    destruct fuel as [|fuel]; [lia|].
    rewrite (parseMembers_step_compact fuel k v t _ acc)
      by (apply Hparse; [lia | reflexivity]).
    rewrite (skipSpace_head (ch "}")) by reflexivity.
    change (ch "}" =? ch ",")%N with false.
    change (ch "}" =? ch "}")%N with true. cbv iota.
    now rewrite Hdef.
  - destruct (IH Hr Hcr Hpr Hdr ltac:(discriminate))
      as ((j & Hj) & Hc' & Hp').
    set (parts := flat_map _ (q :: r')) in *.
    assert (Hparts : parts <> [])
      by (intros E; rewrite E in Hj; discriminate).
    cbn [app]. rewrite join_cons by exact Hparts.
    split; [unfold quote; cbn [app]; eauto|]. split.
    { rewrite !length_app. cbn [map list_sum fold_right snd] in *.
      cbn [List.length]. lia. }
    intros fuel acc rest Hfuel Hacc.
    destruct fuel as [|fuel];
      [cbn [map list_sum fold_right snd] in Hfuel; lia|].
    rewrite <- app_assoc.
    rewrite (parseMembers_step_compact fuel k v t _ acc).
    + cbn [app]. rewrite (skipSpace_head (ch ",")) by reflexivity.
      change (ch "," =? ch ",")%N with true. cbv iota.
      rewrite Hdef by exact Hacc.
      replace (acc ++ (k, v) :: q :: r') with ((acc ++ [(k, v)]) ++ q :: r')
        by (now rewrite <- app_assoc).
      apply Hp'; [cbn [map list_sum fold_right snd] in Hfuel |- *; lia|].
      intros p Hp. rewrite map_app, in_app_iff. cbn [map fst In].
      intros [Hin | [E | []]].
      * apply (Hacc p); [now right | exact Hin].
      * apply Hnew. rewrite E. now apply in_map.
    + apply Hparse; [cbn [map list_sum fold_right snd] in Hfuel; lia
                    | reflexivity].
Qed.

(** Every clean value is read back from its unindented text. *)
Lemma value_compact (v : value) : roundTripsCompact v.
Proof.
  induction v as [ | | b | x | s | items IH | props IH] using value_induction;
    intros Hclean.
  - discriminate.
  - exists (js "null"). repeat split; [simpl; lia|].
    intros [|fuel] rest Hf _; [simpl in Hf; lia | now vm_compute].
  - destruct b.
    + exists (js "true"). repeat split; [simpl; lia|].
      intros [|fuel] rest Hf _; [simpl in Hf; lia | now vm_compute].
    + exists (js "false"). repeat split; [simpl; lia|].
      intros [|fuel] rest Hf _; [simpl in Hf; lia | now vm_compute].
  - cbn [jsonClean] in Hclean. exists (Number_toString x).
    assert (Hfin : PrimFloat.is_finite x = true).
    { unfold readsBack in Hclean.
      apply andb_true_iff in Hclean as [H _].
      now apply andb_true_iff in H as [H _]. }
    cbn [serialize]. rewrite Hfin.
    destruct (parseValue_number x 0 [] Hclean eq_refl) as [Hhead _].
    split; [reflexivity|]. split; [exact Hhead|]. split.
    { destruct (Number_toString x); [discriminate | simpl; lia]. }
    intros [|fuel] rest Hf Hrest; [simpl in Hf; lia|].
    now apply parseValue_number.
  - exists (quote s). split; [reflexivity|]. split; [reflexivity|]. split.
    { unfold quote. rewrite !length_app. simpl. lia. }
    intros [|fuel] rest Hf _; [simpl in Hf; lia|].
    unfold quote. cbn [app parseValue].
    rewrite (skipSpace_head QUOTE) by reflexivity.
    change (QUOTE =? ch "{")%N with false.
    change (QUOTE =? ch "[")%N with false.
    change (QUOTE =? QUOTE)%N with true. cbv iota.
    rewrite <- app_assoc. cbn [app].
    now rewrite parseString_quoteUnits.
  - cbn [jsonClean] in Hclean. cbn [serialize app].
    destruct items as [|x r].
    + exists (js "[]"). repeat split; [simpl; lia|].
      intros [|fuel] rest Hf _; [simpl in Hf; lia | now vm_compute].
    + destruct (elements_compact (x :: r) IH Hclean ltac:(discriminate))
        as (Hhead & Hcost & Hparse).
      set (parts := map _ (x :: r)) in *.
      assert (Hparts : parts <> []) by discriminate.
      unfold wrap. cbn [truthy].
      destruct parts as [|p ps] eqn:Eparts; [congruence|].
      rewrite <- Eparts in *.
      eexists. split; [reflexivity|]. split; [reflexivity|]. split.
      { rewrite !length_app. cbn [cost List.length]. lia. }
      intros [|fuel] rest Hf _; [cbn [cost] in Hf; lia|].
      destruct (headOk_cons _ Hhead) as (c & j & Ej & Hsp & Hnb).
      cbn [parseValue app].
      rewrite (skipSpace_head (ch "[")) by reflexivity.
      change (ch "[" =? ch "{")%N with false.
      change (ch "[" =? ch "[")%N with true. cbv iota.
      rewrite <- !app_assoc. rewrite Ej. cbn [app].
      rewrite (skipSpace_head c) by exact Hsp.
      destruct (N.eqb_spec c (ch "]")) as [E|_]; [contradiction|].
      change (c :: j ++ ?l) with ((c :: j) ++ l). rewrite <- Ej.
      apply (Hparse fuel [] rest). cbn [cost] in Hf. lia.
  - cbn [jsonClean] in Hclean.
    apply andb_true_iff in Hclean as [Hclean Hdist].
    apply andb_true_iff in Hclean as [Hclean Hplain].
    cbn [serialize app truthy].
    destruct props as [|p r].
    + exists (js "{}"). repeat split; [simpl; lia|].
      intros [|fuel] rest Hf _; [simpl in Hf; lia | now vm_compute].
    + destruct (members_compact (p :: r) IH Hclean Hplain Hdist
                  ltac:(discriminate)) as ((j & Ej) & Hcost & Hparse).
      set (parts := flat_map _ (p :: r)) in *.
      unfold wrap. cbn [truthy].
      destruct parts as [|m ms] eqn:Eparts; [discriminate|].
      rewrite <- Eparts in *.
      eexists. split; [reflexivity|]. split; [reflexivity|]. split.
      { rewrite !length_app. cbn [cost List.length]. lia. }
      intros [|fuel] rest Hf _; [cbn [cost] in Hf; lia|].
      cbn [parseValue app].
      rewrite (skipSpace_head (ch "{")) by reflexivity.
      change (ch "{" =? ch "{")%N with true. cbv iota.
      rewrite <- !app_assoc. rewrite Ej. cbn [app].
      rewrite (skipSpace_head QUOTE) by reflexivity.
      change (QUOTE =? ch "}")%N with false. cbv iota.
      change (QUOTE :: j ++ ?l) with ((QUOTE :: j) ++ l). rewrite <- Ej.
      apply (Hparse fuel [] rest); [cbn [cost] in Hf; lia | auto].
Qed.

(** [JSON.parse(JSON.stringify(v))] gives back a clean [v], and the
    text is not empty. *)
Lemma parse_stringify_compact (v : value) :
  jsonClean v = true ->
  exists t, stringify [] v = Some t /\ parse t = Some v /\ truthy t = true.
Proof.
  intros Hclean.
  destruct (value_compact v Hclean) as (t & Ht & Hhead & Hcost & Hparse).
  exists t. split; [exact Ht|]. split.
  - unfold parse.
    specialize (Hparse (S (List.length t)) [] ltac:(lia) eq_refl).
    rewrite app_nil_r in Hparse. now rewrite Hparse.
  - now destruct t.
Qed.

End CompactJSON.


Section Loading.
Import Data JSON Storage StorageOps Spec.

Lemma defineProperty_keeps_keys k v (props : list (jsstring * value)) :
  forall k', In k' (map fst props) ->
             In k' (map fst (defineProperty k v props)).
Proof.
  induction props as [|[k0 v0] r IH]; intros k' Hin; [destruct Hin|].
  cbn [defineProperty].
  destruct (eqb k0 k) eqn:E.
  - apply eqb_eq in E. subst k0. exact Hin.
  - cbn [map fst In] in Hin.
    destruct (arrayIndex k), (arrayIndex k0);
      repeat match goal with
             | |- context [if ?b then _ else _] => destruct b
             end;
      cbn [map fst In];
      try (destruct Hin as [<- | Hin]; [now left | right; now apply IH]);
      try (right; exact Hin);
      try (destruct Hin as [<- | Hin]; [right; now left | right; now right]).
Qed.

Lemma spread_keeps_keys (target : list (jsstring * value)) (source : value) :
  forall k, In k (map fst target) -> In k (map fst (spread target source)).
Proof.
  unfold spread. generalize (ownProperties source). intros props.
  revert target. induction props as [|p r IH]; intros target k Hin;
    [exact Hin|].
  cbn [fold_left]. apply IH. now apply defineProperty_keeps_keys.
Qed.

Lemma lookup_defineProperty_other k v (props : list (jsstring * value)) k' :
  k' <> k -> lookup (defineProperty k v props) k' = lookup props k'.
Proof.
  intros Hk.
  assert (Hkk : eqb k k' = false) by (apply eqb_neq; congruence).
  induction props as [|[k0 v0] r IH].
  - cbn [defineProperty]. rewrite lookup_cons, Hkk. reflexivity.
  - cbn [defineProperty].
    destruct (eqb k0 k) eqn:E.
    + apply eqb_eq in E. subst k0. now rewrite !lookup_cons, Hkk.
    + destruct (arrayIndex k), (arrayIndex k0);
        repeat match goal with
               | |- context [if ?b then _ else _] => destruct b
               end;
        rewrite ?lookup_cons, ?Hkk, ?IH; reflexivity.
Qed.

Lemma lookup_spread_absent (target : list (jsstring * value))
  (source : value) (k : jsstring) :
  ~ In k (map fst (ownProperties source)) ->
  lookup (spread target source) k = lookup target k.
Proof.
  unfold spread. generalize (ownProperties source). intros props.
  revert target. induction props as [|[k0 v0] r IH]; intros target Hk;
    [reflexivity|].
  cbn [fold_left fst snd]. cbn [map fst In] in Hk.
  rewrite IH by tauto.
  apply lookup_defineProperty_other. intros E. apply Hk. now left.
Qed.

(** X24. [loadData] never fails.  Without a stored text, with an empty one,
    with one that is no JSON or with [null], it returns the default
    dataset.  In every case it returns an object of the four properties
    whose three collections are truthy (each of [transactions], [debts]
    and [savingsGoals] is the stored one where that is truthy, and the
    empty array where the stored object lacks it or holds a falsy
    value) and whose settings hold every key of the
    default settings, with the default value where the stored settings
    lack the key. *)
Theorem loadData_defaults :
  forall store : LocalStorage,
    (getItem STORAGE_KEY store = None -> loadData store = DEFAULT_DATA)
    /\ (getItem STORAGE_KEY store = Some [] -> loadData store = DEFAULT_DATA)
    /\ (forall raw, getItem STORAGE_KEY store = Some raw ->
                    parse raw = None \/ parse raw = Some VNull ->
                    loadData store = DEFAULT_DATA)
    /\ exists t d g s,
         loadData store
         = VObject [ (js "transactions", t); (js "debts", d);
                     (js "savingsGoals", g); (js "settings", VObject s) ]
         /\ toBoolean t = true /\ toBoolean d = true /\ toBoolean g = true
         /\ (forall k, In k (map fst DEFAULT_SETTINGS) -> In k (map fst s))
         /\ (forall raw parsed stored k,
               getItem STORAGE_KEY store = Some raw -> truthy raw = true ->
               parse raw = Some parsed ->
               getProperty parsed (js "settings") = Some stored ->
               ~ In k (map fst (ownProperties stored)) ->
               lookup s k = lookup DEFAULT_SETTINGS k)
         /\ (forall raw parsed,
               getItem STORAGE_KEY store = Some raw -> truthy raw = true ->
               parse raw = Some parsed ->
               (forall v, getProperty parsed (js "transactions") = Some v ->
                          t = if toBoolean v then v else VArray [])
               /\ (forall v, getProperty parsed (js "debts") = Some v ->
                             d = if toBoolean v then v else VArray [])
               /\ (forall v, getProperty parsed (js "savingsGoals") = Some v ->
                             g = if toBoolean v then v else VArray [])
               /\ (getProperty parsed (js "transactions") = Some VUndefined ->
                   t = VArray [])
               /\ (getProperty parsed (js "debts") = Some VUndefined ->
                   d = VArray [])
               /\ (getProperty parsed (js "savingsGoals") = Some VUndefined ->
                   g = VArray [])).
Proof.
  intros store. unfold loadData.
  split; [now intros ->|]. split; [now intros ->|].
  split.
  { intros raw -> [-> | ->]; now destruct (negb (truthy raw)). }
  assert (Hor : forall v, toBoolean (orValue v (VArray [])) = true).
  { intros v. unfold orValue. now destruct (toBoolean v) eqn:E. }
  assert (Hfallback :
    (forall raw parsed key stored,
       getItem STORAGE_KEY store = Some raw -> truthy raw = true ->
       parse raw = Some parsed ->
       getProperty parsed key = Some stored -> False) ->
    exists t d g s,
      DEFAULT_DATA
      = VObject [ (js "transactions", t); (js "debts", d);
                  (js "savingsGoals", g); (js "settings", VObject s) ]
      /\ toBoolean t = true /\ toBoolean d = true /\ toBoolean g = true
      /\ (forall k, In k (map fst DEFAULT_SETTINGS) -> In k (map fst s))
      /\ (forall raw parsed stored k,
            getItem STORAGE_KEY store = Some raw -> truthy raw = true ->
            parse raw = Some parsed ->
            getProperty parsed (js "settings") = Some stored ->
            ~ In k (map fst (ownProperties stored)) ->
            lookup s k = lookup DEFAULT_SETTINGS k)
      /\ (forall raw parsed,
            getItem STORAGE_KEY store = Some raw -> truthy raw = true ->
            parse raw = Some parsed ->
            (forall v, getProperty parsed (js "transactions") = Some v ->
                       t = if toBoolean v then v else VArray [])
            /\ (forall v, getProperty parsed (js "debts") = Some v ->
                          d = if toBoolean v then v else VArray [])
            /\ (forall v, getProperty parsed (js "savingsGoals") = Some v ->
                          g = if toBoolean v then v else VArray [])
            /\ (getProperty parsed (js "transactions") = Some VUndefined ->
                t = VArray [])
            /\ (getProperty parsed (js "debts") = Some VUndefined ->
                d = VArray [])
            /\ (getProperty parsed (js "savingsGoals") = Some VUndefined ->
                g = VArray []))).
  { intros Hno.
    exists (VArray []), (VArray []), (VArray []), DEFAULT_SETTINGS.
    split; [reflexivity|]. repeat (split; [reflexivity|]).
    split; [auto|].
    split; [intros raw parsed stored k E1 E2 E3 E4;
            elim (Hno _ _ _ _ E1 E2 E3 E4)|].
    intros raw parsed E1 E2 E3.
    repeat split; intros; exfalso; eapply Hno; eauto. }
  destruct (getItem STORAGE_KEY store) as [raw|] eqn:Eraw;
    [|apply Hfallback; intros; congruence].
  destruct (truthy raw) eqn:Hraw; cbn [negb];
    [|apply Hfallback; intros; congruence].
  destruct (parse raw) as [parsed|] eqn:Eparsed;
    [|apply Hfallback; intros; congruence].
  destruct (getProperty parsed (js "transactions")) as [t|] eqn:Et.
  2:{ apply Hfallback. intros raw' parsed' key stored E1 _ E2 Hs.
      assert (parsed' = parsed) by congruence. subst parsed'.
      destruct parsed; cbn in Et, Hs; try discriminate Hs;
        try discriminate Et.
      match type of Et with
      | context [find ?f props] => destruct (find f props) as [[]|]
      end; discriminate Et. }
  assert (Hsome : forall key, exists v, getProperty parsed key = Some v).
  { intros key. destruct parsed; cbn in Et |- *; try discriminate Et; eauto.
    match goal with
    | |- context [find ?f props] => destruct (find f props) as [[]|]
    end; eauto. }
  destruct (Hsome (js "debts")) as [d Ed]. rewrite Ed.
  destruct (Hsome (js "savingsGoals")) as [g Eg]. rewrite Eg.
  destruct (Hsome (js "settings")) as [s Es]. rewrite Es.
  exists (orValue t (VArray [])), (orValue d (VArray [])),
    (orValue g (VArray [])), (spread DEFAULT_SETTINGS s).
  split; [reflexivity|]. repeat (split; [apply Hor|]).
  split; [intros k; apply spread_keeps_keys|].
  split.
  - intros raw' parsed' stored k E1 _ E2 Hs Hk.
    assert (parsed' = parsed) by congruence. subst parsed'.
    rewrite Es in Hs. injection Hs as <-.
    now apply lookup_spread_absent.
  - intros raw' parsed' E1 _ E2.
    assert (parsed' = parsed) by congruence. subst parsed'.
    rewrite Et, Ed, Eg. unfold orValue.
    repeat split; intros;
      match goal with
      | H : Some _ = Some _ |- _ => injection H as ->
      end; reflexivity.
Qed.

Ltac eval_lookup' :=
  repeat first
    [ rewrite lookup_nil
    | rewrite lookup_cons;
      match goal with
      | |- context [if eqb ?a ?b then _ else _] =>
        let e := eval vm_compute in (eqb a b) in
        change (eqb a b) with e; cbv iota
      end ].

Lemma asUserSettings_loaded (u : UserSettings) :
  asUserSettings (VObject (spread DEFAULT_SETTINGS (UserSettings_value u)))
  = Some u.
Proof. destruct u as [[] er auto [b|]]; vm_compute; reflexivity. Qed.

Lemma loadData_saved (data : AppData) (store : LocalStorage) :
  forallb readsBack (AppData_numbers data) = true ->
  asAppData (loadData (saveData (AppData_value data) store)) = Some data.
Proof.
  intros Hnum.
  destruct (parse_stringify_compact _ (AppData_value_clean data Hnum))
    as (t & Ht & Hparse & Htruthy).
  unfold loadData. rewrite getItem_saveData, Ht. cbn [text].
  rewrite Htruthy, Hparse. cbn [negb].
  unfold AppData_value at 1 2 3 4.
  unfold getProperty. cbn [find fst].
  repeat match goal with
         | |- context [if eqb ?a ?b then _ else _] =>
           let e := eval vm_compute in (eqb a b) in
           change (eqb a b) with e; cbv iota
         end.
  unfold orValue. cbn [toBoolean].
  destruct data as [ts ds gs st].
  unfold asAppData, field.
  cbn [transactions debts savingsGoals settings asObject bind].
  eval_lookup'. cbn [bind asArrayOf].
  rewrite (asArray_map _ _ ts asTransaction_value). cbn [bind].
  eval_lookup'. cbn [bind asArrayOf].
  rewrite (asArray_map _ _ ds asDebt_value). cbn [bind].
  eval_lookup'. cbn [bind asArrayOf].
  rewrite (asArray_map _ _ gs asSavingsGoal_value). cbn [bind].
  eval_lookup'. cbn [bind].
  now rewrite asUserSettings_loaded.
Qed.

Lemma forallb_flat_map_filter {A B} (p : B -> bool) (f : A -> list B)
  (q : A -> bool) (l : list A) :
  forallb p (flat_map f l) = true ->
  forallb p (flat_map f (filter q l)) = true.
Proof.
  induction l as [|x r IH]; [auto|]. cbn [flat_map filter].
  rewrite forallb_app. intros H. apply andb_true_iff in H as [Hx Hr].
  destruct (q x); [|now apply IH].
  cbn [flat_map]. rewrite forallb_app, Hx. now apply IH.
Qed.

(** X25. What is saved is what is loaded: for a dataset whose numbers read
    back from their decimal text, [loadData] on the store [saveData]
    left reads, field by field, as the dataset.  So the store
    [addTransaction] leaves (for a transaction whose numbers read back)
    and the store [deleteTransaction] leaves load as the datasets they
    return. *)
Theorem loadData_after_saveData :
  forall (data : AppData) (store : LocalStorage),
    forallb readsBack (AppData_numbers data) = true ->
    asAppData (loadData (saveData (AppData_value data) store)) = Some data
    /\ (forall (uuid : jsstring) (tx : Transaction number),
          forallb readsBack
            (amount tx :: optionalNumber (exchangeRateAtTime tx)) = true ->
          asAppData (loadData (snd (addTransaction uuid data tx store)))
          = Some (fst (addTransaction uuid data tx store)))
    /\ (forall k : jsstring,
          asAppData (loadData (snd (deleteTransaction data k store)))
          = Some (fst (deleteTransaction data k store))).
Proof.
  intros data store Hnum.
  split; [now apply loadData_saved|].
  unfold AppData_numbers in Hnum.
  apply forallb_app_split in Hnum as [Ht Hrest].
  split.
  - intros uuid tx Htx. unfold addTransaction. cbn [fst snd].
    apply loadData_saved. unfold AppData_numbers.
    cbn [transactions debts savingsGoals settings].
    rewrite forallb_app, Hrest, andb_true_r.
    rewrite flat_map_app, forallb_app, Ht. cbn [flat_map amount
      exchangeRateAtTime]. now rewrite app_nil_r.
  - intros k. unfold deleteTransaction. cbn [fst snd].
    apply loadData_saved. unfold AppData_numbers.
    cbn [transactions debts savingsGoals settings].
    rewrite forallb_app, Hrest, andb_true_r.
    now apply forallb_flat_map_filter.
Qed.

End Loading.


Section Handlers.
Import Data Storage StorageOps Spec Pages.
#[local] Open Scope float_scope.

Lemma Math_min_capped (a b : number) :
  isNaN (Math_min a b) = true \/ PrimFloat.leb (Math_min a b) b = true.
Proof.
  destruct (isNaN a) eqn:Ha;
    [left; unfold Math_min; now rewrite Ha|].
  destruct (isNaN b) eqn:Hb;
    [left; unfold Math_min; now rewrite Ha, Hb|].
  right. now apply Math_min_le.
Qed.

Lemma orZero_not_nan (x : number) : isNaN (orZero x) = false.
Proof.
  unfold orZero. destruct (isNaN x) eqn:E; [reflexivity|].
  cbn [orb]. destruct (PrimFloat.eqb x 0); [reflexivity | exact E].
Qed.

Lemma Math_min_not_nan (a b : number) :
  isNaN a = false -> isNaN b = false -> isNaN (Math_min a b) = false.
Proof.
  intros Ha Hb. destruct (Math_min_le a b Ha Hb) as (_ & _ & [-> | ->]);
    assumption.
Qed.

(** X26. Money put towards a goal or a debt is capped: the goal
    [handleAddFunds] passes on, and the debt [handleMakePayment] passes
    on, is the one it was given with only the amount reached changed,
    and that amount is at most the target (the total), or [NaN]; it is
    the target or the old amount plus the amount typed, which is
    positive.  A text that is no positive number passes nothing on. *)
Theorem payments_are_capped :
  forall (text : jsstring) (goal : SavingsGoal)
         (paymentInputs : list (jsstring * jsstring)) (debt : Debt),
    (match handleAddFunds text goal with
     | None =>
       isNaN (parseFloat text) = true
       \/ PrimFloat.leb (parseFloat text) 0 = true
     | Some goal' =>
       PrimFloat.ltb 0 (parseFloat text) = true
       /\ goal_id goal' = goal_id goal /\ goal_name goal' = goal_name goal
       /\ targetAmount goal' = targetAmount goal
       /\ goal_currency goal' = goal_currency goal
       /\ deadline goal' = deadline goal
       /\ (isNaN (currentAmount goal') = true
           \/ PrimFloat.leb (currentAmount goal') (targetAmount goal) = true)
       /\ (isNaN (currentAmount goal') = true
           \/ currentAmount goal' = targetAmount goal
           \/ currentAmount goal' = currentAmount goal + parseFloat text)
     end)
    /\ (match handleMakePayment paymentInputs debt with
        | None => True
        | Some debt' =>
          debt_id debt' = debt_id debt /\ totalAmount debt' = totalAmount debt
          /\ (isNaN (paidAmount debt') = true
              \/ PrimFloat.leb (paidAmount debt') (totalAmount debt) = true)
        end)
    /\ (getItem (debt_id debt) paymentInputs = None ->
        handleMakePayment paymentInputs debt = None).
Proof.
  intros text goal paymentInputs debt. split; [|split].
  - unfold handleAddFunds.
    destruct (isNaN (parseFloat text) || PrimFloat.leb (parseFloat text) 0)
      eqn:Hguard.
    + apply orb_true_iff in Hguard. exact Hguard.
    + cbn [goal_id goal_name targetAmount goal_currency deadline currentAmount].
      split; [now apply positive_of_guard|].
      repeat (split; [reflexivity|]).
      split; [apply Math_min_capped|].
      set (a := currentAmount goal + parseFloat text).
      destruct (isNaN a) eqn:Ha;
        [left; unfold Math_min; now rewrite Ha|].
      destruct (isNaN (targetAmount goal)) eqn:Hb;
        [left; unfold Math_min; now rewrite Ha, Hb|].
      destruct (Math_min_le a (targetAmount goal) Ha Hb) as (_ & _ & [E | E]);
        rewrite E; auto.
  - unfold handleMakePayment.
    destruct (isNaN _ || PrimFloat.leb _ 0); [exact I|].
    cbn [debt_id totalAmount paidAmount].
    repeat (split; [reflexivity|]). apply Math_min_capped.
  - intros H. unfold handleMakePayment. rewrite H. reflexivity.
Qed.

(** X27. [handleAddGoal] passes nothing on exactly when the name is empty
    once trimmed or the target is no positive number.  The goal it passes
    on otherwise has the trimmed name of the form, the target and the
    currency of the form, what is already saved capped at the target,
    and the deadline of the form if it is not empty: so its name is not
    empty and is trimmed, its target is positive, and what is already
    saved is never more than the target. *)
Theorem handleAddGoal_validates :
  forall form : AddGoalForm,
    let target := parseFloat (form_targetAmount form) in
    (handleAddGoal form = None <->
     trim (form_name form) = [] \/ isNaN target = true
     \/ PrimFloat.leb target 0 = true)
    /\ forall goal : SavingsGoal,
         handleAddGoal form = Some goal ->
         goal_name goal = trim (form_name form)
         /\ targetAmount goal = target
         /\ currentAmount goal
            = Math_min (Pages.orZero (parseFloat (form_currentAmount form)))
                target
         /\ goal_currency goal = form_currency form
         /\ deadline goal
            = (if truthy (form_deadline form) then Some (form_deadline form)
               else None)
         /\ goal_name goal <> [] /\ trim (goal_name goal) = goal_name goal
         /\ PrimFloat.ltb 0 (targetAmount goal) = true
         /\ isNaN (currentAmount goal) = false
         /\ PrimFloat.leb (currentAmount goal) (targetAmount goal) = true
         /\ deadline goal <> Some [].
Proof.
  intros form target. subst target. unfold handleAddGoal.
  destruct (truthy (trim (form_name form))) eqn:Hname; cbn [negb orb].
  - destruct (isNaN (parseFloat (form_targetAmount form))
              || PrimFloat.leb (parseFloat (form_targetAmount form)) 0)
      eqn:Hguard.
    + split; [|discriminate]. split; [intros _|reflexivity].
      right. now apply orb_true_iff in Hguard.
    + split.
      { split; [discriminate|]. intros [E | E].
        - rewrite E in Hname. discriminate.
        - apply orb_true_iff in E. congruence. }
      intros goal [= <-].
      cbn [goal_name targetAmount currentAmount deadline goal_currency].
      pose proof (positive_of_guard _ Hguard) as Hpos.
      pose proof (positive_not_nan _ Hpos) as Hnan.
      repeat (split; [reflexivity|]).
      split; [intros E; rewrite E in Hname; discriminate|].
      split; [apply trim_idem|]. split; [exact Hpos|].
      split; [apply Math_min_not_nan; [apply orZero_not_nan | exact Hnan]|].
      split; [apply Math_min_le; [apply orZero_not_nan | exact Hnan]|].
      unfold orUndefined. destruct (form_deadline form); cbn; congruence.
  - split; [|discriminate]. split; [intros _|reflexivity].
    left. destruct (trim (form_name form)); [reflexivity | discriminate].
Qed.

(** X28. [handleSave] passes nothing on exactly when the amount is empty
    or no positive number, or the date is empty.  The transaction it
    passes on otherwise has the amount, the date, the type, the currency
    and the category of the form and its description trimmed: so its
    amount is positive and its date is not empty.  Only one in PLN may
    carry an exchange rate: the rate of the form when that is a positive
    number, and none otherwise. *)
Theorem handleSave_validates :
  forall form : TransactionForm,
    let amount' := parseFloat (formAmount form) in
    let rate := parseFloat (formExchangeRate form) in
    (Pages.handleSave form = None <->
     formAmount form = [] \/ isNaN amount' = true
     \/ PrimFloat.leb amount' 0 = true \/ formDate form = [])
    /\ forall tx : Transaction number,
         Pages.handleSave form = Some tx ->
         amount tx = amount'
         /\ date tx = formDate form
         /\ description tx = trim (formDescription form)
         /\ type tx = formType form /\ currency tx = formCurrency form
         /\ category tx = formCategory form
         /\ PrimFloat.ltb 0 (amount tx) = true /\ isNaN (amount tx) = false
         /\ date tx <> [] /\ trim (description tx) = description tx
         /\ (currency tx = USD -> exchangeRateAtTime tx = None)
         /\ (currency tx = PLN ->
             exchangeRateAtTime tx
             = if negb (isNaN rate) && PrimFloat.ltb 0 rate then Some rate
               else None)
         /\ (forall r, exchangeRateAtTime tx = Some r ->
                       currency tx = PLN /\ PrimFloat.ltb 0 r = true
                       /\ r = rate).
Proof.
  intros form amount' rate. subst amount' rate. unfold Pages.handleSave.
  destruct (truthy (formAmount form)) eqn:Ha; cbn [negb orb].
  2:{ split; [|discriminate]. split; [intros _|reflexivity].
      left. destruct (formAmount form); [reflexivity | discriminate]. }
  destruct (isNaN (parseFloat (formAmount form))
            || PrimFloat.leb (parseFloat (formAmount form)) 0) eqn:Hguard.
  { split; [|discriminate]. split; [intros _|reflexivity].
    right. apply orb_true_iff in Hguard. tauto. }
  destruct (truthy (formDate form)) eqn:Hd; cbn [negb].
  2:{ split; [|discriminate]. split; [intros _|reflexivity].
      right. right. right.
      destruct (formDate form); [reflexivity | discriminate]. }
  split.
  { split; [discriminate|]. intros [E | [E | [E | E]]].
    - rewrite E in Ha. discriminate.
    - rewrite E in Hguard. discriminate.
    - rewrite E, orb_true_r in Hguard. discriminate.
    - rewrite E in Hd. discriminate. }
  intros tx [= <-].
  cbn [amount date description type currency category exchangeRateAtTime].
  pose proof (positive_of_guard _ Hguard) as Hpos.
  repeat (split; [reflexivity|]).
  split; [exact Hpos|].
  split; [now apply positive_not_nan|].
  split; [intros E; rewrite E in Hd; discriminate|].
  split; [apply trim_idem|].
  destruct (formCurrency form).
  - split; [reflexivity|]. split; discriminate.
  - split; [discriminate|]. split; [reflexivity|]. intros r.
    destruct (negb (isNaN _) && PrimFloat.ltb 0 _) eqn:Hr; [|discriminate].
    intros [= <-]. apply andb_true_iff in Hr as [_ Hr]. auto.
Qed.
(** X29. Saving the settings form sets all four settings, whatever they
    were: the exchange rate saved is the number typed, or 4.05 where
    the text is no number, so never [NaN]; the budget saved is the
    number typed, or none where the field is empty or no number. *)
Theorem handleSaveSettings_replaces :
  forall (data : AppData) (primary : Currency)
         (exchangeRateText monthlyBudgetText : jsstring) (autoRate : bool)
         (store : LocalStorage),
    let saved :=
      settings (fst (updateSettings data
                       (handleSaveSettings primary exchangeRateText
                          monthlyBudgetText autoRate) store)) in
    primaryCurrency saved = primary
    /\ autoExchangeRate saved = autoRate
    /\ isNaN (exchangeRate saved) = false
    /\ (isNaN (parseFloat exchangeRateText) = false ->
        exchangeRate saved = parseFloat exchangeRateText)
    /\ (isNaN (parseFloat exchangeRateText) = true ->
        exchangeRate saved = 4.05)
    /\ (forall b, monthlyBudget saved = Some b ->
                  isNaN b = false /\ b = parseFloat monthlyBudgetText
                  /\ monthlyBudgetText <> [])
    /\ (monthlyBudgetText = [] -> monthlyBudget saved = None).
Proof.
  intros data primary rateText budgetText autoRate store saved. subst saved.
  unfold updateSettings, handleSaveSettings, mergeSettings.
  cbn [fst settings p_primaryCurrency p_exchangeRate p_autoExchangeRate
       p_monthlyBudget primaryCurrency autoExchangeRate exchangeRate
       monthlyBudget].
  split; [reflexivity|]. split; [reflexivity|].
  split; [destruct (isNaN (parseFloat rateText)) eqn:E;
            [reflexivity | exact E]|].
  split; [now intros ->|]. split; [now intros ->|].
  split.
  - intros b. destruct (eqb budgetText []) eqn:E; cbn [negb];
      [discriminate|].
    destruct (isNaN (parseFloat budgetText)) eqn:Hn; [discriminate|].
    intros [= <-]. split; [exact Hn|]. split; [reflexivity|].
    now apply eqb_neq.
  - intros ->. reflexivity.
Qed.

End Handlers.


Section LineEndings.
Import PkoImport Spec.

Lemma splitLines_toCRLF (s : jsstring) :
  includesChar s 13%N = false -> splitLines (toCRLF s) = splitLines s.
Proof.
  unfold includesChar.
  induction s as [|c r IH]; [reflexivity|].
  cbn [existsb]. intros H. apply orb_false_iff in H as [Hc Hr].
  specialize (IH Hr). cbn [toCRLF flat_map].
  fold (toCRLF r).
  destruct (c =? 10)%N eqn:E10.
  - apply N.eqb_eq in E10. subst c. cbn [app splitLines].
    change (13 =? 10)%N with false. change (13 =? 13)%N with true.
    change (10 =? 10)%N with true. cbv iota. now rewrite IH.
  - cbn [app splitLines]. rewrite E10.
    rewrite N.eqb_sym in Hc. rewrite Hc. now rewrite IH.
Qed.

(** X30. Windows line endings make no difference: a text without carriage
    returns parses the same with every line feed written as carriage
    return and line feed. *)
Theorem parseCSV_line_endings :
  forall (SC : StringCase) (csvText : jsstring),
    includesChar csvText 13%N = false ->
    parseCSV (toCRLF csvText) = parseCSV csvText.
Proof.
  intros SC csvText H. unfold parseCSV.
  now rewrite (splitLines_toCRLF csvText H).
Qed.

(** An instance of [parseCSV_line_endings]. *)
Lemma parseCSV_line_endings_witness :
  let csv := js "Date,Amount,Description
2025-01-15,-50.00,Test" in
  List.length (toCRLF csv) = S (List.length csv)
  /\ @parseCSV asciiCase (toCRLF csv) = @parseCSV asciiCase csv.
Proof.
  cbv zeta. split; [reflexivity|].
  apply parseCSV_line_endings. reflexivity.
Defined.

End LineEndings.

Section MoreScenarios.
Import Currency Data Advisor Spec Charts Storage StorageOps.
#[local] Open Scope float_scope.

(** An instance of [remapTransactions_transaction_invariant]. *)
Lemma remapTransactions_transaction_invariant_witness :
  let result := @PkoImport.parseCSV asciiCase (js "Date,Amount,Description
2025-01-15,-50.00,Lidl") in
  exists tx,
    @BankImport.remapTransactions asciiCase result
      (PkoImport.mapping result) = [tx]
    /\ PrimFloat.ltb 0 (PkoImport.tx_amount tx) = true
    /\ PkoImport.suggestedCategory tx = Food.
Proof.
  cbv zeta. eexists. split; [vm_compute; reflexivity|].
  match goal with |- context [PrimFloat.ltb 0 (PkoImport.tx_amount ?t)] =>
    destruct (@remapTransactions_transaction_invariant asciiCase
                (@PkoImport.parseCSV asciiCase (js "Date,Amount,Description
2025-01-15,-50.00,Lidl"))
                (PkoImport.mapping
                   (@PkoImport.parseCSV asciiCase (js "Date,Amount,Description
2025-01-15,-50.00,Lidl")))
                t ltac:(vm_compute; left; reflexivity))
      as (H1 & _)
  end.
  split; [exact H1 | reflexivity].
Defined.

(** An instance of [getSavingsAdvice_status_bands]. *)
Lemma getSavingsAdvice_status_bands_witness :
  let b := {| totalIncome := 5000; totalExpenses := 3500; needs := 2500;
              wants := 1000; savings := 1500; debtPayments := 0;
              netBalance := 1500 |} in
  savingsPercent (getSavingsAdvice (fun _ _ => []) b) = 30
  /\ status (getSavingsAdvice (fun _ _ => []) b) = excellent.
Proof.
  cbv zeta.
  destruct (getSavingsAdvice_status_bands (fun _ _ => [])
              {| totalIncome := 5000; totalExpenses := 3500; needs := 2500;
                 wants := 1000; savings := 1500; debtPayments := 0;
                 netBalance := 1500 |} eq_refl)
    as (H1 & _ & H3 & _).
  split; [rewrite H1; reflexivity | apply H3; reflexivity].
Defined.

(** An instance of [getCurrencyTotals_single_currency]. *)
Lemma getCurrencyTotals_single_currency_witness :
  let txs := [january15 income 5000 USD Salary None;
              january15 expense 9.99 USD Entertainment None;
              january15 expense 21.8 USD Food None] in
  let r := getCurrencyTotals ieee utcDateFields txs 0%Z 2025%Z in
  let b := getMonthlyBreakdown ieee utcDateFields txs 0%Z 2025%Z USD 4.05 in
  USD_income r = totalIncome b /\ USD_expenses r = totalExpenses b
  /\ PLN_income r = 0 /\ PLN_expenses r = 0.
Proof.
  cbv zeta.
  destruct (getCurrencyTotals_single_currency ieee utcDateFields
              [january15 income 5000 USD Salary None;
               january15 expense 9.99 USD Entertainment None;
               january15 expense 21.8 USD Food None] 0%Z 2025%Z)
    as [_ H].
  apply (H USD 4.05). repeat constructor.
Defined.

(** An instance of [delete_after_add]. *)
Lemma delete_after_add_witness :
  fst (deleteTransaction
         (fst (addTransaction (js "tx-2") sampleData
                 (january15 expense 12.5 PLN Food (Some 4.05)) []))
         (js "tx-2") [])
  = sampleData.
Proof.
  apply (delete_after_add (js "tx-2") sampleData
           (january15 expense 12.5 PLN Food (Some 4.05))
           {| debt_id := []; debt_name := []; totalAmount := 1;
              paidAmount := 0; debt_currency := USD; interestRate := None;
              dueDate := None; minimumPayment := None |}
           {| goal_id := []; goal_name := []; targetAmount := 1;
              currentAmount := 0; goal_currency := USD; deadline := None |}
           [] []).
  reflexivity.
Defined.

(** An instance of [loadData_after_saveData]. *)
Lemma loadData_after_saveData_witness :
  asAppData (loadData (saveData (AppData_value sampleData) [])) = Some sampleData.
Proof.
  destruct (loadData_after_saveData sampleData [] eq_refl) as [H _].
  exact H.
Defined.

End MoreScenarios.

(* ================================================================== *)
(** * Binary64 numbers that are denoted exactly *)
(* ================================================================== *)

Section BinaryRounding.

Lemma digits2_log2 (p : positive) :
  Zpos (digits2_pos p) = Z.log2 (Zpos p) + 1.
Proof.
  assert (H : digits2_pos p = Pos.size p).
  { induction p; simpl; congruence. }
  rewrite H. destruct p; simpl; lia.
Qed.

Lemma digits2_shift (p : positive) (j : Z) :
  0 <= j -> forall q, Zpos q = Zpos p * 2 ^ j ->
  Zpos (digits2_pos q) = Zpos (digits2_pos p) + j.
Proof.
  intros Hj q Hq. rewrite !digits2_log2, Hq.
  rewrite Z.log2_mul_pow2 by lia. lia.
Qed.

Lemma iter_xO (d : positive) (m : positive) :
  Zpos (Pos.iter xO m d) = Zpos m * 2 ^ Zpos d.
Proof.
  induction d as [|d IH] using Pos.peano_ind.
  - simpl. lia.
  - rewrite Pos.iter_succ, Pos2Z.inj_succ, Z.pow_succ_r by lia.
    rewrite Pos2Z.inj_xO, IH. lia.
Qed.

Lemma shr_1_double (z : Z) :
  shr_1 {| shr_m := 2 * z; shr_r := false; shr_s := false |}
  = {| shr_m := z; shr_r := false; shr_s := false |}.
Proof. destruct z; reflexivity. Qed.

Lemma iter_shr_1 (p : positive) :
  forall z : Z,
    SpecFloat.iter_pos shr_1 p
      {| shr_m := z * 2 ^ Zpos p; shr_r := false; shr_s := false |}
    = {| shr_m := z; shr_r := false; shr_s := false |}.
Proof.
  induction p as [p IH | p IH |]; intros z; cbn [SpecFloat.iter_pos].
  - replace (z * 2 ^ Zpos p~1) with (2 * ((z * 2 ^ Zpos p) * 2 ^ Zpos p)).
    + now rewrite shr_1_double, !IH.
    + replace (Zpos p~1) with (Zpos p + Zpos p + 1) by lia.
      rewrite !Z.pow_add_r by lia. ring.
  - replace (z * 2 ^ Zpos p~0) with ((z * 2 ^ Zpos p) * 2 ^ Zpos p).
    + now rewrite !IH.
    + replace (Zpos p~0) with (Zpos p + Zpos p) by lia.
      rewrite !Z.pow_add_r by lia. ring.
  - replace (z * 2 ^ 1) with (2 * z) by lia. apply shr_1_double.
Qed.

(** Rounding an already canonical mantissa leaves it alone. *)
Lemma binary_round_aux_canonical (s : bool) (m : positive) (e : Z) :
  bounded prec emax m e = true ->
  binary_round_aux prec emax s (Zpos m) e loc_Exact = S754_finite s m e.
Proof.
  unfold bounded, canonical_mantissa. intros H.
  apply andb_true_iff in H as [Hc He]. apply Z.eqb_eq in Hc.
  unfold binary_round_aux, shr_fexp. cbn [Zdigits2 shr_record_of_loc].
  rewrite Hc, Z.sub_diag. cbn [shr shr_m loc_of_shr_record round_nearest_even
                               Zdigits2 shr_record_of_loc].
  rewrite Hc, Z.sub_diag. cbn [shr shr_m]. now rewrite He.
Qed.

(** A mantissa and an exponent that denote a binary64 number are
    rounded to that number. *)
Lemma binary_round_exact (s : bool) (m M : positive) (e E : Z) :
  bounded prec emax m e = true ->
  (E <= e /\ Zpos M = Zpos m * 2 ^ (e - E))
  \/ (e <= E /\ Zpos m = Zpos M * 2 ^ (E - e)) ->
  binary_round prec emax s M E = S754_finite s m e.
Proof.
  intros Hb Hv. pose proof Hb as Hb'.
  unfold bounded, canonical_mantissa in Hb'.
  apply andb_true_iff in Hb' as [Hc He]. apply Z.eqb_eq in Hc.
  assert (Hd : Zpos (digits2_pos M) + E = Zpos (digits2_pos m) + e).
  { destruct Hv as [[Hle HM] | [Hle Hm]].
    - rewrite (digits2_shift m (e - E)) with (q := M); lia.
    - rewrite (digits2_shift M (E - e)) with (q := m); lia. }
  unfold binary_round. rewrite Hd, Hc. unfold shl_align.
  destruct (e - E) as [|d|d] eqn:Ed.
  - assert (M = m) by (destruct Hv as [[_ H] | [_ H]];
                       replace (E - e) with 0 in * by lia;
                       rewrite ?Ed in H; simpl in H; lia).
    subst M. replace E with e by lia. now apply binary_round_aux_canonical.
  - destruct Hv as [[_ HM] | [Hle _]]; [|lia]. try rewrite Ed in HM.
    unfold binary_round_aux, shr_fexp. cbn [Zdigits2 shr_record_of_loc].
    rewrite Hd, Hc, Ed. cbn [shr]. rewrite HM, iter_shr_1.
    cbn [shr_m loc_of_shr_record round_nearest_even Zdigits2
         shr_record_of_loc].
    replace (E + Zpos d) with e by lia.
    rewrite Hc, Z.sub_diag. cbn [shr shr_m]. now rewrite He.
  - destruct Hv as [[Hle _] | [_ Hm]]; [lia|].
    replace (E - e) with (Zpos d) in Hm by lia.
    assert (Pos.iter xO M d = m) by (pose proof (iter_xO d M); lia).
    rewrite H. now apply binary_round_aux_canonical.
Qed.

End BinaryRounding.

Section DecimalDigits.
Import JSON.

Lemma uint_units_digits (d : Decimal.uint) :
  forallb isDigit (uint_units d) = true.
Proof. induction d; simpl; auto. Qed.

Lemma digitsValue_acc (l : jsstring) (acc : Z) :
  fold_left (fun a c => 10 * a + digitValue c) l acc
  = acc * 10 ^ Z.of_nat (List.length l) + digitsValue l.
Proof.
  unfold digitsValue. revert acc.
  induction l as [|c r IH]; intros acc.
  - simpl. lia.
  - cbn [fold_left List.length]. rewrite IH, (IH (10 * 0 + digitValue c)).
    rewrite Nat2Z.inj_succ, Z.pow_succ_r by lia. ring.
Qed.

Lemma digitsValue_app (a b : jsstring) :
  digitsValue (a ++ b)
  = digitsValue a * 10 ^ Z.of_nat (List.length b) + digitsValue b.
Proof.
  unfold digitsValue at 1. rewrite fold_left_app.
  fold (digitsValue a). apply digitsValue_acc.
Qed.

Lemma digitsValue_zeros (n : Z) : digitsValue (zeros n) = 0.
Proof.
  unfold zeros. induction (Z.to_nat n) as [|k IH]; [reflexivity|].
  cbn [repeat]. change (48%N :: repeat 48%N k) with ([48%N] ++ repeat 48%N k).
  rewrite digitsValue_app, IH. reflexivity.
Qed.

Lemma zeros_digits (n : Z) : forallb isDigit (zeros n) = true.
Proof.
  unfold zeros. induction (Z.to_nat n) as [|k IH]; [reflexivity|].
  cbn [repeat forallb]. now rewrite IH.
Qed.

Lemma zeros_length (n : Z) : 0 <= n -> Z.of_nat (List.length (zeros n)) = n.
Proof. intros H. unfold zeros. rewrite repeat_length. lia. Qed.

Lemma of_uint_acc_units (d : Decimal.uint) :
  forall acc : positive,
    fold_left (fun a c => 10 * a + digitValue c) (uint_units d) (Zpos acc)
    = Zpos (Pos.of_uint_acc d acc).
Proof.
  induction d; intros acc; cbn [uint_units fold_left Pos.of_uint_acc];
    try reflexivity;
    match goal with
    | |- fold_left _ _ ?z = _ =>
      let z' := eval cbv [digitValue] in z in
      change z with z'
    end;
    rewrite <- IHd; f_equal; lia.
Qed.

Lemma of_uint_units (d : Decimal.uint) :
  digitsValue (uint_units d) = Z.of_N (Pos.of_uint d).
Proof.
  unfold digitsValue.
  induction d; cbn [uint_units fold_left Pos.of_uint]; try reflexivity;
    try exact IHd;
    match goal with
    | |- fold_left _ _ ?z = _ =>
      let z' := eval vm_compute in z in
      change z with z'
    end;
    cbn [Z.of_N]; apply of_uint_acc_units.
Qed.

Lemma digitsValue_decimalDigits (z : Z) :
  0 <= z -> digitsValue (decimalDigits z) = z.
Proof.
  intros H. unfold decimalDigits. rewrite of_uint_units.
  change (Pos.of_uint (N.to_uint (Z.to_N z)))
    with (N.of_uint (N.to_uint (Z.to_N z))).
  rewrite DecimalN.Unsigned.of_to. lia.
Qed.

Lemma decimalDigits_digits (z : Z) :
  forallb isDigit (decimalDigits z) = true.
Proof. apply uint_units_digits. Qed.

Lemma nzhead_head (d : Decimal.uint) :
  match Decimal.nzhead d with Decimal.D0 _ => False | _ => True end.
Proof. induction d; simpl; auto. Qed.

(** The digits of a positive integer start with no zero. *)
Lemma decimalDigits_head (z : Z) :
  0 < z ->
  exists c r, decimalDigits z = c :: r /\ (c =? ch "0")%N = false.
Proof.
  intros H. unfold decimalDigits.
  destruct (Z.to_N z) as [|p] eqn:E; [lia|].
  cbn [N.to_uint].
  pose proof (DecimalPos.Unsigned.to_of (Pos.to_uint p)) as Hn.
  rewrite DecimalPos.Unsigned.of_to in Hn. cbn [N.to_uint] in Hn.
  pose proof (DecimalPos.Unsigned.to_uint_nonzero p) as Hz.
  pose proof (nzhead_head (Pos.to_uint p)) as Hh.
  unfold Decimal.unorm in Hn.
  destruct (Decimal.nzhead (Pos.to_uint p)) eqn:Enz;
    try contradiction; rewrite Hn; try (now elim Hz);
    cbn [uint_units]; eexists _, _; split; reflexivity.
Qed.

End DecimalDigits.

Section FloatFacts.

Lemma eqb_true_finite (y x : number) s m e :
  Prim2SF x = S754_finite s m e ->
  PrimFloat.eqb y x = true -> y = x.
Proof.
  intros Hx. rewrite FloatAxioms.eqb_spec, Hx. unfold SFeqb.
  intros H. apply Prim2SF_inj. rewrite Hx.
  destruct (Prim2SF y) as [s'|s'| |s' m' e']; simpl in H;
    try discriminate; try (destruct s'; discriminate);
    try (destruct s; discriminate).
  destruct s', s; try discriminate;
    destruct (e' ?= e) eqn:Ee; try discriminate;
    apply Z.compare_eq in Ee; subst e';
    destruct (Pos.compare_cont Eq m' m) eqn:Em; try discriminate;
    apply Pos.compare_eq in Em; now subst m'.
Qed.

Lemma eqb_finite_refl (x : number) s m e :
  Prim2SF x = S754_finite s m e -> PrimFloat.eqb x x = true.
Proof.
  intros Hx. rewrite FloatAxioms.eqb_spec. unfold SFeqb.
  rewrite SFcompare_refl; [reflexivity|]. now rewrite Hx.
Qed.

Lemma opp_opp (x : number) : PrimFloat.opp (PrimFloat.opp x) = x.
Proof.
  apply Prim2SF_inj. rewrite !opp_spec.
  destruct (Prim2SF x) as [s|s| |s m e]; simpl; now rewrite ?negb_involutive.
Qed.

(** A finite number is a zero or has a mantissa and an exponent. *)
Lemma is_finite_spec (x : number) :
  PrimFloat.is_finite x
  = match Prim2SF x with
    | S754_zero _ | S754_finite _ _ _ => true
    | _ => false
    end.
Proof.
  unfold PrimFloat.is_finite, PrimFloat.is_infinity.
  fold (isNaN x). rewrite isNaN_spec.
  rewrite FloatAxioms.eqb_spec, abs_spec.
  destruct (Prim2SF x) as [s|s| |s m e]; reflexivity.
Qed.

Lemma mantissa_bound (m : positive) (e : Z) :
  bounded prec emax m e = true -> Z.log2 (Zpos m) <= 52.
Proof.
  unfold bounded, canonical_mantissa, fexp. intros H.
  apply andb_true_iff in H as [H _]. apply Z.eqb_eq in H.
  rewrite digits2_log2 in H. unfold prec in H. lia.
Qed.

Lemma finite_bounded (x : number) s m e :
  Prim2SF x = S754_finite s m e -> bounded prec emax m e = true.
Proof.
  intros Hx. pose proof (Prim2SF_valid x) as H. now rewrite Hx in H.
Qed.

End FloatFacts.

(* ================================================================== *)
(** * The decimal text of a number and what is read back *)
(* ================================================================== *)

Section ExactDecimal.
Import JSON.

Lemma pow2_split (m f sh a : Z) :
  0 <= a <= sh -> m * f * 2 ^ sh = m * 2 ^ (sh - a) * (f * 2 ^ a).
Proof.
  intros H. replace sh with ((sh - a) + a) at 1 by lia.
  rewrite Z.pow_add_r by lia. ring.
Qed.

Lemma pow2_double (m j : Z) :
  0 <= j -> 2 * (m * 2 ^ j) = m * 2 ^ (j + 1).
Proof.
  intros H. rewrite Z.pow_add_r, Z.pow_1_r by lia.
  generalize (2 ^ j). intros z. lia.
Qed.

Lemma binary_normalize_exact (m : positive) (e M E : Z) :
  bounded prec emax m e = true ->
  E <= e -> M = Zpos m * 2 ^ (e - E) ->
  binary_normalize prec emax M E false = S754_finite false m e.
Proof.
  intros Hb HE HM.
  assert (0 < M) by (subst M; apply Z.mul_pos_pos; [lia|];
                     apply Z.pow_pos_nonneg; lia).
  destruct M as [|M|M]; try lia. cbn [binary_normalize].
  apply binary_round_exact; [exact Hb|]. left. now split.
Qed.

(** An integer that is a binary64 number is read as that number. *)
Lemma roundDecimal_exact_integer (x : number) (m : positive) (e : Z) :
  Prim2SF x = S754_finite false m e -> 0 <= e ->
  roundDecimal (Zpos m * 2 ^ e) 0 = x.
Proof.
  intros Hx He. unfold roundDecimal. cbn [Z.ltb Z.compare].
  rewrite (binary_normalize_exact m e _ 0 (finite_bounded _ _ _ _ Hx));
    [|lia|rewrite Z.sub_0_r; simpl; lia].
  rewrite <- Hx. apply SF2Prim_Prim2SF.
Qed.

(** The exact decimal expansion of a binary64 number that is no integer
    is read as that number. *)
Lemma roundDecimal_exact_fraction (x : number) (m : positive) (e : Z) :
  Prim2SF x = S754_finite false m e -> e < 0 ->
  roundDecimal (Zpos m * 5 ^ (- e)) e = x.
Proof.
  intros Hx He. pose proof (finite_bounded _ _ _ _ Hx) as Hb.
  pose proof (mantissa_bound _ _ Hb) as Hm.
  unfold roundDecimal. replace (e <? 0) with true by (symmetry; lia).
  set (a := - e). assert (Ha : 0 < a) by (unfold a; lia).
  assert (H5 : 0 < 5 ^ a) by (apply Z.pow_pos_nonneg; lia).
  assert (H10 : 10 ^ a = 5 ^ a * 2 ^ a)
    by (rewrite <- Z.pow_mul_l; reflexivity).
  assert (Hl10 : Z.log2 (10 ^ a) = a + Z.log2 (5 ^ a))
    by (rewrite H10; apply Z.log2_mul_pow2; lia).
  assert (Hls : Z.log2 (Zpos m * 5 ^ a) <= Z.log2 (Zpos m) + Z.log2 (5 ^ a) + 1)
    by (apply Z.log2_mul_above; lia).
  set (sh := Z.max 0 (64 + Z.log2 (10 ^ a) - Z.log2 (Zpos m * 5 ^ a))).
  assert (Hsh : a <= sh) by (unfold sh; lia).
  assert (Hs : Z.shiftl (Zpos m * 5 ^ a) sh
               = Zpos m * 2 ^ (sh - a) * 10 ^ a).
  { rewrite Z.shiftl_mul_pow2 by lia. rewrite H10.
    apply pow2_split; lia. }
  assert (H10' : 10 ^ a <> 0) by lia.
  rewrite Hs, Z.div_mul, Z.mod_mul by exact H10'.
  cbn [Z.eqb]. rewrite Z.add_0_r.
  rewrite (binary_normalize_exact m e _ _ Hb).
  - rewrite <- Hx. apply SF2Prim_Prim2SF.
  - lia.
  - replace (e - - (sh + 1)) with ((sh - a) + 1) by (unfold a; lia).
    apply pow2_double; lia.
Qed.

(** The exact decimal expansion meets the defining condition of the
    digits of a number. *)
Lemma exactDigits_denotes (x : number) (m : positive) (e : Z) :
  Prim2SF x = S754_finite false m e ->
  denotes x (fst (exactDigits x)) (snd (exactDigits x)) = true.
Proof.
  intros Hx. unfold exactDigits. rewrite Hx. cbn [fst snd].
  set (s := if 0 <=? e then Zpos m * 2 ^ e else Zpos m * 5 ^ (- e)).
  assert (Hs : 0 < s).
  { unfold s. destruct (0 <=? e) eqn:E;
      (apply Z.mul_pos_pos; [lia|]; apply Z.pow_pos_nonneg; lia). }
  unfold denotes.
  destruct (decimalDigits_head s Hs) as (c & r & Ed & Hc).
  rewrite Ed at 1. rewrite Hc. cbn [negb andb].
  rewrite decimalDigits_digits. cbn [andb].
  rewrite digitsValue_decimalDigits by lia.
  replace (Z.of_nat (List.length (decimalDigits s)) + Z.min e 0
           - Z.of_nat (List.length (decimalDigits s)))
    with (Z.min e 0) by lia.
  unfold s. destruct (0 <=? e) eqn:E.
  - apply Z.leb_le in E. rewrite Z.min_r by lia.
    rewrite (roundDecimal_exact_integer x m e Hx E).
    now apply (eqb_finite_refl x false m e).
  - apply Z.leb_gt in E. rewrite Z.min_l by lia.
    rewrite (roundDecimal_exact_fraction x m e Hx E).
    now apply (eqb_finite_refl x false m e).
Qed.

(** The digits [Number::toString] writes a positive finite number with
    meet their defining condition. *)
Lemma shortestDigits_denotes (x : number) (m : positive) (e : Z) :
  Prim2SF x = S754_finite false m e ->
  denotes x (fst (shortestDigits x)) (snd (shortestDigits x)) = true.
Proof.
  intros Hx. unfold shortestDigits.
  destruct (fraction x) as [num den].
  destruct (shortestDigits_from 17 x num den (decimalExponent num den) 1)
    as [s n'].
  destruct (denotes x (decimalDigits s) n') eqn:Ed; [exact Ed|].
  now apply (exactDigits_denotes x m e).
Qed.

End ExactDecimal.

Section NumberText.
Import JSON Spec.

Lemma readNumber_minus (u : jsstring) :
  readNumber (ch "-" :: u) = readUnsigned true u.
Proof. reflexivity. Qed.

Lemma readNumber_digit (c : N) (u : jsstring) :
  isDigit c = true -> readNumber (c :: u) = readUnsigned false (c :: u).
Proof.
  intros H. unfold readNumber.
  replace (c =? ch "-")%N with false; [reflexivity|].
  symmetry. apply N.eqb_neq. apply isDigit_range in H.
  change (ch "-") with 45%N. lia.
Qed.

Lemma readExponent_part (ex : jsstring) (e : Z) :
  exponentPart ex e -> readExponent ex = Some e.
Proof.
  intros [[-> ->] | (sign & ds & -> & Hne & Hd & Hs)]; [reflexivity|].
  unfold readExponent.
  change ((ch "e" =? ch "e") || (ch "e" =? ch "E"))%N with true. cbv iota.
  destruct Hs as [[-> ->] | [-> ->]].
  - change (ch "-" =? ch "-")%N with true. cbv iota.
    destruct ds; [congruence|]. now rewrite Hd.
  - change (ch "+" =? ch "-")%N with false.
    change (ch "+" =? ch "+")%N with true. cbv iota.
    destruct ds; [congruence|]. now rewrite Hd.
Qed.

Lemma exponentPart_stop (ex : jsstring) (e : Z) :
  exponentPart ex e ->
  ex = [] \/ exists r, ex = ch "e" :: r.
Proof.
  intros [[-> _] | (sign & ds & -> & _)]; [now left | right; eauto].
Qed.

(** How [readNumber] reads an integer part, a fraction and an exponent
    part. *)
Lemma readUnsigned_parts (neg : bool) (d : N) (ip' fp ex : jsstring)
  (e : Z) :
  forallb isDigit (d :: ip') = true ->
  (d =? ch "0")%N = false \/ ip' = [] ->
  forallb isDigit fp = true ->
  exponentPart ex e ->
  readUnsigned neg
    ((d :: ip') ++ (match fp with [] => [] | _ => ch "." :: fp end) ++ ex)
  = Some (decimalNumber neg ((d :: ip') ++ fp)
            (e - Z.of_nat (List.length fp))).
Proof.
  intros Hip Hz Hfp Hex.
  pose proof (readExponent_part _ _ Hex) as Hre.
  assert (Hzero : (d =? ch "0")%N
                  && negb (match ip' with [] => true | _ => false end)
                  = false).
  { destruct Hz as [-> | ->]; [reflexivity | apply andb_false_r]. }
  unfold readUnsigned.
  destruct fp as [|f fp'].
  - rewrite List.app_nil_r. cbn [app List.length Z.of_nat]. rewrite Z.sub_0_r.
    destruct (exponentPart_stop _ _ Hex) as [-> | [r ->]].
    + rewrite List.app_nil_r. rewrite (takeWhile_all _ _ Hip),
        (dropWhile_all _ _ Hip). rewrite Hzero.
      destruct Hex as [[_ ->] | (sign & ds & E & _)];
        [reflexivity | discriminate E].
    + change (d :: ip' ++ ch "e" :: r) with ((d :: ip') ++ ch "e" :: r).
      rewrite (takeWhile_app_stop isDigit _ (ch "e") r Hip eq_refl),
        (dropWhile_app_stop isDigit _ (ch "e") r Hip eq_refl).
      rewrite Hzero.
      change (ch "e" =? ch ".")%N with false. cbv iota.
      now rewrite Hre.
  - change ((d :: ip') ++ (ch "." :: f :: fp') ++ ex)
      with ((d :: ip') ++ ch "." :: ((f :: fp') ++ ex)).
    rewrite (takeWhile_app_stop isDigit _ (ch ".") _ Hip eq_refl),
      (dropWhile_app_stop isDigit _ (ch ".") _ Hip eq_refl).
    rewrite Hzero.
    change (ch "." =? ch ".")%N with true. cbv iota.
    assert (Htk : takeWhile isDigit ((f :: fp') ++ ex) = f :: fp'
                  /\ dropWhile isDigit ((f :: fp') ++ ex) = ex).
    { destruct (exponentPart_stop _ _ Hex) as [-> | [r ->]].
      - rewrite List.app_nil_r. split;
          [now apply takeWhile_all | now apply dropWhile_all].
      - split; [now apply (takeWhile_app_stop isDigit _ (ch "e"))
               | now apply (dropWhile_app_stop isDigit _ (ch "e"))]. }
    destruct Htk as [-> ->]. now rewrite Hre.
Qed.

Lemma roundDecimal_scale (v j : Z) :
  0 <= j -> roundDecimal (v * 10 ^ j) 0 = roundDecimal v j.
Proof.
  intros H. unfold roundDecimal.
  replace (j <? 0) with false by (symmetry; lia).
  cbn [Z.ltb Z.compare]. now rewrite Z.pow_0_r, Z.mul_1_r.
Qed.

Lemma isDigit_numberUnit (l : jsstring) :
  forallb isDigit l = true -> forallb isNumberUnit l = true.
Proof.
  induction l as [|c r IH]; [reflexivity|]. cbn [forallb].
  intros H. apply andb_true_iff in H as [Hc Hr].
  unfold isNumberUnit at 1. now rewrite Hc, IH.
Qed.

Lemma forallb_firstn {A} (f : A -> bool) (n : nat) (l : list A) :
  forallb f l = true -> forallb f (firstn n l) = true.
Proof.
  revert n. induction l as [|a r IH]; intros [|n] H; try reflexivity.
  cbn [firstn forallb] in *. apply andb_true_iff in H as [Ha Hr].
  now rewrite Ha, IH.
Qed.

Lemma forallb_skipn {A} (f : A -> bool) (n : nat) (l : list A) :
  forallb f l = true -> forallb f (skipn n l) = true.
Proof.
  revert n. induction l as [|a r IH]; intros [|n] H; try reflexivity;
    [exact H|].
  cbn [skipn forallb] in *. apply andb_true_iff in H as [Ha Hr]. now apply IH.
Qed.

Lemma decimalNumber_value (neg : bool) (digits : jsstring) (e10 : Z)
  (x : number) :
  roundDecimal (digitsValue digits) e10 = x ->
  decimalNumber neg digits e10 = if neg then PrimFloat.opp x else x.
Proof. intros <-. reflexivity. Qed.

(** The exponent part [Number::toString] writes. *)
Lemma exponentPart_written (e : Z) :
  e <> 0 ->
  exponentPart
    (js "e" ++ (if e <? 0 then js "-" else js "+")
     ++ decimalDigits (Z.abs e)) e
  /\ forallb isNumberUnit
       (js "e" ++ (if e <? 0 then js "-" else js "+")
        ++ decimalDigits (Z.abs e)) = true.
Proof.
  intros He.
  destruct (decimalDigits_head (Z.abs e)) as (c & r & Ed & _); [lia|].
  pose proof (decimalDigits_digits (Z.abs e)) as Hd.
  pose proof (digitsValue_decimalDigits (Z.abs e)) as Hv.
  split.
  - right. exists (if e <? 0 then ch "-" else ch "+"), (decimalDigits (Z.abs e)).
    split; [now destruct (e <? 0)|].
    split; [rewrite Ed; discriminate|]. split; [exact Hd|].
    rewrite Hv by lia.
    destruct (e <? 0) eqn:E; [left | right]; split; try reflexivity; lia.
  - change (js "e") with [ch "e"]. cbn [app forallb].
    change (isNumberUnit (ch "e")) with true. cbn [andb].
    rewrite forallb_app, (isDigit_numberUnit _ Hd).
    now destruct (e <? 0).
Qed.

(** What [Number::toString] writes for a positive finite number is a
    JSON number that starts with a digit and is read back as that
    number, and as its opposite after a minus sign. *)
Lemma Number_toString_positive_reads (x : number) (m : positive) (e : Z) :
  Prim2SF x = S754_finite false m e ->
  exists d u,
    Number_toString_positive x = d :: u
    /\ isDigit d = true
    /\ forallb isNumberUnit (d :: u) = true
    /\ forall neg,
         readUnsigned neg (d :: u)
         = Some (if neg then PrimFloat.opp x else x).
Proof.
  intros Hx. pose proof (shortestDigits_denotes x m e Hx) as Hden.
  unfold Number_toString_positive.
  destruct (shortestDigits x) as [ds n]. cbn [fst snd] in Hden.
  unfold denotes in Hden.
  apply andb_true_iff in Hden as [Hden Heq].
  apply andb_true_iff in Hden as [Hhead Hdig].
  destruct ds as [|d0 r0]; [discriminate|].
  apply negb_true_iff in Hhead.
  apply (eqb_true_finite _ x false m e Hx) in Heq.
  pose proof Hdig as Hdig'. cbn [forallb] in Hdig'.
  apply andb_true_iff in Hdig' as [Hd0 Hr0].
  set (ds := d0 :: r0) in *.
  set (k := Z.of_nat (List.length ds)) in *.
  assert (Hk : k = Z.of_nat (List.length r0) + 1)
    by (unfold k, ds; cbn [List.length]; lia).
  destruct ((k <=? n) && (n <=? 21)) eqn:F1.
  { (* digits and zeros *)
    apply andb_true_iff in F1 as [F1 _]. apply Z.leb_le in F1.
    exists d0, (r0 ++ zeros (n - k)).
    split; [reflexivity|]. split; [exact Hd0|].
    assert (Hall : forallb isDigit (d0 :: r0 ++ zeros (n - k)) = true).
    { change (d0 :: r0 ++ zeros (n - k)) with (ds ++ zeros (n - k)).
      now rewrite forallb_app, Hdig, zeros_digits. }
    split; [now apply isDigit_numberUnit|].
    intros neg.
    pose proof (readUnsigned_parts neg d0 (r0 ++ zeros (n - k)) [] [] 0
                  Hall (or_introl Hhead) eq_refl
                  (or_introl (conj eq_refl eq_refl))) as H.
    cbn [app] in H. rewrite !List.app_nil_r in H. rewrite H.
    f_equal. apply decimalNumber_value.
    change (d0 :: r0 ++ zeros (n - k)) with (ds ++ zeros (n - k)).
    rewrite digitsValue_app, digitsValue_zeros, zeros_length by lia.
    cbn [List.length Z.of_nat]. rewrite Z.add_0_r, Z.sub_0_r.
    rewrite roundDecimal_scale by lia. exact Heq. }
  destruct ((0 <? n) && (n <=? 21)) eqn:F2.
  { (* digits, a point, digits *)
    apply andb_true_iff in F2 as [F2 F2']. apply Z.ltb_lt in F2.
    assert (Hnk : n < k).
    { apply andb_false_iff in F1 as [F1 | F1]; lia. }
    destruct (Z.to_nat n) as [|n'] eqn:En; [lia|].
    unfold ds at 1. cbn [firstn].
    exists d0, (firstn n' r0 ++ js "." ++ skipn (S n') ds).
    split; [reflexivity|]. split; [exact Hd0|].
    assert (Hfp : forallb isDigit (skipn (S n') ds) = true)
      by now apply forallb_skipn.
    assert (Hip : forallb isDigit (d0 :: firstn n' r0) = true).
    { cbn [forallb]. now rewrite Hd0, forallb_firstn. }
    assert (Hlen : Z.of_nat (List.length (skipn (S n') ds)) = k - n).
    { rewrite length_skipn. unfold k. lia. }
    split.
    { cbn [forallb]. unfold isNumberUnit at 1. rewrite Hd0. cbn [orb andb].
      rewrite !forallb_app.
      rewrite (isDigit_numberUnit _ (forallb_firstn _ n' _ Hr0)),
        (isDigit_numberUnit _ Hfp). reflexivity. }
    intros neg.
    pose proof (readUnsigned_parts neg d0 (firstn n' r0) (skipn (S n') ds)
                  [] 0 Hip (or_introl Hhead) Hfp
                  (or_introl (conj eq_refl eq_refl))) as H.
    destruct (skipn (S n') ds) as [|f fp'] eqn:Efp;
      [cbn [List.length] in Hlen; lia|].
    rewrite List.app_nil_r in H.
    change (js ".") with [ch "."].
    change (d0 :: firstn n' r0 ++ [ch "."] ++ f :: fp')
      with ((d0 :: firstn n' r0) ++ ch "." :: f :: fp').
    rewrite H. f_equal. apply decimalNumber_value.
    replace ((d0 :: firstn n' r0) ++ f :: fp') with ds.
    - replace (0 - Z.of_nat (List.length (f :: fp'))) with (n - k) by lia.
      exact Heq.
    - rewrite <- Efp. change (d0 :: firstn n' r0) with (firstn (S n') ds).
      symmetry. apply firstn_skipn. }
  destruct ((-6 <? n) && (n <=? 0)) eqn:F3.
  { (* a zero, a point, zeros and the digits *)
    apply andb_true_iff in F3 as [_ F3]. apply Z.leb_le in F3.
    exists (ch "0"), (js "." ++ zeros (- n) ++ ds).
    split; [reflexivity|]. split; [reflexivity|].
    assert (Hfp : forallb isDigit (zeros (- n) ++ ds) = true)
      by now rewrite forallb_app, zeros_digits, Hdig.
    split.
    { change (ch "0" :: js "." ++ zeros (- n) ++ ds)
        with ([ch "0"; ch "."] ++ zeros (- n) ++ ds).
      rewrite forallb_app, (isDigit_numberUnit _ Hfp). reflexivity. }
    intros neg.
    pose proof (readUnsigned_parts neg (ch "0") [] (zeros (- n) ++ ds)
                  [] 0 eq_refl (or_intror eq_refl) Hfp
                  (or_introl (conj eq_refl eq_refl))) as H.
    destruct (zeros (- n) ++ ds) as [|f fp'] eqn:Efp.
    { apply app_eq_nil in Efp as [_ Efp]. discriminate Efp. }
    rewrite List.app_nil_r in H.
    change (ch "0" :: js "." ++ f :: fp')
      with ([ch "0"] ++ ch "." :: f :: fp').
    rewrite H. f_equal. apply decimalNumber_value.
    rewrite <- Efp.
    rewrite digitsValue_app, (digitsValue_app (zeros (- n)) ds),
      digitsValue_zeros.
    change (digitsValue [ch "0"]) with 0.
    rewrite !Z.mul_0_l, !Z.add_0_l.
    replace (0 - Z.of_nat (List.length (zeros (- n) ++ ds))) with (n - k).
    - exact Heq.
    - rewrite length_app, Nat2Z.inj_add, zeros_length by lia.
      fold k. lia. }
  (* the exponent notation *)
  assert (He : n - 1 <> 0).
  { apply andb_false_iff in F2 as [F2 | F2];
      apply andb_false_iff in F3 as [F3 | F3];
      apply andb_false_iff in F1 as [F1 | F1]; lia. }
  destruct (exponentPart_written (n - 1) He) as [Hex Hexu].
  set (exponent := js "e" ++ (if n - 1 <? 0 then js "-" else js "+")
                   ++ decimalDigits (Z.abs (n - 1))) in *.
  destruct r0 as [|f r'].
  - exists d0, exponent. split; [reflexivity|]. split; [exact Hd0|].
    split.
    { cbn [forallb]. unfold isNumberUnit at 1. rewrite Hd0. exact Hexu. }
    intros neg.
    pose proof (readUnsigned_parts neg d0 [] [] exponent (n - 1)
                  Hdig (or_introl Hhead) eq_refl Hex) as H.
    cbn [app] in H. rewrite H. f_equal. apply decimalNumber_value.
    cbn [List.length Z.of_nat]. fold ds.
    cbn [List.length Z.of_nat] in Hk.
    replace (n - 1 - 0) with (n - k) by lia. exact Heq.
  - exists d0, (js "." ++ (f :: r') ++ exponent).
    split; [reflexivity|]. split; [exact Hd0|].
    split.
    { cbn [forallb]. unfold isNumberUnit at 1. rewrite Hd0. cbn [orb andb].
      change (js ".") with [ch "."]. rewrite !forallb_app.
      rewrite (isDigit_numberUnit _ Hr0), Hexu. reflexivity. }
    intros neg.
    pose proof (readUnsigned_parts neg d0 [] (f :: r') exponent (n - 1)
                  (proj2 (andb_true_iff _ _) (conj Hd0 eq_refl))
                  (or_introl Hhead) Hr0 Hex) as H.
    refine (eq_trans H _). f_equal. apply decimalNumber_value.
    change ([d0] ++ f :: r') with ds.
    replace (n - 1 - Z.of_nat (List.length (f :: r'))) with (n - k) by lia.
    exact Heq.
Qed.

Lemma Leibniz_eqb_refl (x : number) : PrimFloat.Leibniz.eqb x x = true.
Proof.
  now apply FloatAxioms.Leibniz.eqb_spec.
Qed.

Lemma Number_toString_finite (x : number) (s : bool) (m : positive) (e : Z) :
  Prim2SF x = S754_finite s m e ->
  Number_toString x
  = if s then js "-" ++ Number_toString_positive (PrimFloat.opp x)
    else Number_toString_positive x.
Proof.
  intros Hx. unfold Number_toString, PrimFloat.is_infinity.
  rewrite isNaN_spec, !FloatAxioms.eqb_spec, ltb_spec, abs_spec, Hx.
  rewrite Prim2SF_zero.
  destruct s; reflexivity.
Qed.

(** Every finite number other than negative zero is written in decimal
    and read back as itself. *)
Lemma readsBack_plain (x : number) :
  plainNumber x = true -> readsBack x = true.
Proof.
  unfold plainNumber. intros H. apply andb_true_iff in H as [Hfin Hnz].
  apply negb_true_iff in Hnz.
  unfold readsBack. rewrite Hfin. cbn [andb].
  rewrite is_finite_spec in Hfin.
  destruct (Prim2SF x) as [s|s| |s m e] eqn:Hx; try discriminate.
  - destruct s.
    + assert (x = PrimFloat.neg_zero) by (apply Prim2SF_inj; now rewrite Hx).
      subst x. discriminate Hnz.
    + assert (x = 0%float) by (apply Prim2SF_inj; now rewrite Hx).
      subst x. reflexivity.
  - rewrite (Number_toString_finite x s m e Hx).
    destruct s.
    + assert (Ho : Prim2SF (PrimFloat.opp x) = S754_finite false m e)
        by (rewrite opp_spec, Hx; reflexivity).
      destruct (Number_toString_positive_reads _ m e Ho)
        as (d & u & -> & Hd & Hu & Hread).
      change (js "-" ++ d :: u) with (ch "-" :: d :: u).
      rewrite readNumber_minus, (Hread true), opp_opp, Leibniz_eqb_refl.
      cbn [forallb]. change (isNumberUnit (ch "-")) with true.
      cbn [forallb] in Hu. now rewrite Hu.
    + destruct (Number_toString_positive_reads _ m e Hx)
        as (d & u & -> & Hd & Hu & Hread).
      rewrite (readNumber_digit d u Hd), (Hread false), Leibniz_eqb_refl.
      now rewrite Hu.
Qed.

End NumberText.

(* ================================================================== *)
(** * Import after export, for every dataset *)
(* ================================================================== *)

Section ExportImportAll.
Import Data JSON Storage Spec.

Lemma eqb_zero_cases (x : number) :
  PrimFloat.eqb x 0 = true -> x = 0%float \/ x = PrimFloat.neg_zero.
Proof.
  rewrite FloatAxioms.eqb_spec, Prim2SF_zero. unfold SFeqb.
  destruct (Prim2SF x) as [s|s| |s m e] eqn:Hx; simpl;
    try discriminate; try (destruct s; discriminate).
  intros _. destruct s; [right | left]; apply Prim2SF_inj; now rewrite Hx.
Qed.

Lemma plainNumber_eqb_zero (x : number) :
  plainNumber x = true ->
  (if PrimFloat.eqb x 0 then 0%float else x) = x.
Proof.
  unfold plainNumber. intros H. apply andb_true_iff in H as [_ H].
  apply negb_true_iff in H.
  destruct (PrimFloat.eqb x 0) eqn:E; [|reflexivity].
  destruct (eqb_zero_cases x E) as [-> | ->]; [reflexivity | discriminate H].
Qed.

(** The number JSON text holds for a finite number is plain. *)
Lemma plainNumber_written (x : number) :
  PrimFloat.is_finite x = true ->
  plainNumber (if PrimFloat.eqb x 0 then 0%float else x) = true.
Proof.
  intros Hf. destruct (PrimFloat.eqb x 0) eqn:E; [reflexivity|].
  unfold plainNumber. rewrite Hf. cbn [andb]. apply negb_true_iff.
  destruct (PrimFloat.Leibniz.eqb x PrimFloat.neg_zero) eqn:E';
    [|reflexivity].
  apply FloatAxioms.Leibniz.eqb_spec in E'. subst x. discriminate E.
Qed.

Lemma readsBack_iff_plain (x : number) : readsBack x = plainNumber x.
Proof.
  destruct (plainNumber x) eqn:Hp; [now apply readsBack_plain|].
  unfold plainNumber in Hp. unfold readsBack.
  destruct (PrimFloat.is_finite x); [|reflexivity].
  cbn [andb] in Hp. apply negb_false_iff in Hp.
  apply FloatAxioms.Leibniz.eqb_spec in Hp. subst x. reflexivity.
Qed.

(** [JSON.stringify] writes a value as it writes the value with its
    numbers as the text holds them. *)
Lemma serialize_written (gap : jsstring) (v : value) :
  forall indent, serialize gap indent (written v) = serialize gap indent v.
Proof.
  induction v as [ | | b | x | s | items IH | props IH] using value_induction;
    intros indent; try reflexivity.
  - cbn [written]. unfold writtenNumber.
    destruct (PrimFloat.is_finite x) eqn:Hf; cbn [serialize];
      [|now rewrite Hf].
    rewrite Hf. destruct (PrimFloat.eqb x 0) eqn:E; [|now rewrite Hf].
    change (PrimFloat.is_finite 0) with true. cbv iota. f_equal.
    unfold Number_toString. rewrite E.
    unfold PrimFloat.is_finite in Hf. apply negb_true_iff in Hf.
    apply orb_false_iff in Hf as [Hn _]. unfold isNaN. now rewrite Hn.
  - cbn [written serialize]. f_equal. f_equal. rewrite map_map.
    apply map_ext_in. intros v Hv.
    rewrite Forall_forall in IH. now rewrite (IH v Hv).
  - cbn [written serialize]. f_equal. f_equal.
    induction props as [|p r IHr]; [reflexivity|].
    cbn [map flat_map fst snd].
    inversion IH as [|? ? Hp Hr]; subst.
    rewrite (IHr Hr). now rewrite Hp.
Qed.

Lemma jsonClean_written (v : value) :
  wellKeyed v = true -> jsonClean (written v) = true.
Proof.
  induction v as [ | | b | x | s | items IH | props IH] using value_induction;
    try (intros; assumption || reflexivity).
  - intros _. cbn [written]. unfold writtenNumber.
    destruct (PrimFloat.is_finite x) eqn:Hf; [|reflexivity].
    cbn [jsonClean]. apply readsBack_plain. now apply plainNumber_written.
  - cbn [wellKeyed written jsonClean]. intros H.
    rewrite forallb_forall in H. apply forallb_forall.
    intros w Hw. apply in_map_iff in Hw as (v & <- & Hv).
    rewrite Forall_forall in IH. apply IH; auto.
  - cbn [wellKeyed written jsonClean]. intros H.
    apply andb_true_iff in H as [H Hd].
    apply andb_true_iff in H as [Hv Hk].
    replace (map fst (map (fun p => (fst p, written (snd p))) props))
      with (map fst props)
      by (rewrite map_map; apply map_ext; reflexivity).
    rewrite Hk, Hd, !andb_true_r.
    rewrite forallb_forall in Hv. apply forallb_forall.
    intros q Hq. apply in_map_iff in Hq as (p & <- & Hp). cbn [snd].
    rewrite Forall_forall in IH. apply IH; auto.
Qed.

(** A clean value is written as it is. *)
Lemma written_clean (v : value) : jsonClean v = true -> written v = v.
Proof.
  induction v as [ | | b | x | s | items IH | props IH] using value_induction;
    try reflexivity.
  - cbn [jsonClean written]. rewrite readsBack_iff_plain. intros Hp.
    unfold writtenNumber. pose proof (plainNumber_eqb_zero x Hp) as Hz.
    unfold plainNumber in Hp. apply andb_true_iff in Hp as [-> _].
    f_equal. exact Hz.
  - cbn [jsonClean written]. intros H. f_equal.
    rewrite forallb_forall in H. rewrite Forall_forall in IH.
    rewrite <- (map_id items) at 2. apply map_ext_in. auto.
  - cbn [jsonClean written]. intros H.
    apply andb_true_iff in H as [H _]. apply andb_true_iff in H as [H _].
    f_equal. rewrite forallb_forall in H. rewrite Forall_forall in IH.
    rewrite <- (map_id props) at 2. apply map_ext_in.
    intros [k w] Hp. cbn [fst snd]. f_equal.
    apply (IH (k, w) Hp). apply (H _ Hp).
Qed.

Lemma wellKeyed_Transaction (t : Transaction number) :
  wellKeyed (Transaction_value t) = true.
Proof.
  destruct t as [i ty a c cat de da rate rec int].
  destruct ty, c, rate, rec, int; reflexivity.
Qed.

Lemma wellKeyed_Debt (d : Debt) : wellKeyed (Debt_value d) = true.
Proof.
  destruct d as [i nm ta pa c ir due mp].
  destruct c, ir, due, mp; reflexivity.
Qed.

Lemma wellKeyed_SavingsGoal (g : SavingsGoal) :
  wellKeyed (SavingsGoal_value g) = true.
Proof. destruct g as [i nm ta ca c dl]. destruct c, dl; reflexivity. Qed.

Lemma wellKeyed_UserSettings (u : UserSettings) :
  wellKeyed (UserSettings_value u) = true.
Proof. destruct u as [pc er auto mb]. destruct pc, mb; reflexivity. Qed.

Lemma wellKeyed_map {A} (f : A -> value) (l : list A) :
  (forall a, wellKeyed (f a) = true) -> forallb wellKeyed (map f l) = true.
Proof.
  intros H. apply forallb_forall. intros v Hv.
  apply in_map_iff in Hv as (a & <- & _). apply H.
Qed.

Lemma wellKeyed_AppData (d : AppData) : wellKeyed (AppData_value d) = true.
Proof.
  unfold AppData_value. cbn [wellKeyed forallb snd].
  rewrite (wellKeyed_map _ _ wellKeyed_Transaction),
    (wellKeyed_map _ _ wellKeyed_Debt),
    (wellKeyed_map _ _ wellKeyed_SavingsGoal), wellKeyed_UserSettings.
  reflexivity.
Qed.

Lemma forallb_readsBack_plain (l : list number) :
  forallb readsBack l = forallb plainNumber l.
Proof.
  induction l as [|x r IH]; [reflexivity|].
  cbn [forallb]. now rewrite readsBack_iff_plain, IH.
Qed.

(** What [importData] returns for the text [exportData] wrote. *)
Lemma importData_exportData_written (data : AppData) (store : LocalStorage) :
  importData (exportData data) store
  = (Some (written (AppData_value data)),
     saveData (written (AppData_value data)) store).
Proof.
  destruct (parse_stringify _ (jsonClean_written _ (wellKeyed_AppData data)))
    as (t & Ht & Hparse).
  unfold stringify in Ht. rewrite serialize_written in Ht.
  unfold importData, exportData. change (js "  ") with gap2.
  unfold stringify. rewrite Ht. cbn [text]. rewrite Hparse.
  destruct data as [ts ds gs [pc er auto mb]].
  unfold AppData_value, UserSettings_value.
  cbn [transactions debts savingsGoals settings written map fst snd app].
  reflexivity.
Qed.

(** A number that is written as itself is plain. *)
Lemma writtenNumber_same (x : number) :
  writtenNumber x = VNumber x -> plainNumber x = true.
Proof.
  unfold writtenNumber, plainNumber.
  destruct (PrimFloat.is_finite x); [|discriminate].
  intros [= H]. cbn [andb]. apply negb_true_iff.
  destruct (PrimFloat.Leibniz.eqb x PrimFloat.neg_zero) eqn:E;
    [|reflexivity].
  apply FloatAxioms.Leibniz.eqb_spec in E. subst x. discriminate H.
Qed.

Lemma field_number (p : list (jsstring * value)) key (x : number) :
  field p key asNumber = Some x -> lookup p key = Some (VNumber x).
Proof.
  unfold field. destruct (lookup p key) as [[]|]; cbn; try discriminate.
  now intros [= ->].
Qed.

Lemma optionalField_number (p : list (jsstring * value)) key
  (o : option number) :
  optionalField p key asNumber = Some o ->
  forall x, o = Some x -> lookup p key = Some (VNumber x).
Proof.
  unfold optionalField. intros H x ->.
  destruct (lookup p key) as [[]|]; cbn in H; try discriminate.
  now injection H as ->.
Qed.

Ltac invert_binds :=
  repeat match goal with
         | |- bind ?o _ = Some _ -> _ =>
           let E := fresh "E" in
           destruct o eqn:E; cbn [bind]; [|discriminate]
         end.

Lemma asTransaction_numbers (p : list (jsstring * value))
  (t : Transaction number) :
  asTransaction (VObject p) = Some t ->
  lookup p (js "amount") = Some (VNumber (amount t))
  /\ forall x, exchangeRateAtTime t = Some x ->
               lookup p (js "exchangeRateAtTime") = Some (VNumber x).
Proof.
  unfold asTransaction. cbn [asObject bind]. invert_binds.
  intros [= <-]. cbn [amount exchangeRateAtTime].
  split; [now apply field_number | now apply optionalField_number].
Qed.

Lemma asDebt_numbers (p : list (jsstring * value)) (d : Debt) :
  asDebt (VObject p) = Some d ->
  lookup p (js "totalAmount") = Some (VNumber (totalAmount d))
  /\ lookup p (js "paidAmount") = Some (VNumber (paidAmount d))
  /\ (forall x, interestRate d = Some x ->
                lookup p (js "interestRate") = Some (VNumber x))
  /\ (forall x, minimumPayment d = Some x ->
                lookup p (js "minimumPayment") = Some (VNumber x)).
Proof.
  unfold asDebt. cbn [asObject bind]. invert_binds.
  intros [= <-]. cbn [totalAmount paidAmount interestRate minimumPayment].
  repeat split; try (now apply field_number);
    now apply optionalField_number.
Qed.

Lemma asSavingsGoal_numbers (p : list (jsstring * value)) (g : SavingsGoal) :
  asSavingsGoal (VObject p) = Some g ->
  lookup p (js "targetAmount") = Some (VNumber (targetAmount g))
  /\ lookup p (js "currentAmount") = Some (VNumber (currentAmount g)).
Proof.
  unfold asSavingsGoal. cbn [asObject bind]. invert_binds.
  intros [= <-]. cbn [targetAmount currentAmount].
  split; now apply field_number.
Qed.

Lemma asUserSettings_numbers (p : list (jsstring * value))
  (u : UserSettings) :
  asUserSettings (VObject p) = Some u ->
  lookup p (js "exchangeRate") = Some (VNumber (exchangeRate u))
  /\ forall x, monthlyBudget u = Some x ->
               lookup p (js "monthlyBudget") = Some (VNumber x).
Proof.
  unfold asUserSettings. cbn [asObject bind]. invert_binds.
  intros [= <-]. cbn [exchangeRate monthlyBudget].
  split; [now apply field_number | now apply optionalField_number].
Qed.

(** Looking a literal key up in the properties of a written object. *)
Ltac find_key H :=
  cbn [optional map app fst snd written] in H;
  unfold lookup in H; cbn [find fst] in H;
  repeat match type of H with
         | context [eqb ?a ?b] =>
           let e := eval vm_compute in (eqb a b) in
           change (eqb a b) with e in H
         end;
  cbv iota in H.

Ltac same_number H :=
  apply writtenNumber_same; find_key H; now injection H.

(** A record whose written object reads as the record has plain
    numbers. *)
Lemma asTransaction_written (t : Transaction number) :
  asTransaction (written (Transaction_value t)) = Some t ->
  forallb plainNumber (amount t :: optionalNumber (exchangeRateAtTime t))
  = true.
Proof.
  unfold Transaction_value. cbn [written]. intros H.
  apply asTransaction_numbers in H as [Ha Hr].
  destruct t as [i ty a c cat de da rate rec int].
  cbn [id type amount currency category description date exchangeRateAtTime
       recurring recurringInterval] in *.
  assert (Pa : plainNumber a = true) by same_number Ha.
  cbn [forallb]. rewrite Pa. cbn [andb].
  destruct rate as [r|]; [|reflexivity].
  specialize (Hr r eq_refl). cbn [optionalNumber forallb].
  rewrite andb_true_r. same_number Hr.
Qed.

Lemma asDebt_written (d : Debt) :
  asDebt (written (Debt_value d)) = Some d ->
  forallb plainNumber (totalAmount d :: paidAmount d
                       :: optionalNumber (interestRate d)
                       ++ optionalNumber (minimumPayment d)) = true.
Proof.
  unfold Debt_value. cbn [written]. intros H.
  apply asDebt_numbers in H as (Ht & Hp & Hi & Hm).
  destruct d as [i nm ta pa c ir due mp].
  cbn [debt_id debt_name totalAmount paidAmount debt_currency interestRate
       dueDate minimumPayment] in *.
  assert (Pt : plainNumber ta = true) by same_number Ht.
  assert (Pp : plainNumber pa = true) by same_number Hp.
  cbn [forallb]. rewrite Pt, Pp. cbn [andb]. rewrite forallb_app.
  apply andb_true_iff. split.
  - destruct ir as [r|]; [|reflexivity]. specialize (Hi r eq_refl).
    cbn [optionalNumber forallb]. rewrite andb_true_r. same_number Hi.
  - destruct mp as [r|]; [|reflexivity]. specialize (Hm r eq_refl).
    cbn [optionalNumber forallb]. rewrite andb_true_r.
    destruct ir, due; same_number Hm.
Qed.

Lemma asSavingsGoal_written (g : SavingsGoal) :
  asSavingsGoal (written (SavingsGoal_value g)) = Some g ->
  forallb plainNumber [targetAmount g; currentAmount g] = true.
Proof.
  unfold SavingsGoal_value. cbn [written]. intros H.
  apply asSavingsGoal_numbers in H as (Ht & Hc).
  destruct g as [i nm ta ca c dl].
  cbn [goal_id goal_name targetAmount currentAmount goal_currency deadline]
    in *.
  assert (Pt : plainNumber ta = true) by same_number Ht.
  assert (Pc : plainNumber ca = true) by same_number Hc.
  cbn [forallb]. now rewrite Pt, Pc.
Qed.

Lemma asUserSettings_written (u : UserSettings) :
  asUserSettings (written (UserSettings_value u)) = Some u ->
  forallb plainNumber (exchangeRate u :: optionalNumber (monthlyBudget u))
  = true.
Proof.
  unfold UserSettings_value. cbn [written]. intros H.
  apply asUserSettings_numbers in H as (He & Hb).
  destruct u as [pc er auto mb].
  cbn [primaryCurrency exchangeRate autoExchangeRate monthlyBudget] in *.
  assert (Pe : plainNumber er = true) by same_number He.
  cbn [forallb]. rewrite Pe. cbn [andb].
  destruct mb as [r|]; [|reflexivity]. specialize (Hb r eq_refl).
  cbn [optionalNumber forallb]. rewrite andb_true_r. same_number Hb.
Qed.

Lemma asArray_written {A} (read : value -> option A) (f : A -> value)
  (numbers : A -> list number) (l : list A) :
  (forall a, read (written (f a)) = Some a ->
             forallb plainNumber (numbers a) = true) ->
  asArray read (map written (map f l)) = Some l ->
  forallb plainNumber (flat_map numbers l) = true.
Proof.
  intros Hf. induction l as [|a r IH]; [reflexivity|].
  cbn [map asArray flat_map].
  destruct (read (written (f a))) as [a'|] eqn:Ea; cbn [bind];
    [|discriminate].
  destruct (asArray read (map written (map f r))) as [r'|] eqn:Er;
    cbn [bind]; [|discriminate].
  intros [= -> ->]. rewrite forallb_app, (Hf a Ea), (IH eq_refl).
  reflexivity.
Qed.

(** The written object of a dataset reads as the dataset only if the
    numbers of the dataset are plain. *)
Lemma asAppData_written (d : AppData) :
  asAppData (written (AppData_value d)) = Some d ->
  forallb plainNumber (AppData_numbers d) = true.
Proof.
  destruct d as [ts ds gs st].
  unfold asAppData, AppData_value, field, AppData_numbers.
  cbn [transactions debts savingsGoals settings written map fst snd
       asObject bind].
  unfold lookup. cbn [find fst].
  repeat match goal with
         | |- context [eqb ?a ?b] =>
           let e := eval vm_compute in (eqb a b) in
           change (eqb a b) with e
         end.
  cbv iota. cbn [bind asArrayOf].
  destruct (asArray asTransaction _) as [ts'|] eqn:Et; cbn [bind];
    [|discriminate].
  destruct (asArray asDebt _) as [ds'|] eqn:Ed; cbn [bind]; [|discriminate].
  destruct (asArray asSavingsGoal _) as [gs'|] eqn:Eg; cbn [bind];
    [|discriminate].
  destruct (asUserSettings _) as [st'|] eqn:Es; cbn [bind]; [|discriminate].
  intros [= -> -> -> ->].
  rewrite !forallb_app.
  rewrite (asArray_written _ _ _ ts asTransaction_written Et),
    (asArray_written _ _ _ ds asDebt_written Ed),
    (asArray_written _ _ _ gs asSavingsGoal_written Eg),
    (asUserSettings_written st Es).
  reflexivity.
Qed.

(** C8, as amended. For every dataset, importing what [exportData]
    wrote succeeds: [importData] returns, and stores, the object of the
    dataset with its numbers as JSON text holds them, that is with
    [null] for every [NaN] and every infinite number and [0] for
    negative zero.  That object is the object of the dataset when every
    number of the dataset is finite and not negative zero, and it reads
    as the dataset, field by field, exactly then. *)
Theorem importData_exportData_roundtrip :
  forall (data : AppData) (store : LocalStorage),
    let imported := written (AppData_value data) in
    importData (exportData data) store
    = (Some imported, saveData imported store)
    /\ (forallb plainNumber (AppData_numbers data) = true ->
        imported = AppData_value data)
    /\ (asAppData imported = Some data
        <-> forallb plainNumber (AppData_numbers data) = true)
    /\ (forall x, plainNumber x = true -> written (VNumber x) = VNumber x)
    /\ (forall x, PrimFloat.is_finite x = false ->
                  written (VNumber x) = VNull)
    /\ written (VNumber PrimFloat.neg_zero) = VNumber 0%float.
Proof.
  intros data store imported. subst imported.
  assert (Hplain : forallb plainNumber (AppData_numbers data) = true ->
                   written (AppData_value data) = AppData_value data).
  { intros H. apply written_clean. apply AppData_value_clean.
    now rewrite forallb_readsBack_plain. }
  split; [apply importData_exportData_written|].
  split; [exact Hplain|]. split; [split|].
  - apply asAppData_written.
  - intros H. rewrite (Hplain H). apply asAppData_value.
  - split; [|split; [|reflexivity]].
    + intros x Hx. apply (written_clean (VNumber x)). cbn [jsonClean].
      now rewrite readsBack_iff_plain.
    + intros x Hx. cbn [written]. unfold writtenNumber. now rewrite Hx.
Qed.

(** An instance of [importData_exportData_roundtrip]: the dataset of the
    round-trip test of the repository. *)
Lemma importData_exportData_roundtrip_witness :
  fst (importData (exportData sampleData) [])
  = Some (AppData_value sampleData)
  /\ asAppData (AppData_value sampleData) = Some sampleData.
Proof.
  destruct (importData_exportData_roundtrip sampleData [])
    as (H1 & H2 & H3 & _).
  cbv zeta in H1, H2, H3. rewrite H1. cbn [fst].
  rewrite (H2 eq_refl) in H3. rewrite (H2 eq_refl).
  split; [reflexivity|]. apply H3. reflexivity.
Defined.


End ExportImportAll.

(* ================================================================== *)
(** * The buckets on whole amounts *)
(* ================================================================== *)

Section WholeAmounts.
Import Spec.

(** The mantissa and the exponent of a whole number below [2^53]. *)
Lemma wholeNumber_spec (a : Z) :
  0 < a < 2 ^ 53 ->
  exists m : positive,
    Zpos m = a * 2 ^ (52 - Z.log2 a)
    /\ bounded prec emax m (Z.log2 a - 52) = true
    /\ Prim2SF (wholeNumber a) = S754_finite false m (Z.log2 a - 52).
Proof.
  intros Ha.
  assert (Hl : 0 <= Z.log2 a <= 52).
  { split; [apply Z.log2_nonneg|].
    assert (Z.log2 a < 53) by (apply Z.log2_lt_pow2; lia). lia. }
  assert (Hp : 0 < a * 2 ^ (52 - Z.log2 a)).
  { apply Z.mul_pos_pos; [lia|]. apply Z.pow_pos_nonneg; lia. }
  destruct (a * 2 ^ (52 - Z.log2 a)) as [|m|m] eqn:Em; try lia.
  exists m. split; [reflexivity|].
  assert (Hb : bounded prec emax m (Z.log2 a - 52) = true).
  { unfold bounded, canonical_mantissa, fexp, emin, prec, emax.
    rewrite digits2_log2, <- Em, Z.log2_mul_pow2 by lia.
    apply andb_true_iff. split; [apply Z.eqb_eq | apply Z.leb_le]; lia. }
  split; [exact Hb|].
  assert (Hm : Zpos m = a * 2 ^ (0 - (Z.log2 a - 52)))
    by (rewrite <- Em; f_equal; f_equal; lia).
  assert (He : Z.log2 a - 52 <= 0) by lia.
  unfold wholeNumber. revert Hb Hm He. generalize (Z.log2 a - 52).
  intros ea Hb Hm He. clear Em Hl Hp.
  destruct a as [|pa|pa]; try lia.
  cbn [binary_normalize].
  rewrite (binary_round_exact false m pa ea 0 Hb).
  - apply Prim2SF_SF2Prim. exact Hb.
  - right. split; [lia | exact Hm].
Qed.

Lemma wholeNumber_zero : wholeNumber 0 = 0%float.
Proof. reflexivity. Qed.

Lemma shl_align_value (m : positive) (e ez : Z) :
  ez <= e ->
  Zpos (fst (shl_align m e ez)) = Zpos m * 2 ^ (e - ez).
Proof.
  intros H. unfold shl_align.
  destruct (ez - e) as [|d|d] eqn:Ed; cbn [fst].
  - replace (e - ez) with 0 by lia. simpl. lia.
  - lia.
  - rewrite iter_xO. f_equal. f_equal. lia.
Qed.

Lemma pow2_merge (a j k : Z) :
  0 <= j -> 0 <= k -> a * 2 ^ j * 2 ^ k = a * 2 ^ (j + k).
Proof. intros Hj Hk. rewrite Z.pow_add_r by lia. ring. Qed.

(** Whole numbers add exactly while the sum stays below [2^53]. *)
Lemma add_wholeNumber (a b : Z) :
  0 <= a -> 0 <= b -> a + b < 2 ^ 53 ->
  PrimFloat.add (wholeNumber a) (wholeNumber b) = wholeNumber (a + b).
Proof.
  intros Ha Hb Hab. apply Prim2SF_inj. rewrite add_spec.
  destruct (Z.eq_dec a 0) as [-> | Ha0].
  { rewrite wholeNumber_zero, Prim2SF_zero. cbn [Z.add].
    destruct (Z.eq_dec b 0) as [-> | Hb0]; [reflexivity|].
    destruct (wholeNumber_spec b) as (m & _ & _ & ->); [lia|]. reflexivity. }
  destruct (Z.eq_dec b 0) as [-> | Hb0].
  { rewrite wholeNumber_zero, Prim2SF_zero, Z.add_0_r.
    destruct (wholeNumber_spec a) as (m & _ & _ & ->); [lia|]. reflexivity. }
  destruct (wholeNumber_spec a) as (ma & Hma & _ & ->); [lia|].
  destruct (wholeNumber_spec b) as (mb & Hmb & _ & ->); [lia|].
  destruct (wholeNumber_spec (a + b)) as (mc & Hmc & Hbc & ->); [lia|].
  assert (Hla : 0 <= Z.log2 a <= Z.log2 (a + b))
    by (split; [apply Z.log2_nonneg | apply Z.log2_le_mono; lia]).
  assert (Hlb : 0 <= Z.log2 b <= Z.log2 (a + b))
    by (split; [apply Z.log2_nonneg | apply Z.log2_le_mono; lia]).
  assert (Hlc : Z.log2 (a + b) <= 52).
  { assert (Z.log2 (a + b) < 53) by (apply Z.log2_lt_pow2; lia). lia. }
  unfold SF64add, SFadd. cbn [cond_Zopp].
  set (ea := Z.log2 a - 52). set (eb := Z.log2 b - 52).
  set (ec := Z.log2 (a + b) - 52). set (ez := Z.min ea eb).
  fold ea in Hma. fold eb in Hmb. fold ec in Hmc, Hbc.
  assert (Hez : ez <= ea /\ ez <= eb /\ ez <= ec /\ ec <= 0)
    by (unfold ez, ea, eb, ec; lia).
  rewrite !shl_align_value by lia.
  apply binary_normalize_exact; [exact Hbc | lia |].
  rewrite Hma, Hmb, Hmc.
  replace (52 - Z.log2 a) with (- ea) by (unfold ea; lia).
  replace (52 - Z.log2 b) with (- eb) by (unfold eb; lia).
  replace (52 - Z.log2 (a + b)) with (- ec) by (unfold ec; lia).
  rewrite !pow2_merge by lia.
  replace (- ea + (ea - ez)) with (- ez) by lia.
  replace (- eb + (eb - ez)) with (- ez) by lia.
  replace (- ec + (ec - ez)) with (- ez) by lia.
  ring.
Qed.

Lemma wholeNumber_wholePart (x : number) :
  isWhole x = true -> x = wholeNumber (wholePart x) /\ 0 <= wholePart x.
Proof.
  unfold isWhole. intros H. apply FloatAxioms.Leibniz.eqb_spec in H.
  split; [now symmetry|]. unfold wholePart.
  destruct (Prim2SF x) as [s|s| |[] m e]; try lia.
  destruct (0 <=? e) eqn:E.
  - apply Z.mul_nonneg_nonneg; [lia|]. apply Z.pow_nonneg. lia.
  - apply Z.leb_gt in E.
    apply Z.div_pos; [lia|]. apply Z.pow_pos_nonneg; lia.
Qed.

End WholeAmounts.

Section BucketsOnDoubles.
Import Currency Data Advisor Spec.

Lemma sumZ_nonneg (l : list Z) : Forall (fun z => 0 <= z) l -> 0 <= sumZ l.
Proof. induction 1; simpl; lia. Qed.

(** Whole numbers are added up exactly, left to right, while the sum
    stays below [2^53]. *)
Lemma fold_add_whole (xs : list number) :
  forallb isWhole xs = true ->
  forall acc : Z,
    0 <= acc -> acc + sumZ (map wholePart xs) < 2 ^ 53 ->
    fold_left PrimFloat.add xs (wholeNumber acc)
    = wholeNumber (acc + sumZ (map wholePart xs))
    /\ 0 <= sumZ (map wholePart xs).
Proof.
  induction xs as [|x r IH]; intros Hw acc Hacc Hsum.
  - simpl. rewrite Z.add_0_r. split; [reflexivity | lia].
  - cbn [forallb] in Hw. apply andb_true_iff in Hw as [Hx Hr].
    destruct (wholeNumber_wholePart x Hx) as [Ex Hx0].
    cbn [map sumZ fold_right] in *. fold (sumZ (map wholePart r)) in *.
    assert (Hr0 : 0 <= sumZ (map wholePart r)).
    { apply sumZ_nonneg. apply Forall_forall. intros z Hz.
      apply in_map_iff in Hz as (y & <- & Hy).
      rewrite forallb_forall in Hr.
      now destruct (wholeNumber_wholePart y (Hr y Hy)). }
    cbn [fold_left]. rewrite Ex at 1.
    rewrite add_wholeNumber by lia.
    destruct (IH Hr (acc + wholePart x)) as [-> _]; [lia | lia |].
    split; [f_equal; lia | lia].
Qed.

Lemma sumList_whole (xs : list number) :
  forallb isWhole xs = true ->
  sumZ (map wholePart xs) < 2 ^ 53 ->
  sumList ieee xs = wholeNumber (sumZ (map wholePart xs))
  /\ 0 <= sumZ (map wholePart xs).
Proof.
  intros Hw Hs. unfold sumList. cbn [add zero ieee].
  change 0%float with (wholeNumber 0).
  destruct (fold_add_whole xs Hw 0) as [H H0]; [lia | lia |].
  split; [exact H | exact H0].
Qed.

Lemma filter_filter_implied {A} (f g : A -> bool) (l : list A) :
  (forall a, f a = true -> g a = true) ->
  filter f l = filter f (filter g l).
Proof.
  intros H. induction l as [|a r IH]; [reflexivity|]. cbn [filter].
  destruct (f a) eqn:Ef.
  - rewrite (H a Ef). cbn [filter]. now rewrite Ef, IH.
  - destruct (g a); [cbn [filter]; now rewrite Ef|exact IH].
Qed.

Lemma filter_bucket_expense {num} (bk : Bucket) (l : list (Transaction num)) :
  filter (inBucket bk) l = filter (inBucket bk) (filter isExpense l).
Proof.
  apply filter_filter_implied. intros t H. unfold inBucket in H.
  now apply andb_true_iff in H as [H _].
Qed.

(** The buckets part the whole amounts of the expenses. *)
Lemma buckets_part (z : Transaction number -> Z)
  (l : list (Transaction number)) :
  Forall (fun t => 0 <= z t) l ->
  forallb isExpense l = true ->
  let s bk := sumZ (map z (filter (inBucket bk) l)) in
  s ToNeeds + s ToWants + s ToDebt = sumZ (map z l)
  /\ 0 <= s ToNeeds /\ 0 <= s ToWants /\ 0 <= s ToDebt.
Proof.
  induction 1 as [|t r Ht _ IH]; intros He; cbv zeta.
  - simpl. lia.
  - cbn [forallb] in He. apply andb_true_iff in He as [Et Er].
    specialize (IH Er). cbv zeta in IH.
    assert (Hin : forall bk,
              inBucket bk t = Bucket_eqb (bucketOf (category t)) bk)
      by (intros bk; unfold inBucket; now rewrite Et).
    cbn [filter]. rewrite !Hin. unfold sumZ in *.
    destruct (bucketOf (category t)); cbn [Bucket_eqb map fold_right]; lia.
Qed.

Lemma buckets_exact_on_whole (dateFields : DateFields)
  (txs : list (Transaction number)) (month year : Z)
  (primary : Types.Currency) (fallback : number) :
  let expenses :=
    filter isExpense (filter (inMonth dateFields month year) txs) in
  let amounts := map (convertedAmount ieee primary fallback) expenses in
  forallb isWhole amounts = true ->
  sumZ (map wholePart amounts) < 2 ^ 53 ->
  let b := getMonthlyBreakdown ieee dateFields txs month year primary
             fallback in
  PrimFloat.add (PrimFloat.add (needs b) (wants b)) (debtPayments b)
  = totalExpenses b.
Proof.
  intros expenses amounts Hw Hs b.
  destruct (getMonthlyBreakdown_sums ieee dateFields txs month year primary
              fallback) as (_ & He & Hn & Hwt & Hd).
  fold b in He, Hn, Hwt, Hd. cbv zeta in He, Hn, Hwt, Hd.
  rewrite (filter_bucket_expense ToNeeds) in Hn.
  rewrite (filter_bucket_expense ToWants) in Hwt.
  rewrite (filter_bucket_expense ToDebt) in Hd.
  fold expenses in He, Hn, Hwt, Hd.
  set (conv := convertedAmount ieee primary fallback) in *.
  set (z := fun t => wholePart (conv t)).
  assert (Hwhole : forallb (fun t => isWhole (conv t)) expenses = true).
  { unfold amounts in Hw. clear -Hw. apply forallb_forall. intros t Ht.
    rewrite forallb_forall in Hw. apply Hw. now apply in_map. }
  assert (Hz : Forall (fun t => 0 <= z t) expenses).
  { apply Forall_forall. intros t Ht. rewrite forallb_forall in Hwhole.
    now destruct (wholeNumber_wholePart _ (Hwhole t Ht)). }
  assert (Hexp : forallb isExpense expenses = true).
  { apply forallb_forall. intros t Ht. unfold expenses in Ht.
    now apply filter_In in Ht as [_ Ht]. }
  destruct (buckets_part z expenses Hz Hexp) as (Hpart & Hn0 & Hw0 & Hd0).
  assert (Hmap : forall l, map wholePart (map conv l) = map z l)
    by (intros l; now rewrite map_map).
  assert (Hsub : forall bk,
            forallb isWhole (map conv (filter (inBucket bk) expenses)) = true).
  { intros bk. apply forallb_forall. intros x Hx.
    apply in_map_iff in Hx as (t & <- & Ht).
    apply filter_In in Ht as [Ht _]. rewrite forallb_forall in Hwhole.
    now apply Hwhole. }
  unfold amounts in Hs. rewrite Hmap in Hs.
  destruct (sumList_whole (map conv expenses)) as [Se _];
    [exact Hw | now rewrite Hmap |].
  destruct (sumList_whole _ (Hsub ToNeeds)) as [Sn _];
    [rewrite Hmap; lia|].
  destruct (sumList_whole _ (Hsub ToWants)) as [Sw _];
    [rewrite Hmap; lia|].
  destruct (sumList_whole _ (Hsub ToDebt)) as [Sd _];
    [rewrite Hmap; lia|].
  rewrite Hmap in Se, Sn, Sw, Sd.
  rewrite He, Hn, Hwt, Hd, Se, Sn, Sw, Sd.
  rewrite !add_wholeNumber by lia. now rewrite Hpart.
Qed.

(** C2, as amended. Every expense of the window is added to
    [totalExpenses] and to exactly one of [needs], [wants] and
    [debtPayments] (a category outside the needs set and other than debt
    payment, [Other] included, goes to wants): each of the four fields is
    the left-to-right sum of the converted amounts of its transactions.
    The three buckets add up to [totalExpenses] on doubles whenever the
    converted amounts of the expenses of the month are whole numbers,
    zero or positive, whose total is below [2^53], every addition being
    exact then; and they do in any arithmetic whose addition is
    associative and commutative with zero as its left unit, as over the
    rationals. *)
Theorem buckets_decompose_expenses :
  forall (dateFields : DateFields) (month year : Z)
         (primary : Types.Currency),
    (forall (num : Type) (A : Arith num) (txs : list (Transaction num))
            (fallback : num),
       let b := getMonthlyBreakdown A dateFields txs month year primary
                  fallback in
       let window := filter (inMonth dateFields month year) txs in
       let conv := convertedAmount A primary fallback in
       totalExpenses b = sumList A (map conv (filter isExpense window))
       /\ needs b = sumList A (map conv (filter (inBucket ToNeeds) window))
       /\ wants b = sumList A (map conv (filter (inBucket ToWants) window))
       /\ debtPayments b
          = sumList A (map conv (filter (inBucket ToDebt) window))
       /\ ((forall x y z, add A (add A x y) z = add A x (add A y z)) ->
           (forall x y, add A x y = add A y x) ->
           (forall x, add A (zero A) x = x) ->
           add A (add A (needs b) (wants b)) (debtPayments b)
           = totalExpenses b))
    /\ (forall (num : Type) (t : Transaction num),
          isExpense t = true ->
          exists bk, inBucket bk t = true
                     /\ forall bk', inBucket bk' t = true -> bk' = bk)
    /\ (forall c, bucketOf c = ToWants <->
                  (has NEEDS c = false /\ c <> DebtPayment))
    /\ bucketOf Other = ToWants
    /\ (forall (txs : list (Transaction number)) (fallback : number),
          let b := getMonthlyBreakdown ieee dateFields txs month year
                     primary fallback in
          let expenses :=
            filter isExpense (filter (inMonth dateFields month year) txs) in
          let amounts :=
            map (convertedAmount ieee primary fallback) expenses in
          forallb isWhole amounts = true ->
          sumZ (map wholePart amounts) < 2 ^ 53 ->
          PrimFloat.add (PrimFloat.add (needs b) (wants b)) (debtPayments b)
          = totalExpenses b).
Proof.
  intros dateFields month year primary.
  split; [|split; [|split; [|split; [reflexivity|]]]].
  - intros num A txs fallback b window conv.
    destruct (getMonthlyBreakdown_sums A dateFields txs month year primary
                fallback) as (_ & He & Hn & Hw & Hd).
    repeat (split; [assumption|]).
    intros Hassoc Hcomm Hzero. subst b. unfold getMonthlyBreakdown. simpl.
    apply (getMonthlyBreakdown_loop_invariant A Hassoc Hcomm primary
             fallback).
    simpl. now rewrite !Hzero.
  - intros num t Ht. exists (bucketOf (category t)). unfold inBucket.
    rewrite Ht. split; [now destruct (bucketOf (category t))|].
    intros bk' H. now destruct (bucketOf (category t)), bk'.
  - intros c. split.
    + intros H. split; destruct c; try reflexivity; discriminate.
    + intros [Hn' Hd']. destruct c; try reflexivity; try discriminate.
      now destruct Hd'.
  - intros txs fallback b expenses amounts Hw Hs.
    now apply buckets_exact_on_whole.
Qed.

(** An instance of [buckets_decompose_expenses] on doubles, three whole
    January expenses in the three buckets, and one over the rationals,
    the three expenses for which the doubles disagree. *)
Lemma buckets_decompose_expenses_witness :
  (let b := getMonthlyBreakdown ieee utcDateFields
              [january15 expense 1200%float USD Housing None;
               january15 expense 85%float USD Entertainment None;
               january15 expense 300%float USD DebtPayment None;
               january15 expense 45%float USD Food None]
              0%Z 2025%Z USD 4.05%float in
   PrimFloat.add (PrimFloat.add (needs b) (wants b)) (debtPayments b)
   = totalExpenses b)
  /\ (let b := getMonthlyBreakdown exact utcDateFields
                 [january15 expense (Q2Qc 10) USD Food None;
                  january15 expense (Q2Qc (999 # 100)) USD Entertainment None;
                  january15 expense (Q2Qc (218 # 10)) USD Food None]
                 0%Z 2025%Z USD (Q2Qc (405 # 100)) in
      add exact (add exact (needs b) (wants b)) (debtPayments b)
      = totalExpenses b).
Proof.
  destruct (buckets_decompose_expenses utcDateFields 0%Z 2025%Z USD)
    as (Hany & _ & _ & _ & Hwhole).
  split.
  - cbv zeta. apply Hwhole; vm_compute; reflexivity.
  - cbv zeta.
    destruct (Hany Qc exact
                [january15 expense (Q2Qc 10) USD Food None;
                 january15 expense (Q2Qc (999 # 100)) USD Entertainment None;
                 january15 expense (Q2Qc (218 # 10)) USD Food None]
                (Q2Qc (405 # 100))) as (_ & _ & _ & _ & H).
    apply H.
    + intros x y z. symmetry. apply Qcplus_assoc.
    + apply Qcplus_comm.
    + apply Qcplus_0_l.
Defined.

End BucketsOnDoubles.
